(* ===== verification/_CoqProject ===== *)
-Q . S2P
Prelude.v
Float64.v
StdMap.v
Identity.v
Reader.v
Kinds.v
Entry.v
Codec.v
Crc.v
CodecProofs.v
Authority.v
Ledger.v
Account.v
AccountProofs.v
Pricing.v
Batch.v
Query.v
Persistence.v
PersistenceProofs.v
Protocol.v
ProtocolProofs.v
Coordinator.v
CoordinatorProofs.v
Text.v
Nearest.v
Sockets.v
Worker.v
WorkerProofs.v
Intake.v
Service.v
Serial.v
Driver.v
Multiprocess.v
Cli.v
CliProofs.v
Benchmark.v
Cuda.v
CudaKernels.v
CudaMemory.v
CudaProofs.v
Examples.v
