(* ===== verification/Prelude.v ===== *)
(** * Inference Ledger: a verification development

    Inference Ledger is a C++ library that records what an inference request used
    (time, bytes, tokens, energy) as immutable ledger entries, reconstructs each
    request's account from them, prices the account, stores the ledger on disk and,
    in a coordinator process, accepts entries from workers under an authority that
    fences stale senders. This development models the library (headers under
    src/include/inference-ledger, bodies under src/src) and the programs built on it
    (src/tools, src/cuda, src/examples, src/downstream) as executable definitions and
    proves what makes them correct.

    ** How the parts interact

    Workers send framed messages (protocol) that carry encoded entries (codec). The
    coordinator queues them; its accounting thread judges each by the authority
    state, appends it to the ledger and acknowledges it; when a worker is lost it
    rolls the open requests, advances the epoch and tells the survivors. A snapshot
    of the ledger is a list of entries: persistence writes and reads it, queries
    filter and group it, reconciliation folds the entries of one request into an
    account, batches combine accounts and pricing bills them. The programs wrap these:
    a coordinator process, a worker process that submits a script, a driver that
    starts both and kills a worker, a command-line tool over stored ledgers, a
    benchmark, a CUDA program that records its own kernels, a tour of the library and
    a downstream client.

    ** Files

    Shared ground:
    - [Prelude]: fixed-width words ([wrap], in [Z]), bytes, record update notation,
      list and arithmetic lemmas, the hint databases and tactics.
    - [Float64]: the C++ [double] as correctly rounded binary64 arithmetic
      ([spec_float]), [llround], [floor], [max] and the bits of a double.
    - [StdMap]: [std::map] as a key-sorted association list over the [KeyOrder]
      interface, with grouping.

    Data and codec:
    - [Identity]: config.hpp and identity.hpp ([Id128], [Generation]).
    - [Kinds]: unit.hpp, provenance.hpp, event_kind.hpp, resource.hpp.
    - [Entry]: authority.hpp, ledger_entry.hpp and ledger_entry.cpp: the entry, the
      code's [operator==] ([entry_eqb]) and [derive_entry_id].
    - [Reader]: [ByteWriter] and [ByteReader] of codec.hpp, a reader being a state
      with position and failure flag; the [WireFormat] interface says that a type
      round-trips through bytes.
    - [Codec]: crc32, [encode_entry], [decode_entry] of codec.cpp. [Crc] proves that
      the bitwise CRC-32 detects bursts of up to 32 bits; [CodecProofs] proves the
      codec's theorems.

    Ledger and coordination:
    - [Authority]: authority_state.hpp, [validate_authority].
    - [Ledger]: ledger.hpp. The state is the deque, the identity index and the
      ledger's identity; [append] takes the attached authority as an argument.
    - [Protocol], [ProtocolProofs]: protocol.hpp and protocol.cpp. The network a
      receiver reads from is a list of arrivals that [recv] may cut anywhere; what a
      [send] call takes is the [SendPlatform] interface.
    - [Coordinator], [CoordinatorProofs]: coordinator.hpp and coordinator.cpp. The
      state holds the ledger, the authority, the open requests, the connections, the
      work queue, where the accounting thread is, and the messages sent; [perform]
      is one step of one thread, cut at the lock boundaries, and [reachable] closes
      over every interleaving. Acceptor and readers test the running flag before they
      block, so that a thread past its test still takes what arrives after [stop].

    Derived views:
    - [Account], [AccountProofs]: request_account.hpp and request_account.cpp.
      [reconcile_request] is the composition of the source's phases: the event
      switch ([attempt_event], [totals_event]), the winner, outcome, waste, totals,
      provenance and reconciliation phases.
    - [Pricing], [Batch], [Query]: the files of those names.
    - [Persistence], [PersistenceProofs]: persistence.hpp and persistence.cpp over a
      map from paths to bytes; whether a file opens, how much of a write reaches it
      and whether a flush succeeds is the [FileIO] interface.

    Programs:
    - [Text]: numbers as text: [std::to_string], stream output, [std::stoi] and
      [std::stod] with their exceptions, and unit.cpp. [Nearest] proves that reading a
      decimal yields the nearest double.
    - [Sockets]: the part of protocol.cpp that opens, adopts and closes sockets; what
      the operating system answers is the [SocketPlatform] interface with its
      [SocketLaws].
    - [Worker], [WorkerProofs]: tools/iledger_worker.cpp, a function of the script
      files and of what arrives on its connection.
    - [Intake]: whatever bytes arrive, a message [recv_message] accepts carries an
      entry that can be encoded and saved again.
    - [Service]: tools/iledger_coordinator.cpp, the steps of its [main] interleaved
      with the coordinator's threads.
    - [Serial]: the coordinator as an atomic machine, one indivisible handler per
      queued item, and the proof that the threads refine it.
    - [Driver], [Multiprocess]: tools/iledger_multiprocess.cpp, first the helpers over
      child processes, then the scenario.
    - [Cli], [CliProofs]: tools/iledger_cli.cpp; what a launched program prints, the
      files it leaves and the code it returns is the [SystemPlatform] interface.
    - [Benchmark]: tools/iledger_benchmark.cpp with the entry builder of
      tests/support.hpp.
    - [Cuda]: cuda/inference_cuda_proof.cu: the kernels as threads over device buffers,
      and the host program in a monad of its own ([Gpu]) that can stop the program;
      what the runtime answers is [CudaPlatform] with its [CudaLaws]. [CudaKernels]
      proves the kernels, [CudaMemory] the use of device memory in a small program
      logic ([wp]), [CudaProofs] whole runs.
    - [Examples]: examples/examples.cpp and downstream/consumer.cpp.

    ** What the theorems show

    - Coordinator: an invariant of every reachable interleaving (well-formed ledger,
      open requests exactly as the ledger says, epoch and accounting generation in
      step); fencing of stale epochs and of rolled requests; records stored in epoch
      order; the handling of one event refines the abstract ledger and sends one
      acknowledgement; the complete effect of a worker loss; registration makes a
      start acceptable; the queue drains, every item handled once and in order.
    - Ledger: the abstract specification is a finite map from identities to records
      ([abstract], [abstract_append]); [append] refines it on every branch, keeps the
      representation invariant, is idempotent, append-only, and its result does not
      depend on the interleaving of callers.
    - Codec and protocol: round trips for entries and for message streams under any
      fragmentation; truncation and bursts of corruption are rejected; what is
      accepted is well formed; loops end.
    - Persistence: save and load, append and load, and full recovery of a ledger are
      round trips; a file cut inside a frame does not load and one cut between frames
      loads as the entries before the cut; loading any bytes ends with a result inside
      the file.
    - Accounts: every total is the sum over exactly the entries of its kinds, only
      the last successful attempt is credited, waste is the failed and cancelled work of
      the others and all rejected speculation, the
      outcome is one of three, peaks are attained maxima, nothing is negative, and
      the counters do not depend on the order of the entries.
    - Pricing, batches, queries: what is billed to what, shares and overhead, exact
      results of filters, groups and aggregates.

    - Concurrency: every interleaving of the coordinator's threads ends in the state
      and the replies of handling the queued items one at a time, and a worker cannot
      tell what others do to other requests under other identities.
    - Processes: the worker's loops end and only a worker told to hold runs on; it is
      stop-and-wait, prints a line for each message received and submits its script; the
      coordinator process saves what it accepted; in the two-worker scenario every
      stale replay is refused under every interleaving, and the driver's own checks
      pass end to end; no socket or process handle leaks but for a second listen on one
      server and one path of the driver.
    - Tools: the command-line tool itself writes nothing but snapshots, a snapshot
      answers every query as its original, and every way the tool can end is listed; the
      benchmark does the work it times, stage by stage; a printed number reads back as
      the double nearest to its six digits.
    - CUDA: device memory is balanced on every path, failing calls included; when the
      runtime works, the kernels compute what the host reference computes whatever the
      order of their threads, the ledger holds exactly the entries of the three
      requests, and the program's own checks pass. The tour prints the expected lines,
      and the downstream client fails only when its file cannot be written
      ([examples_output], [consumer_outcome]).

    A few theorems state where the code departs from its comments or misbehaves:
    [decode_entry_length_wraps] and [recv_event_out_of_bounds] (a length that wraps
    in 32 bits), [stale_start_takes_over], [enqueue_event_null],
    [lost_before_registration], [cpu_time_billed_twice],
    [allocate_shared_loses_total], [append_truncates_foreign],
    [query_ignores_pricing_policy], [reconcile_reused_zero], [acked_not_saved],
    [currency_line_throws], [cost_bad_id], [attempt_unknown], [recover_ok],
    [decode_partial_sum]; [cuda_proof_passes] shows the decode time counted twice,
    [validate_authority_accepts] that the dispatch identity fences nothing,
    [load_truncated] that a cut between frames is not detected, [reconcile_batch_spec]
    that an entry naming no batch is in every batch, [reconcile_waste] that an attempt
    that failed and was cancelled is wasted twice, and [sockets_owned] that a second
    listen leaks.

    ** Bounds and fuel

    Words are [Z] reduced by [wrap] where the code computes at a width. The loops
    that are not structural take fuel and are started with enough: the decoder's
    metadata loop with one more than the bytes left ([read_metadata_fuel]), the
    loader with the length of the file ([load_total]), reads and writes with the
    bytes requested ([send_recv_messages], [send_message_writes]), the worker's loops
    with two more than the bytes that can still arrive ([worker_main_ends]), line
    splitting with the length of the text, and counting the digits of a number with
    its bits. [encode_entry]
    drops the high bits of a payload length of 4 GiB or more, as the code does;
    [fits_frame] excludes that case where a theorem needs it. Epoch theorems assume
    fewer than 2^64 epoch changes, after which the counter wraps.

    ** Not modelled

    The tests (src/tests, but for the entry builder the benchmark uses), which run the
    code modelled here on samples. One-line accessors and declarations, and the hash
    functor, which only feeds an unordered map that is a finite map here. Times: clocks
    are parameters, sleeps and timeouts are not modelled. What the operating system and
    the CUDA runtime do (sockets, files, processes, pipes, device calls) is an interface
    whose answers are arbitrary within the named laws; a kernel runs whole threads in
    any order, which its disjoint writes allow. Memory exhaustion is not modelled,
    nor a read error in the middle of a file, nor the overflow of the worker's [int]
    frame counter. The
    unsynchronised reads of a connection's [registered] flag by its reader are
    sequentially consistent here. *)

From Stdlib Require Import Strings.Byte.
From stdpp Require Import base list strings numbers.
Open Scope Z_scope.

(** ** Fixed-width integers

    A C++ unsigned integer of width [w] is a [Z]; [wrap w] is the conversion
    [static_cast<uintw_t>] and the reduction every unsigned operation ends with. *)

Definition wrap (w z : Z) : Z := z mod 2 ^ w.

Definition in_width (w z : Z) : Prop := 0 <= z < 2 ^ w.

#[export] Instance in_width_dec w z : Decision (in_width w z).
Proof. unfold in_width. apply _. Defined.

Declare Scope width_scope.
Delimit Scope width_scope with width.
Abbreviation u8 := (wrap 8).
Abbreviation u32 := (wrap 32).
Abbreviation u64 := (wrap 64).
Notation "x '+64' y" := (wrap 64 (x + y)) (at level 50, left associativity) : width_scope.
Notation "x '*64' y" := (wrap 64 (x * y)) (at level 40, left associativity) : width_scope.
Notation "x '<<64' n" := (wrap 64 (Z.shiftl x n)) (at level 34, left associativity) : width_scope.

(** ** Bytes *)

(** The value of a [uint8_t]. *)
Definition byte_to_Z (b : byte) : Z := Z.of_N (Byte.to_N b).

(** [static_cast<uint8_t>(z)]. *)
Definition byte_of_Z (z : Z) : byte :=
  match Byte.of_N (Z.to_N (wrap 8 z)) with
  | Some b => b
  | None => x00
  end.

(** Four bytes, most significant first, as the shift-and-or expression that
    reads a [uint32_t] in codec.hpp, codec.cpp, persistence.cpp and protocol.cpp. *)
Definition be32 (a b c d : byte) : Z :=
  Z.lor (Z.lor (Z.lor (Z.shiftl (byte_to_Z a) 24) (Z.shiftl (byte_to_Z b) 16))
               (Z.shiftl (byte_to_Z c) 8))
        (byte_to_Z d).

(** The four bytes of a [uint32_t], most significant first. *)
Definition bytes32 (v : Z) : list byte :=
  [byte_of_Z (Z.shiftr v 24); byte_of_Z (Z.shiftr v 16);
   byte_of_Z (Z.shiftr v 8); byte_of_Z v].

(** The eight bytes of a [uint64_t], most significant first. *)
Definition bytes64 (v : Z) : list byte :=
  [byte_of_Z (Z.shiftr v 56); byte_of_Z (Z.shiftr v 48);
   byte_of_Z (Z.shiftr v 40); byte_of_Z (Z.shiftr v 32);
   byte_of_Z (Z.shiftr v 24); byte_of_Z (Z.shiftr v 16);
   byte_of_Z (Z.shiftr v 8); byte_of_Z v].

(** Eight bytes, most significant first, as a [uint64_t]. *)
Definition be64 (a b c d e f g h : byte) : Z :=
  Z.lor (Z.lor (Z.lor (Z.lor (Z.lor (Z.lor (Z.lor
    (Z.shiftl (byte_to_Z a) 56) (Z.shiftl (byte_to_Z b) 48))
    (Z.shiftl (byte_to_Z c) 40)) (Z.shiftl (byte_to_Z d) 32))
    (Z.shiftl (byte_to_Z e) 24)) (Z.shiftl (byte_to_Z f) 16))
    (Z.shiftl (byte_to_Z g) 8)) (byte_to_Z h).

(** The sum of a list of integers. *)
Definition zsum (l : list Z) : Z := foldr Z.add 0 l.

(** ** Field update on records

    [r <| f := v |>] is [r] with the field [f] set to [v]. A record type opts in
    by an instance of [Rebuild], its constructor applied to its own projections;
    [FieldUpdate] then finds the position of a projection in that term. *)

Class Rebuild (R : Type) := rebuild : R -> R.

Class FieldUpdate {R A : Type} (proj : R -> A) := update : (A -> A) -> R -> R.
Arguments update {_ _} _ {_} _ _.

Ltac solve_field_update :=
  lazymatch goal with
  | |- @FieldUpdate ?R ?A ?proj =>
      let inst := constr:(_ : Rebuild R) in
      let inst := eval hnf in inst in
      let abstracted := eval pattern proj in inst in
      lazymatch abstracted with
      | ?ctx _ => exact (fun f r => ctx (fun r' => f (proj r')) r)
      end
  end.

#[export] Hint Extern 1 (FieldUpdate _) => solve_field_update : typeclass_instances.

Declare Scope record_scope.
Open Scope record_scope.
Notation "r <| f ::= g |>" := (update f g r)
  (at level 1, left associativity, f at level 0, g at level 200) : record_scope.
Notation "r <| f := v |>" := (update f (fun _ => v) r)
  (at level 1, left associativity, f at level 0, v at level 200) : record_scope.

(** ** Tactics *)

(** Turn shifts by literals into divisions and multiplications, for [lia]. *)
Ltac shifts :=
  rewrite ?Z.shiftr_div_pow2 in * by lia; rewrite ?Z.shiftl_mul_pow2 in * by lia.

(** Evaluate the powers of two with a literal exponent. *)
Ltac pow2_literals :=
  repeat match goal with
  | |- context [2 ^ Zpos ?n] =>
      let v := eval vm_compute in (2 ^ Zpos n) in change (2 ^ Zpos n) with v in *
  | _ : context [2 ^ Zpos ?n] |- _ =>
      let v := eval vm_compute in (2 ^ Zpos n) in change (2 ^ Zpos n) with v in *
  end.

(** Linear arithmetic with quotients and remainders by literals. *)
Ltac divlia := pow2_literals; Z.div_mod_to_equations; lia.

(** Case analysis on every boolean test and match of the goal. *)
Ltac split_cases :=
  repeat (match goal with
          | |- context [match ?x with _ => _ end] => destruct x eqn:?
          end; simplify_eq/=; try done).

(** ** Lemmas on widths and bytes *)

Create HintDb width.

Lemma wrap_in_width w z : 0 <= w -> in_width w (wrap w z).
Proof. intros Hw. apply Z.mod_pos_bound, Z.pow_pos_nonneg; lia. Qed.

Lemma wrap_small w z : in_width w z -> wrap w z = z.
Proof. apply Z.mod_small. Qed.

Lemma wrap_wrap w z : 0 <= w -> wrap w (wrap w z) = wrap w z.
Proof. intros. by apply wrap_small, wrap_in_width. Qed.

Lemma wrap_add_l w a b : wrap w (wrap w a + b) = wrap w (a + b).
Proof. apply Zplus_mod_idemp_l. Qed.

#[export] Hint Resolve wrap_in_width : width.
#[export] Hint Extern 5 (in_width _ _) => (unfold in_width in *; lia) : width.

(** ** Loops

    A loop whose step changes one component of the state only for the elements
    that satisfy [P] computes that component from those elements alone. *)

Lemma fold_left_proj {S E A} (step : S -> E -> S) (proj : S -> A)
    (P : E -> Prop) `{!forall e, Decision (P e)} (f : A -> E -> A) :
  (forall s e, proj (step s e) = if decide (P e) then f (proj s) e else proj s) ->
  forall es s, proj (fold_left step es s) = fold_left f (filter P es) (proj s).
Proof.
  intros Hstep es. induction es as [|e es IH]; intros s; [done|].
  simpl fold_left. rewrite IH, Hstep, filter_cons. by destruct (decide (P e)).
Qed.

(** A [uint64_t] accumulator holds the sum modulo [2^64]. *)
Lemma fold_left_wrap {E} (g : E -> Z) es s :
  in_width 64 s -> fold_left (fun x e => wrap 64 (x + g e)) es s = wrap 64 (s + zsum (g <$> es)).
Proof.
  revert s. induction es as [|e es IH]; intros s Hs; simpl.
  - by rewrite Z.add_0_r, wrap_small.
  - rewrite IH by auto with width lia. rewrite wrap_add_l, Z.add_assoc. done.
Qed.

Lemma zsum_Permutation l k : l ≡ₚ k -> zsum l = zsum k.
Proof. unfold zsum. induction 1; simpl; lia. Qed.

(** A flag that is set by some element. *)
Lemma fold_left_const {E A} (v : A) (es : list E) s :
  fold_left (fun _ _ => v) es s = match es with [] => s | _ => v end.
Proof. revert s. induction es as [|e [|e' es] IH]; intros s; [done..|]. apply IH. Qed.

Lemma byte_to_Z_range b : 0 <= byte_to_Z b < 256.
Proof.
  unfold byte_to_Z. pose proof (Byte.to_N_bounded b). lia.
Qed.

Lemma byte_to_Z_of_Z z : byte_to_Z (byte_of_Z z) = z mod 256.
Proof.
  unfold byte_to_Z, byte_of_Z, wrap. change (2 ^ 8) with 256.
  pose proof (Z.mod_pos_bound z 256 ltac:(lia)) as Hz.
  destruct (Byte.of_N (Z.to_N (z mod 256))) as [b|] eqn:E.
  - apply Byte.to_of_N in E. rewrite E. lia.
  - apply Byte.of_N_None_iff in E. lia.
Qed.

Lemma byte_to_Z_inj a b : byte_to_Z a = byte_to_Z b -> a = b.
Proof.
  unfold byte_to_Z. intros H%N2Z.inj.
  pose proof (Byte.of_to_N a) as Ha. pose proof (Byte.of_to_N b) as Hb. congruence.
Qed.

Lemma byte_of_to_Z b : byte_of_Z (byte_to_Z b) = b.
Proof.
  apply byte_to_Z_inj. rewrite byte_to_Z_of_Z.
  apply Z.mod_small, byte_to_Z_range.
Qed.

Lemma byte_of_Z_eq a b : a mod 256 = b mod 256 -> byte_of_Z a = byte_of_Z b.
Proof. intros H. unfold byte_of_Z, wrap. change (2 ^ 8) with 256. by rewrite H. Qed.

Lemma byte_of_Z_is z b : z mod 256 = byte_to_Z b -> byte_of_Z z = b.
Proof. intros H. apply byte_to_Z_inj. by rewrite byte_to_Z_of_Z. Qed.

Lemma cons_eq_f {A} (x y : A) l k : x = y -> l = k -> x :: l = y :: k.
Proof. congruence. Qed.

(** An or of disjoint bit ranges is a sum. *)
Lemma lor_disjoint_add n x y :
  0 <= n -> 0 <= y < 2 ^ n -> x mod 2 ^ n = 0 -> Z.lor x y = x + y.
Proof.
  intros Hn Hy Hx.
  assert (Z.land x y = 0) as Hland.
  { apply Z.bits_inj'. intros i Hi. rewrite Z.land_spec, Z.bits_0.
    destruct (Z.lt_ge_cases i n).
    - rewrite <- (Z.mod_pow2_bits_low x n i) by lia. by rewrite Hx, Z.bits_0.
    - destruct (Z.eq_dec y 0) as [->|]; [by rewrite Z.bits_0, andb_false_r|].
      rewrite (Z.bits_above_log2 y i), andb_false_r; [done|lia|].
      apply Z.log2_lt_pow2; [lia|]. apply Z.lt_le_trans with (2 ^ n); [lia|].
      apply Z.pow_le_mono_r; lia. }
  pose proof (Z.add_lor_land x y). lia.
Qed.

Lemma lor_shiftl_add n x y :
  0 <= n -> 0 <= y < 2 ^ n -> Z.lor (Z.shiftl x n) y = x * 2 ^ n + y.
Proof.
  intros. rewrite Z.shiftl_mul_pow2 by lia.
  apply (lor_disjoint_add n); [lia..|]. by rewrite Z_mod_mult.
Qed.

(** Pose the range of every byte in sight. *)
Ltac byte_ranges :=
  repeat match goal with
  | |- context [byte_to_Z ?b] =>
      lazymatch goal with
      | _ : 0 <= byte_to_Z b < 256 |- _ => fail
      | _ => pose proof (byte_to_Z_range b)
      end
  end.

(** Replace the innermost or of the goal by a sum; its right operand is below [2^n]. *)
Ltac or_to_add n :=
  match goal with
  | |- context [Z.lor ?x ?y] =>
      lazymatch x with
      | context [Z.lor] => fail
      | _ => rewrite (lor_disjoint_add n x y) by divlia
      end
  end.

Lemma be32_sum a b c d :
  be32 a b c d = byte_to_Z a * 2 ^ 24 + byte_to_Z b * 2 ^ 16
                 + byte_to_Z c * 2 ^ 8 + byte_to_Z d.
Proof.
  unfold be32. byte_ranges. rewrite !Z.shiftl_mul_pow2 by lia.
  or_to_add 24. or_to_add 16. or_to_add 8. lia.
Qed.

Lemma be64_sum a b c d e f g h :
  be64 a b c d e f g h = be32 a b c d * 2 ^ 32 + be32 e f g h.
Proof.
  unfold be64. rewrite !be32_sum. byte_ranges. rewrite !Z.shiftl_mul_pow2 by lia.
  or_to_add 56. or_to_add 48. or_to_add 40. or_to_add 32.
  or_to_add 24. or_to_add 16. or_to_add 8. lia.
Qed.

Lemma be32_range a b c d : in_width 32 (be32 a b c d).
Proof. unfold in_width. rewrite be32_sum. byte_ranges. lia. Qed.

Lemma be64_range a b c d e f g h : in_width 64 (be64 a b c d e f g h).
Proof.
  rewrite be64_sum. pose proof (be32_range a b c d). pose proof (be32_range e f g h).
  unfold in_width in *. lia.
Qed.

Lemma length_bytes32 v : length (bytes32 v) = 4%nat.
Proof. done. Qed.

Lemma length_bytes64 v : length (bytes64 v) = 8%nat.
Proof. done. Qed.

Lemma be32_bytes32 v :
  be32 (byte_of_Z (Z.shiftr v 24)) (byte_of_Z (Z.shiftr v 16))
       (byte_of_Z (Z.shiftr v 8)) (byte_of_Z v) = wrap 32 v.
Proof. rewrite be32_sum, !byte_to_Z_of_Z. unfold wrap. shifts. divlia. Qed.

Lemma bytes64_split v : bytes64 v = bytes32 (wrap 32 (Z.shiftr v 32)) ++ bytes32 (wrap 32 v).
Proof.
  unfold bytes64, bytes32, wrap. simpl. shifts.
  repeat apply cons_eq_f; [apply byte_of_Z_eq; divlia..|done].
Qed.

Lemma be64_bytes64 v :
  be64 (byte_of_Z (Z.shiftr v 56)) (byte_of_Z (Z.shiftr v 48))
       (byte_of_Z (Z.shiftr v 40)) (byte_of_Z (Z.shiftr v 32))
       (byte_of_Z (Z.shiftr v 24)) (byte_of_Z (Z.shiftr v 16))
       (byte_of_Z (Z.shiftr v 8)) (byte_of_Z v) = wrap 64 v.
Proof.
  rewrite be64_sum, be32_bytes32.
  pose proof (be32_bytes32 (Z.shiftr v 32)) as H.
  rewrite !Z.shiftr_shiftr in H by lia.
  change (32 + 24) with 56 in H. change (32 + 16) with 48 in H.
  change (32 + 8) with 40 in H. rewrite H.
  unfold wrap. shifts. divlia.
Qed.

Lemma bytes32_be32 a b c d : bytes32 (be32 a b c d) = [a; b; c; d].
Proof.
  rewrite be32_sum. unfold bytes32. shifts. byte_ranges.
  repeat apply cons_eq_f; [apply byte_of_Z_is; divlia..|done].
Qed.

Lemma bytes64_be64 a b c d e f g h :
  bytes64 (be64 a b c d e f g h) = [a; b; c; d; e; f; g; h].
Proof.
  rewrite bytes64_split, be64_sum.
  pose proof (be32_range a b c d). pose proof (be32_range e f g h).
  unfold in_width, wrap in *. shifts.
  replace ((_ / 2 ^ 32) mod 2 ^ 32) with (be32 a b c d) by divlia.
  replace ((_ + _) mod 2 ^ 32) with (be32 e f g h) by divlia.
  by rewrite !bytes32_be32.
Qed.
