(* ===== verification/Float64.v ===== *)
(** * IEEE-754 binary64

    The [double] of the sources. A value is the Standard Library's [spec_float],
    and every arithmetic operator is the correctly rounded (to nearest, ties to
    even) operation at precision 53 and exponent bound 1024, so a sum or a
    product here is bit for bit the one an ISO C++ build computes (no fused
    operations, no extended precision). All NaN payloads are one value [S754_nan].

    Also here: the library functions the sources call on doubles
    ([std::isfinite], [std::floor], [std::llround], [std::max], [std::fabs]), the
    conversions from integers, and the [memcpy] between a double and its 64 bits. *)

From Stdlib Require Import SpecFloat.
From stdpp Require Import base list strings numbers.
From S2P Require Import Prelude.
Open Scope Z_scope.

(** ** Values and operators *)

Abbreviation double := spec_float.

Definition dadd : double -> double -> double := SFadd 53 1024.
Definition dsub : double -> double -> double := SFsub 53 1024.
Definition dmul : double -> double -> double := SFmul 53 1024.
Definition ddiv : double -> double -> double := SFdiv 53 1024.

Declare Scope double_scope.
Delimit Scope double_scope with D.
Infix "+" := dadd : double_scope.
Infix "-" := dsub : double_scope.
Infix "*" := dmul : double_scope.
Infix "/" := ddiv : double_scope.
Infix "<?" := SFltb : double_scope.
Infix "<=?" := SFleb : double_scope.
Infix "=?" := SFeqb : double_scope.

(** [0.0], the default of every double member. *)
Definition d0 : double := S754_zero false.

(** [static_cast<double>(z)]: the nearest double, ties to even. *)
Definition d_of_Z (z : Z) : double := binary_normalize 53 1024 z 0 false.

Definition d1 : double := d_of_Z 1.

(** The literals [1e-9] and [1e-12], each the double nearest to its decimal. *)
Definition d1e_9 : double := (d1 / d_of_Z 1000000000)%D.
Definition d1e_12 : double := (d1 / d_of_Z 1000000000000)%D.

(** [std::isfinite]. *)
Definition isfinite (x : double) : bool :=
  match x with S754_zero _ | S754_finite _ _ _ => true | _ => false end.

Definition is_nan (x : double) : bool :=
  match x with S754_nan => true | _ => false end.

(** [std::floor]. *)
Definition dfloor (x : double) : double :=
  match x with
  | S754_finite s m e =>
      if 0 <=? e then x
      else match Z.div (cond_Zopp s (Zpos m)) (2 ^ (- e)) with
           | Z0 => S754_zero s
           | q => binary_normalize 53 1024 q 0 false
           end
  | _ => x
  end.

(** [std::max(a, b)] is [(a < b) ? b : a]. *)
Definition dmax (a b : double) : double := if (a <? b)%D then b else a.

Definition dabs : double -> double := SFabs.

(** The left-to-right sum a loop [s += x] computes from [s0]. *)
Definition dsum_from (s0 : double) (l : list double) : double := fold_left dadd l s0.

(** The sum from [0.0]. *)
Definition dsum (l : list double) : double := dsum_from d0 l.

(** ** [std::llround]

    Half away from zero. The result for a NaN, an infinity or a value outside
    [long long] is unspecified in C++: it is the class's field, so every theorem
    holds whatever the platform returns there. *)

Class LlroundPlatform := llround_unspecified : double -> Z.

Definition round_half_away (x : double) : option Z :=
  match x with
  | S754_zero _ => Some 0
  | S754_finite s m e =>
      let a := if 0 <=? e then Zpos m * 2 ^ e
               else (Zpos m + 2 ^ (- e - 1)) / 2 ^ (- e) in
      Some (cond_Zopp s a)
  | _ => None
  end.

Definition llround `{LlroundPlatform} (x : double) : Z :=
  match round_half_away x with
  | Some z => if (- 2 ^ 63 <=? z) && (z <? 2 ^ 63) then z else llround_unspecified x
  | None => llround_unspecified x
  end.

(** [static_cast<std::uint64_t>(std::llround(x))]. *)
Definition llround_u64 `{LlroundPlatform} (x : double) : Z := wrap 64 (llround x).

(** ** The 64 bits of a double *)

Definition sign_bit (s : bool) : Z := if s then 2 ^ 63 else 0.

(** [memcpy(&qbits, &value, 8)]. *)
Definition bits_of_double (x : double) : Z :=
  match x with
  | S754_zero s => sign_bit s
  | S754_infinity s => sign_bit s + 2047 * 2 ^ 52
  | S754_nan => 2047 * 2 ^ 52 + 2 ^ 51
  | S754_finite s m e =>
      if 2 ^ 52 <=? Zpos m then sign_bit s + (e + 1075) * 2 ^ 52 + (Zpos m - 2 ^ 52)
      else sign_bit s + Zpos m
  end.

(** [memcpy(&value, &qbits, 8)]. *)
Definition double_of_bits (b : Z) : double :=
  let s := 2 ^ 63 <=? b in
  let ex := (b / 2 ^ 52) mod 2 ^ 11 in
  let fr := b mod 2 ^ 52 in
  if ex =? 0 then
    match fr with Zpos m => S754_finite s m (-1074) | _ => S754_zero s end
  else if ex =? 2047 then
    if fr =? 0 then S754_infinity s else S754_nan
  else match fr + 2 ^ 52 with
       | Zpos m => S754_finite s m (ex - 1075)
       | _ => S754_zero s
       end.

(** A [spec_float] that is a binary64 value: its significand and exponent are canonical. *)
Definition is_double (x : double) : bool := valid_binary 53 1024 x.

(** Non-negative: a zero of either sign, or a positive number or infinity. *)
Definition dnonneg (x : double) : bool :=
  match x with
  | S754_zero _ => true
  | S754_finite s _ _ | S754_infinity s => negb s
  | S754_nan => false
  end.

(** ** Lemmas *)

Create HintDb double.

(** *** Digits and validity *)

Lemma digits2_pos_log2 p : Zpos (digits2_pos p) = Z.log2 (Zpos p) + 1.
Proof.
  assert (digits2_pos p = Pos.size p) as -> by (induction p; simpl; congruence).
  destruct p; simpl; lia.
Qed.

Lemma is_double_finite_iff s m e :
  is_double (S754_finite s m e) = true <->
  (2 ^ 52 <= Zpos m < 2 ^ 53 /\ -1074 <= e <= 971) \/ (Zpos m < 2 ^ 52 /\ e = -1074).
Proof.
  unfold is_double, valid_binary, bounded, canonical_mantissa, fexp, emin.
  rewrite digits2_pos_log2, andb_true_iff, Z.eqb_eq, Z.leb_le.
  pose proof (Z.log2_spec (Zpos m) ltac:(lia)) as [Hlo Hhi].
  pose proof (Z.log2_nonneg (Zpos m)).
  split.
  - intros [Hc He]. destruct (Z.lt_ge_cases (Z.log2 (Zpos m)) 52).
    + right. split; [|lia]. apply Z.log2_lt_pow2; lia.
    + left. assert (Z.log2 (Zpos m) = 52) as Hl by lia. rewrite Hl in *. lia.
  - intros [[Hm He]|[Hm ->]].
    + assert (Z.log2 (Zpos m) = 52) as -> by (apply Z.log2_unique; lia). lia.
    + assert (Z.log2 (Zpos m) < 52) by (apply Z.log2_lt_pow2; lia). lia.
Qed.

(** *** Bits *)

Lemma sign_bit_range s : sign_bit s = 0 \/ sign_bit s = 2 ^ 63.
Proof. destruct s; simpl; lia. Qed.

Lemma bits_of_double_range x : is_double x = true -> in_width 64 (bits_of_double x).
Proof.
  unfold in_width. intros Hx. destruct x as [s|s| |s m e]; cbn [bits_of_double];
    [destruct (sign_bit_range s); lia..|lia|].
  apply is_double_finite_iff in Hx.
  destruct (sign_bit_range s), (Z.leb_spec (2 ^ 52) (Zpos m)); lia.
Qed.

(** Reading back the fields of a packed (sign, exponent, fraction) triple. *)
Lemma double_of_bits_fields (s : bool) ex fr :
  0 <= ex < 2 ^ 11 -> 0 <= fr < 2 ^ 52 ->
  let b := sign_bit s + ex * 2 ^ 52 + fr in
  (2 ^ 63 <=? b) = s /\ (b / 2 ^ 52) mod 2 ^ 11 = ex /\ b mod 2 ^ 52 = fr.
Proof.
  intros Hex Hfr b. unfold b. pow2_literals.
  destruct s; simpl sign_bit; split_and!; divlia.
Qed.

Lemma double_of_bits_of_double x :
  is_double x = true -> double_of_bits (bits_of_double x) = x.
Proof.
  intros Hx. destruct x as [s|s| |s m e].
  - by destruct s.
  - by destruct s.
  - done.
  - apply is_double_finite_iff in Hx. cbn [bits_of_double].
    destruct (Z.leb_spec (2 ^ 52) (Zpos m)) as [Hm|Hm].
    + destruct (double_of_bits_fields s (e + 1075) (Zpos m - 2 ^ 52)) as (H1 & H2 & H3); [lia..|].
      unfold double_of_bits. rewrite H1, H2, H3.
      rewrite !(proj2 (Z.eqb_neq _ _)) by lia.
      rewrite Z.sub_add. f_equal; lia.
    + destruct (double_of_bits_fields s 0 (Zpos m)) as (H1 & H2 & H3); [lia..|].
      rewrite Z.mul_0_l, Z.add_0_r in *.
      unfold double_of_bits. rewrite H1, H2, H3. simpl. f_equal; lia.
Qed.

(** Every 64-bit pattern is the pattern of a binary64 value. *)
Lemma is_double_of_bits b : is_double (double_of_bits b) = true.
Proof.
  unfold double_of_bits.
  pose proof (Z.mod_pos_bound b (2 ^ 52) ltac:(lia)) as Hfr.
  pose proof (Z.mod_pos_bound (b / 2 ^ 52) (2 ^ 11) ltac:(lia)) as Hex.
  generalize dependent (b mod 2 ^ 52). intros fr Hfr.
  generalize dependent ((b / 2 ^ 52) mod 2 ^ 11). intros ex Hex.
  destruct (Z.eqb_spec ex 0).
  - destruct fr as [|m|m] eqn:E; [done| |done]. apply is_double_finite_iff. lia.
  - destruct (Z.eqb_spec ex 2047); [by destruct (fr =? 0)|].
    destruct (fr + 2 ^ 52) as [|m|m] eqn:E; [done| |done].
    apply is_double_finite_iff. lia.
Qed.

Lemma bits_of_double_of_bits b :
  in_width 64 b -> is_nan (double_of_bits b) = false ->
  bits_of_double (double_of_bits b) = b.
Proof.
  intros Hb. unfold double_of_bits, in_width in *.
  pose proof (Z.mod_pos_bound b (2 ^ 52) ltac:(lia)) as Hfr.
  pose proof (Z.mod_pos_bound (b / 2 ^ 52) (2 ^ 11) ltac:(lia)) as Hex.
  assert (b = sign_bit (2 ^ 63 <=? b) + (b / 2 ^ 52) mod 2 ^ 11 * 2 ^ 52 + b mod 2 ^ 52) as Hsplit.
  { unfold sign_bit. destruct (Z.leb_spec (2 ^ 63) b); divlia. }
  revert Hfr Hex Hsplit. generalize (2 ^ 63 <=? b) as s.
  generalize (b mod 2 ^ 52) as fr. generalize ((b / 2 ^ 52) mod 2 ^ 11) as ex.
  intros ex fr s Hfr Hex Hsplit.
  destruct (Z.eqb_spec ex 0).
  { destruct fr as [|m|m]; intros _; cbn [bits_of_double]; [lia| |lia].
    rewrite (proj2 (Z.leb_gt _ _)) by lia. lia. }
  destruct (Z.eqb_spec ex 2047).
  { destruct (Z.eqb_spec fr 0); intros Hn; [cbn; lia|done]. }
  destruct (fr + 2 ^ 52) as [|m|m] eqn:E; intros _; [lia| |lia].
  cbn [bits_of_double]. rewrite (proj2 (Z.leb_le _ _)) by lia. lia.
Qed.

(** *** Signs under rounding *)

Lemma iter_shr_1_nonneg p r : 0 <= shr_m r -> 0 <= shr_m (SpecFloat.iter_pos shr_1 p r).
Proof.
  assert (forall q, 0 <= shr_m q -> 0 <= shr_m (shr_1 q)) as Hone.
  { intros [m r' s] Hm. simpl in Hm. destruct m as [|[]|]; simpl; lia. }
  revert r. induction p as [p IH|p IH|]; intros r Hr; simpl; eauto.
Qed.

Lemma shr_fexp_nonneg m e l : 0 <= m -> 0 <= shr_m (shr_fexp 53 1024 m e l).1.
Proof.
  intros Hm. unfold shr_fexp, shr. destruct (_ - _); simpl.
  - destruct l as [|[]]; simpl; lia.
  - apply iter_shr_1_nonneg. destruct l as [|[]]; simpl; lia.
  - destruct l as [|[]]; simpl; lia.
Qed.

(** Rounding a non-negative significand gives a non-negative number. *)
Lemma binary_round_aux_nonneg m e l :
  0 <= m -> dnonneg (binary_round_aux 53 1024 false m e l) = true.
Proof.
  intros Hm. unfold binary_round_aux.
  pose proof (shr_fexp_nonneg m e l Hm) as H1.
  destruct (shr_fexp 53 1024 m e l) as [r1 e1]. simpl in H1.
  assert (0 <= round_nearest_even (shr_m r1) (loc_of_shr_record r1)) as H2.
  { unfold round_nearest_even. destruct (loc_of_shr_record r1) as [|[]]; [lia| |lia..].
    destruct (Z.even _); lia. }
  pose proof (shr_fexp_nonneg _ e1 loc_Exact H2) as H3.
  destruct (shr_fexp 53 1024 _ e1 loc_Exact) as [r2 e2]. simpl in H3.
  destruct (shr_m r2); [done| |lia]. by destruct (_ <=? _).
Qed.

Lemma binary_normalize_nonneg m e :
  0 <= m -> dnonneg (binary_normalize 53 1024 m e false) = true.
Proof.
  intros Hm. destruct m as [|m|m]; [done| |lia].
  unfold binary_normalize, binary_round. destruct (shl_align _ _ _).
  by apply binary_round_aux_nonneg.
Qed.

Lemma d_of_Z_nonneg z : 0 <= z -> dnonneg (d_of_Z z) = true.
Proof. apply binary_normalize_nonneg. Qed.

Lemma dadd_nonneg x y :
  dnonneg x = true -> dnonneg y = true -> dnonneg (x + y)%D = true.
Proof.
  unfold dadd. destruct x as [[]|[]| |[] mx ex], y as [[]|[]| |[] my ey];
    simpl; try done.
  intros _ _. by apply (binary_normalize_nonneg (Zpos _)).
Qed.

Lemma div_core_nonneg mx ex my ey :
  0 <= (SFdiv_core_binary 53 1024 (Zpos mx) ex (Zpos my) ey).1.1.
Proof.
  unfold SFdiv_core_binary.
  match goal with |- context [Z.div_eucl ?m _] => set (m' := m) end.
  assert (0 <= m') as Hm'.
  { subst m'. destruct (_ - _ - _); [lia| |lia]. apply Z.shiftl_nonneg. lia. }
  pose proof (Z.div_pos m' (Zpos my) Hm' ltac:(lia)) as Hq.
  unfold Z.div in Hq. by destruct (Z.div_eucl m' (Zpos my)).
Qed.

Lemma ddiv_nonneg x y :
  dnonneg x = true -> isfinite x = true -> dnonneg y = true ->
  (d0 <? y)%D = true -> dnonneg (x / y)%D = true.
Proof.
  unfold ddiv. destruct x as [[]|[]| |[] mx ex], y as [[]|[]| |[] my ey]; try done.
  intros _ _ _ _. cbn [SFdiv].
  pose proof (div_core_nonneg mx ex my ey) as Hq.
  destruct (SFdiv_core_binary _ _ _ _ _ _) as [[mz ez] lz].
  by apply binary_round_aux_nonneg.
Qed.

Lemma dmul_nonneg x y :
  dnonneg x = true -> isfinite x = true -> dnonneg y = true -> isfinite y = true ->
  dnonneg (x * y)%D = true.
Proof.
  unfold dmul. destruct x as [[]|[]| |[] mx ex], y as [[]|[]| |[] my ey]; try done.
  intros _ _ _ _. by apply binary_round_aux_nonneg.
Qed.

Lemma dmax_nonneg_l x y : dnonneg x = true -> dnonneg (dmax x y) = true.
Proof.
  unfold dmax. destruct x as [[]|[]| |[] mx ex], y as [[]|[]| |[] my ey]; try done;
    by destruct (_ <? _)%D.
Qed.

#[export] Hint Resolve d_of_Z_nonneg dadd_nonneg ddiv_nonneg dmul_nonneg dmax_nonneg_l : double.

(** *** Absence of overflow

    Rounding a significand below [2^a] at exponent [e] stays finite when the
    exponent leaves enough room. The bounds are coarse: they only have to place
    the conversion and the division of a 64-bit count far below the overflow
    threshold. *)

Lemma Zdigits2_le m a : 0 <= m < 2 ^ a -> 0 <= a -> Zdigits2 m <= a.
Proof.
  intros Hm Ha. destruct m as [|p|p]; simpl; [lia| |lia].
  rewrite digits2_pos_log2. assert (Z.log2 (Zpos p) < a) by (apply Z.log2_lt_pow2; lia). lia.
Qed.

Lemma iter_shr_1_le p r : 0 <= shr_m r -> shr_m (SpecFloat.iter_pos shr_1 p r) <= shr_m r.
Proof.
  assert (forall q, 0 <= shr_m q -> shr_m (shr_1 q) <= shr_m q) as Hone.
  { intros [m r' s] Hm. simpl in Hm. destruct m as [|[]|]; simpl; lia. }
  assert (forall q, 0 <= shr_m q -> 0 <= shr_m (shr_1 q)) as Hpos
    by (intros q; apply (iter_shr_1_nonneg 1)).
  revert r. induction p as [p IH|p IH|]; intros r Hr; simpl; [| |by apply Hone].
  - pose proof (Hone r Hr). pose proof (IH (shr_1 r) (Hpos r Hr)).
    pose proof (IH _ (iter_shr_1_nonneg p _ (Hpos r Hr))). lia.
  - pose proof (IH r Hr). pose proof (IH _ (iter_shr_1_nonneg p r Hr)). lia.
Qed.

Lemma shr_fexp_bounds m e l a : 0 <= m < 2 ^ a -> 53 <= a ->
  shr_m (shr_fexp 53 1024 m e l).1 <= m /\
  (shr_fexp 53 1024 m e l).2 <= Z.max (a + e - 53) (-1074).
Proof.
  intros Hm Ha. pose proof (Zdigits2_le m a Hm ltac:(lia)) as Hd.
  assert (shr_m (shr_record_of_loc m l) = m) as Hl by (by destruct l as [|[]]).
  unfold shr_fexp, shr, fexp, emin.
  destruct (Z.max _ _ - e) as [|q|q] eqn:E; cbn [fst snd]; rewrite ?Hl; try lia.
  split; [|lia]. rewrite <- Hl at 2. apply iter_shr_1_le. lia.
Qed.

(** A zero, or a positive finite number with a bounded exponent and significand. *)
Definition within (a E : Z) (x : double) : Prop :=
  match x with
  | S754_zero _ => True
  | S754_finite s m e => s = false /\ e <= E /\ Zpos m <= 2 ^ a
  | _ => False
  end.

Lemma within_finite a E x : within a E x -> isfinite x = true /\ dnonneg x = true.
Proof. destruct x as [| | |[]]; simpl; naive_solver. Qed.

Lemma binary_round_aux_within m e l a E :
  0 <= m < 2 ^ a -> 53 <= a <= 900 -> e + 2 * a <= E -> 0 <= E <= 900 ->
  within a E (binary_round_aux 53 1024 false m e l).
Proof.
  intros Hm Ha HE HE'. unfold binary_round_aux.
  pose proof (shr_fexp_bounds m e l a Hm ltac:(lia)) as [H1 H1e].
  pose proof (shr_fexp_nonneg m e l ltac:(lia)) as H1n.
  destruct (shr_fexp 53 1024 m e l) as [r1 e1]. cbn [fst snd] in *.
  assert (0 <= round_nearest_even (shr_m r1) (loc_of_shr_record r1) <= shr_m r1 + 1) as H2.
  { unfold round_nearest_even. destruct (loc_of_shr_record r1) as [|[]]; [lia| |lia..].
    destruct (Z.even _); lia. }
  generalize dependent (round_nearest_even (shr_m r1) (loc_of_shr_record r1)). intros m2 Hm2.
  assert (2 ^ (a + 1) = 2 * 2 ^ a) as Hp by (rewrite Z.pow_add_r; lia).
  pose proof (shr_fexp_bounds m2 e1 loc_Exact (a + 1) ltac:(lia) ltac:(lia)) as [H3 H3e].
  pose proof (shr_fexp_nonneg m2 e1 loc_Exact ltac:(lia)) as H3n.
  destruct (shr_fexp 53 1024 m2 e1 loc_Exact) as [r2 e2]. cbn [fst snd] in *.
  destruct (shr_m r2) as [|p|p]; [done| |lia].
  rewrite (proj2 (Z.leb_le _ _)) by lia. simpl. lia.
Qed.

Lemma iter_xO p m : Zpos (Pos.iter xO m p) = Zpos m * 2 ^ Zpos p.
Proof.
  induction p as [|p IH] using Pos.peano_ind; [simpl; lia|].
  rewrite Pos.iter_succ, Pos2Z.inj_succ, Z.pow_succ_r, Pos2Z.inj_xO, IH by lia. lia.
Qed.

Lemma d_of_Z_within z : in_width 64 z -> within 64 128 (d_of_Z z).
Proof.
  intros Hz. unfold d_of_Z, binary_normalize, in_width in *. destruct z as [|p|p]; [done| |lia].
  unfold binary_round, shl_align, fexp, emin. rewrite digits2_pos_log2.
  pose proof (Z.log2_spec (Zpos p) ltac:(lia)) as [Hlo Hhi].
  pose proof (Z.log2_nonneg (Zpos p)) as Hnn.
  destruct (Z.max _ _ - 0) as [|q|q] eqn:E; apply binary_round_aux_within; try lia.
  rewrite iter_xO. assert (Z.log2 (Zpos p) + 1 + Zpos q = 53) as Hq by lia.
  split; [lia|]. apply Z.lt_trans with (2 ^ 53); [|lia]. rewrite <- Hq, Z.pow_add_r by lia.
  apply Z.mul_lt_mono_pos_r; [lia|]. by rewrite Z.add_1_r.
Qed.

Lemma ddiv_within x m2 e2 : within 64 128 x -> Zpos m2 < 2 ^ 53 -> -53 <= e2 <= 0 ->
  within 200 900 (x / S754_finite false m2 e2)%D.
Proof.
  intros Hx Hm2 He2. destruct x as [s| | |s m1 e1]; [done|done|done|].
  destruct Hx as (-> & He1 & Hm1). unfold ddiv. cbn [SFdiv xorb].
  unfold SFdiv_core_binary, fexp, emin.
  pose proof (Zdigits2_le (Zpos m2) 53 ltac:(lia) ltac:(lia)) as Hd2.
  assert (0 < Zdigits2 (Zpos m1)) as Hd1 by (simpl; lia).
  generalize dependent (Zdigits2 (Zpos m2)). generalize dependent (Zdigits2 (Zpos m1)).
  intros d1 Hd1 d2 Hd2.
  set (e' := Z.min _ _). set (sh := e1 - e2 - e').
  set (m' := match sh with Zpos _ => _ | _ => _ end).
  assert (0 <= m' < 2 ^ 180) as Hm'.
  { assert (2 ^ 64 * 2 ^ 106 < 2 ^ 180) by lia. subst m'. destruct sh as [|q|q] eqn:Es; [lia| |lia].
    rewrite Z.shiftl_mul_pow2 by lia. assert (2 ^ Zpos q <= 2 ^ 106) by (apply Z.pow_le_mono_r; lia). nia. }
  pose proof (Z.div_pos m' (Zpos m2) ltac:(lia) ltac:(lia)) as Hq1.
  assert (m' / Zpos m2 <= m') as Hq2 by (apply Z.div_le_upper_bound; nia).
  unfold Z.div in Hq1, Hq2. destruct (Z.div_eucl m' (Zpos m2)) as [q r].
  apply binary_round_aux_within; lia.
Qed.

(** *** Sums *)

Lemma dsum_from_snoc s l x : dsum_from s (l ++ [x]) = (dsum_from s l + x)%D.
Proof. unfold dsum_from. by rewrite fold_left_app. Qed.

Lemma dsum_snoc l x : dsum (l ++ [x]) = (dsum l + x)%D.
Proof. apply dsum_from_snoc. Qed.

Lemma dsum_nonneg l : Forall (fun x => dnonneg x = true) l -> dnonneg (dsum l) = true.
Proof.
  induction l as [|x l IH] using rev_ind; [done|].
  rewrite Forall_app, dsum_snoc, Forall_singleton. intros [??]. auto with double.
Qed.

(** A loop that adds [g e] to one of its variables for the elements that satisfy
    [P], and leaves it alone for the others, computes the sum over those elements. *)
Lemma fold_left_dsum {S E} (step : S -> E -> S) (proj : S -> double)
    (P : E -> Prop) `{!forall e, Decision (P e)} (g : E -> double) :
  (forall s e, proj (step s e) = if decide (P e) then (proj s + g e)%D else proj s) ->
  forall es s, proj (fold_left step es s) = dsum_from (proj s) (g <$> filter P es).
Proof.
  intros Hstep es s. unfold dsum_from. rewrite (fold_left_proj step proj P (fun x e => (x + g e)%D)) by done.
  generalize (proj s). induction (filter P es) as [|e es' IH]; intros x; simpl; [done|apply IH].
Qed.

(** [0.0 + x] is [x], except that a negative zero becomes positive. *)
Lemma dadd_d0_l x : x <> S754_zero true -> (d0 + x)%D = x.
Proof. by destruct x as [[]|[]| |]. Qed.

Lemma dadd_d0_r x : x <> S754_zero true -> (x + d0)%D = x.
Proof. by destruct x as [[]|[]| |]. Qed.

(** *** Comparisons *)

Lemma SFcompare_refl x : is_nan x = false -> SFcompare x x = Some Eq.
Proof.
  destruct x as [s|s| |s m e]; simpl; try done; intros _.
  - by destruct s.
  - rewrite Z.compare_refl. change (Pos.compare_cont Eq m m) with (Pos.compare m m).
    rewrite Pos.compare_refl. by destruct s.
Qed.

Lemma deqb_refl x : is_nan x = false -> (x =? x)%D = true.
Proof. intros H. unfold SFeqb. by rewrite SFcompare_refl. Qed.

Lemma dleb_refl x : is_nan x = false -> (x <=? x)%D = true.
Proof. intros H. unfold SFleb. by rewrite SFcompare_refl. Qed.

Lemma SFcompare_antisym x y : SFcompare x y = CompOpp <$> SFcompare y x.
Proof.
  destruct x as [[]|[]| |[] m e], y as [[]|[]| |[] m' e']; simpl; try done;
    rewrite (Z.compare_antisym e' e); destruct (Z.compare e' e); simpl; try done;
    change (Pos.compare_cont Eq ?a ?b) with (Pos.compare a b);
    rewrite (Pos.compare_antisym m' m); by destruct (Pos.compare m' m).
Qed.

Lemma deqb_sym x y : (x =? y)%D = (y =? x)%D.
Proof.
  unfold SFeqb. rewrite (SFcompare_antisym x y).
  by destruct (SFcompare y x) as [[]|].
Qed.

(** Numerically equal doubles are the same value up to the sign of zero. *)
Lemma deqb_true x y :
  (x =? y)%D = true -> x = y \/ exists s s', x = S754_zero s /\ y = S754_zero s'.
Proof.
  unfold SFeqb. destruct x as [[]|[]| |[] m e], y as [[]|[]| |[] m' e']; simpl; try done; eauto.
  all: change (Pos.compare_cont Eq ?a ?b) with (Pos.compare a b).
  all: destruct (Z.compare_spec e e') as [->| |]; try done.
  all: destruct (Pos.compare_spec m m') as [->| |]; try done; eauto.
Qed.

Lemma dltb_false_leb x y :
  is_nan x = false -> is_nan y = false -> (x <? y)%D = false -> (y <=? x)%D = true.
Proof.
  unfold SFltb, SFleb. rewrite (SFcompare_antisym x y).
  destruct (SFcompare y x) as [[]|] eqn:E; try done.
  by destruct x as [[]|[]| |], y as [[]|[]| |].
Qed.

Lemma dmax_ge_r a b :
  is_nan a = false -> is_nan b = false -> (b <=? dmax a b)%D = true.
Proof.
  intros Ha Hb. unfold dmax. destruct (a <? b)%D eqn:E.
  - by apply dleb_refl.
  - by apply dltb_false_leb.
Qed.

Lemma dmax_ge_l a b : is_nan a = false -> (a <=? dmax a b)%D = true.
Proof.
  intros Ha. unfold dmax. destruct (a <? b)%D eqn:E.
  - unfold SFltb, SFleb in *. by destruct (SFcompare a b) as [[]|].
  - by apply dleb_refl.
Qed.

Lemma SFcompare_le_trans x y z :
  (x <=? y)%D = true -> (y <=? z)%D = true -> (x <=? z)%D = true.
Proof.
  unfold SFleb. destruct x as [[]|[]| |[] m e], y as [[]|[]| |[] m' e'], z as [[]|[]| |[] m'' e''];
    simpl; try done; change (Pos.compare_cont Eq ?a ?b) with (Pos.compare a b);
    repeat match goal with
    | |- context [Z.compare ?a ?b] => destruct (Z.compare_spec a b); subst; try lia
    | |- context [Pos.compare ?a ?b] => destruct (Pos.compare_spec a b); subst; try lia
    end; try done; lia.
Qed.

Lemma dnonneg_not_nan x : dnonneg x = true -> is_nan x = false.
Proof. by destruct x. Qed.

Lemma isfinite_not_nan x : isfinite x = true -> is_nan x = false.
Proof. by destruct x. Qed.

#[export] Hint Resolve dnonneg_not_nan isfinite_not_nan dleb_refl deqb_refl : double.

(** *** Positive values

    [dpositive E x]: [x] is greater than zero, and its unit in the last place is at
    least [2 ^ E]: no rounding took it to zero. *)
Definition dpositive (E : Z) (x : double) : Prop :=
  match x with
  | S754_finite s m e => s = false /\ E <= e
  | S754_infinity s => s = false
  | _ => False
  end.

Lemma dpositive_mono E E' x : dpositive E x -> E' <= E -> dpositive E' x.
Proof. destruct x as [|[]| |[]]; simpl; naive_solver lia. Qed.

Lemma positive_gt0 E x : dpositive E x -> (d0 <? x)%D = true.
Proof. destruct x as [|[]| |[]]; simpl; naive_solver. Qed.

Lemma shr_1_half q : 0 <= shr_m q -> shr_m (shr_1 q) = shr_m q / 2.
Proof.
  destruct q as [m r s]. destruct m as [|[p|p|]|]; cbn [shr_m shr_1]; intros Hm; try done.
  - rewrite Pos2Z.inj_xI, Z.mul_comm, Z.div_add_l by lia. change (1 / 2) with 0. lia.
  - rewrite Pos2Z.inj_xO, Z.mul_comm, Z.div_mul by lia. done.
Qed.

Lemma iter_shr_1_div p : forall r, 0 <= shr_m r ->
  shr_m (SpecFloat.iter_pos shr_1 p r) = shr_m r / 2 ^ Zpos p.
Proof.
  assert (forall q, 0 <= shr_m q -> 0 <= shr_m (shr_1 q)) as Hpos.
  { intros q Hq. rewrite shr_1_half by done. apply Z.div_pos; lia. }
  assert (forall p r, 0 <= shr_m r -> 0 <= shr_m (SpecFloat.iter_pos shr_1 p r)) as Hit.
  { clear p. intros p r. apply iter_shr_1_nonneg. }
  induction p as [p IH|p IH|]; intros r Hr; cbn [SpecFloat.iter_pos].
  - rewrite !IH, shr_1_half by auto. rewrite !Z.div_div by lia. f_equal.
    rewrite <- Z.pow_add_r by lia. rewrite <- (Z.pow_succ_r 2 (Zpos p + Zpos p)) by lia. f_equal. lia.
  - rewrite !IH by auto. rewrite Z.div_div by lia. f_equal. rewrite <- Z.pow_add_r by lia. f_equal. lia.
  - by apply shr_1_half.
Qed.

Lemma Zdigits2_pow m : 0 < m -> 2 ^ (Zdigits2 m - 1) <= m /\ 0 < Zdigits2 m.
Proof.
  intros Hm. destruct m as [|p|p]; try lia. simpl Zdigits2. rewrite digits2_pos_log2.
  pose proof (Z.log2_spec (Zpos p) ltac:(lia)). pose proof (Z.log2_nonneg (Zpos p)).
  replace (Z.log2 (Zpos p) + 1 - 1) with (Z.log2 (Zpos p)) by lia. lia.
Qed.

Lemma shr_fexp_positive m e l : 0 < m -> -1074 <= e ->
  0 < shr_m (shr_fexp 53 1024 m e l).1 /\ e <= (shr_fexp 53 1024 m e l).2.
Proof.
  intros Hm He. destruct (Zdigits2_pow m Hm) as [Hlo Hd].
  assert (shr_m (shr_record_of_loc m l) = m) as Hl by (by destruct l as [|[]]).
  unfold shr_fexp, shr, fexp, emin.
  destruct (Z.max _ _ - e) as [|q|q] eqn:E; cbn [fst snd]; rewrite ?Hl; try lia.
  rewrite iter_shr_1_div by (rewrite Hl; lia). rewrite Hl. split; [|lia].
  apply Z.div_str_pos. split; [lia|]. etransitivity; [|exact Hlo]. apply Z.pow_le_mono_r; lia.
Qed.

Lemma binary_round_aux_positive E m e l : 0 < m -> -1074 <= E <= e ->
  dpositive E (binary_round_aux 53 1024 false m e l).
Proof.
  intros Hm He. unfold binary_round_aux.
  destruct (shr_fexp_positive m e l Hm ltac:(lia)) as [H1 H1e].
  destruct (shr_fexp 53 1024 m e l) as [r1 e1]. cbn [fst snd] in *.
  assert (0 < round_nearest_even (shr_m r1) (loc_of_shr_record r1)) as H2.
  { unfold round_nearest_even. destruct (loc_of_shr_record r1) as [|[]]; try lia.
    destruct (Z.even (shr_m r1)); lia. }
  destruct (shr_fexp_positive _ e1 loc_Exact H2 ltac:(lia)) as [H3 H3e].
  destruct (shr_fexp 53 1024 _ e1 loc_Exact) as [r2 e2]. cbn [fst snd] in *.
  destruct (shr_m r2) as [|q|q]; try lia. destruct (e2 <=? 1024 - 53); simpl; [lia|done].
Qed.

Lemma binary_round_positive E m e : -1074 <= E <= e - 52 -> dpositive E (binary_round 53 1024 false m e).
Proof.
  intros He. unfold binary_round, shl_align, fexp, emin. rewrite digits2_pos_log2.
  pose proof (Z.log2_nonneg (Zpos m)).
  destruct (Z.max _ _ - e) as [|q|q] eqn:Eq; apply binary_round_aux_positive; lia.
Qed.

Lemma d_of_Z_positive z : 0 < z -> dpositive (-60) (d_of_Z z).
Proof. intros Hz. destruct z as [|p|p]; try lia. apply (binary_round_positive (-60) p 0). lia. Qed.

(** A positive value plus a zero or a positive value is positive. *)
Lemma dadd_positive E x y : -1000 <= E -> dpositive E x -> y = d0 \/ dpositive E y -> dpositive (E - 52) (x + y)%D.
Proof.
  intros HE Hx Hy. unfold dadd.
  destruct x as [|[]| |[] m e]; simpl in Hx; try naive_solver;
    (destruct Hy as [->|Hy]; [simpl; naive_solver lia|]);
    destruct y as [|[]| |[] m' e']; simpl in Hy; try naive_solver.
  destruct Hx as [_ Hx], Hy as [_ Hy].
  apply (binary_round_positive _ (_ + _)). lia.
Qed.

Lemma div_core_positive m1 e1 m2 e2 E : E <= -1 -> -900 <= E -> E <= e1 - e2 ->
  -900 <= Zdigits2 (Zpos m1) + e1 - (Zdigits2 (Zpos m2) + e2) - 53 ->
  E <= Zdigits2 (Zpos m1) + e1 - (Zdigits2 (Zpos m2) + e2) - 53 ->
  0 < (SFdiv_core_binary 53 1024 (Zpos m1) e1 (Zpos m2) e2).1.1 /\
  E <= (SFdiv_core_binary 53 1024 (Zpos m1) e1 (Zpos m2) e2).1.2.
Proof.
  intros HE1 HE2 HE3 Hx1 Hx2. unfold SFdiv_core_binary, fexp, emin.
  set (d1 := Zdigits2 (Zpos m1)) in *. set (d2 := Zdigits2 (Zpos m2)) in *.
  set (e' := Z.min _ _). assert (E <= e') as He' by (subst e'; lia).
  assert (d2 - d1 + 53 <= e1 - e2 - e') as Hs by (subst e'; lia).
  assert (0 <= e1 - e2 - e') as Hs0 by (subst e'; lia).
  destruct (Zdigits2_pow (Zpos m1) ltac:(lia)) as [Hlo1 Hd1]. fold d1 in Hlo1, Hd1.
  pose proof (Z.log2_spec (Zpos m2) ltac:(lia)) as [_ Hhi2]. pose proof (digits2_pos_log2 m2) as Hd2.
  change (Zdigits2 (Zpos m2)) with (Zpos (digits2_pos m2)) in d2.
  set (m' := match e1 - e2 - e' with Z0 => _ | Zpos _ => _ | Zneg _ => _ end).
  assert (Zpos m2 <= m') as Hm'.
  { assert (m' = Zpos m1 * 2 ^ (e1 - e2 - e')) as ->.
    { subst m'. destruct (e1 - e2 - e') as [|s|s] eqn:Es; [lia|by rewrite Z.shiftl_mul_pow2 by lia|lia]. }
    apply Z.lt_le_incl. eapply Z.lt_le_trans; [exact Hhi2|].
    transitivity (2 ^ (d1 - 1) * 2 ^ (e1 - e2 - e')); [|apply Z.mul_le_mono_nonneg_r; [lia|done]].
    rewrite <- Z.pow_add_r by lia. apply Z.pow_le_mono_r; [lia|]. subst d2. lia. }
  pose proof (Z.div_str_pos m' (Zpos m2) ltac:(lia)) as Hq. unfold Z.div in Hq.
  destruct (Z.div_eucl m' (Zpos m2)) as [q r]. cbn [fst snd]. split; [exact Hq|exact He'].
Qed.

Lemma ddiv_positive x m2 e2 : dpositive (-60) x -> Zpos m2 < 2 ^ 53 -> -53 <= e2 <= 0 ->
  dpositive (-200) (x / S754_finite false m2 e2)%D.
Proof.
  intros Hx Hm He. destruct x as [|[]| |[] m1 e1]; simpl in Hx; try naive_solver.
  unfold ddiv. cbn [SFdiv xorb]. pose proof (Zdigits2_le (Zpos m2) 53 ltac:(lia) ltac:(lia)) as Hd2.
  destruct (Zdigits2_pow (Zpos m1) ltac:(lia)) as [_ Hd1].
  destruct (div_core_positive m1 e1 m2 e2 (-200)) as [Hq Hz]; try lia.
  destruct (SFdiv_core_binary _ _ _ _ _ _) as [[mz ez] lz]. cbn [fst snd] in *.
  apply binary_round_aux_positive; lia.
Qed.
