(* ===== verification/StdMap.v ===== *)
(** * [std::map] as a sorted association list

    The sources iterate [std::map]s (the metadata of an entry when it is encoded,
    the attempts of a request, the requests of a batch, the pricing policies), so
    their order matters: a map is the list of its bindings in increasing key
    order, and the operations are the ones the sources call: [find], [emplace]
    (which keeps an existing binding), [m[k] = v], and [m[k]] used in place
    (which first inserts a default value).

    [KeyOrder] is what [std::less<K>] promises to the container; the instance
    for [std::string] is here, the one for identities in Identity.v. *)

From Stdlib Require Import Sorting.Sorted.
From stdpp Require Import base sets list strings numbers.
From S2P Require Import Prelude.
Open Scope Z_scope.

(** ** Ordered keys *)

Class KeyOrder (K : Type) := {
  kcmp : K -> K -> comparison;
  kcmp_eq : forall a b, kcmp a b = Eq <-> a = b;
  kcmp_antisym : forall a b, kcmp a b = CompOpp (kcmp b a);
  kcmp_trans : forall a b c, kcmp a b = Lt -> kcmp b c = Lt -> kcmp a c = Lt
}.

(** [std::less<std::string>]: lexicographic on unsigned characters. *)
Lemma string_compare_trans s1 s2 s3 :
  String.compare s1 s2 = Lt -> String.compare s2 s3 = Lt -> String.compare s1 s3 = Lt.
Proof.
  revert s2 s3. induction s1 as [|a s1 IH]; intros [|b s2] [|c s3]; simpl; try done.
  unfold Ascii.compare.
  destruct (N.compare_spec (Ascii.N_of_ascii a) (Ascii.N_of_ascii b)) as [Hab|Hab|Hab]; try done;
  destruct (N.compare_spec (Ascii.N_of_ascii b) (Ascii.N_of_ascii c)) as [Hbc|Hbc|Hbc]; try done;
  destruct (N.compare_spec (Ascii.N_of_ascii a) (Ascii.N_of_ascii c)) as [Hac|Hac|Hac]; try done;
  try lia. apply IH.
Qed.

#[export] Program Instance string_order : KeyOrder string :=
  {| kcmp := String.compare; kcmp_trans := string_compare_trans |}.
Next Obligation.
  intros a b. split; [apply String.compare_eq_iff|intros <-].
  pose proof (String.compare_antisym a a) as H. by destruct (String.compare a a).
Qed.
Next Obligation. exact String.compare_antisym. Qed.

Module StdMap.
Section map.
Context {K V : Type} `{KeyOrder K}.

(** ** Operations *)

(** [m.find(k)]. *)
Fixpoint find (k : K) (m : list (K * V)) : option V :=
  match m with
  | [] => None
  | (k', v) :: m' => match kcmp k k' with Eq => Some v | _ => find k m' end
  end.

(** Insert or rewrite the binding of [k], keeping the order. *)
Fixpoint upsert (k : K) (f : option V -> V) (m : list (K * V)) : list (K * V) :=
  match m with
  | [] => [(k, f None)]
  | (k', v) :: m' =>
      match kcmp k k' with
      | Lt => (k, f None) :: m
      | Eq => (k', f (Some v)) :: m'
      | Gt => (k', v) :: upsert k f m'
      end
  end.

(** [m[k] = v]. *)
Definition assign (k : K) (v : V) : list (K * V) -> list (K * V) := upsert k (fun _ => v).

(** [m.emplace(k, v)]: an existing binding stays. *)
Definition emplace (k : K) (v : V) : list (K * V) -> list (K * V) := upsert k (default v).

(** [auto& x = m[k]; x = g(x)], with [d] the value-initialised element. *)
Definition modify (d : V) (k : K) (g : V -> V) : list (K * V) -> list (K * V) :=
  upsert k (fun o => g (default d o)).

(** The keys, in iteration order. *)
Definition keys (m : list (K * V)) : list K := m.*1.

(** ** Invariant *)

Definition klt (a b : K) : Prop := kcmp a b = Lt.

Definition sorted (m : list (K * V)) : Prop := StronglySorted klt (keys m).

(** Executable form of [sorted] for consecutive keys. *)
Fixpoint sortedb (m : list (K * V)) : bool :=
  match m with
  | (k1, _) :: ((k2, _) :: _) as m' =>
      match kcmp k1 k2 with Lt => sortedb m' | _ => false end
  | _ => true
  end.

(** ** Lemmas *)

Lemma kcmp_refl k : kcmp k k = Eq.
Proof. by apply kcmp_eq. Qed.

Lemma kcmp_gt_lt a b : kcmp a b = Gt -> kcmp b a = Lt.
Proof. rewrite kcmp_antisym. by destruct (kcmp b a). Qed.

Lemma klt_irrefl a : ~ klt a a.
Proof. unfold klt. by rewrite kcmp_refl. Qed.

Lemma klt_Forall_trans a b l : Forall (klt b) l -> klt a b -> Forall (klt a) l.
Proof.
  rewrite !list.Forall_forall. intros Hall Hab y Hy. eapply kcmp_trans; [exact Hab|by apply Hall].
Qed.

Lemma sorted_nil : sorted [].
Proof. constructor. Qed.

Lemma sorted_cons_inv k v m :
  sorted ((k, v) :: m) -> sorted m /\ Forall (klt k) (keys m).
Proof. unfold sorted, keys; simpl. inversion_clear 1. done. Qed.

Lemma keys_upsert k f m x : x ∈ keys (upsert k f m) <-> x = k \/ x ∈ keys m.
Proof.
  induction m as [|[k' v] m IH]; simpl.
  - rewrite list_elem_of_singleton, elem_of_nil. tauto.
  - destruct (kcmp k k') eqn:E; simpl; rewrite ?elem_of_cons.
    + apply kcmp_eq in E as ->. tauto.
    + tauto.
    + rewrite IH. tauto.
Qed.

Lemma upsert_sorted k f m : sorted m -> sorted (upsert k f m).
Proof.
  induction m as [|[k' v] m IH]; intros Hs; simpl; [repeat constructor|].
  destruct (kcmp k k') eqn:E; [done| |].
  - apply sorted_cons_inv in Hs as Hs'. destruct Hs' as [_ Hall].
    constructor; [done|]. constructor; [done|].
    eapply klt_Forall_trans; [exact Hall|done].
  - apply sorted_cons_inv in Hs as [Hs Hall]. constructor; [by apply IH|].
    apply list.Forall_forall. intros y [->|Hy]%keys_upsert.
    + by apply kcmp_gt_lt.
    + by eapply list.Forall_forall in Hall.
Qed.

Lemma find_not_in k m : k ∉ keys m -> find k m = None.
Proof.
  induction m as [|[k' v] m IH]; simpl; [done|]. intros Hk.
  destruct (kcmp k k') eqn:E; [|apply IH; set_solver..].
  apply kcmp_eq in E as ->. set_solver.
Qed.

Lemma find_below k m : Forall (klt k) (keys m) -> find k m = None.
Proof.
  intros Hall. apply find_not_in. intros Hk.
  eapply list.Forall_forall in Hall; [|exact Hk]. by apply klt_irrefl in Hall.
Qed.

Lemma find_upsert k k' f m : sorted m ->
  find k' (upsert k f m) =
  match kcmp k' k with Eq => Some (f (find k m)) | _ => find k' m end.
Proof.
  induction m as [|[k1 v] m IH]; intros Hs; simpl; [by destruct (kcmp k' k)|].
  apply sorted_cons_inv in Hs as [Hs Hall].
  destruct (kcmp k k1) eqn:E; simpl.
  - apply kcmp_eq in E as ->. by destruct (kcmp k' k1).
  - rewrite (find_below k m); [done|].
    eapply klt_Forall_trans; [exact Hall|done].
  - rewrite IH by done. destruct (kcmp k' k1) eqn:E1; try done.
    apply kcmp_eq in E1 as ->.
    destruct (kcmp k1 k) eqn:E2; try done. apply kcmp_eq in E2 as ->.
    by rewrite kcmp_refl in E.
Qed.

Lemma find_upsert_eq k f m : sorted m -> find k (upsert k f m) = Some (f (find k m)).
Proof. intros Hs. by rewrite find_upsert, kcmp_refl. Qed.

Lemma find_upsert_ne k k' f m : sorted m -> k' <> k -> find k' (upsert k f m) = find k' m.
Proof.
  intros Hs Hne. rewrite find_upsert by done.
  destruct (kcmp k' k) eqn:E; [|done..]. by apply kcmp_eq in E.
Qed.

Lemma find_Some_in k v m : find k m = Some v -> (k, v) ∈ m.
Proof.
  induction m as [|[k' v'] m IH]; simpl; [done|].
  destruct (kcmp k k') eqn:E; [|set_solver..].
  apply kcmp_eq in E as ->. intros [= ->]. set_solver.
Qed.

Lemma in_find k v m : sorted m -> (k, v) ∈ m -> find k m = Some v.
Proof.
  induction m as [|[k' v'] m IH]; intros Hs Hin; simpl; [set_solver|].
  apply sorted_cons_inv in Hs as [Hs Hall].
  apply elem_of_cons in Hin as [[= -> ->]|Hin]; [by rewrite kcmp_refl|].
  rewrite IH by done. destruct (kcmp k k') eqn:E; [|done..].
  apply kcmp_eq in E as ->. eapply list.Forall_forall in Hall; [by apply klt_irrefl in Hall|].
  apply list_elem_of_fmap. by exists (k', v).
Qed.

Lemma find_iff k v m : sorted m -> find k m = Some v <-> (k, v) ∈ m.
Proof. split; [apply find_Some_in|by apply in_find]. Qed.

Lemma find_is_Some_keys k m : is_Some (find k m) <-> k ∈ keys m.
Proof.
  split.
  - intros [v Hv%find_Some_in]. apply list_elem_of_fmap. by exists (k, v).
  - intros Hk. destruct (find k m) eqn:E; [done|].
    induction m as [|[k' v] m IH]; simpl in *; [set_solver|].
    destruct (kcmp k k') eqn:E'; [done|..]; apply elem_of_cons in Hk as [->|Hk]; eauto;
      by rewrite kcmp_refl in E'.
Qed.

Lemma keys_NoDup m : sorted m -> NoDup (keys m).
Proof.
  induction m as [|[k v] m IH]; intros Hs; simpl; [constructor|].
  apply sorted_cons_inv in Hs as [Hs Hall]. constructor; [|by apply IH].
  intros Hk. eapply list.Forall_forall in Hall; [|exact Hk]. by apply klt_irrefl in Hall.
Qed.

(** Two maps with the same lookups are the same list. *)
Lemma sorted_ext m1 m2 :
  sorted m1 -> sorted m2 -> (forall k, find k m1 = find k m2) -> m1 = m2.
Proof.
  revert m2. induction m1 as [|[k1 v1] m1 IH]; intros [|[k2 v2] m2] Hs1 Hs2 Heq; [done|..].
  - specialize (Heq k2). simpl in Heq. by rewrite kcmp_refl in Heq.
  - specialize (Heq k1). simpl in Heq. by rewrite kcmp_refl in Heq.
  - apply sorted_cons_inv in Hs1 as [Hs1 Ha1], Hs2 as [Hs2 Ha2].
    pose proof (Heq k1) as H1. pose proof (Heq k2) as H2. simpl in H1, H2.
    rewrite kcmp_refl in H1, H2.
    destruct (kcmp k1 k2) eqn:E.
    + apply kcmp_eq in E as ->. simplify_eq. f_equal. apply IH; [done..|].
      intros k. specialize (Heq k). simpl in Heq. destruct (kcmp k k2) eqn:E; [|done..].
      apply kcmp_eq in E as ->. by rewrite !find_below.
    + rewrite (find_below k1 m2) in H1; [done|].
      eapply klt_Forall_trans; [exact Ha2|done].
    + apply kcmp_gt_lt in E. rewrite E in H2. rewrite (find_below k2 m1) in H2; [done|].
      eapply klt_Forall_trans; [exact Ha1|done].
Qed.

Lemma sortedb_sorted m : sortedb m = true -> sorted m.
Proof.
  intros Hb. apply Sorted_StronglySorted.
  { intros a b c. unfold klt. apply kcmp_trans. }
  induction m as [|[k1 v1] m IH]; [constructor|].
  destruct m as [|[k2 v2] m]; [repeat constructor|].
  cbn [sortedb] in Hb. destruct (kcmp k1 k2) eqn:E; [done| |done].
  constructor; [by apply IH|by constructor].
Qed.

Lemma keys_app m1 m2 : keys (m1 ++ m2) = keys m1 ++ keys m2.
Proof. apply fmap_app. Qed.

(** A key above all others is inserted at the end. *)
Lemma upsert_above k f m :
  Forall (fun k' => klt k' k) (keys m) -> upsert k f m = m ++ [(k, f None)].
Proof.
  induction m as [|[k' v] m IH]; simpl; [done|].
  intros [Hk' Hall]%list.Forall_cons. unfold klt in Hk'.
  rewrite kcmp_antisym, Hk'. simpl. by rewrite IH.
Qed.

(** Emplacing the bindings of a map in its own order rebuilds it. *)
Lemma fold_emplace_sorted m0 m :
  sorted (m0 ++ m) -> fold_left (fun a kv => emplace kv.1 kv.2 a) m m0 = m0 ++ m.
Proof.
  revert m0. induction m as [|[k v] m IH]; intros m0 Hs; simpl; [by rewrite app_nil_r|].
  unfold emplace at 2. rewrite upsert_above; simpl.
  - rewrite IH by (by rewrite <- (assoc_L (++))). by rewrite <- (assoc_L (++)).
  - clear IH. induction m0 as [|[k0 v0] m0 IH0]; simpl; [constructor|].
    apply sorted_cons_inv in Hs as [Hs Hall]. constructor; [|by apply IH0].
    rewrite keys_app in Hall. apply Forall_app in Hall as [_ Hall]. by inversion Hall.
Qed.

Lemma sorted_snoc_inv m k v :
  sorted (m ++ [(k, v)]) -> sorted m /\ Forall (fun k' => klt k' k) (keys m).
Proof.
  induction m as [|[k' v'] m IH]; intros Hs; simpl; [split; constructor|].
  apply sorted_cons_inv in Hs as [Hs Hall]. rewrite keys_app in Hall.
  apply Forall_app in Hall as [Hm Hk]. apply Forall_inv in Hk.
  destruct (IH Hs) as [Hs' Hlt]. split; [by constructor|].
  constructor; [exact Hk|exact Hlt].
Qed.

(** Grouping: a loop that runs [x = g(e, x)] on [m[key(e)]] folds each key's own
    elements, in order, and touches no other key. *)
Section group.
Context {E : Type} `{!EqDecision K} (key : E -> K) (g : E -> V -> V) (d : V).

Definition group_by (es : list E) (m : list (K * V)) : list (K * V) :=
  fold_left (fun m e => modify d (key e) (g e) m) es m.

Lemma group_by_sorted es m : sorted m -> sorted (group_by es m).
Proof.
  revert m. unfold group_by. induction es as [|e es IH]; intros m Hs; [done|].
  by apply IH, upsert_sorted.
Qed.

Lemma find_group_by k es m : sorted m ->
  find k (group_by es m) =
  match filter (fun e => key e = k) es with
  | [] => find k m
  | mine => Some (fold_left (fun v e => g e v) mine (default d (find k m)))
  end.
Proof.
  revert m. induction es as [|e es IH]; intros m Hs; [done|].
  unfold group_by. simpl fold_left. fold (group_by es (modify d (key e) (g e) m)).
  rewrite IH by (by apply upsert_sorted). unfold modify. rewrite filter_cons.
  destruct (decide (key e = k)) as [<-|Hne].
  - rewrite find_upsert_eq by done. by destruct (filter _ es).
  - by rewrite find_upsert_ne by done.
Qed.

Lemma keys_group_by es m k :
  k ∈ keys (group_by es m) <-> k ∈ keys m \/ k ∈ key <$> es.
Proof.
  revert m. induction es as [|e es IH]; intros m; simpl.
  - split; [by left|]. intros [?|[]%not_elem_of_nil]; done.
  - rewrite elem_of_cons. unfold group_by. simpl.
    fold (group_by es (modify d (key e) (g e) m)).
    rewrite IH. unfold modify. rewrite keys_upsert. tauto.
Qed.

End group.

End map.
End StdMap.

#[export] Hint Resolve StdMap.sorted_nil StdMap.upsert_sorted StdMap.group_by_sorted : core.
