(* ===== verification/Identity.v ===== *)
(** * Identities and generations (include/inference-ledger/identity.hpp, config.hpp)

    A 128-bit identity is a pair of 64-bit words under a phantom tag, so that a
    request id and a tenant id are values of different types, as in the sources.
    Byte and hexadecimal forms, the canonical order, and the wrapping generation
    counters. The file proves that both textual and binary forms are exact. *)

From Stdlib Require Import Strings.Byte Strings.Ascii.
From stdpp Require Import base countable list strings numbers.
From S2P Require Import Prelude StdMap.
Open Scope Z_scope.

(** ** Configuration constants *)

Definition kSchemaVersion : Z := 1.
Definition kCodecEndianMarker : Z := 0xBE.
Definition kLedgerMagic : Z := 0x494C45444745524B.
Definition kIdentityBytes : nat := 16.

(** ** 128-bit identities *)

Inductive IdTag :=
| RequestIdTag | TenantIdTag | WorkloadIdTag | ModelIdTag | ModelRevisionIdTag
| AdapterIdTag | SequenceIdTag | BatchIdTag | AttemptIdTag | DispatchIdTag
| WorkerIdTag | WorkerBootIdTag | NodeIdTag | DeviceIdTag | ReservationIdTag
| AllocationIdTag | TransferIdTag | KernelArtifactIdTag | GraphArtifactIdTag
| KVStateIdTag | TensorStateIdTag | LedgerEntryIdTag | LedgerIdTag
| PricingPolicyIdTag | AccountingPolicyIdTag.

Record Id128 (Tag : IdTag) := MkId { hi_ : Z; lo_ : Z }.
Arguments MkId {Tag} _ _.
Arguments hi_ {Tag} _.
Arguments lo_ {Tag} _.

Abbreviation RequestId := (Id128 RequestIdTag).
Abbreviation TenantId := (Id128 TenantIdTag).
Abbreviation WorkloadId := (Id128 WorkloadIdTag).
Abbreviation ModelId := (Id128 ModelIdTag).
Abbreviation ModelRevisionId := (Id128 ModelRevisionIdTag).
Abbreviation AdapterId := (Id128 AdapterIdTag).
Abbreviation BatchId := (Id128 BatchIdTag).
Abbreviation AttemptId := (Id128 AttemptIdTag).
Abbreviation DispatchId := (Id128 DispatchIdTag).
Abbreviation WorkerId := (Id128 WorkerIdTag).
Abbreviation WorkerBootId := (Id128 WorkerBootIdTag).
Abbreviation NodeId := (Id128 NodeIdTag).
Abbreviation DeviceId := (Id128 DeviceIdTag).
Abbreviation LedgerEntryId := (Id128 LedgerEntryIdTag).
Abbreviation LedgerId := (Id128 LedgerIdTag).
Abbreviation PricingPolicyId := (Id128 PricingPolicyIdTag).
Abbreviation AccountingPolicyId := (Id128 AccountingPolicyIdTag).

#[export] Instance Id128_eq_dec Tag : EqDecision (Id128 Tag).
Proof. solve_decision. Defined.

#[export] Program Instance Id128_countable Tag : Countable (Id128 Tag) :=
  inj_countable' (fun i => (hi_ i, lo_ i)) (fun p => MkId p.1 p.2) _.
Next Obligation. by intros Tag []. Qed.

Section id.
Context {Tag : IdTag}.
Implicit Types i : Id128 Tag.

(** Both words are 64-bit values: the type invariant of the C++ members. *)
Definition id_wf i : Prop := in_width 64 (hi_ i) /\ in_width 64 (lo_ i).

(** The default constructor. *)
Definition id_zero : Id128 Tag := MkId 0 0.

Definition is_zero i : bool := (hi_ i =? 0) && (lo_ i =? 0).

(** [operator==]. *)
Definition id_eqb (a b : Id128 Tag) : bool := (hi_ a =? hi_ b) && (lo_ a =? lo_ b).

(** [operator<=>]: the high word, then the low word. *)
Definition id_compare (a b : Id128 Tag) : comparison :=
  if hi_ a <? hi_ b then Lt
  else if hi_ b <? hi_ a then Gt
  else if lo_ a <? lo_ b then Lt
  else if lo_ b <? lo_ a then Gt
  else Eq.

(** [to_bytes]: sixteen bytes, big-endian. *)
Definition to_bytes i : list byte := bytes64 (hi_ i) ++ bytes64 (lo_ i).

(** [from_bytes]; the caller supplies at least sixteen bytes. *)
Definition from_bytes (bs : list byte) : option (Id128 Tag) :=
  match bs with
  | b0 :: b1 :: b2 :: b3 :: b4 :: b5 :: b6 :: b7 ::
    b8 :: b9 :: b10 :: b11 :: b12 :: b13 :: b14 :: b15 :: _ =>
      Some (MkId (be64 b0 b1 b2 b3 b4 b5 b6 b7) (be64 b8 b9 b10 b11 b12 b13 b14 b15))
  | _ => None
  end.

(** [combine], the hash behind the entry index. *)
Definition combine (hi lo : Z) : Z := Z.lxor hi (wrap 64 (lo * 0x9E3779B97F4A7C15)).
End id.

(** ** Hexadecimal form *)

Definition char_val (c : ascii) : Z := Z.of_N (N_of_ascii c).

Definition hex_to_nibble (c : ascii) : Z :=
  let v := char_val c in
  if (char_val "0" <=? v) && (v <=? char_val "9") then v - char_val "0"
  else if (char_val "a" <=? v) && (v <=? char_val "f") then v - char_val "a" + 10
  else if (char_val "A" <=? v) && (v <=? char_val "F") then v - char_val "A" + 10
  else -1.

(** The loop of [parse] from index [i], with the words accumulated so far. *)
Fixpoint parse_loop (i : Z) (hex : string) (hi lo : Z) : option (Z * Z) :=
  match hex with
  | EmptyString => Some (hi, lo)
  | String c rest =>
      let nib := hex_to_nibble c in
      if nib <? 0 then None
      else
        let byte_index := i / 2 in
        let shift := if i mod 2 =? 0 then 4 else 0 in
        if byte_index <? 8 then
          parse_loop (i + 1) rest
            (Z.lor hi (wrap 64 (Z.shiftl (Z.land nib 0x0F) (56 - byte_index * 8 + shift)))) lo
        else
          let lo_idx := byte_index - 8 in
          parse_loop (i + 1) rest hi
            (Z.lor lo (wrap 64 (Z.shiftl (Z.land nib 0x0F) (56 - lo_idx * 8 + shift))))
  end.

Definition parse {Tag} (hex : string) : option (Id128 Tag) :=
  if negb (Nat.eqb (String.length hex) 32) then None
  else (fun p => MkId p.1 p.2) <$> parse_loop 0 hex 0 0.

Definition kHex : list ascii :=
  ["0"; "1"; "2"; "3"; "4"; "5"; "6"; "7"; "8"; "9"; "a"; "b"; "c"; "d"; "e"; "f"]%char.

(** [kHex[n]], for the indices below sixteen the sources use. *)
Definition hex_digit (n : Z) : ascii := nth (Z.to_nat n) kHex "0"%char.

(** The two characters of a byte. *)
Definition hex_of_byte (b : byte) (rest : string) : string :=
  String (hex_digit (Z.land (Z.shiftr (byte_to_Z b) 4) 0x0F))
    (String (hex_digit (Z.land (byte_to_Z b) 0x0F)) rest).

Definition hex_of_bytes (bs : list byte) : string := foldr hex_of_byte EmptyString bs.

Definition to_string {Tag} (i : Id128 Tag) : string := hex_of_bytes (to_bytes i).

(** ** Generations *)

Inductive GenTag :=
| CoordinatorEpochTag | RequestGenerationTag | AttemptGenerationTag | AccountingGenerationTag.

Record Generation (Tag : GenTag) := MkGen { value : Z }.
Arguments MkGen {Tag} _.
Arguments value {Tag} _.

Abbreviation CoordinatorEpoch := (Generation CoordinatorEpochTag).
Abbreviation RequestGeneration := (Generation RequestGenerationTag).
Abbreviation AttemptGeneration := (Generation AttemptGenerationTag).
Abbreviation AccountingGeneration := (Generation AccountingGenerationTag).

#[export] Instance Generation_eq_dec Tag : EqDecision (Generation Tag).
Proof. solve_decision. Defined.

Section generation.
Context {Tag : GenTag}.
Implicit Types g : Generation Tag.

Definition gen_wf g : Prop := in_width 64 (value g).
Definition gen_zero : Generation Tag := MkGen 0.
Definition gen_eqb (a b : Generation Tag) : bool := value a =? value b.
Definition gen_compare (a b : Generation Tag) : comparison := value a ?= value b.

(** [next()]: the counter wraps at 2^64. *)
Definition next g : Generation Tag := MkGen (wrap 64 (value g + 1)).
End generation.

(** ** Lemmas *)

Lemma id_eqb_eq {Tag} (a b : Id128 Tag) : id_eqb a b = true <-> a = b.
Proof.
  unfold id_eqb. rewrite andb_true_iff, !Z.eqb_eq. destruct a, b; simpl.
  split; [intros [-> ->]; done|by intros [= -> ->]].
Qed.

Lemma id_eqb_refl {Tag} (a : Id128 Tag) : id_eqb a a = true.
Proof. by apply id_eqb_eq. Qed.

Lemma id_eqb_neq {Tag} (a b : Id128 Tag) : id_eqb a b = false <-> a <> b.
Proof. rewrite <- not_true_iff_false, id_eqb_eq. done. Qed.

Lemma gen_eqb_eq {Tag} (a b : Generation Tag) : gen_eqb a b = true <-> a = b.
Proof.
  unfold gen_eqb. rewrite Z.eqb_eq. destruct a, b; simpl. split; congruence.
Qed.

Lemma gen_eqb_refl {Tag} (a : Generation Tag) : gen_eqb a a = true.
Proof. by apply gen_eqb_eq. Qed.

Create Rewrite HintDb identity.
#[export] Hint Rewrite @id_eqb_refl @gen_eqb_refl : identity.

Lemma id_compare_spec {Tag} (a b : Id128 Tag) :
  id_compare a b =
  match hi_ a ?= hi_ b with Eq => lo_ a ?= lo_ b | c => c end.
Proof.
  unfold id_compare, Z.ltb.
  rewrite (Z.compare_antisym (hi_ a) (hi_ b)), (Z.compare_antisym (lo_ a) (lo_ b)).
  by destruct (hi_ a ?= hi_ b), (lo_ a ?= lo_ b).
Qed.

#[export] Program Instance id_order Tag : KeyOrder (Id128 Tag) := {| kcmp := id_compare |}.
Next Obligation.
  intros Tag a b. rewrite id_compare_spec. destruct a as [ha la], b as [hb lb]; simpl.
  destruct (Z.compare_spec ha hb), (Z.compare_spec la lb); split; intros; simplify_eq; try done; lia.
Qed.
Next Obligation.
  intros Tag a b. rewrite !id_compare_spec.
  rewrite (Z.compare_antisym (hi_ b) (hi_ a)), (Z.compare_antisym (lo_ b) (lo_ a)).
  by destruct (hi_ b ?= hi_ a).
Qed.
Next Obligation.
  intros Tag a b c. rewrite !id_compare_spec.
  destruct (Z.compare_spec (hi_ a) (hi_ b)), (Z.compare_spec (hi_ b) (hi_ c)),
    (Z.compare_spec (hi_ a) (hi_ c)), (Z.compare_spec (lo_ a) (lo_ b)),
    (Z.compare_spec (lo_ b) (lo_ c)), (Z.compare_spec (lo_ a) (lo_ c)); try done; lia.
Qed.

Lemma length_to_bytes {Tag} (i : Id128 Tag) : length (to_bytes i) = kIdentityBytes.
Proof. done. Qed.

Lemma from_bytes_to_bytes_app {Tag} (i : Id128 Tag) rest :
  id_wf i -> from_bytes (to_bytes i ++ rest) = Some i.
Proof.
  intros [Hh Hl]. unfold to_bytes, bytes64. cbn [app from_bytes].
  rewrite !be64_bytes64, !wrap_small by done. by destruct i.
Qed.

Lemma from_bytes_wf {Tag} bs (i : Id128 Tag) : from_bytes bs = Some i -> id_wf i.
Proof.
  intros H. do 16 (destruct bs as [|? bs]; [discriminate H|]).
  injection H as <-. split; apply be64_range.
Qed.

(** [from_bytes] succeeds exactly on sixteen bytes or more. *)
Lemma from_bytes_is_Some {Tag} bs :
  (kIdentityBytes <= length bs)%nat -> is_Some (@from_bytes Tag bs).
Proof.
  intros H. unfold kIdentityBytes in H.
  do 16 (destruct bs as [|? bs]; [simpl in H; lia|]). by eexists.
Qed.

Lemma to_bytes_from_bytes {Tag} bs (i : Id128 Tag) :
  from_bytes bs = Some i -> to_bytes i = take kIdentityBytes bs.
Proof.
  intros H. do 16 (destruct bs as [|? bs]; [discriminate H|]).
  injection H as <-. unfold to_bytes. cbn [hi_ lo_]. by rewrite !bytes64_be64.
Qed.

(** *** Hexadecimal *)

Lemma hex_to_nibble_digit n : 0 <= n < 16 -> hex_to_nibble (hex_digit n) = n.
Proof.
  intros Hn.
  assert (forallb (fun k => hex_to_nibble (hex_digit (Z.of_nat k)) =? Z.of_nat k) (seq 0 16) = true)
    as Hall by reflexivity.
  rewrite forallb_forall in Hall. specialize (Hall (Z.to_nat n)).
  rewrite Z2Nat.id in Hall by lia. apply Z.eqb_eq, Hall, in_seq. lia.
Qed.

Lemma land_15_range z : 0 <= Z.land z 15 < 16.
Proof. change 15 with (Z.ones 4). rewrite Z.land_ones by lia. apply Z.mod_pos_bound. lia. Qed.

Lemma land_15_idemp z : Z.land (Z.land z 15) 15 = Z.land z 15.
Proof. by rewrite <- Z.land_assoc. Qed.

(** The two nibbles of a byte, or-ed in at their shifts, are the byte at its shift. *)
Lemma or_nibbles acc b s :
  0 <= s <= 56 ->
  Z.lor (Z.lor acc (wrap 64 (Z.shiftl (Z.land (Z.shiftr (byte_to_Z b) 4) 15) (s + 4))))
        (wrap 64 (Z.shiftl (Z.land (byte_to_Z b) 15) s))
  = Z.lor acc (Z.shiftl (byte_to_Z b) s).
Proof.
  intros Hs. pose proof (byte_to_Z_range b) as Hb. rewrite <- Z.lor_assoc. f_equal.
  change 15 with (Z.ones 4). rewrite !Z.land_ones by lia.
  rewrite (Z.shiftr_div_pow2 _ 4) by lia.
  assert (0 < 2 ^ s <= 2 ^ 56) as Hp by (split; [|apply Z.pow_le_mono_r]; lia).
  assert ((byte_to_Z b / 2 ^ 4) mod 2 ^ 4 = byte_to_Z b / 2 ^ 4) as -> by divlia.
  assert (2 ^ (s + 4) = 16 * 2 ^ s) as Hs4 by (rewrite Z.pow_add_r by lia; lia).
  rewrite !Z.shiftl_mul_pow2 by lia. rewrite Hs4.
  assert (0 <= byte_to_Z b / 2 ^ 4 < 16) by divlia.
  assert (0 <= byte_to_Z b mod 2 ^ 4 < 16) by divlia.
  rewrite !wrap_small by (unfold in_width; nia).
  rewrite (lor_disjoint_add (s + 4)); rewrite ?Hs4; [|lia|nia|].
  - rewrite (Z.div_mod (byte_to_Z b) (2 ^ 4)) at 3 by lia. lia.
  - by rewrite Z_mod_mult.
Qed.

Lemma parse_loop_high i b rest hi lo :
  0 <= i < 16 -> i mod 2 = 0 ->
  parse_loop i (hex_of_byte b rest) hi lo =
  parse_loop (i + 2) rest (Z.lor hi (Z.shiftl (byte_to_Z b) (56 - i / 2 * 8))) lo.
Proof.
  intros Hi Hmod. unfold hex_of_byte. cbn [parse_loop].
  rewrite !hex_to_nibble_digit by apply land_15_range.
  pose proof (land_15_range (Z.shiftr (byte_to_Z b) 4)).
  pose proof (land_15_range (byte_to_Z b)).
  rewrite !(proj2 (Z.ltb_ge _ 0)) by lia. rewrite !land_15_idemp.
  replace ((i + 1) / 2) with (i / 2) by divlia. replace ((i + 1) mod 2) with 1 by divlia.
  rewrite Hmod, (proj2 (Z.ltb_lt (i / 2) 8)) by divlia. simpl Z.eqb. cbv iota.
  rewrite Z.add_0_r, or_nibbles by divlia. f_equal; lia.
Qed.

Lemma parse_loop_low i b rest hi lo :
  16 <= i < 32 -> i mod 2 = 0 ->
  parse_loop i (hex_of_byte b rest) hi lo =
  parse_loop (i + 2) rest hi (Z.lor lo (Z.shiftl (byte_to_Z b) (56 - (i / 2 - 8) * 8))).
Proof.
  intros Hi Hmod. unfold hex_of_byte. cbn [parse_loop].
  rewrite !hex_to_nibble_digit by apply land_15_range.
  pose proof (land_15_range (Z.shiftr (byte_to_Z b) 4)).
  pose proof (land_15_range (byte_to_Z b)).
  rewrite !(proj2 (Z.ltb_ge _ 0)) by lia. rewrite !land_15_idemp.
  replace ((i + 1) / 2) with (i / 2) by divlia. replace ((i + 1) mod 2) with 1 by divlia.
  rewrite Hmod, (proj2 (Z.ltb_ge (i / 2) 8)) by divlia. simpl Z.eqb. cbv iota.
  rewrite Z.add_0_r, or_nibbles by divlia. f_equal; lia.
Qed.

(** Parsing the hexadecimal form of sixteen bytes reads the two words they hold. *)
Lemma parse_loop_bytes b0 b1 b2 b3 b4 b5 b6 b7 b8 b9 b10 b11 b12 b13 b14 b15 :
  parse_loop 0 (hex_of_bytes [b0; b1; b2; b3; b4; b5; b6; b7;
                              b8; b9; b10; b11; b12; b13; b14; b15]) 0 0
  = Some (be64 b0 b1 b2 b3 b4 b5 b6 b7, be64 b8 b9 b10 b11 b12 b13 b14 b15).
Proof.
  unfold hex_of_bytes. cbn [foldr].
  do 8 rewrite parse_loop_high by done. do 8 rewrite parse_loop_low by done.
  reflexivity.
Qed.

(** Printing an identity and parsing the text gives it back. *)
Lemma parse_to_string_id {Tag} (i : Id128 Tag) : id_wf i -> parse (to_string i) = Some i.
Proof.
  intros [Hh Hl]. unfold parse, to_string, to_bytes, bytes64. cbn [app].
  rewrite parse_loop_bytes, !be64_bytes64, !wrap_small by done. by destruct i.
Qed.

Lemma to_string_inj {Tag} (i j : Id128 Tag) :
  id_wf i -> id_wf j -> to_string i = to_string j -> i = j.
Proof.
  intros Hi Hj Heq. apply (f_equal (@parse Tag)) in Heq.
  rewrite !parse_to_string_id in Heq by done. congruence.
Qed.

(** *** Generations *)

Lemma next_wf {Tag} (g : Generation Tag) : gen_wf (next g).
Proof. apply wrap_in_width. lia. Qed.

(** Below the last value of the counter, [next] is strictly larger. *)
Lemma next_value {Tag} (g : Generation Tag) :
  gen_wf g -> value g <> 2 ^ 64 - 1 -> value (next g) = value g + 1.
Proof. unfold gen_wf, in_width. intros. apply wrap_small. unfold in_width. lia. Qed.

Lemma next_ne {Tag} (g : Generation Tag) : gen_wf g -> next g <> g.
Proof.
  unfold gen_wf, in_width, next, wrap. destruct g as [v]; simpl. intros Hv [= Heq]. divlia.
Qed.

#[export] Hint Resolve next_wf next_ne : core.
