(* ===== verification/Reader.v ===== *)
(** * Byte writer and byte reader (include/inference-ledger/codec.hpp)

    [ByteWriter]: each operation denotes the bytes it appends to the buffer.
    [ByteReader]: a cursor over a buffer with a sticky failure flag; its methods
    are the operations of a small state-and-error monad [Rd], in which a failed
    read stops the caller, as every caller in the sources does.

    [reads m bs a]: [m] consumes exactly [bs] and returns [a]. The class
    [WireFormat] is the contract of a field: a writer, a reader, and the law that
    the reader undoes the writer; records are encoded from its instances. *)

From Stdlib Require Import Strings.Byte.
From stdpp Require Import base list strings numbers.
From S2P Require Import Prelude Identity.
Open Scope Z_scope.

(** ** ByteWriter *)

Definition put_u8 (v : Z) : list byte := [byte_of_Z v].

Definition put_u16 (v : Z) : list byte := [byte_of_Z (Z.shiftr v 8); byte_of_Z v].

Definition put_u32 (v : Z) : list byte :=
  put_u8 (Z.shiftr v 24) ++ put_u8 (Z.shiftr v 16) ++ put_u8 (Z.shiftr v 8) ++ put_u8 v.

Definition put_u64 (v : Z) : list byte :=
  put_u32 (wrap 32 (Z.shiftr v 32)) ++ put_u32 (wrap 32 v).

Definition put_bool8 (b : bool) : list byte := put_u8 (if b then 1 else 0).

Definition put_id {Tag} (i : Id128 Tag) : list byte := to_bytes i.

(** A string of 2^32 bytes or more is dropped without a trace. *)
Definition put_string (s : string) : list byte :=
  let n := Z.of_nat (String.length s) in
  if 0xFFFFFFFF <? n then [] else put_u32 n ++ String.list_byte_of_string s.

(** ** ByteReader *)

Record ByteReader := MkReader {
  rd_data : list byte;   (** [p_], of length [n_] *)
  rd_pos : nat;
  rd_ok : bool
}.

#[export] Instance ByteReader_rebuild : Rebuild ByteReader :=
  fun r => MkReader (rd_data r) (rd_pos r) (rd_ok r).

Definition reader_of (bs : list byte) : ByteReader := MkReader bs 0 true.

Definition remaining (r : ByteReader) : nat :=
  if (rd_pos r <=? length (rd_data r))%nat then (length (rd_data r) - rd_pos r)%nat else 0%nat.

Definition rd_fail (r : ByteReader) : ByteReader := r <| rd_ok := false |>.

Definition rd_reset (r : ByteReader) : ByteReader := r <| rd_pos := 0%nat |> <| rd_ok := true |>.

(** A reading operation: the value if it returned [true], and the reader after it. *)
Definition Rd (A : Type) : Type := ByteReader -> option A * ByteReader.

Definition rd_ret {A} (a : A) : Rd A := fun r => (Some a, r).

(** [return false] without touching the flag. *)
Definition rd_reject {A} : Rd A := fun r => (None, r).

Definition rd_bind {A B} (m : Rd A) (k : A -> Rd B) : Rd B := fun r =>
  match m r with
  | (Some a, r') => k a r'
  | (None, r') => (None, r')
  end.

Notation "'let*' x := m 'in' k" := (rd_bind m (fun x => k))
  (at level 10, x pattern, m at level 100, k at level 200).

(** [if (!c) return false;] *)
Definition rd_check (c : bool) : Rd unit := if c then rd_ret tt else rd_reject.

(** Set the failure flag when [m] fails. *)
Definition rd_or_fail {A} (m : Rd A) : Rd A := fun r =>
  match m r with
  | (Some a, r') => (Some a, r')
  | (None, r') => (None, rd_fail r')
  end.

Definition get_u8 : Rd Z := fun r =>
  if (remaining r <? 1)%nat then (None, rd_fail r)
  else match rd_data r !! rd_pos r with
       | Some b => (Some (byte_to_Z b), r <| rd_pos ::= S |>)
       | None => (None, rd_fail r)
       end.

Definition get_u16 : Rd Z := rd_or_fail (
  let* a := get_u8 in
  let* b := get_u8 in
  rd_ret (Z.lor (Z.shiftl a 8) b)).

Definition get_u32 : Rd Z := rd_or_fail (
  let* a := get_u8 in
  let* b := get_u8 in
  let* c := get_u8 in
  let* d := get_u8 in
  rd_ret (Z.lor (Z.lor (Z.lor (Z.shiftl a 24) (Z.shiftl b 16)) (Z.shiftl c 8)) d)).

Definition get_u64 : Rd Z := rd_or_fail (
  let* hi := get_u32 in
  let* lo := get_u32 in
  rd_ret (Z.lor (Z.shiftl hi 32) lo)).

Definition get_bytes (n : nat) : Rd (list byte) := fun r =>
  if (remaining r <? n)%nat then (None, rd_fail r)
  else (Some (take n (drop (rd_pos r) (rd_data r))), r <| rd_pos ::= Nat.add n |>).

Definition get_bool8 : Rd bool := rd_or_fail (
  let* v := get_u8 in
  rd_ret (negb (v =? 0))).

Definition get_id {Tag} : Rd (Id128 Tag) := rd_or_fail (
  let* b := get_bytes kIdentityBytes in
  match from_bytes b with
  | Some i => rd_ret i
  | None => rd_reject
  end).

(** The length is compared with the remaining bytes before it is used. *)
Definition get_string : Rd string := rd_or_fail (
  let* len := get_u32 in
  fun r =>
    if Z.of_nat (remaining r) <? len then (None, rd_fail r)
    else (let* b := get_bytes (Z.to_nat len) in
          rd_ret (String.string_of_list_byte b)) r).

(** ** What a reading operation consumes and returns *)

(** The bytes after the cursor. *)
Definition rd_rest (r : ByteReader) : list byte := drop (rd_pos r) (rd_data r).

Definition advance (n : nat) (r : ByteReader) : ByteReader := r <| rd_pos ::= Nat.add n |>.

Definition reads {A} (m : Rd A) (bs : list byte) (a : A) : Prop :=
  forall r rest, rd_rest r = bs ++ rest -> (rd_pos r <= length (rd_data r))%nat ->
    m r = (Some a, advance (length bs) r).

(** Every value [m] can return satisfies [P]. *)
Definition yields {A} (m : Rd A) (P : A -> Prop) : Prop :=
  forall r a r', m r = (Some a, r') -> P a.

(** The contract of an encoded field. *)
Class WireFormat (A : Type) := {
  put : A -> list byte;
  get : Rd A;
  wire_ok : A -> Prop;
  get_put : forall a, wire_ok a -> reads get (put a) a
}.

(** ** Lemmas *)

Lemma rd_rest_advance n r : rd_rest (advance n r) = drop n (rd_rest r).
Proof. unfold rd_rest, advance, update. simpl. rewrite drop_drop. f_equal. lia. Qed.

Lemma rd_rest_length r :
  (rd_pos r <= length (rd_data r))%nat -> remaining r = length (rd_rest r).
Proof.
  intros H. unfold remaining, rd_rest. rewrite length_drop.
  by rewrite (proj2 (Nat.leb_le _ _) H).
Qed.

Lemma rd_rest_pos r bs rest :
  rd_rest r = bs ++ rest -> (rd_pos r <= length (rd_data r))%nat ->
  (rd_pos (advance (length bs) r) <= length (rd_data (advance (length bs) r)))%nat.
Proof.
  intros Hr Hp. apply (f_equal length) in Hr. unfold rd_rest in Hr.
  rewrite length_drop, length_app in Hr. unfold advance, update; simpl. lia.
Qed.

Lemma advance_advance n m r : advance m (advance n r) = advance (n + m) r.
Proof. unfold advance, update; simpl. f_equal. lia. Qed.

Lemma advance_0 r : advance 0 r = r.
Proof. by destruct r. Qed.

Lemma reads_ret {A} (a : A) : reads (rd_ret a) [] a.
Proof. intros r rest _ _. by rewrite advance_0. Qed.

Lemma reads_bind {A B} (m : Rd A) (k : A -> Rd B) bs cs a b :
  reads m bs a -> reads (k a) cs b -> reads (rd_bind m k) (bs ++ cs) b.
Proof.
  intros Hm Hk r rest Hr Hp. rewrite <- (assoc_L (++)) in Hr.
  unfold rd_bind. rewrite (Hm r (cs ++ rest) Hr Hp).
  rewrite (Hk _ rest).
  - by rewrite advance_advance, length_app.
  - by rewrite rd_rest_advance, Hr, drop_app_length.
  - by eapply rd_rest_pos.
Qed.

Lemma reads_or_fail {A} (m : Rd A) bs a : reads m bs a -> reads (rd_or_fail m) bs a.
Proof. intros H r rest Hr Hp. unfold rd_or_fail. by rewrite (H r rest). Qed.

Lemma reads_check (c : bool) : c = true -> reads (rd_check c) [] tt.
Proof. intros ->. apply reads_ret. Qed.

(** Sequence a reader that consumes nothing. *)
Lemma reads_bind_nil {A B} (m : Rd A) (k : A -> Rd B) cs a b :
  reads m [] a -> reads (k a) cs b -> reads (rd_bind m k) cs b.
Proof. intros Hm Hk. change cs with ([] ++ cs). by eapply reads_bind. Qed.

(** Sequence a reader in tail position. *)
Lemma reads_bind_ret {A B} (m : Rd A) (f : A -> B) bs a :
  reads m bs a -> reads (let* x := m in rd_ret (f x)) bs (f a).
Proof.
  intros Hm. rewrite <- (app_nil_r bs). eapply reads_bind; [done|apply reads_ret].
Qed.

Lemma reads_u8 b : reads get_u8 [b] (byte_to_Z b).
Proof.
  intros r rest Hr Hp. unfold get_u8. rewrite rd_rest_length, Hr by done. simpl.
  assert (rd_data r !! rd_pos r = Some b) as ->; [|done].
  rewrite <- (Nat.add_0_r (rd_pos r)), <- lookup_drop. unfold rd_rest in Hr. by rewrite Hr.
Qed.

Lemma reads_put_u8 v : in_width 8 v -> reads get_u8 (put_u8 v) v.
Proof.
  intros Hv. unfold put_u8.
  assert (v = byte_to_Z (byte_of_Z v)) as Heq.
  { rewrite byte_to_Z_of_Z. symmetry. by apply Z.mod_small. }
  rewrite Heq at 2. apply reads_u8.
Qed.

Lemma reads_be32 a b c d : reads get_u32 [a; b; c; d] (be32 a b c d).
Proof.
  apply reads_or_fail.
  repeat (eapply (reads_bind _ _ [_]); [apply reads_u8|]). apply reads_ret.
Qed.

Lemma reads_put_u32 v : in_width 32 v -> reads get_u32 (put_u32 v) v.
Proof.
  intros Hv. rewrite <- (wrap_small 32 v) at 2 by done. rewrite <- be32_bytes32.
  apply reads_be32.
Qed.

Lemma put_u32_bytes32 v : put_u32 v = bytes32 v.
Proof. done. Qed.

Lemma put_u64_bytes64 v : put_u64 v = bytes64 v.
Proof. unfold put_u64. by rewrite !put_u32_bytes32, bytes64_split. Qed.

Lemma reads_put_u64 v : in_width 64 v -> reads get_u64 (put_u64 v) v.
Proof.
  intros Hv. apply reads_or_fail. unfold put_u64.
  assert (v = Z.lor (Z.shiftl (wrap 32 (Z.shiftr v 32)) 32) (wrap 32 v)) as Heq.
  { pose proof (wrap_in_width 32 v ltac:(lia)) as Hw.
    rewrite lor_shiftl_add by (lia || done).
    unfold in_width, wrap in *. shifts. divlia. }
  rewrite Heq at 3.
  eapply reads_bind; [apply reads_put_u32, wrap_in_width; lia|].
  eapply (reads_bind_ret get_u32), reads_put_u32, wrap_in_width. lia.
Qed.

Lemma reads_bytes bs : reads (get_bytes (length bs)) bs bs.
Proof.
  intros r rest Hr Hp. unfold get_bytes. rewrite rd_rest_length, Hr, length_app by done.
  rewrite (proj2 (Nat.ltb_ge _ _)) by lia.
  fold (rd_rest r). by rewrite Hr, take_app_length.
Qed.

Lemma reads_put_bool8 b : reads get_bool8 (put_bool8 b) b.
Proof.
  apply reads_or_fail. unfold put_bool8.
  assert (b = negb ((if b then 1 else 0) =? 0)) as Heq by (by destruct b).
  rewrite Heq at 2. apply (reads_bind_ret get_u8 (fun v => negb (v =? 0))), reads_put_u8.
  unfold in_width. destruct b; lia.
Qed.

Lemma reads_put_id {Tag} (i : Id128 Tag) : id_wf i -> reads get_id (put_id i) i.
Proof.
  intros Hi. apply reads_or_fail. unfold put_id.
  rewrite <- (app_nil_r (to_bytes i)). eapply reads_bind.
  - rewrite <- (length_to_bytes i). apply reads_bytes.
  - cbv beta. rewrite <- (app_nil_r (to_bytes i)), from_bytes_to_bytes_app by done.
    apply reads_ret.
Qed.

Lemma length_list_byte_of_string s : length (String.list_byte_of_string s) = String.length s.
Proof. unfold String.list_byte_of_string. rewrite length_map. by induction s; simpl; congruence. Qed.

Lemma reads_put_string s :
  Z.of_nat (String.length s) < 2 ^ 32 -> reads get_string (put_string s) s.
Proof.
  intros Hs. apply reads_or_fail. unfold put_string.
  rewrite (proj2 (Z.ltb_ge _ _)) by lia.
  eapply reads_bind; [apply reads_put_u32; unfold in_width; lia|].
  intros r rest Hr Hp. rewrite rd_rest_length by done.
  rewrite Hr, length_app, length_list_byte_of_string, Nat2Z.id.
  rewrite (proj2 (Z.ltb_ge _ _)) by lia.
  rewrite <- length_list_byte_of_string at 1.
  erewrite (reads_bind_ret (get_bytes _) String.string_of_list_byte _
    (String.list_byte_of_string s) (reads_bytes _) r rest) by done.
  by rewrite String.string_of_list_byte_of_string, length_list_byte_of_string.
Qed.

(** ** Fields *)

#[export] Instance wire_bool : WireFormat bool :=
  {| put := put_bool8; get := get_bool8; wire_ok := fun _ => True;
     get_put := fun b _ => reads_put_bool8 b |}.

#[export] Instance wire_id Tag : WireFormat (Id128 Tag) :=
  {| put := put_id; get := get_id; wire_ok := id_wf; get_put := reads_put_id |}.

#[export] Instance wire_string : WireFormat string :=
  {| put := put_string; get := get_string;
     wire_ok := fun s => Z.of_nat (String.length s) < 2 ^ 32;
     get_put := reads_put_string |}.

Create HintDb wire.
#[export] Hint Resolve reads_put_u8 reads_put_u32 reads_put_u64 reads_put_bool8
  reads_put_id reads_put_string reads_check : wire.

(** ** Range of the values read *)

Lemma yields_ret {A} (a : A) (P : A -> Prop) : P a -> yields (rd_ret a) P.
Proof. intros H r a' r' [= <- <-]. done. Qed.

Lemma yields_reject {A} (P : A -> Prop) : yields rd_reject P.
Proof. by intros r a r' [=]. Qed.

Lemma yields_bind {A B} (m : Rd A) (k : A -> Rd B) (P : A -> Prop) (Q : B -> Prop) :
  yields m P -> (forall a, P a -> yields (k a) Q) -> yields (rd_bind m k) Q.
Proof.
  intros Hm Hk r b r'. unfold rd_bind. destruct (m r) as [[a|] r1] eqn:E; [|done].
  intros Hb. eapply Hk; [by eapply Hm|exact Hb].
Qed.

Lemma yields_or_fail {A} (m : Rd A) (P : A -> Prop) : yields m P -> yields (rd_or_fail m) P.
Proof.
  intros H r a r'. unfold rd_or_fail. destruct (m r) as [[a'|] r1] eqn:E; [|done].
  intros [= <- <-]. by eapply H.
Qed.

Lemma yields_check (c : bool) : yields (rd_check c) (fun _ => c = true).
Proof. destruct c; [by apply yields_ret|apply yields_reject]. Qed.

Lemma yields_true {A} (m : Rd A) : yields m (fun _ => True).
Proof. done. Qed.

Lemma yields_u8 : yields get_u8 (in_width 8).
Proof.
  intros r a r'. unfold get_u8. case_match; [done|]. case_match; [|done].
  intros [= <- <-]. apply byte_to_Z_range.
Qed.

Lemma yields_u32 : yields get_u32 (in_width 32).
Proof.
  apply yields_or_fail.
  do 4 (eapply yields_bind; [apply yields_u8|intros ? ?]). apply yields_ret.
  unfold in_width in *. rewrite !Z.shiftl_mul_pow2 by lia.
  or_to_add 24. or_to_add 16. or_to_add 8. lia.
Qed.

Lemma yields_u64 : yields get_u64 (in_width 64).
Proof.
  apply yields_or_fail.
  do 2 (eapply yields_bind; [apply yields_u32|intros ? ?]). apply yields_ret.
  unfold in_width in *. rewrite lor_shiftl_add by lia. lia.
Qed.

Lemma yields_id {Tag} : yields (@get_id Tag) id_wf.
Proof.
  apply yields_or_fail. eapply yields_bind; [apply yields_true|]. intros b _.
  destruct (from_bytes b) as [i|] eqn:E; [|apply yields_reject].
  apply yields_ret. by eapply from_bytes_wf.
Qed.

#[export] Hint Resolve yields_u8 yields_u32 yields_u64 yields_id yields_check
  yields_ret yields_reject : wire.
