(* ===== verification/Kinds.v ===== *)
(** * The accounting vocabulary (provenance.hpp, unit.hpp, event_kind.hpp, resource.hpp)

    The enumerations of an accounting record with their wire values, printed
    names and parsers, and [Quantity], a double tagged with a unit and a
    provenance. Wire values are stable: [*_val] is [static_cast<uint8_t>] of the
    enumerator and [*_cast] the cast back. *)

From stdpp Require Import base list strings numbers.
From S2P Require Import Prelude Float64.
Open Scope Z_scope.

(** ** Provenance *)

Inductive Provenance := Measured | Reported | Derived | Estimated | Reconstructed | Unavailable.

#[export] Instance Provenance_eq_dec : EqDecision Provenance.
Proof. solve_decision. Defined.

Definition provenance_val (p : Provenance) : Z :=
  match p with
  | Measured => 0 | Reported => 1 | Derived => 2
  | Estimated => 3 | Reconstructed => 4 | Unavailable => 5
  end.

Definition provenance_name (p : Provenance) : string :=
  match p with
  | Measured => "measured"
  | Reported => "reported"
  | Derived => "derived"
  | Estimated => "estimated"
  | Reconstructed => "reconstructed"
  | Unavailable => "unavailable"
  end.

Definition provenance_parse (s : string) : Provenance :=
  if String.eqb s "measured" then Measured
  else if String.eqb s "reported" then Reported
  else if String.eqb s "derived" then Derived
  else if String.eqb s "estimated" then Estimated
  else if String.eqb s "reconstructed" then Reconstructed
  else Unavailable.

Definition provenance_outer_tag_is_available (p : Provenance) : bool :=
  match p with Measured | Reported => true | _ => false end.

(** ** Units *)

Inductive Unit :=
| Count | Bytes | ByteSeconds | Seconds | Nanoseconds
| EnergyJoule | EnergyWh | Currency | Dimensionless.

#[export] Instance Unit_eq_dec : EqDecision Unit.
Proof. solve_decision. Defined.

Definition unit_val (u : Unit) : Z :=
  match u with
  | Count => 0 | Bytes => 1 | ByteSeconds => 2 | Seconds => 3 | Nanoseconds => 4
  | EnergyJoule => 5 | EnergyWh => 6 | Currency => 7 | Dimensionless => 8
  end.

Definition unit_name (u : Unit) : string :=
  match u with
  | Count => "count"
  | Bytes => "bytes"
  | ByteSeconds => "byte-seconds"
  | Seconds => "seconds"
  | Nanoseconds => "nanoseconds"
  | EnergyJoule => "joules"
  | EnergyWh => "wh"
  | Currency => "currency"
  | Dimensionless => "dimensionless"
  end.

Definition unit_signature (u : Unit) : Z := wrap 32 (unit_val u + 1).

(** ** Event kinds *)

Inductive EventKind :=
| RequestStart
| RequestEnd
| Queue
| BatchWait
| Prefill
| Decode
| SpeculationProposed
| SpeculationAccepted
| SpeculationRejected
| GpuExecution
| CpuExecution
| KvAllocate
| KvRelease
| KvReuse
| TensorAllocate
| TensorRelease
| TensorReuse
| ModelResidency
| AdapterResidency
| KernelHit
| KernelMiss
| GraphHit
| GraphMiss
| TransferH2D
| TransferD2H
| TransferInterNode
| CacheRead
| CacheWrite
| Reserve
| Release
| Retry
| Failure
| Cancellation
| Recompute
| ReuseAvoided
| Energy
| CostAdjustment.

#[export] Instance EventKind_eq_dec : EqDecision EventKind.
Proof. solve_decision. Defined.

Definition event_kind_val (k : EventKind) : Z :=
  match k with
  | RequestStart => 1
  | RequestEnd => 2
  | Queue => 3
  | BatchWait => 4
  | Prefill => 5
  | Decode => 6
  | SpeculationProposed => 7
  | SpeculationAccepted => 8
  | SpeculationRejected => 9
  | GpuExecution => 10
  | CpuExecution => 11
  | KvAllocate => 12
  | KvRelease => 13
  | KvReuse => 14
  | TensorAllocate => 15
  | TensorRelease => 16
  | TensorReuse => 17
  | ModelResidency => 18
  | AdapterResidency => 19
  | KernelHit => 20
  | KernelMiss => 21
  | GraphHit => 22
  | GraphMiss => 23
  | TransferH2D => 24
  | TransferD2H => 25
  | TransferInterNode => 26
  | CacheRead => 27
  | CacheWrite => 28
  | Reserve => 29
  | Release => 30
  | Retry => 31
  | Failure => 32
  | Cancellation => 33
  | Recompute => 34
  | ReuseAvoided => 35
  | Energy => 36
  | CostAdjustment => 37
  end.

Definition event_kind_name (k : EventKind) : string :=
  match k with
  | RequestStart => "REQUEST_START"
  | RequestEnd => "REQUEST_END"
  | Queue => "QUEUE"
  | BatchWait => "BATCH_WAIT"
  | Prefill => "PREFILL"
  | Decode => "DECODE"
  | SpeculationProposed => "SPECULATION_PROPOSED"
  | SpeculationAccepted => "SPECULATION_ACCEPTED"
  | SpeculationRejected => "SPECULATION_REJECTED"
  | GpuExecution => "GPU_EXECUTION"
  | CpuExecution => "CPU_EXECUTION"
  | KvAllocate => "KV_ALLOCATE"
  | KvRelease => "KV_RELEASE"
  | KvReuse => "KV_REUSE"
  | TensorAllocate => "TENSOR_ALLOCATE"
  | TensorRelease => "TENSOR_RELEASE"
  | TensorReuse => "TENSOR_REUSE"
  | ModelResidency => "MODEL_RESIDENCY"
  | AdapterResidency => "ADAPTER_RESIDENCY"
  | KernelHit => "KERNEL_HIT"
  | KernelMiss => "KERNEL_MISS"
  | GraphHit => "GRAPH_HIT"
  | GraphMiss => "GRAPH_MISS"
  | TransferH2D => "TRANSFER_H2D"
  | TransferD2H => "TRANSFER_D2H"
  | TransferInterNode => "TRANSFER_INTER_NODE"
  | CacheRead => "CACHE_READ"
  | CacheWrite => "CACHE_WRITE"
  | Reserve => "RESERVE"
  | Release => "RELEASE"
  | Retry => "RETRY"
  | Failure => "FAILURE"
  | Cancellation => "CANCELLATION"
  | Recompute => "RECOMPUTE"
  | ReuseAvoided => "REUSE_AVOIDED"
  | Energy => "ENERGY"
  | CostAdjustment => "COST_ADJUSTMENT"
  end.

(** An unknown name maps to [RequestStart]. *)
Definition event_kind_parse (s : string) : EventKind :=
  if String.eqb s "REQUEST_START" then RequestStart
  else if String.eqb s "REQUEST_END" then RequestEnd
  else if String.eqb s "QUEUE" then Queue
  else if String.eqb s "BATCH_WAIT" then BatchWait
  else if String.eqb s "PREFILL" then Prefill
  else if String.eqb s "DECODE" then Decode
  else if String.eqb s "SPECULATION_PROPOSED" then SpeculationProposed
  else if String.eqb s "SPECULATION_ACCEPTED" then SpeculationAccepted
  else if String.eqb s "SPECULATION_REJECTED" then SpeculationRejected
  else if String.eqb s "GPU_EXECUTION" then GpuExecution
  else if String.eqb s "CPU_EXECUTION" then CpuExecution
  else if String.eqb s "KV_ALLOCATE" then KvAllocate
  else if String.eqb s "KV_RELEASE" then KvRelease
  else if String.eqb s "KV_REUSE" then KvReuse
  else if String.eqb s "TENSOR_ALLOCATE" then TensorAllocate
  else if String.eqb s "TENSOR_RELEASE" then TensorRelease
  else if String.eqb s "TENSOR_REUSE" then TensorReuse
  else if String.eqb s "MODEL_RESIDENCY" then ModelResidency
  else if String.eqb s "ADAPTER_RESIDENCY" then AdapterResidency
  else if String.eqb s "KERNEL_HIT" then KernelHit
  else if String.eqb s "KERNEL_MISS" then KernelMiss
  else if String.eqb s "GRAPH_HIT" then GraphHit
  else if String.eqb s "GRAPH_MISS" then GraphMiss
  else if String.eqb s "TRANSFER_H2D" then TransferH2D
  else if String.eqb s "TRANSFER_D2H" then TransferD2H
  else if String.eqb s "TRANSFER_INTER_NODE" then TransferInterNode
  else if String.eqb s "CACHE_READ" then CacheRead
  else if String.eqb s "CACHE_WRITE" then CacheWrite
  else if String.eqb s "RESERVE" then Reserve
  else if String.eqb s "RELEASE" then Release
  else if String.eqb s "RETRY" then Retry
  else if String.eqb s "FAILURE" then Failure
  else if String.eqb s "CANCELLATION" then Cancellation
  else if String.eqb s "RECOMPUTE" then Recompute
  else if String.eqb s "REUSE_AVOIDED" then ReuseAvoided
  else if String.eqb s "ENERGY" then Energy
  else if String.eqb s "COST_ADJUSTMENT" then CostAdjustment
  else RequestStart.

(** ** Resource kinds

    The enumerators carry an [R] prefix: [Energy] is also an event kind. *)

Inductive ResourceKind :=
| RCompute
| RMemory
| RKv
| RTensor
| RTransfer
| RResidency
| RCache
| REnergy
| RCost
| RGeneric.

#[export] Instance ResourceKind_eq_dec : EqDecision ResourceKind.
Proof. solve_decision. Defined.

Definition resource_kind_val (r : ResourceKind) : Z :=
  match r with
  | RCompute => 1
  | RMemory => 2
  | RKv => 3
  | RTensor => 4
  | RTransfer => 5
  | RResidency => 6
  | RCache => 7
  | REnergy => 8
  | RCost => 9
  | RGeneric => 10
  end.

Definition resource_kind_name (r : ResourceKind) : string :=
  match r with
  | RCompute => "compute"
  | RMemory => "memory"
  | RKv => "kv"
  | RTensor => "tensor"
  | RTransfer => "transfer"
  | RResidency => "residency"
  | RCache => "cache"
  | REnergy => "energy"
  | RCost => "cost"
  | RGeneric => "generic"
  end.

(** ** Casts from a wire value

    [static_cast<E>(v)]: the enumerator with that value, if any. *)

Definition all_event_kinds : list EventKind :=
  [RequestStart; RequestEnd; Queue; BatchWait; Prefill; Decode; SpeculationProposed; SpeculationAccepted; SpeculationRejected; GpuExecution; CpuExecution; KvAllocate; KvRelease; KvReuse; TensorAllocate; TensorRelease; TensorReuse; ModelResidency; AdapterResidency; KernelHit; KernelMiss; GraphHit; GraphMiss; TransferH2D; TransferD2H; TransferInterNode; CacheRead; CacheWrite; Reserve; Release; Retry; Failure; Cancellation; Recompute; ReuseAvoided; Energy; CostAdjustment].

Definition all_resource_kinds : list ResourceKind :=
  [RCompute; RMemory; RKv; RTensor; RTransfer; RResidency; RCache; REnergy; RCost; RGeneric].

Definition all_units : list Unit :=
  [Count; Bytes; ByteSeconds; Seconds; Nanoseconds; EnergyJoule; EnergyWh; Currency; Dimensionless].

Definition all_provenances : list Provenance :=
  [Measured; Reported; Derived; Estimated; Reconstructed; Unavailable].

Definition cast_enum {E} (val : E -> Z) (all : list E) (v : Z) : option E :=
  head (filter (fun e => val e = v) all).

Definition event_kind_cast : Z -> option EventKind := cast_enum event_kind_val all_event_kinds.
Definition resource_kind_cast : Z -> option ResourceKind := cast_enum resource_kind_val all_resource_kinds.
Definition unit_cast : Z -> option Unit := cast_enum unit_val all_units.
Definition provenance_cast : Z -> option Provenance := cast_enum provenance_val all_provenances.

(** ** Quantities *)

Record Quantity := MkQuantity {
  q_value : double;
  q_unit : Unit;
  q_provenance : Provenance
}.

(** The default member initialisers. *)
Definition quantity_default : Quantity := MkQuantity d0 Dimensionless Unavailable.

#[export] Instance Quantity_rebuild : Rebuild Quantity :=
  fun q => MkQuantity (q_value q) (q_unit q) (q_provenance q).

Definition is_finite (q : Quantity) : bool := isfinite (q_value q).
Definition is_non_negative (q : Quantity) : bool := (d0 <=? q_value q)%D.
Definition is_integral (q : Quantity) : bool := (dfloor (q_value q) =? q_value q)%D.

Definition q_count (v : Z) (p : Provenance) : Quantity := MkQuantity (d_of_Z v) Count p.
Definition q_bytes (v : Z) (p : Provenance) : Quantity := MkQuantity (d_of_Z v) Bytes p.
Definition q_seconds (v : double) (p : Provenance) : Quantity := MkQuantity v Seconds p.

Definition same_unit (a b : Quantity) : bool := bool_decide (q_unit a = q_unit b).

(** ** Lemmas *)

(** Casting an enumerator's value back gives the enumerator. *)
Lemma event_kind_cast_val k : event_kind_cast (event_kind_val k) = Some k.
Proof. by destruct k. Qed.

Lemma resource_kind_cast_val r : resource_kind_cast (resource_kind_val r) = Some r.
Proof. by destruct r. Qed.

Lemma unit_cast_val u : unit_cast (unit_val u) = Some u.
Proof. by destruct u. Qed.

Lemma provenance_cast_val p : provenance_cast (provenance_val p) = Some p.
Proof. by destruct p. Qed.

Create Rewrite HintDb enums.
#[export] Hint Rewrite event_kind_cast_val resource_kind_cast_val unit_cast_val
  provenance_cast_val : enums.

Lemma cast_enum_val {E} (val : E -> Z) all v e : cast_enum val all v = Some e -> val e = v.
Proof.
  unfold cast_enum. intros H. destruct (filter _ all) as [|x l] eqn:Hf; [done|].
  injection H as ->.
  assert (e ∈ filter (fun e => val e = v) all) as [Hv _]%list_elem_of_filter by (rewrite Hf; left).
  done.
Qed.

Lemma event_kind_val_range k : 1 <= event_kind_val k <= 37.
Proof. destruct k; simpl; lia. Qed.

Lemma resource_kind_val_range r : 1 <= resource_kind_val r <= 10.
Proof. destruct r; simpl; lia. Qed.

Lemma unit_val_range u : 0 <= unit_val u <= 8.
Proof. destruct u; simpl; lia. Qed.

Lemma provenance_val_range p : 0 <= provenance_val p <= 5.
Proof. destruct p; simpl; lia. Qed.

(** A cast that succeeds on [n] consecutive values succeeds on each of them. *)
Lemma cast_total {E} (cast : Z -> option E) (lo : Z) (n : nat) v :
  forallb (fun k => bool_decide (is_Some (cast (lo + Z.of_nat k)))) (seq 0 n) = true ->
  lo <= v < lo + Z.of_nat n -> is_Some (cast v).
Proof.
  rewrite forallb_forall. intros Hall Hv. specialize (Hall (Z.to_nat (v - lo))).
  replace (lo + Z.of_nat (Z.to_nat (v - lo))) with v in Hall by lia.
  eapply bool_decide_eq_true, Hall, in_seq. lia.
Qed.

(** Every value the decoder's range checks admit is an enumerator's. *)
Lemma event_kind_cast_total v : 1 <= v <= 37 -> is_Some (event_kind_cast v).
Proof. intros. apply (cast_total _ 1 37); [by vm_compute|lia]. Qed.

Lemma resource_kind_cast_total v : 1 <= v <= 10 -> is_Some (resource_kind_cast v).
Proof. intros. apply (cast_total _ 1 10); [by vm_compute|lia]. Qed.

Lemma unit_cast_total v : 0 <= v <= 8 -> is_Some (unit_cast v).
Proof. intros. apply (cast_total _ 0 9); [by vm_compute|lia]. Qed.

Lemma provenance_cast_total v : 0 <= v <= 5 -> is_Some (provenance_cast v).
Proof. intros. apply (cast_total _ 0 6); [by vm_compute|lia]. Qed.
