(* ===== verification/Entry.v ===== *)
(** * Ledger entries (authority.hpp, ledger_entry.hpp, ledger_entry.cpp)

    The immutable accounting record: its authority envelope, its source, its
    comparison [operator==], its duration, and the derived content identity. *)

From Stdlib Require Import SpecFloat.
From stdpp Require Import base list strings numbers.
From S2P Require Import Prelude Float64 StdMap Identity Kinds.
Open Scope Z_scope.

(** ** Authority envelope and source *)

Record AuthorityEnvelope := MkAuthorityEnvelope {
  au_epoch : CoordinatorEpoch;
  au_worker_boot : WorkerBootId;
  au_request_generation : RequestGeneration;
  au_accounting_generation : AccountingGeneration;
  au_attempt : AttemptId;
  au_attempt_generation : AttemptGeneration;
  au_dispatch : DispatchId
}.

Definition authority_eqb (a o : AuthorityEnvelope) : bool :=
  gen_eqb (au_epoch a) (au_epoch o) && id_eqb (au_worker_boot a) (au_worker_boot o) &&
  gen_eqb (au_request_generation a) (au_request_generation o) &&
  gen_eqb (au_accounting_generation a) (au_accounting_generation o) &&
  id_eqb (au_attempt a) (au_attempt o) &&
  gen_eqb (au_attempt_generation a) (au_attempt_generation o) &&
  id_eqb (au_dispatch a) (au_dispatch o).

(** A generation is fresh only when it equals the coordinator's current one. *)
Definition generation_is_fresh {Tag} (observed current : Generation Tag) : bool :=
  gen_eqb observed current.

Record SourceIdentity := MkSourceIdentity {
  src_worker : WorkerId;
  src_boot : WorkerBootId;
  src_accounting_generation : AccountingGeneration
}.

(** ** The entry *)

Record LedgerEntry := MkLedgerEntry {
  e_id : LedgerEntryId;
  e_ledger : LedgerId;
  e_tenant : TenantId;
  e_workload : WorkloadId;
  e_request : RequestId;
  e_model : ModelId;
  e_model_revision : ModelRevisionId;
  e_has_adapter : bool;
  e_adapter : AdapterId;
  e_attempt : AttemptId;
  e_dispatch : DispatchId;
  e_worker : WorkerId;
  e_node : NodeId;
  e_device : DeviceId;
  e_event_kind : EventKind;
  e_resource_kind : ResourceKind;
  e_quantity : Quantity;
  e_start_ts_ns : Z;
  e_end_ts_ns : Z;
  e_has_end : bool;
  e_source : SourceIdentity;
  e_authority : AuthorityEnvelope;
  e_has_accounting_policy : bool;
  e_accounting_policy : AccountingPolicyId;
  e_has_pricing_policy : bool;
  e_pricing_policy : PricingPolicyId;
  e_metadata : list (string * string)
}.

(** The default member initialisers. *)
Definition entry_default : LedgerEntry :=
  {| e_id := id_zero; e_ledger := id_zero; e_tenant := id_zero; e_workload := id_zero;
     e_request := id_zero; e_model := id_zero; e_model_revision := id_zero;
     e_has_adapter := false; e_adapter := id_zero; e_attempt := id_zero;
     e_dispatch := id_zero; e_worker := id_zero; e_node := id_zero; e_device := id_zero;
     e_event_kind := RequestStart; e_resource_kind := RGeneric;
     e_quantity := quantity_default; e_start_ts_ns := 0; e_end_ts_ns := 0;
     e_has_end := false; e_source := MkSourceIdentity id_zero id_zero gen_zero;
     e_authority := MkAuthorityEnvelope gen_zero id_zero gen_zero gen_zero id_zero gen_zero id_zero;
     e_has_accounting_policy := false; e_accounting_policy := id_zero;
     e_has_pricing_policy := false; e_pricing_policy := id_zero; e_metadata := [] |}.

#[export] Instance LedgerEntry_rebuild : Rebuild LedgerEntry := fun e =>
  MkLedgerEntry (e_id e) (e_ledger e) (e_tenant e) (e_workload e) (e_request e) (e_model e)
    (e_model_revision e) (e_has_adapter e) (e_adapter e) (e_attempt e) (e_dispatch e)
    (e_worker e) (e_node e) (e_device e) (e_event_kind e) (e_resource_kind e) (e_quantity e)
    (e_start_ts_ns e) (e_end_ts_ns e) (e_has_end e) (e_source e) (e_authority e)
    (e_has_accounting_policy e) (e_accounting_policy e) (e_has_pricing_policy e)
    (e_pricing_policy e) (e_metadata e).

(** [LedgerEntry::operator==]: doubles are compared numerically, and an optional
    identity only when its flag is set. *)
Definition entry_eqb (a o : LedgerEntry) : bool :=
  id_eqb (e_id a) (e_id o) && id_eqb (e_ledger a) (e_ledger o) &&
  id_eqb (e_tenant a) (e_tenant o) &&
  id_eqb (e_workload a) (e_workload o) && id_eqb (e_request a) (e_request o) &&
  id_eqb (e_model a) (e_model o) &&
  id_eqb (e_model_revision a) (e_model_revision o) &&
  Bool.eqb (e_has_adapter a) (e_has_adapter o) &&
  (negb (e_has_adapter a) || id_eqb (e_adapter a) (e_adapter o)) &&
  id_eqb (e_attempt a) (e_attempt o) &&
  id_eqb (e_dispatch a) (e_dispatch o) && id_eqb (e_worker a) (e_worker o) &&
  id_eqb (e_node a) (e_node o) &&
  id_eqb (e_device a) (e_device o) && bool_decide (e_event_kind a = e_event_kind o) &&
  bool_decide (e_resource_kind a = e_resource_kind o) &&
  SFeqb (q_value (e_quantity a)) (q_value (e_quantity o)) &&
  bool_decide (q_unit (e_quantity a) = q_unit (e_quantity o)) &&
  bool_decide (q_provenance (e_quantity a) = q_provenance (e_quantity o)) &&
  (e_start_ts_ns a =? e_start_ts_ns o) && (e_end_ts_ns a =? e_end_ts_ns o) &&
  Bool.eqb (e_has_end a) (e_has_end o) &&
  id_eqb (src_worker (e_source a)) (src_worker (e_source o)) &&
  id_eqb (src_boot (e_source a)) (src_boot (e_source o)) &&
  gen_eqb (src_accounting_generation (e_source a)) (src_accounting_generation (e_source o)) &&
  authority_eqb (e_authority a) (e_authority o) &&
  Bool.eqb (e_has_accounting_policy a) (e_has_accounting_policy o) &&
  (negb (e_has_accounting_policy a) || id_eqb (e_accounting_policy a) (e_accounting_policy o)) &&
  Bool.eqb (e_has_pricing_policy a) (e_has_pricing_policy o) &&
  (negb (e_has_pricing_policy a) || id_eqb (e_pricing_policy a) (e_pricing_policy o)) &&
  bool_decide (e_metadata a = e_metadata o).

(** [duration_ns()]. *)
Definition duration_ns (e : LedgerEntry) : Z :=
  if e_has_end e
  then (if e_start_ts_ns e <=? e_end_ts_ns e then e_end_ts_ns e - e_start_ts_ns e else 0)
  else 0.

(** ** Derived identity *)

Record Mixer := MkMixer { mx_hi : Z; mx_lo : Z }.

Definition mixer_init : Mixer := MkMixer 0xCBF29CE484222325 0x9E3779B97F4A7C15.

Definition mixer_feed (m : Mixer) (v : Z) : Mixer :=
  let hi := mx_hi m in
  let lo := mx_lo m in
  MkMixer
    (Z.lxor hi (wrap 64 (v + 0x9E3779B97F4A7C15 + wrap 64 (Z.shiftl hi 6) + Z.shiftr hi 2)))
    (wrap 64 (Z.lxor lo (wrap 64 (v * 0x100000001B3)) * 0x9E3779B97F4A7C15)).

Definition mixer_feed_id {Tag} (m : Mixer) (i : Id128 Tag) : Mixer :=
  mixer_feed (mixer_feed m (hi_ i)) (lo_ i).

(** [derive_entry_id]. *)
Definition derive_entry_id (e : LedgerEntry) : LedgerEntryId :=
  let m := mixer_init in
  let m := mixer_feed_id m (e_ledger e) in
  let m := mixer_feed_id m (e_tenant e) in
  let m := mixer_feed_id m (e_workload e) in
  let m := mixer_feed_id m (e_request e) in
  let m := mixer_feed_id m (e_model e) in
  let m := mixer_feed_id m (e_model_revision e) in
  let m := mixer_feed m (event_kind_val (e_event_kind e)) in
  let m := mixer_feed m (resource_kind_val (e_resource_kind e)) in
  let m := mixer_feed m (Z.lxor (hi_ (src_worker (e_source e))) (lo_ (src_worker (e_source e)))) in
  let m := mixer_feed m (Z.lxor (hi_ (src_boot (e_source e))) (lo_ (src_boot (e_source e)))) in
  let m := mixer_feed m (value (src_accounting_generation (e_source e))) in
  let m := mixer_feed m (value (au_epoch (e_authority e))) in
  let m := mixer_feed m (value (au_accounting_generation (e_authority e))) in
  let m := mixer_feed m (value (au_request_generation (e_authority e))) in
  let m := mixer_feed m (value (au_attempt_generation (e_authority e))) in
  let m := mixer_feed m (Z.lxor (hi_ (au_attempt (e_authority e))) (lo_ (au_attempt (e_authority e)))) in
  let m := mixer_feed m (e_start_ts_ns e) in
  let m := mixer_feed m (bits_of_double (q_value (e_quantity e))) in
  MkId (mx_hi m) (mx_lo m).

(** ** Invariants and canonical form *)

Definition envelope_wf (a : AuthorityEnvelope) : Prop :=
  gen_wf (au_epoch a) /\ id_wf (au_worker_boot a) /\ gen_wf (au_request_generation a) /\
  gen_wf (au_accounting_generation a) /\ id_wf (au_attempt a) /\
  gen_wf (au_attempt_generation a) /\ id_wf (au_dispatch a).

Definition source_wf (s : SourceIdentity) : Prop :=
  id_wf (src_worker s) /\ id_wf (src_boot s) /\ gen_wf (src_accounting_generation s).

(** The C++ types of the members: words in their width, a binary64 value, and a
    metadata map in key order. *)
Record entry_wf (e : LedgerEntry) : Prop := {
  wf_id : id_wf (e_id e);
  wf_ledger : id_wf (e_ledger e);
  wf_tenant : id_wf (e_tenant e);
  wf_workload : id_wf (e_workload e);
  wf_request : id_wf (e_request e);
  wf_model : id_wf (e_model e);
  wf_model_revision : id_wf (e_model_revision e);
  wf_adapter : id_wf (e_adapter e);
  wf_attempt : id_wf (e_attempt e);
  wf_dispatch : id_wf (e_dispatch e);
  wf_worker : id_wf (e_worker e);
  wf_node : id_wf (e_node e);
  wf_device : id_wf (e_device e);
  wf_value : is_double (q_value (e_quantity e)) = true;
  wf_start : in_width 64 (e_start_ts_ns e);
  wf_end : in_width 64 (e_end_ts_ns e);
  wf_source : source_wf (e_source e);
  wf_authority : envelope_wf (e_authority e);
  wf_accounting_policy : id_wf (e_accounting_policy e);
  wf_pricing_policy : id_wf (e_pricing_policy e);
  wf_metadata : StdMap.sorted (e_metadata e)
}.

(** The entry with every unused optional identity at its default: what a reader
    that skips an absent field rebuilds. *)
Definition canonical (e : LedgerEntry) : LedgerEntry :=
  e <| e_adapter := if e_has_adapter e then e_adapter e else id_zero |>
    <| e_accounting_policy := if e_has_accounting_policy e then e_accounting_policy e else id_zero |>
    <| e_pricing_policy := if e_has_pricing_policy e then e_pricing_policy e else id_zero |>.

(** The entry without its numeric value and unused identities. *)
Definition entry_core (e : LedgerEntry) : LedgerEntry :=
  canonical (e <| e_quantity ::= fun q => q <| q_value := d0 |> |>).

(** ** Lemmas *)

Lemma authority_eqb_eq a o : authority_eqb a o = true <-> a = o.
Proof.
  unfold authority_eqb. rewrite !andb_true_iff, !gen_eqb_eq, !id_eqb_eq.
  destruct a, o; simpl. split; [intros; destruct_and?; congruence|by intros [= -> -> -> -> -> -> ->]].
Qed.

(** An optional identity is compared only under its flag. *)
Lemma optional_id_eqb {Tag} (f g : bool) (i j : Id128 Tag) :
  Bool.eqb f g = true /\ negb f || id_eqb i j = true <->
  f = g /\ (if f then i else id_zero) = (if g then j else id_zero).
Proof. rewrite eqb_true_iff. destruct f, g; simpl; rewrite ?id_eqb_eq; naive_solver. Qed.

(** [operator==] is equality of the cores together with numeric equality of the values. *)
Lemma entry_eqb_iff a b :
  entry_eqb a b = true <->
  entry_core a = entry_core b /\ SFeqb (q_value (e_quantity a)) (q_value (e_quantity b)) = true.
Proof.
  pose proof (optional_id_eqb (e_has_adapter a) (e_has_adapter b) (e_adapter a) (e_adapter b)) as H1.
  pose proof (optional_id_eqb (e_has_accounting_policy a) (e_has_accounting_policy b)
    (e_accounting_policy a) (e_accounting_policy b)) as H2.
  pose proof (optional_id_eqb (e_has_pricing_policy a) (e_has_pricing_policy b)
    (e_pricing_policy a) (e_pricing_policy b)) as H3.
  unfold entry_eqb.
  rewrite !andb_true_iff, authority_eqb_eq, !id_eqb_eq, !gen_eqb_eq, !bool_decide_eq_true, !Z.eqb_eq.
  destruct a as [????????????????[v u p]???[sw sb sg]??????],
    b as [????????????????[v' u' p']???[sw' sb' sg']??????].
  unfold entry_core, canonical, update; simpl in *.
  rewrite (eqb_true_iff e_has_end0) in *.
  split.
  - intros Hall. destruct_and?. destruct H1 as [[-> Ha] _]; [done|].
    destruct H2 as [[-> Hp] _]; [done|]. destruct H3 as [[-> Hq] _]; [done|].
    split; [|done]. subst. by f_equal.
  - intros [Hc Hv]. injection Hc; intros.
    destruct H1 as [_ [??]]; [done|]. destruct H2 as [_ [??]]; [done|].
    destruct H3 as [_ [??]]; [done|]. by split_and!.
Qed.

Lemma deqb_trans x y z : SFeqb x y = true -> SFeqb y z = true -> SFeqb x z = true.
Proof.
  intros [->|(s & s' & -> & ->)]%deqb_true; [done|].
  intros [<-|(t & t' & Ht & ->)]%deqb_true; done.
Qed.

(** [operator==] is a partial equivalence, reflexive away from NaN. *)
Lemma entry_eqb_refl e : is_nan (q_value (e_quantity e)) = false -> entry_eqb e e = true.
Proof. intros. apply entry_eqb_iff. split; [done|by apply deqb_refl]. Qed.

Lemma entry_eqb_sym a b : entry_eqb a b = entry_eqb b a.
Proof.
  apply eq_true_iff_eq. rewrite !entry_eqb_iff, deqb_sym.
  split; intros [-> ?]; done.
Qed.

Lemma entry_eqb_trans a b c :
  entry_eqb a b = true -> entry_eqb b c = true -> entry_eqb a c = true.
Proof.
  rewrite !entry_eqb_iff. intros [-> ?] [-> ?]. split; [done|by eapply deqb_trans].
Qed.

#[export] Instance entry_eqb_PER : RelationClasses.PER (fun a b => entry_eqb a b = true).
Proof.
  split; [intros a b; by rewrite entry_eqb_sym|intros a b c; apply entry_eqb_trans].
Qed.

Lemma entry_eqb_id a b : entry_eqb a b = true -> e_id a = e_id b.
Proof.
  unfold entry_eqb. rewrite !andb_true_iff, !id_eqb_eq. intros. by destruct_and?.
Qed.

Lemma canonical_idemp e : canonical (canonical e) = canonical e.
Proof.
  destruct e as [???????[]??????????????[]?[]??]; reflexivity.
Qed.

Lemma canonical_core e : entry_core (canonical e) = entry_core e.
Proof.
  destruct e as [???????[]??????????????[]?[]??]; reflexivity.
Qed.

Lemma canonical_eqb e :
  is_nan (q_value (e_quantity e)) = false -> entry_eqb (canonical e) e = true.
Proof. intros. apply entry_eqb_iff. split; [apply canonical_core|by apply deqb_refl]. Qed.

Lemma id_zero_wf {Tag} : id_wf (@id_zero Tag).
Proof. unfold id_wf, in_width; simpl. lia. Qed.

Lemma canonical_wf e : entry_wf e -> entry_wf (canonical e).
Proof.
  pose proof @id_zero_wf.
  intros [????????? ????????????]. constructor; try done; simpl; by case_match.
Qed.

#[export] Hint Resolve id_zero_wf canonical_wf : core.

(** The duration of a well-formed entry is a 64-bit value. *)
Lemma duration_ns_range e : entry_wf e -> in_width 64 (duration_ns e).
Proof.
  intros [? ? ? ? ? ? ? ? ? ? ? ? ? ? Hs He]. unfold duration_ns, in_width in *.
  destruct (e_has_end e); [|lia]. destruct (Z.leb_spec (e_start_ts_ns e) (e_end_ts_ns e)); lia.
Qed.

(** Discharge [entry_wf] of a concrete entry. *)
Ltac solve_entry_wf :=
  constructor; unfold source_wf, envelope_wf, id_wf, gen_wf, in_width; simpl;
  try (apply StdMap.sortedb_sorted); repeat split; solve [lia | reflexivity].
