(* ===== verification/Codec.v ===== *)
(** * The entry codec (src/codec.cpp)

    CRC-32, [encode_entry] and [decode_entry]: the frame
    [u32 length][u32 crc][payload] of a ledger entry. Decoding has three
    outcomes: an entry with the bytes it consumed, a rejection, and an
    out-of-bounds read, which the 32-bit addition [8u + len] makes possible. *)

From Stdlib Require Import SpecFloat Strings.Byte.
From stdpp Require Import base list strings numbers.
From S2P Require Import Prelude Float64 StdMap Identity Reader Kinds Entry.
Open Scope Z_scope.

(** ** CRC-32 (IEEE 802.3, reflected) *)

(** One iteration of the inner loop. *)
Definition crc_bit (crc : Z) : Z :=
  let mask := wrap 32 (0 - Z.land crc 1) in
  Z.lxor (Z.shiftr crc 1) (Z.land 0xEDB88320 mask).

(** One iteration of the outer loop. *)
Definition crc_byte (crc : Z) (b : byte) : Z :=
  Nat.iter 8 crc_bit (Z.lxor crc (byte_to_Z b)).

(** [crc32]; the final [~crc] is an exclusive or with all ones. *)
Definition crc32 (data : list byte) : Z :=
  Z.lxor (fold_left crc_byte data 0xFFFFFFFF) 0xFFFFFFFF.

(** ** Validation *)

Definition is_physical_resource (k : ResourceKind) : bool :=
  match k with
  | RCompute | RMemory | RKv | RTensor | RTransfer | RResidency | RCache | REnergy => true
  | _ => false
  end.

Definition valid_event_kind (v : Z) : bool :=
  (event_kind_val RequestStart <=? v) && (v <=? event_kind_val CostAdjustment).
Definition valid_resource_kind (v : Z) : bool :=
  (resource_kind_val RCompute <=? v) && (v <=? resource_kind_val RGeneric).
Definition valid_unit (v : Z) : bool := v <=? unit_val Dimensionless.
Definition valid_provenance (v : Z) : bool := v <=? provenance_val Unavailable.

(** ** Encoding *)

(** The payload [encode_entry] writes, field by field. *)
Definition entry_payload (e : LedgerEntry) : list byte :=
  put_u8 kCodecEndianMarker ++
  put_u32 kSchemaVersion ++
  put_id (e_id e) ++
  put_id (e_ledger e) ++
  put_id (e_tenant e) ++
  put_id (e_workload e) ++
  put_id (e_request e) ++
  put_id (e_model e) ++
  put_id (e_model_revision e) ++
  put_bool8 (e_has_adapter e) ++
  (if e_has_adapter e then put_id (e_adapter e) else []) ++
  put_id (e_attempt e) ++
  put_id (e_dispatch e) ++
  put_id (e_worker e) ++
  put_id (e_node e) ++
  put_id (e_device e) ++
  put_u8 (event_kind_val (e_event_kind e)) ++
  put_u8 (resource_kind_val (e_resource_kind e)) ++
  put_u64 (bits_of_double (q_value (e_quantity e))) ++
  put_u8 (unit_val (q_unit (e_quantity e))) ++
  put_u8 (provenance_val (q_provenance (e_quantity e))) ++
  put_u64 (e_start_ts_ns e) ++
  put_u64 (e_end_ts_ns e) ++
  put_bool8 (e_has_end e) ++
  put_id (src_worker (e_source e)) ++
  put_id (src_boot (e_source e)) ++
  put_u64 (value (src_accounting_generation (e_source e))) ++
  put_u64 (value (au_epoch (e_authority e))) ++
  put_id (au_worker_boot (e_authority e)) ++
  put_u64 (value (au_request_generation (e_authority e))) ++
  put_u64 (value (au_accounting_generation (e_authority e))) ++
  put_id (au_attempt (e_authority e)) ++
  put_u64 (value (au_attempt_generation (e_authority e))) ++
  put_id (au_dispatch (e_authority e)) ++
  put_bool8 (e_has_accounting_policy e) ++
  (if e_has_accounting_policy e then put_id (e_accounting_policy e) else []) ++
  put_bool8 (e_has_pricing_policy e) ++
  (if e_has_pricing_policy e then put_id (e_pricing_policy e) else []) ++
  put_u32 (wrap 32 (Z.of_nat (length (e_metadata e)))) ++
  concat (map (fun kv => put_string kv.1 ++ put_string kv.2) (e_metadata e)).

(** The checks before anything is written. *)
Definition encode_checks (e : LedgerEntry) : bool :=
  isfinite (q_value (e_quantity e)) &&
  negb (is_physical_resource (e_resource_kind e) && (q_value (e_quantity e) <? d0)%D) &&
  negb (bool_decide (q_unit (e_quantity e) = Count) && negb (is_integral (e_quantity e))).

(** The frame: the payload behind its 32-bit length and checksum. *)
Definition frame (payload : list byte) : list byte :=
  bytes32 (wrap 32 (Z.of_nat (length payload))) ++ bytes32 (crc32 payload) ++ payload.

(** [encode_entry]: the frame, or [None] where the function returns [false]. *)
Definition encode_entry (e : LedgerEntry) : option (list byte) :=
  if negb (encode_checks e) then None
  else if 0xFFFFFFFF <? Z.of_nat (length (e_metadata e)) then None
  else Some (frame (entry_payload e)).

(** ** Decoding *)

(** The metadata loop: [count] bindings, each emplaced. Every iteration consumes at
    least eight bytes or stops, so a fuel above the bytes left is never exhausted
    ([read_metadata_fuel]). *)
Fixpoint read_metadata (fuel : nat) (count : Z) (m : list (string * string))
    : Rd (list (string * string)) :=
  if count <=? 0 then rd_ret m
  else match fuel with
  | O => rd_reject
  | S fuel =>
      let* k := get_string in
      let* v := get_string in
      read_metadata fuel (count - 1) (StdMap.emplace k v m)
  end.

(** The payload reader of [decode_entry], up to the check for trailing bytes. *)
Definition read_payload : Rd LedgerEntry :=
  let* marker := get_u8 in
  let* _ := rd_check (marker =? kCodecEndianMarker) in
  let* ver := get_u32 in
  let* _ := rd_check (ver =? kSchemaVersion) in
  let* id := get_id in
  let* ledger := get_id in
  let* tenant := get_id in
  let* workload := get_id in
  let* request := get_id in
  let* model := get_id in
  let* model_revision := get_id in
  let* has_adapter := get_bool8 in
  let* adapter := (if has_adapter : bool then get_id else rd_ret id_zero) in
  let* attempt := get_id in
  let* dispatch := get_id in
  let* worker := get_id in
  let* node := get_id in
  let* device := get_id in
  let* ek := get_u8 in
  let* rk := get_u8 in
  let* _ := rd_check (valid_event_kind ek && valid_resource_kind rk) in
  let* qbits := get_u64 in
  let* qu := get_u8 in
  let* qp := get_u8 in
  let* _ := rd_check (valid_unit qu && valid_provenance qp) in
  let* start_ts_ns := get_u64 in
  let* end_ts_ns := get_u64 in
  let* has_end := get_bool8 in
  let* s_worker := get_id in
  let* s_boot := get_id in
  let* ag := get_u64 in
  let* epoch := get_u64 in
  let* worker_boot := get_id in
  let* rg := get_u64 in
  let* agg := get_u64 in
  let* a_attempt := get_id in
  let* atg := get_u64 in
  let* a_dispatch := get_id in
  let* has_accounting_policy := get_bool8 in
  let* accounting_policy := (if has_accounting_policy : bool then get_id else rd_ret id_zero) in
  let* has_pricing_policy := get_bool8 in
  let* pricing_policy := (if has_pricing_policy : bool then get_id else rd_ret id_zero) in
  let* meta_count := get_u32 in
  fun r =>
  (let* metadata := read_metadata (S (remaining r)) meta_count [] in
   match event_kind_cast ek, resource_kind_cast rk, unit_cast qu, provenance_cast qp with
   | Some event_kind, Some resource_kind, Some u, Some p =>
       rd_ret
         {| e_id := id; e_ledger := ledger; e_tenant := tenant; e_workload := workload;
            e_request := request; e_model := model; e_model_revision := model_revision;
            e_has_adapter := has_adapter; e_adapter := adapter; e_attempt := attempt;
            e_dispatch := dispatch; e_worker := worker; e_node := node; e_device := device;
            e_event_kind := event_kind; e_resource_kind := resource_kind;
            e_quantity := MkQuantity (double_of_bits qbits) u p;
            e_start_ts_ns := start_ts_ns; e_end_ts_ns := end_ts_ns; e_has_end := has_end;
            e_source := MkSourceIdentity s_worker s_boot (MkGen ag);
            e_authority := MkAuthorityEnvelope (MkGen epoch) worker_boot (MkGen rg)
                             (MkGen agg) a_attempt (MkGen atg) a_dispatch;
            e_has_accounting_policy := has_accounting_policy;
            e_accounting_policy := accounting_policy;
            e_has_pricing_policy := has_pricing_policy; e_pricing_policy := pricing_policy;
            e_metadata := metadata |}
   | _, _, _, _ => rd_reject
   end) r.

(** What the decoder does with a payload whose checksum matched. *)
Definition decode_payload (payload : list byte) : option LedgerEntry :=
  match read_payload (reader_of payload) with
  | (Some e, r) =>
      if negb (Nat.eqb (remaining r) 0) then None
      else if negb (isfinite (q_value (e_quantity e))) then None
      else if is_physical_resource (e_resource_kind e) && (q_value (e_quantity e) <? d0)%D
      then None
      else Some e
  | (None, _) => None
  end.

Inductive DecodeResult :=
| Decoded (e : LedgerEntry) (consumed : Z)
| DecodeRejected
| DecodeOutOfBounds.

(** [decode_entry] on a buffer of exactly [length data] bytes. [8u + len] is
    computed in 32 bits; a length whose sum wraps passes the size test, and the
    checksum loop then leaves the buffer. *)
Definition decode_entry (data : list byte) : DecodeResult :=
  match data with
  | d0 :: d1 :: d2 :: d3 :: d4 :: d5 :: d6 :: d7 :: rest =>
      let n := Z.of_nat (length data) in
      let len := be32 d0 d1 d2 d3 in
      let crc_want := be32 d4 d5 d6 d7 in
      let total := wrap 32 (8 + len) in
      if n <? total then DecodeRejected
      else if Z.of_nat (length rest) <? len then DecodeOutOfBounds
      else
        let payload := take (Z.to_nat len) rest in
        if negb (crc32 payload =? crc_want) then DecodeRejected
        else match decode_payload payload with
             | Some e => Decoded e total
             | None => DecodeRejected
             end
  | _ => DecodeRejected
  end.

(** An entry the frame format can carry: its strings are not dropped, and the
    payload length fits the 32-bit field with room for the header. *)
Definition fits_frame (e : LedgerEntry) : Prop :=
  Forall (fun kv => Z.of_nat (String.length kv.1) < 2 ^ 32 /\
                    Z.of_nat (String.length kv.2) < 2 ^ 32) (e_metadata e) /\
  Z.of_nat (length (entry_payload e)) < 2 ^ 32 - 8.
