(* ===== verification/Crc.v ===== *)
(** * What the CRC-32 of the codec detects

    The update of one bit is linear over exclusive or and injective on 32-bit
    words, so a message changed inside a window of four consecutive bytes (a
    burst of up to 32 bits) always has a different checksum. *)

From Stdlib Require Import Strings.Byte.
From stdpp Require Import base list numbers.
From S2P Require Import Prelude Codec.
Open Scope Z_scope.

(** ** Words *)

Lemma in_width_land n x : 0 <= n -> in_width n x <-> Z.land x (Z.ones n) = x.
Proof.
  intros Hn. rewrite Z.land_ones by lia. unfold in_width. split.
  - apply Z.mod_small.
  - intros <-. apply Z.mod_pos_bound, Z.pow_pos_nonneg; lia.
Qed.

Lemma lxor_width n a b : 0 <= n -> in_width n a -> in_width n b -> in_width n (Z.lxor a b).
Proof.
  intros Hn. rewrite !in_width_land by done. intros Ha Hb.
  apply Z.bits_inj'. intros i Hi.
  apply (f_equal (fun x => Z.testbit x i)) in Ha, Hb.
  rewrite !Z.land_spec, !Z.lxor_spec in *.
  destruct (Z.testbit a i), (Z.testbit b i), (Z.testbit (Z.ones n) i); done.
Qed.

(** ** One bit *)

Definition poly : Z := 0xEDB88320.

Lemma crc_bit_odd c : crc_bit c = Z.lxor (Z.shiftr c 1) (if Z.odd c then poly else 0).
Proof.
  unfold crc_bit. f_equal.
  assert (Z.land c 1 = if Z.odd c then 1 else 0) as ->.
  { change 1 with (Z.ones 1). rewrite Z.land_ones, Zmod_odd by lia. done. }
  by destruct (Z.odd c).
Qed.

Lemma shiftr_1_width c : in_width 32 c -> in_width 31 (Z.shiftr c 1).
Proof. unfold in_width. shifts. divlia. Qed.

Lemma crc_bit_width c : in_width 32 c -> in_width 32 (crc_bit c).
Proof.
  intros Hc. rewrite crc_bit_odd. apply lxor_width; [lia| |].
  - apply shiftr_1_width in Hc. unfold in_width in *. lia.
  - unfold in_width, poly. destruct (Z.odd c); lia.
Qed.

(** Bit 31 of the result is the bit shifted out, so the update can be undone. *)
Lemma crc_bit_testbit_31 c : in_width 32 c -> Z.testbit (crc_bit c) 31 = Z.odd c.
Proof.
  intros Hc. rewrite crc_bit_odd, Z.lxor_spec, Z.shiftr_spec by lia.
  assert (Z.testbit c (31 + 1) = false) as ->.
  { rewrite <- (wrap_small 32 c) by done. apply Z.mod_pow2_bits_high. lia. }
  by destruct (Z.odd c).
Qed.

Lemma crc_bit_inj a b : in_width 32 a -> in_width 32 b -> crc_bit a = crc_bit b -> a = b.
Proof.
  intros Ha Hb Heq.
  assert (Z.odd a = Z.odd b) as Hodd by (by rewrite <- !crc_bit_testbit_31, Heq).
  rewrite !crc_bit_odd, Hodd in Heq.
  apply (f_equal (fun x => Z.lxor x (if Z.odd b then poly else 0))) in Heq.
  rewrite !Z.lxor_assoc, !Z.lxor_nilpotent, !Z.lxor_0_r in Heq.
  rewrite (Z.div2_odd a), (Z.div2_odd b), Hodd, !Z.div2_spec. by rewrite Heq.
Qed.

Lemma crc_bit_lxor a b : crc_bit (Z.lxor a b) = Z.lxor (crc_bit a) (crc_bit b).
Proof.
  rewrite !crc_bit_odd, Z.shiftr_lxor.
  assert (Z.odd (Z.lxor a b) = xorb (Z.odd a) (Z.odd b)) as ->
    by (rewrite <- !Z.bit0_odd; apply Z.lxor_spec).
  apply Z.bits_inj'. intros i Hi. rewrite !Z.lxor_spec.
  destruct (Z.odd a), (Z.odd b); simpl; rewrite ?Z.bits_0;
    by destruct (Z.testbit (Z.shiftr a 1) i), (Z.testbit (Z.shiftr b 1) i), (Z.testbit poly i).
Qed.

(** The cons case of a loop, as a rewriting rule. *)
Lemma fold_left_cons_eq {A B} (f : A -> B -> A) b bs a :
  fold_left f (b :: bs) a = fold_left f bs (f a b).
Proof. done. Qed.

Lemma crc_byte_eq c b : crc_byte c b = Nat.iter 8 crc_bit (Z.lxor c (byte_to_Z b)).
Proof. done. Qed.

#[local] Opaque crc_bit crc_byte.

(** ** Several bits *)

Lemma crc_bits_width n c : in_width 32 c -> in_width 32 (Nat.iter n crc_bit c).
Proof. intros Hc. induction n; simpl; [done|by apply crc_bit_width]. Qed.

Lemma crc_bits_inj n a b :
  in_width 32 a -> in_width 32 b -> Nat.iter n crc_bit a = Nat.iter n crc_bit b -> a = b.
Proof.
  intros Ha Hb. induction n; simpl; [done|]. intros Heq. apply IHn.
  by apply crc_bit_inj; [apply crc_bits_width..|].
Qed.

Lemma crc_bits_lxor n a b :
  Nat.iter n crc_bit (Z.lxor a b) = Z.lxor (Nat.iter n crc_bit a) (Nat.iter n crc_bit b).
Proof. induction n as [|n IH]; simpl; [done|]. by rewrite IH, crc_bit_lxor. Qed.

(** Zero low bits are shifted out with no feedback. *)
Lemma crc_bits_shift n x : Nat.iter n crc_bit (Z.shiftl x (Z.of_nat n)) = x.
Proof.
  induction n as [|n IH]; [apply Z.shiftl_0_r|].
  rewrite Nat.iter_succ_r, crc_bit_odd.
  assert (Z.odd (Z.shiftl x (Z.of_nat (S n))) = false) as ->.
  { rewrite <- Z.bit0_odd. apply Z.shiftl_spec_low. lia. }
  rewrite Z.lxor_0_r, Z.shiftr_shiftl_l by lia.
  replace (Z.of_nat (S n) - 1) with (Z.of_nat n) by lia. done.
Qed.

Lemma crc_byte_width c b : in_width 32 c -> in_width 32 (crc_byte c b).
Proof.
  intros Hc. rewrite crc_byte_eq. apply crc_bits_width, lxor_width; [lia|done|].
  pose proof (byte_to_Z_range b). unfold in_width. lia.
Qed.

Lemma crc_fold_width bs c : in_width 32 c -> in_width 32 (fold_left crc_byte bs c).
Proof.
  revert c. induction bs as [|b bs IH]; intros c Hc; [done|].
  rewrite fold_left_cons_eq. by apply IH, crc_byte_width.
Qed.

Lemma crc32_width bs : in_width 32 (crc32 bs).
Proof.
  unfold crc32. apply lxor_width; [lia|apply crc_fold_width|]; unfold in_width; lia.
Qed.

(** ** Bursts *)

(** The little-endian value of a window. *)
Fixpoint le_val (bs : list byte) : Z :=
  match bs with
  | [] => 0
  | b :: bs => Z.lxor (byte_to_Z b) (Z.shiftl (le_val bs) 8)
  end.

Lemma le_val_sum b bs : le_val (b :: bs) = byte_to_Z b + 256 * le_val bs.
Proof.
  simpl. pose proof (byte_to_Z_range b) as Hb.
  assert (Z.land (byte_to_Z b) (Z.shiftl (le_val bs) 8) = 0) as Hland.
  { apply Z.bits_inj'. intros i Hi. rewrite Z.land_spec, Z.bits_0.
    destruct (Z.lt_ge_cases i 8).
    - by rewrite Z.shiftl_spec_low, andb_false_r.
    - rewrite <- (wrap_small 8 (byte_to_Z b)) by done. unfold wrap.
      by rewrite Z.mod_pow2_bits_high. }
  rewrite <- Z.add_nocarry_lxor by done. shifts. lia.
Qed.

Lemma le_val_width bs : (length bs <= 4)%nat -> in_width 32 (le_val bs).
Proof.
  assert (0 <= le_val bs < 256 ^ Z.of_nat (length bs)) as H.
  { induction bs as [|b bs IH]; [simpl; lia|]. rewrite le_val_sum.
    pose proof (byte_to_Z_range b). cbn [length]. rewrite Nat2Z.inj_succ, Z.pow_succ_r by lia. lia. }
  intros Hlen. unfold in_width. split; [lia|].
  apply Z.lt_le_trans with (256 ^ Z.of_nat (length bs)); [lia|].
  change (2 ^ 32) with (256 ^ 4). apply Z.pow_le_mono_r; lia.
Qed.

Lemma le_val_inj bs bs' : length bs = length bs' -> le_val bs = le_val bs' -> bs = bs'.
Proof.
  revert bs'. induction bs as [|b bs IH]; intros [|b' bs'] Hlen; try done.
  rewrite !le_val_sum. intros Heq.
  pose proof (byte_to_Z_range b). pose proof (byte_to_Z_range b'). simpl in Hlen.
  f_equal; [apply byte_to_Z_inj; lia|apply IH; lia].
Qed.

(** A window acts on the register as its little-endian value. *)
Lemma crc_fold_window bs c :
  fold_left crc_byte bs c = Nat.iter (8 * length bs) crc_bit (Z.lxor c (le_val bs)).
Proof.
  revert c. induction bs as [|b bs IH]; intros c; [by rewrite Z.lxor_0_r|].
  rewrite fold_left_cons_eq, IH, crc_byte_eq. cbn [length].
  rewrite <- (crc_bits_shift 8 (le_val bs)) at 1.
  rewrite <- crc_bits_lxor, <- Nat.iter_add, Z.lxor_assoc.
  replace (8 * S (length bs))%nat with (8 * length bs + 8)%nat by lia. done.
Qed.

Lemma crc_fold_inj bs a b :
  in_width 32 a -> in_width 32 b ->
  fold_left crc_byte bs a = fold_left crc_byte bs b -> a = b.
Proof.
  revert a b. induction bs as [|x bs IH]; intros a b Ha Hb; [done|].
  rewrite !fold_left_cons_eq. intros Heq%IH; [|by apply crc_byte_width..]. rewrite !crc_byte_eq in Heq.
  pose proof (byte_to_Z_range x).
  apply crc_bits_inj in Heq; [|apply lxor_width; unfold in_width in *; lia..].
  apply (f_equal (fun y => Z.lxor y (byte_to_Z x))) in Heq.
  by rewrite !Z.lxor_assoc, Z.lxor_nilpotent, !Z.lxor_0_r in Heq.
Qed.

(** Two messages that differ only inside a window of at most four bytes have
    different checksums. *)
Lemma crc32_burst pre ws ws' post :
  length ws = length ws' -> (length ws <= 4)%nat -> ws <> ws' ->
  crc32 (pre ++ ws ++ post) <> crc32 (pre ++ ws' ++ post).
Proof.
  intros Hlen H4 Hne Heq. unfold crc32 in Heq.
  apply (f_equal (fun y => Z.lxor y 0xFFFFFFFF)) in Heq.
  rewrite !Z.lxor_assoc, Z.lxor_nilpotent, !Z.lxor_0_r, !fold_left_app in Heq.
  assert (in_width 32 (fold_left crc_byte pre 0xFFFFFFFF)) as Hpre
    by (apply crc_fold_width; unfold in_width; lia).
  revert Heq Hpre. generalize (fold_left crc_byte pre 0xFFFFFFFF). intros c Heq Hpre.
  apply crc_fold_inj in Heq; [|by apply crc_fold_width..].
  rewrite !crc_fold_window, Hlen in Heq.
  apply crc_bits_inj in Heq; [|apply lxor_width; [lia|done|apply le_val_width; lia]..].
  apply (f_equal (Z.lxor c)) in Heq.
  rewrite <- !Z.lxor_assoc, Z.lxor_nilpotent, !Z.lxor_0_l in Heq.
  by apply Hne, le_val_inj.
Qed.
