(* ===== verification/CodecProofs.v ===== *)
(** * Correctness of the entry codec

    Decoding undoes encoding up to the unused optional identities; a decoded
    entry is well formed; truncation and any corruption inside one byte are
    rejected; the reader stays inside its buffer except for lengths that wrap. *)

From Stdlib Require Import SpecFloat Strings.Byte.
From stdpp Require Import base list strings numbers.
From S2P Require Import Prelude Float64 StdMap Identity Reader Kinds Entry Codec Crc.
Open Scope Z_scope.

(** ** Reading back a payload *)

Lemma length_put_string_ge s :
  Z.of_nat (String.length s) < 2 ^ 32 -> (4 <= length (put_string s))%nat.
Proof.
  intros Hs. unfold put_string. rewrite (proj2 (Z.ltb_ge _ _)) by lia.
  rewrite length_app. change (length (put_u32 _)) with 4%nat. lia.
Qed.

Definition metadata_bytes (m : list (string * string)) : list byte :=
  concat (map (fun kv => put_string kv.1 ++ put_string kv.2) m).

Definition strings_fit (m : list (string * string)) : Prop :=
  Forall (fun kv => Z.of_nat (String.length kv.1) < 2 ^ 32 /\
                    Z.of_nat (String.length kv.2) < 2 ^ 32) m.

Lemma length_metadata_bytes m : strings_fit m -> (length m <= length (metadata_bytes m))%nat.
Proof.
  induction 1 as [|[k v] m [Hk Hv] _ IH]; [done|].
  unfold metadata_bytes in *. simpl. rewrite !length_app.
  apply length_put_string_ge in Hk, Hv. simpl in *. lia.
Qed.

Lemma reads_metadata fuel m acc :
  strings_fit m -> (length m <= fuel)%nat ->
  reads (read_metadata fuel (Z.of_nat (length m)) acc) (metadata_bytes m)
    (fold_left (fun a kv => StdMap.emplace kv.1 kv.2 a) m acc).
Proof.
  intros Hfit. revert fuel acc.
  induction Hfit as [|[k v] m [Hk Hv] _ IH]; intros fuel acc Hfuel.
  - destruct fuel; apply reads_ret.
  - destruct fuel as [|fuel]; [simpl in Hfuel; lia|].
    cbn [read_metadata length]. rewrite (proj2 (Z.leb_gt _ _)) by lia.
    unfold metadata_bytes. cbn [map concat fst snd]. rewrite <- !(assoc_L (++)).
    eapply reads_bind; [by apply reads_put_string|].
    eapply reads_bind; [by apply reads_put_string|].
    replace (Z.of_nat (S (length m)) - 1) with (Z.of_nat (length m)) by lia.
    apply IH. simpl in Hfuel. lia.
Qed.

Lemma reads_optional_id {Tag} (f : bool) (i : Id128 Tag) :
  id_wf i ->
  reads (if f then get_id else rd_ret id_zero) (if f then put_id i else [])
    (if f then i else id_zero).
Proof. intros. destruct f; [by apply reads_put_id|apply reads_ret]. Qed.

Lemma event_kind_width k : in_width 8 (event_kind_val k).
Proof. pose proof (event_kind_val_range k). unfold in_width. lia. Qed.
Lemma resource_kind_width k : in_width 8 (resource_kind_val k).
Proof. pose proof (resource_kind_val_range k). unfold in_width. lia. Qed.
Lemma unit_width k : in_width 8 (unit_val k).
Proof. pose proof (unit_val_range k). unfold in_width. lia. Qed.
Lemma provenance_width k : in_width 8 (provenance_val k).
Proof. pose proof (provenance_val_range k). unfold in_width. lia. Qed.

#[export] Hint Resolve event_kind_width resource_kind_width unit_width provenance_width
  bits_of_double_range : wire.

Lemma valid_kinds k r :
  valid_event_kind (event_kind_val k) && valid_resource_kind (resource_kind_val r) = true.
Proof. by destruct k, r. Qed.

Lemma valid_tags u p : valid_unit (unit_val u) && valid_provenance (provenance_val p) = true.
Proof. by destruct u, p. Qed.

Lemma metadata_count_width e :
  strings_fit (e_metadata e) -> Z.of_nat (length (entry_payload e)) < 2 ^ 32 - 8 ->
  in_width 32 (Z.of_nat (length (e_metadata e))).
Proof.
  intros Hfit Hlen. pose proof (length_metadata_bytes _ Hfit) as Hm.
  unfold entry_payload in Hlen. rewrite !length_app in Hlen.
  fold (metadata_bytes (e_metadata e)) in Hlen. unfold in_width. lia.
Qed.

Ltac read_field := eapply reads_bind; [solve [eauto with wire]|].
Ltac read_check := eapply reads_bind_nil; [apply reads_check|].
Ltac read_optional := eapply reads_bind; [by apply reads_optional_id|].

Lemma reads_payload e : entry_wf e -> fits_frame e ->
  reads read_payload (entry_payload e) (canonical e).
Proof.
  intros [? ? ? ? ? ? ? ? ? ? ? ? ? ? ? ? (?&?&?) (?&?&?&?&?&?&?) ? ? ?] [Hfit Hlen].
  unfold read_payload, entry_payload.
  eapply reads_bind; [by apply reads_put_u8|]. read_check; [done|].
  eapply reads_bind; [by apply reads_put_u32|]. read_check; [done|].
  do 8 read_field. read_optional. do 7 read_field.
  read_check; [apply valid_kinds|]. do 3 read_field. read_check; [apply valid_tags|].
  do 14 read_field. read_optional. read_field. read_optional.
  eapply reads_bind; [apply reads_put_u32, wrap_in_width; lia|].
  pose proof (metadata_count_width e Hfit Hlen) as Hcount.
  rewrite (wrap_small 32) by done.
  intros r rest Hr Hp. fold (metadata_bytes (e_metadata e)) in *.
  pose proof (length_metadata_bytes _ Hfit) as Hmeta.
  assert (reads (read_metadata (S (remaining r)) (Z.of_nat (length (e_metadata e))) [])
    (metadata_bytes (e_metadata e)) (e_metadata e)) as Hm.
  { rewrite <- (app_nil_l (e_metadata e)) at 3.
    rewrite <- (StdMap.fold_emplace_sorted [] (e_metadata e)) by done.
    apply reads_metadata; [done|]. rewrite rd_rest_length, Hr, length_app by done. lia. }
  rewrite <- (app_nil_r (metadata_bytes _)) in Hr |- *.
  eapply (reads_bind _ _ _ [] _ _ Hm); [|exact Hr|done].
  autorewrite with enums. rewrite double_of_bits_of_double by done.
  intros r' rest' _ _. rewrite advance_0. by destruct e as [? ? ? ? ? ? ? ? ? ? ? ? ? ? ? ? [] ? ? ? [? ? []] [[] ? [] [] ? [] ?]].
Qed.

Lemma decode_payload_entry_payload e :
  entry_wf e -> fits_frame e -> encode_checks e = true ->
  decode_payload (entry_payload e) = Some (canonical e).
Proof.
  intros Hwf Hfit Hchk. unfold decode_payload.
  pose proof (reads_payload e Hwf Hfit (reader_of (entry_payload e)) []) as Hr.
  rewrite Hr; [|by rewrite app_nil_r|simpl; lia].
  unfold remaining, advance, update; simpl. rewrite Nat.add_0_r, Nat.leb_refl, Nat.sub_diag. simpl.
  unfold encode_checks in Hchk. rewrite !andb_true_iff, negb_true_iff in Hchk.
  destruct Hchk as [[Hfin Hphys] _]. by rewrite Hfin, Hphys.
Qed.

(** ** Frames *)

Lemma length_frame payload : length (frame payload) = (8 + length payload)%nat.
Proof. done. Qed.

(** A frame followed by anything is read as its payload. *)
Lemma decode_entry_frame payload rest :
  Z.of_nat (length payload) < 2 ^ 32 - 8 ->
  decode_entry (frame payload ++ rest) =
  match decode_payload payload with
  | Some e => Decoded e (Z.of_nat (length (frame payload)))
  | None => DecodeRejected
  end.
Proof.
  intros Hlen. unfold frame, bytes32. cbn [app decode_entry].
  rewrite !be32_bytes32, !(wrap_small 32 (Z.of_nat _)) by (unfold in_width; lia).
  rewrite (wrap_small 32 (crc32 _)) by apply crc32_width.
  rewrite (wrap_small 32) by (unfold in_width; lia).
  cbn [length]. rewrite !length_app.
  rewrite !(proj2 (Z.ltb_ge _ _)) by lia.
  rewrite Nat2Z.id, take_app_length, Z.eqb_refl. simpl negb. cbv iota.
  destruct (decode_payload payload); [|done]. f_equal. lia.
Qed.

Lemma encode_entry_Some e bs :
  encode_entry e = Some bs -> encode_checks e = true /\ bs = frame (entry_payload e).
Proof.
  unfold encode_entry. destruct (encode_checks e); simpl; [|done].
  case_match; [done|]. by intros [= <-].
Qed.

(** C17: decoding the frame [encode_entry] wrote, whatever bytes follow it, returns
    the entry (with the identities its flags leave out at their defaults) and
    consumes exactly the frame. *)
Theorem decode_encode_entry e bs rest :
  entry_wf e -> fits_frame e -> encode_entry e = Some bs ->
  decode_entry (bs ++ rest) = Decoded (canonical e) (Z.of_nat (length bs)).
Proof.
  intros Hwf Hfit [Hchk ->]%encode_entry_Some.
  rewrite decode_entry_frame by apply Hfit.
  by rewrite decode_payload_entry_payload.
Qed.

(** ** Rejections *)

Lemma decode_entry_truncated payload k :
  Z.of_nat (length payload) < 2 ^ 32 - 8 -> (k < length (frame payload))%nat ->
  decode_entry (take k (frame payload)) = DecodeRejected.
Proof.
  intros Hlen Hk. rewrite length_frame in Hk. unfold frame, bytes32.
  do 8 (destruct k as [|k]; [reflexivity|]). cbn [app take decode_entry].
  rewrite !be32_bytes32, (wrap_small 32 (Z.of_nat _)) by (unfold in_width; lia).
  rewrite (wrap_small 32 (Z.of_nat _)) by (unfold in_width; lia).
  rewrite (wrap_small 32 (8 + _)) by (unfold in_width; lia).
  cbn [length]. rewrite length_take.
  by rewrite (proj2 (Z.ltb_lt _ _)) by lia.
Qed.

(** a frame cut short anywhere is rejected, never misread. *)
Theorem decode_truncated_rejected e bs k :
  fits_frame e -> encode_entry e = Some bs -> (k < length bs)%nat ->
  decode_entry (take k bs) = DecodeRejected.
Proof.
  intros [_ Hlen] [_ ->]%encode_entry_Some Hk. by apply decode_entry_truncated.
Qed.

(** A payload of the same length with another checksum is rejected. *)
Lemma decode_entry_bad_crc payload payload' rest :
  length payload' = length payload -> Z.of_nat (length payload) < 2 ^ 32 - 8 ->
  crc32 payload' <> crc32 payload ->
  decode_entry (take 8 (frame payload) ++ payload' ++ rest) = DecodeRejected.
Proof.
  intros Hl Hlen Hcrc. unfold frame, bytes32. cbn [app take decode_entry].
  rewrite !be32_bytes32, !(wrap_small 32 (Z.of_nat _)) by (unfold in_width; lia).
  rewrite (wrap_small 32 (crc32 _)) by apply crc32_width.
  rewrite (wrap_small 32) by (unfold in_width; lia).
  cbn [length]. rewrite !length_app.
  rewrite !(proj2 (Z.ltb_ge _ _)) by lia.
  rewrite take_0, app_nil_l, <- Hl, Nat2Z.id, take_app_length, (proj2 (Z.eqb_neq _ _)) by done. done.
Qed.

(** C19: corruption of a stored entry inside any window of four payload bytes (a
    burst of up to 32 bits) is always detected: the decoder rejects the frame. *)
Theorem decode_burst_rejected e hdr pre ws ws' post rest :
  fits_frame e -> encode_entry e = Some (hdr ++ pre ++ ws ++ post) -> length hdr = 8%nat ->
  length ws' = length ws -> (length ws <= 4)%nat -> ws' <> ws ->
  decode_entry (hdr ++ pre ++ ws' ++ post ++ rest) = DecodeRejected.
Proof.
  intros [_ Hlen] [_ Henc]%encode_entry_Some Hhdr Hw H4 Hne.
  assert (hdr = take 8 (frame (entry_payload e))) as ->.
  { rewrite <- Henc, <- Hhdr. by rewrite take_app_length. }
  assert (entry_payload e = pre ++ ws ++ post) as Hp.
  { assert (drop 8 (frame (entry_payload e)) = entry_payload e) as <- by done.
    rewrite <- Henc. by rewrite drop_app_length'. }
  rewrite !(assoc_L (++) pre), !(assoc_L (++) (pre ++ ws')).
  apply decode_entry_bad_crc; [rewrite Hp, !length_app; lia|done|].
  rewrite Hp, <- (assoc_L (++)). apply crc32_burst; congruence || lia.
Qed.

(** ** Bounds *)

(** The decoder reads outside its buffer only if the length field is one of
    the eight values whose 32-bit sum with the header size wraps. *)
Theorem decode_entry_in_bounds d0 d1 d2 d3 rest :
  be32 d0 d1 d2 d3 < 2 ^ 32 - 8 ->
  decode_entry (d0 :: d1 :: d2 :: d3 :: rest) <> DecodeOutOfBounds.
Proof.
  intros Hlen. pose proof (be32_range d0 d1 d2 d3) as [Hlo _].
  do 4 (destruct rest as [|? rest]; [done|]). cbn [decode_entry].
  rewrite (wrap_small 32) by (unfold in_width; lia). cbn [length].
  destruct (Z.ltb_spec (Z.of_nat (S (S (S (S (S (S (S (S (length rest)))))))))) (8 + be32 d0 d1 d2 d3));
    [done|].
  rewrite (proj2 (Z.ltb_ge _ _)) by lia.
  destruct (negb _); [done|]. by destruct (decode_payload _).
Qed.

Lemma decode_entry_wraps d0 d1 d2 d3 d4 d5 d6 d7 rest :
  2 ^ 32 - 8 <= be32 d0 d1 d2 d3 -> Z.of_nat (length rest) < 2 ^ 32 - 8 ->
  decode_entry (d0 :: d1 :: d2 :: d3 :: d4 :: d5 :: d6 :: d7 :: rest) = DecodeOutOfBounds.
Proof.
  intros Hlen Hrest. pose proof (be32_range d0 d1 d2 d3) as [_ Hhi]. cbn [decode_entry length].
  assert (wrap 32 (8 + be32 d0 d1 d2 d3) = be32 d0 d1 d2 d3 - (2 ^ 32 - 8)) as ->
    by (unfold wrap; divlia).
  rewrite (proj2 (Z.ltb_ge _ _)) by lia.
  by rewrite (proj2 (Z.ltb_lt _ _)) by lia.
Qed.

(** The eight wrapping lengths defeat the size test: on a buffer of at most
    4 GiB whose length field is one of them, [decode_entry] reads out of bounds. *)
Theorem decode_entry_length_wraps d0 d1 d2 d3 d4 d5 d6 d7 rest :
  2 ^ 32 - 8 <= be32 d0 d1 d2 d3 -> Z.of_nat (length rest) < 2 ^ 32 - 8 ->
  decode_entry (d0 :: d1 :: d2 :: d3 :: d4 :: d5 :: d6 :: d7 :: rest) = DecodeOutOfBounds.
Proof. apply decode_entry_wraps. Qed.

(** ** What the decoder returns *)

Lemma yields_metadata fuel count m :
  StdMap.sorted m -> yields (read_metadata fuel count m) StdMap.sorted.
Proof.
  revert count m. induction fuel as [|fuel IH]; intros count m Hm; cbn [read_metadata].
  - destruct (count <=? 0); auto with wire.
  - destruct (count <=? 0); [auto with wire|].
    eapply yields_bind; [apply yields_true|intros k _].
    eapply yields_bind; [apply yields_true|intros v _]. by apply IH, StdMap.upsert_sorted.
Qed.

Lemma yields_optional_id {Tag} (f : bool) :
  yields (if f then @get_id Tag else rd_ret id_zero)
    (fun i => id_wf i /\ (if f then i else id_zero) = i).
Proof.
  destruct f.
  - intros r i r' Hi. split; [by eapply yields_id|done].
  - by apply yields_ret.
Qed.

Ltac yield_field := eapply yields_bind; [solve [eauto with wire | apply yields_true]|intros ? ?].
Ltac yield_optional := eapply yields_bind; [apply yields_optional_id|intros ? [? ?]].

Lemma yields_payload : yields read_payload (fun e => entry_wf e /\ canonical e = e).
Proof.
  unfold read_payload. do 12 yield_field. yield_optional. do 26 yield_field.
  yield_optional. yield_field. yield_optional. yield_field.
  intros r e r' He.
  eapply (yields_bind _ _ StdMap.sorted (fun e => entry_wf e /\ canonical e = e)
            (yields_metadata _ _ _ StdMap.sorted_nil)); [|exact He].
  intros md Hmd. cbv beta.
  do 4 (case_match; [|apply yields_reject]). apply yields_ret. split.
  - constructor; simpl; try done. apply is_double_of_bits.
  - unfold canonical, update; simpl. by f_equal.
Qed.

Lemma decode_payload_Some payload e :
  decode_payload payload = Some e ->
  entry_wf e /\ canonical e = e /\ isfinite (q_value (e_quantity e)) = true /\
  is_physical_resource (e_resource_kind e) && (q_value (e_quantity e) <? d0)%D = false.
Proof.
  unfold decode_payload. destruct (read_payload (reader_of payload)) as [[e'|] r] eqn:E; [|done].
  apply yields_payload in E as [Hwf Hcan].
  repeat (case_match; [done|]). intros [= <-].
  by rewrite negb_false_iff in *.
Qed.

Lemma decode_entry_valid data e n :
  decode_entry data = Decoded e n ->
  entry_wf e /\ canonical e = e /\ isfinite (q_value (e_quantity e)) = true /\
  is_physical_resource (e_resource_kind e) && (q_value (e_quantity e) <? d0)%D = false /\
  0 <= n <= Z.of_nat (length data).
Proof.
  intros H. do 8 (destruct data as [|? data]; [discriminate H|]).
  cbn [decode_entry] in H. cbv zeta in H.
  destruct (_ <? wrap 32 _) eqn:Ht; [done|].
  destruct (_ <? be32 _ _ _ _); [done|]. destruct (negb _); [done|].
  destruct (decode_payload _) as [e'|] eqn:E; [|done]. injection H as -> <-.
  apply decode_payload_Some in E as (?&?&?&?). split_and!; try done.
  - apply wrap_in_width. lia.
  - by apply Z.ltb_ge in Ht.
Qed.

(** C29: an entry the decoder accepts is well formed whatever the bytes were: its
    words are in their widths, its metadata is in key order, its value is finite
    and, for a physical resource, not negative; and the bytes it reports as
    consumed are bytes of the buffer. *)
Theorem decode_entry_sound data e n :
  decode_entry data = Decoded e n ->
  entry_wf e /\ canonical e = e /\ isfinite (q_value (e_quantity e)) = true /\
  is_physical_resource (e_resource_kind e) && (q_value (e_quantity e) <? d0)%D = false /\
  0 <= n <= Z.of_nat (length data).
Proof. apply decode_entry_valid. Qed.

(** ** The metadata loop terminates *)

(** [m] leaves at most [n] fewer bytes unread than it found. *)
Definition consumes {A} (n : nat) (m : Rd A) : Prop :=
  forall r a r', m r = (Some a, r') -> (n + remaining r' <= remaining r)%nat.

Lemma consumes_bind {A B} n k (m : Rd A) (f : A -> Rd B) :
  consumes n m -> (forall a, consumes k (f a)) -> consumes (n + k) (rd_bind m f).
Proof.
  intros Hm Hf r b r'. unfold rd_bind. destruct (m r) as [[a|] r1] eqn:E; [|done].
  intros Hb%Hf. apply Hm in E. lia.
Qed.

Lemma consumes_or_fail {A} n (m : Rd A) : consumes n m -> consumes n (rd_or_fail m).
Proof.
  intros Hm r a r'. unfold rd_or_fail. destruct (m r) as [[a'|] r1] eqn:E; [|done].
  intros [= <- <-]. by eapply Hm.
Qed.

Lemma consumes_ret {A} (a : A) : consumes 0 (rd_ret a).
Proof. by intros r a' r' [= <- <-]. Qed.

Lemma consumes_u8 : consumes 1 get_u8.
Proof.
  intros r a r'. unfold get_u8. case_match eqn:Hr; [done|]. apply Nat.ltb_ge in Hr.
  case_match; [|done]. intros [= <- <-]. revert Hr. unfold remaining, update; cbn [rd_data rd_pos].
  destruct (Nat.leb_spec (rd_pos r) (length (rd_data r))),
    (Nat.leb_spec (S (rd_pos r)) (length (rd_data r))); lia.
Qed.

Lemma consumes_u32 : consumes 4 get_u32.
Proof.
  apply consumes_or_fail.
  do 4 (eapply (consumes_bind 1 _); [apply consumes_u8|intros ?]). apply consumes_ret.
Qed.

Lemma consumes_bytes n : consumes n (get_bytes n).
Proof.
  intros r a r'. unfold get_bytes. case_match eqn:Hr; [done|]. apply Nat.ltb_ge in Hr.
  intros [= <- <-]. revert Hr. unfold remaining, update; cbn [rd_data rd_pos].
  destruct (Nat.leb_spec (rd_pos r) (length (rd_data r))),
    (Nat.leb_spec (n + rd_pos r) (length (rd_data r))); lia.
Qed.

Lemma consumes_string : consumes 4 get_string.
Proof.
  apply consumes_or_fail. apply (consumes_bind 4 0); [apply consumes_u32|].
  intros len r s r'. case_match; [done|]. intros Hs.
  eapply (consumes_bind _ 0) in Hs; [|apply consumes_bytes|intros; apply consumes_ret]. lia.
Qed.

(** The metadata loop of the decoder never runs out of fuel: any fuel above
    the bytes left gives the same result, so the loop of up to 2^32 - 1
    iterations stops after at most one iteration per eight bytes. *)
Theorem read_metadata_fuel fuel fuel' count m r :
  (remaining r < fuel)%nat -> (remaining r < fuel')%nat ->
  read_metadata fuel count m r = read_metadata fuel' count m r.
Proof.
  revert fuel' count m r. induction fuel as [|fuel IH]; intros [|fuel'] count m r Hf Hf'; try lia.
  cbn [read_metadata]. destruct (count <=? 0); [done|]. unfold rd_bind.
  destruct (get_string r) as [[k|] r1] eqn:E1; [|done].
  destruct (get_string r1) as [[v|] r2] eqn:E2; [|done].
  apply consumes_string in E1, E2. apply IH; lia.
Qed.

(** ** Witnesses *)

(** A measured transfer of 1024 bytes under boot 1 of a worker, in a named batch. *)
Definition sample_entry : LedgerEntry :=
  entry_default
    <| e_id := MkId 0xA 4 |> <| e_ledger := MkId 0x494C4544474552 1 |>
    <| e_tenant := MkId 0x99 1 |> <| e_request := MkId 0x1234 1 |>
    <| e_attempt := MkId 0x3001 1 |> <| e_worker := MkId 0xAA 1 |>
    <| e_event_kind := TransferH2D |> <| e_resource_kind := RTransfer |>
    <| e_quantity := MkQuantity (d_of_Z 1024) Bytes Measured |>
    <| e_start_ts_ns := 1300 |> <| e_end_ts_ns := 1350 |> <| e_has_end := true |>
    <| e_source := MkSourceIdentity (MkId 0xAA 1) (MkId 0x1001 1) (MkGen 1) |>
    <| e_authority := MkAuthorityEnvelope (MkGen 1) (MkId 0x1001 1) (MkGen 1) (MkGen 1)
                        (MkId 0x3001 1) (MkGen 1) (MkId 0x5001 1) |>
    <| e_metadata := [("batch", "b7"); ("outcome", "completed")] |>.

Lemma sample_entry_wf : entry_wf sample_entry.
Proof. solve_entry_wf. Qed.

Lemma sample_entry_fits : fits_frame sample_entry.
Proof. split; [repeat constructor|by vm_compute]. Qed.

Definition sample_frame : list byte := frame (entry_payload sample_entry).

Lemma sample_entry_encodes : encode_entry sample_entry = Some sample_frame.
Proof. by vm_compute. Qed.

Lemma decode_encode_entry_witness :
  decode_entry (sample_frame ++ [x00; x01]) =
  Decoded (canonical sample_entry) (Z.of_nat (length sample_frame)).
Proof.
  apply decode_encode_entry.
  - exact sample_entry_wf.
  - exact sample_entry_fits.
  - exact sample_entry_encodes.
Defined.

Lemma decode_truncated_rejected_witness :
  decode_entry (take 100 sample_frame) = DecodeRejected.
Proof.
  apply (decode_truncated_rejected sample_entry sample_frame 100).
  - exact sample_entry_fits.
  - exact sample_entry_encodes.
  - apply Nat.ltb_lt. by vm_compute.
Defined.

(** Two bytes of the ledger identity overwritten. *)
Lemma decode_burst_rejected_witness :
  decode_entry (take 8 sample_frame ++ take 21 (drop 8 sample_frame) ++ [xff; x7f] ++
                drop 31 sample_frame ++ []) = DecodeRejected.
Proof.
  apply (decode_burst_rejected sample_entry (take 8 sample_frame)
           (take 21 (drop 8 sample_frame)) (take 2 (drop 29 sample_frame)) [xff; x7f]
           (drop 31 sample_frame) []).
  - exact sample_entry_fits.
  - rewrite sample_entry_encodes. by vm_compute.
  - by vm_compute.
  - by vm_compute.
  - apply Nat.leb_le. by vm_compute.
  - by vm_compute.
Defined.

Lemma decode_entry_in_bounds_witness :
  decode_entry [x00; x00; x01; x00; x00; x00; x00; x00] <> DecodeOutOfBounds.
Proof. apply decode_entry_in_bounds. by vm_compute. Defined.

Lemma decode_entry_length_wraps_witness :
  decode_entry [xff; xff; xff; xff; x00; x00; x00; x00; xbe] = DecodeOutOfBounds.
Proof. apply decode_entry_length_wraps; by vm_compute. Defined.

Lemma decode_entry_sound_witness : exists e n,
  decode_entry sample_frame = Decoded e n /\ entry_wf e /\ n = 400.
Proof.
  exists (canonical sample_entry), 400.
  assert (decode_entry sample_frame = Decoded (canonical sample_entry) 400) as H
    by (by vm_compute).
  split; [exact H|]. split; [|reflexivity].
  exact (proj1 (decode_entry_sound sample_frame _ _ H)).
Defined.

Lemma read_metadata_fuel_witness :
  read_metadata 9 1 [] (reader_of [x00; x00; x00; x00; x00; x00; x00; x00]) =
  read_metadata 100 1 [] (reader_of [x00; x00; x00; x00; x00; x00; x00; x00]).
Proof. apply read_metadata_fuel; apply Nat.ltb_lt; by vm_compute. Defined.
