(* ===== verification/Authority.v ===== *)
(** * Authority fencing (include/inference-ledger/authority_state.hpp)

    The coordinator's view of who may write: the current epoch and accounting
    generation, the registered boot of each worker, and per request the adopted
    generations, the adopted attempt and the rolled flag. [validate_authority]
    decides whether an event is current. *)

From stdpp Require Import base gmap list strings numbers.
From S2P Require Import Prelude Identity Kinds Entry.
Open Scope Z_scope.

Record AuthorityState := MkAuthorityState {
  as_epoch : CoordinatorEpoch;
  as_accounting_generation : AccountingGeneration;
  as_request_generation : gmap RequestId RequestGeneration;
  as_current_attempt : gmap RequestId AttemptId;
  as_attempt_generation : gmap RequestId AttemptGeneration;
  as_worker_boot : gmap WorkerId WorkerBootId;
  as_request_rolled : gmap RequestId bool;
  as_enforce_request_scope : bool
}.

#[export] Instance AuthorityState_rebuild : Rebuild AuthorityState := fun s =>
  MkAuthorityState (as_epoch s) (as_accounting_generation s) (as_request_generation s)
    (as_current_attempt s) (as_attempt_generation s) (as_worker_boot s)
    (as_request_rolled s) (as_enforce_request_scope s).

(** The default member initialisers. *)
Definition authority_default : AuthorityState :=
  MkAuthorityState gen_zero gen_zero ∅ ∅ ∅ ∅ ∅ true.

Inductive AuthorityVerdict :=
| VAccept | VStaleEpoch | VStaleWorker | VStaleGeneration | VUnknownWorker | VInvalid.

#[export] Instance AuthorityVerdict_eq_dec : EqDecision AuthorityVerdict.
Proof. solve_decision. Defined.

Definition authority_verdict_name (v : AuthorityVerdict) : string :=
  match v with
  | VAccept => "accept"
  | VStaleEpoch => "stale_epoch"
  | VStaleWorker => "stale_worker"
  | VStaleGeneration => "stale_generation"
  | VUnknownWorker => "unknown_worker"
  | VInvalid => "invalid"
  end.

(** [it != end && it->second != x]: a binding that disagrees with [x]. *)
Definition disagrees {A} (eqb : A -> A -> bool) (o : option A) (x : A) : bool :=
  match o with Some y => negb (eqb y x) | None => false end.

(** [validate_authority]. *)
Definition validate_authority (e : LedgerEntry) (s : AuthorityState) : AuthorityVerdict :=
  if negb (gen_eqb (au_epoch (e_authority e)) (as_epoch s)) then VStaleEpoch
  else if negb (gen_eqb (au_accounting_generation (e_authority e)) (as_accounting_generation s))
  then VStaleGeneration
  else match as_worker_boot s !! e_worker e with
  | None => VUnknownWorker
  | Some boot =>
      if negb (id_eqb boot (au_worker_boot (e_authority e))) then VStaleWorker
      else if negb (as_enforce_request_scope s) then VAccept
      else if default false (as_request_rolled s !! e_request e)
              && negb (bool_decide (e_event_kind e = RequestStart)) then VStaleGeneration
      else if disagrees gen_eqb (as_request_generation s !! e_request e)
                (au_request_generation (e_authority e)) then VStaleGeneration
      else if disagrees id_eqb (as_current_attempt s !! e_request e)
                (au_attempt (e_authority e)) then VStaleGeneration
      else if disagrees gen_eqb (as_attempt_generation s !! e_request e)
                (au_attempt_generation (e_authority e)) then VStaleGeneration
      else VAccept
  end.

(** ** Specification *)

(** [x] is what the map has adopted for [r], if it has adopted anything. *)
Definition adopted {A} (m : gmap RequestId A) (r : RequestId) (x : A) : Prop :=
  forall y, m !! r = Some y -> y = x.

(** What it means for an event to be current, axis by axis; the code has no axis for the
    dispatch identity. *)
Record current (e : LedgerEntry) (s : AuthorityState) : Prop := {
  cur_epoch : au_epoch (e_authority e) = as_epoch s;
  cur_accounting : au_accounting_generation (e_authority e) = as_accounting_generation s;
  cur_boot : as_worker_boot s !! e_worker e = Some (au_worker_boot (e_authority e));
  cur_rolled : as_enforce_request_scope s = true ->
    as_request_rolled s !! e_request e = Some true -> e_event_kind e = RequestStart;
  cur_request : as_enforce_request_scope s = true ->
    adopted (as_request_generation s) (e_request e) (au_request_generation (e_authority e));
  cur_attempt : as_enforce_request_scope s = true ->
    adopted (as_current_attempt s) (e_request e) (au_attempt (e_authority e));
  cur_attempt_generation : as_enforce_request_scope s = true ->
    adopted (as_attempt_generation s) (e_request e) (au_attempt_generation (e_authority e))
}.

(** ** Lemmas *)

Lemma disagrees_gen {Tag} (m : gmap RequestId (Generation Tag)) r x :
  disagrees gen_eqb (m !! r) x = false <-> adopted m r x.
Proof.
  unfold adopted, disagrees. destruct (m !! r) as [y|]; [|naive_solver].
  rewrite negb_false_iff, gen_eqb_eq. naive_solver.
Qed.

Lemma disagrees_id {Tag} (m : gmap RequestId (Id128 Tag)) r x :
  disagrees id_eqb (m !! r) x = false <-> adopted m r x.
Proof.
  unfold adopted, disagrees. destruct (m !! r) as [y|]; [|naive_solver].
  rewrite negb_false_iff, id_eqb_eq. naive_solver.
Qed.

Lemma validate_authority_iff e s :
  validate_authority e s = VAccept <-> current e s.
Proof.
  unfold validate_authority. split.
  - destruct (gen_eqb (au_epoch _) _) eqn:He; [|done].
    destruct (gen_eqb (au_accounting_generation _) _) eqn:Ha; [|done].
    destruct (as_worker_boot s !! e_worker e) as [boot|] eqn:Hw; [|done].
    destruct (id_eqb boot _) eqn:Hb; [|done].
    apply gen_eqb_eq in He, Ha. apply id_eqb_eq in Hb as ->. simpl.
    destruct (as_enforce_request_scope s) eqn:Hs; simpl.
    + case_match eqn:Hr; [done|]. case_match eqn:Hg; [done|].
      case_match eqn:Ht; [done|]. case_match eqn:Hn; [done|]. intros _.
      apply disagrees_gen in Hg, Hn. apply disagrees_id in Ht.
      constructor; try done. intros _ Hrolled. rewrite Hrolled in Hr. simpl in Hr.
      rewrite negb_false_iff in Hr. by apply bool_decide_eq_true in Hr.
    + intros _. constructor; try done; intros; congruence.
  - intros [-> -> -> Hr Hg Ht Hn]. rewrite !gen_eqb_refl, id_eqb_refl. simpl.
    destruct (as_enforce_request_scope s); [|done]. simpl.
    rewrite (proj2 (disagrees_gen _ _ _) (Hg eq_refl)), (proj2 (disagrees_id _ _ _) (Ht eq_refl)),
      (proj2 (disagrees_gen _ _ _) (Hn eq_refl)).
    destruct (as_request_rolled s !! e_request e) as [[]|]; simpl; [|done..].
    by rewrite bool_decide_eq_true_2 by auto.
Qed.

Lemma validate_stale_epoch e s :
  au_epoch (e_authority e) <> as_epoch s -> validate_authority e s = VStaleEpoch.
Proof.
  intros H. unfold validate_authority.
  destruct (gen_eqb _ _) eqn:E; [|done]. by apply gen_eqb_eq in E.
Qed.

(** The verdict of a rolled request is never acceptance for an ordinary event. *)
Lemma validate_rolled e s :
  as_enforce_request_scope s = true -> as_request_rolled s !! e_request e = Some true ->
  e_event_kind e <> RequestStart -> validate_authority e s <> VAccept.
Proof. intros Hs Hr Hk [? ? ? Hroll]%validate_authority_iff. by apply Hk, Hroll. Qed.

(** C34: [validate_authority] accepts exactly the events that agree with the authority
    on epoch, accounting generation, worker boot and, when request scope is enforced,
    on the adopted request generation, attempt and attempt generation, with a rolled
    request open only to a [RequestStart]. The dispatch identity, the seventh field of
    the envelope, has no part in the verdict. *)
Theorem validate_authority_accepts e s :
  (validate_authority e s = VAccept <-> current e s) /\
  (forall d d', validate_authority
     (e <| e_dispatch := d |> <| e_authority ::= fun a =>
        MkAuthorityEnvelope (au_epoch a) (au_worker_boot a) (au_request_generation a)
          (au_accounting_generation a) (au_attempt a) (au_attempt_generation a) d' |>) s =
   validate_authority e s).
Proof. split; [apply validate_authority_iff|done]. Qed.
