(* ===== verification/Ledger.v ===== *)
(** * The append-only ledger (include/inference-ledger/ledger.hpp)

    [entries_] is the deque of records, [index_] maps an identity to its
    position. Every method runs under the ledger's mutex, so a method is one
    atomic step and concurrent callers are a sequence of such steps.

    [authority_] is a pointer to the coordinator's state: [append] takes what it
    points to at the time of the call ([None] when detached), so that a later
    change of the coordinator's state is seen by the next append. *)

From Stdlib Require Import SpecFloat Permutation.
From stdpp Require Import base gmap list strings numbers.
From S2P Require Import Prelude Float64 Identity Kinds Entry Codec CodecProofs Authority.
Open Scope Z_scope.

Inductive AppendStatus := Accepted | Duplicate | DuplicateConflict | Stale | Invalid.

#[export] Instance AppendStatus_eq_dec : EqDecision AppendStatus.
Proof. solve_decision. Defined.

Definition append_status_name (s : AppendStatus) : string :=
  match s with
  | Accepted => "accepted"
  | Duplicate => "duplicate"
  | DuplicateConflict => "duplicate_conflict"
  | Stale => "stale"
  | Invalid => "invalid"
  end.

Record AppendResult := MkAppendResult { ar_status : AppendStatus; ar_reason : string }.

Definition stored (r : AppendResult) : bool := bool_decide (ar_status r = Accepted).

Record Ledger := MkLedger {
  lg_id : LedgerId;
  lg_entries : list LedgerEntry;
  lg_index : gmap LedgerEntryId nat
}.

(** [Ledger(id)]. *)
Definition ledger_new (id : LedgerId) : Ledger := MkLedger id [] ∅.

(** [content_is_valid]. *)
Definition content_is_valid (e : LedgerEntry) : bool :=
  if negb (is_finite (e_quantity e)) then false
  else
    let physical :=
      match e_resource_kind e with
      | RCompute | RMemory | RKv | RTensor | RTransfer | RResidency | RCache | REnergy => true
      | _ => false
      end in
    if physical && (q_value (e_quantity e) <? d0)%D then false
    else if bool_decide (q_unit (e_quantity e) = Count) && negb (is_integral (e_quantity e))
    then false
    else true.

(** [append]: the new ledger and the result. *)
Definition append (authority : option AuthorityState) (l : Ledger) (e : LedgerEntry)
    : Ledger * AppendResult :=
  if negb (content_is_valid e) then (l, MkAppendResult Invalid "invalid content")
  else
    let v := match authority with Some s => validate_authority e s | None => VAccept end in
    if negb (bool_decide (v = VAccept)) then (l, MkAppendResult Stale (authority_verdict_name v))
    else match lg_index l !! e_id e with
    | Some i =>
        if match lg_entries l !! i with Some old => entry_eqb old e | None => false end
        then (l, MkAppendResult Duplicate "idempotent duplicate ignored")
        else (l, MkAppendResult DuplicateConflict "same id with differing content rejected")
    | None =>
        (MkLedger (lg_id l) (lg_entries l ++ [e])
           (<[e_id e := length (lg_entries l)]> (lg_index l)),
         MkAppendResult Accepted "accepted")
    end.

Definition snapshot (l : Ledger) : list LedgerEntry := lg_entries l.
Definition ledger_size (l : Ledger) : nat := length (lg_entries l).

Definition find (l : Ledger) (id : LedgerEntryId) : option LedgerEntry :=
  match lg_index l !! id with
  | Some i => lg_entries l !! i
  | None => None
  end.

(** A sequence of appends under one authority. *)
Fixpoint append_all (authority : option AuthorityState) (l : Ledger) (es : list LedgerEntry)
    : Ledger * list AppendResult :=
  match es with
  | [] => (l, [])
  | e :: es =>
      let (l1, r) := append authority l e in
      let (l2, rs) := append_all authority l1 es in
      (l2, r :: rs)
  end.

(** ** Invariant

    The index and the deque describe each other, and every record passed the
    content check. *)

Record ledger_wf (l : Ledger) : Prop := {
  lw_index : forall i e, lg_entries l !! i = Some e -> lg_index l !! e_id e = Some i;
  lw_entries : forall id i, lg_index l !! id = Some i ->
    exists e, lg_entries l !! i = Some e /\ e_id e = id;
  lw_valid : Forall (fun e => content_is_valid e = true) (lg_entries l)
}.

(** ** The abstract ledger

    What the class promises its clients: a finite map from identities to records
    that only grows. *)

Definition abstract (l : Ledger) : gmap LedgerEntryId LedgerEntry :=
  list_to_map ((fun e => (e_id e, e)) <$> lg_entries l).

Definition abstract_append (authority : option AuthorityState)
    (m : gmap LedgerEntryId LedgerEntry) (e : LedgerEntry)
    : gmap LedgerEntryId LedgerEntry * AppendStatus :=
  if negb (content_is_valid e) then (m, Invalid)
  else if bool_decide (Some VAccept = (validate_authority e <$> authority) \/ authority = None)
  then match m !! e_id e with
       | Some old => (m, if entry_eqb old e then Duplicate else DuplicateConflict)
       | None => (<[e_id e := e]> m, Accepted)
       end
  else (m, Stale).

(** ** Lemmas *)

Lemma content_is_valid_encode_checks e : content_is_valid e = encode_checks e.
Proof.
  unfold content_is_valid, encode_checks, is_finite.
  change (match e_resource_kind e with
          | RCompute | RMemory | RKv | RTensor | RTransfer | RResidency | RCache | REnergy => true
          | _ => false end) with (is_physical_resource (e_resource_kind e)).
  by destruct (isfinite _), (is_physical_resource _ && _), (bool_decide _ && _).
Qed.

Lemma content_is_valid_finite e :
  content_is_valid e = true -> isfinite (q_value (e_quantity e)) = true.
Proof.
  rewrite content_is_valid_encode_checks. unfold encode_checks.
  rewrite !andb_true_iff. by intros [[? _] _].
Qed.

Lemma content_is_valid_refl e : content_is_valid e = true -> entry_eqb e e = true.
Proof. intros H%content_is_valid_finite. apply entry_eqb_refl. by apply isfinite_not_nan. Qed.

#[export] Hint Resolve content_is_valid_refl : core.

Lemma ledger_new_wf id : ledger_wf (ledger_new id).
Proof. split; simpl; [done| |constructor]. intros ? ?. by rewrite lookup_empty. Qed.

Lemma ledger_wf_NoDup l : ledger_wf l -> NoDup (e_id <$> lg_entries l).
Proof.
  intros [Hi _ _]. apply NoDup_alt. intros i j id.
  rewrite !list_lookup_fmap. intros Hi' Hj'.
  destruct (lg_entries l !! i) as [a|] eqn:Ea; [|done].
  destruct (lg_entries l !! j) as [b|] eqn:Eb; [|done]. simplify_eq/=.
  apply Hi in Ea, Eb. congruence.
Qed.

Lemma find_Some_iff l id e : ledger_wf l ->
  find l id = Some e <-> e ∈ lg_entries l /\ e_id e = id.
Proof.
  intros [Hi He _]. unfold find. split.
  - destruct (lg_index l !! id) as [i|] eqn:E; [|done].
    apply He in E as (e' & He' & <-). intros Heq. simplify_eq.
    split; [|done]. apply list_elem_of_lookup. by exists i.
  - intros [[i Hei]%list_elem_of_lookup <-]. by rewrite (Hi _ _ Hei).
Qed.

Lemma find_None_iff l id : ledger_wf l -> find l id = None <-> lg_index l !! id = None.
Proof.
  intros Hwf. unfold find. destruct (lg_index l !! id) as [i|] eqn:E; [|done].
  apply Hwf in E as (e & -> & _). done.
Qed.

(** The record an existing identity is compared with. *)
Lemma append_found l i e : ledger_wf l -> lg_index l !! e_id e = Some i ->
  match lg_entries l !! i with Some old => entry_eqb old e | None => false end
  = match find l (e_id e) with Some old => entry_eqb old e | None => false end.
Proof. intros Hwf Hi. unfold find. by rewrite Hi. Qed.

Lemma append_cases authority l e l' r :
  append authority l e = (l', r) ->
  (l' = l /\ ar_status r <> Accepted) \/
  (ar_status r = Accepted /\ content_is_valid e = true /\ lg_index l !! e_id e = None /\
   (forall s, authority = Some s -> validate_authority e s = VAccept) /\
   l' = MkLedger (lg_id l) (lg_entries l ++ [e])
          (<[e_id e := length (lg_entries l)]> (lg_index l))).
Proof.
  unfold append. destruct (content_is_valid e) eqn:Hc; simpl; [|naive_solver].
  case_match eqn:Hv; [naive_solver|]. rewrite negb_false_iff, bool_decide_eq_true in Hv.
  destruct (lg_index l !! e_id e) eqn:Hi.
  - repeat case_match; naive_solver.
  - intros [= <- <-]. right. split_and!; [done..| |done].
    intros s ->. done.
Qed.

Lemma append_wf authority l e : ledger_wf l -> ledger_wf (append authority l e).1.
Proof.
  intros Hwf. destruct (append authority l e) as [l' r] eqn:E. simpl.
  apply append_cases in E as [[-> _]|(_ & Hc & Hn & _ & ->)]; [done|].
  destruct Hwf as [Hi He Hv]. split; simpl.
  - intros i e' Hl. apply lookup_app_Some in Hl as [Hl|[Hlen Hl]].
    + rewrite lookup_insert_ne; [by apply Hi|]. intros Heq.
      apply Hi in Hl. rewrite <- Heq in Hl. congruence.
    + apply list_lookup_singleton_Some in Hl as [Hz <-].
      rewrite lookup_insert_eq. f_equal. lia.
  - intros id i. rewrite lookup_insert. case_decide as Hd.
    + intros [= <-]. exists e. split; [|done].
      rewrite lookup_app_r, Nat.sub_diag by lia. done.
    + intros (e' & Hl & Hid)%He. exists e'. split; [|done].
      apply lookup_app_Some. by left.
  - apply Forall_app. split; [done|]. by constructor.
Qed.

Lemma append_all_wf authority l es : ledger_wf l -> ledger_wf (append_all authority l es).1.
Proof.
  revert l. induction es as [|e es IH]; intros l Hwf; simpl; [done|].
  destruct (append authority l e) as [l1 r] eqn:E.
  destruct (append_all authority l1 es) as [l2 rs] eqn:E2. simpl.
  replace l2 with (append_all authority l1 es).1 by (by rewrite E2). apply IH.
  replace l1 with (append authority l e).1 by (by rewrite E). by apply append_wf.
Qed.

Lemma abstract_lookup l id : ledger_wf l -> abstract l !! id = find l id.
Proof.
  intros Hwf. apply option_eq. intros e. rewrite find_Some_iff by done.
  unfold abstract. rewrite <- elem_of_list_to_map.
  - rewrite list_elem_of_fmap. naive_solver.
  - rewrite <- list_fmap_compose. apply (ledger_wf_NoDup l Hwf).
Qed.

(** The fenced condition of [append], as its abstract form states it. *)
Lemma fence_abstract authority e :
  bool_decide (match authority with Some s => validate_authority e s | None => VAccept end = VAccept)
  = bool_decide (Some VAccept = (validate_authority e <$> authority) \/ authority = None).
Proof.
  apply bool_decide_ext. destruct authority; simpl; (split; [intros H|intros [H|H]]);
    first [by right | left; congruence | congruence].
Qed.

Lemma append_refines_abstract authority l e : ledger_wf l ->
  abstract_append authority (abstract l) e =
  (abstract (append authority l e).1, ar_status (append authority l e).2).
Proof.
  intros Hwf. pose proof (append_wf authority l e Hwf) as Hwf'. revert Hwf'.
  unfold append, abstract_append.
  destruct (content_is_valid e) eqn:Hc; cbn [negb]; [|reflexivity].
  rewrite fence_abstract. case_bool_decide as Hv; cbn [negb]; [|reflexivity].
  rewrite abstract_lookup by done.
  destruct (lg_index l !! e_id e) as [i|] eqn:Hi.
  - intros _. rewrite append_found by done.
    destruct (find l (e_id e)) as [old|] eqn:Hf.
    + destruct (entry_eqb old e); reflexivity.
    + apply find_None_iff in Hf; [congruence|done].
  - assert (find l (e_id e) = None) as -> by (by apply find_None_iff).
    cbn [fst snd ar_status]. intros Hwf'. f_equal. apply map_eq. intros id.
    rewrite (abstract_lookup _ _ Hwf'). rewrite lookup_insert.
    unfold find; simpl. rewrite lookup_insert. case_decide as Hd; simpl.
    + by rewrite lookup_app_r, Nat.sub_diag by lia.
    + rewrite abstract_lookup by done. unfold find.
      destruct (lg_index l !! id) as [j|] eqn:Hj; [|done].
      apply Hwf in Hj as (e' & Hl & _). rewrite Hl. symmetry. by apply lookup_app_l_Some.
Qed.

(** Appending records with fresh, distinct identities and valid contents to an
    unfenced ledger stores them all, in order. *)
Lemma append_all_fresh l es : ledger_wf l ->
  Forall (fun e => content_is_valid e = true) es ->
  NoDup (e_id <$> (lg_entries l ++ es)) ->
  lg_entries (append_all None l es).1 = lg_entries l ++ es /\
  Forall (fun r => ar_status r = Accepted) (append_all None l es).2.
Proof.
  revert l. induction es as [|e es IH]; intros l Hwf Hv Hnd; simpl.
  { by rewrite app_nil_r. }
  apply list.Forall_cons in Hv as [He Hes].
  assert (lg_index l !! e_id e = None) as Hi.
  { destruct (lg_index l !! e_id e) as [i|] eqn:E; [|done]. exfalso.
    apply Hwf in E as (e' & Hl & Hid). rewrite fmap_app in Hnd. apply list.NoDup_app in Hnd as (_ & Hdis & _).
    apply (Hdis (e_id e)); [|left].
    rewrite <- Hid. apply list_elem_of_fmap. exists e'. split; [done|].
    apply list_elem_of_lookup. by exists i. }
  pose proof (append_wf None l e Hwf) as Hwf1.
  assert (append None l e =
    (MkLedger (lg_id l) (lg_entries l ++ [e])
       (<[e_id e := length (lg_entries l)]> (lg_index l)), MkAppendResult Accepted "accepted"))
    as Hap by (unfold append; by rewrite He, Hi).
  rewrite Hap in Hwf1 |- *. specialize (IH _ Hwf1 Hes). simpl in IH.
  rewrite <- (assoc_L (++)) in IH. specialize (IH Hnd) as [IH1 IH2].
  destruct (append_all None _ es) as [l2 rs]. simpl in *. split; [done|by constructor].
Qed.

(** Appending to a ledger keeps what it holds. *)
Lemma append_prefix authority l e : lg_entries l `prefix_of` lg_entries (append authority l e).1.
Proof.
  destruct (append authority l e) as [l' r] eqn:E.
  apply append_cases in E as [[-> _]|(_ & _ & _ & _ & ->)]; simpl; [done|by eexists].
Qed.

(** ** Properties *)

(** C8: the ledger invariant (the index and the deque describe each other, every
    record passed the content check) is kept by [append] under any authority,
    identities stay unique, and the records already stored stay where they are. *)
Theorem append_invariant authority l e : ledger_wf l ->
  ledger_wf (append authority l e).1 /\
  NoDup (e_id <$> lg_entries (append authority l e).1) /\
  lg_entries l `prefix_of` lg_entries (append authority l e).1.
Proof.
  intros Hwf. pose proof (append_wf authority l e Hwf) as Hwf'.
  split_and!; [done|by apply ledger_wf_NoDup|apply append_prefix].
Qed.

(** C7: [append] refines the abstract ledger, a finite map from identities to
    records: same status on every branch, and the deque-and-index state it
    leaves represents the abstract result. *)
Theorem append_refines authority l e : ledger_wf l ->
  abstract_append authority (abstract l) e =
  (abstract (append authority l e).1, ar_status (append authority l e).2).
Proof. apply append_refines_abstract. Qed.

(** appending an accepted record again is recognised as an idempotent
    duplicate and changes nothing. *)
Theorem append_idempotent authority l e : ledger_wf l ->
  ar_status (append authority l e).2 = Accepted ->
  append authority (append authority l e).1 e =
  ((append authority l e).1, MkAppendResult Duplicate "idempotent duplicate ignored").
Proof.
  intros Hwf. destruct (append authority l e) as [l' r] eqn:E. simpl. intros Hr.
  apply append_cases in E as [[_ ?]|(_ & Hc & Hn & Ha & ->)]; [done|].
  unfold append; cbn [lg_entries lg_index]. rewrite Hc, lookup_insert_eq. cbn [negb].
  rewrite lookup_app_r, Nat.sub_diag by lia.
  change ([e] !! 0%nat) with (Some e). cbv iota.
  rewrite content_is_valid_refl by done.
  rewrite bool_decide_eq_true_2; [done|]. destruct authority; [by apply Ha|done].
Qed.

(** An event that is not current under the attached authority never changes
    the ledger: it is rejected as stale before the index is consulted. *)
Theorem append_stale_rejected s l e :
  content_is_valid e = true -> ~ current e s ->
  append (Some s) l e =
  (l, MkAppendResult Stale (authority_verdict_name (validate_authority e s))).
Proof.
  intros Hc Hn. unfold append. rewrite Hc. cbn [negb].
  rewrite bool_decide_eq_false_2; [done|]. by rewrite validate_authority_iff.
Qed.

(** Replaying the snapshot of a ledger into a fresh one accepts every record
    and reproduces the same records in the same order. *)
Theorem replay_snapshot l id : ledger_wf l ->
  snapshot (append_all None (ledger_new id) (snapshot l)).1 = snapshot l /\
  Forall (fun r => ar_status r = Accepted) (append_all None (ledger_new id) (snapshot l)).2.
Proof.
  intros Hwf. apply (append_all_fresh (ledger_new id)).
  - apply ledger_new_wf.
  - apply Hwf.
  - simpl. by apply ledger_wf_NoDup.
Qed.

(** concurrent ingestion: two interleavings of the same records (distinct
    identities, valid contents) leave the same records stored, and lose none. *)
Theorem append_all_interleavings id es es' : es ≡ₚ es' ->
  Forall (fun e => content_is_valid e = true) es -> NoDup (e_id <$> es) ->
  abstract (append_all None (ledger_new id) es).1 = abstract (append_all None (ledger_new id) es').1 /\
  ledger_size (append_all None (ledger_new id) es').1 = length es.
Proof.
  intros Hp Hv Hnd.
  assert (Forall (fun e => content_is_valid e = true) es') as Hv' by (by rewrite <- Hp).
  assert (NoDup (e_id <$> es')) as Hnd' by (by rewrite <- Hp).
  destruct (append_all_fresh (ledger_new id) es) as [H1 _]; [apply ledger_new_wf|done..|].
  destruct (append_all_fresh (ledger_new id) es') as [H2 _]; [apply ledger_new_wf|done..|].
  unfold abstract, ledger_size. rewrite H1, H2. simpl. split.
  - apply list_to_map_proper; [|by rewrite Hp].
    rewrite <- list_fmap_compose. exact Hnd.
  - by rewrite Hp.
Qed.

(** ** Witnesses *)

Definition sample_ledger : Ledger := (append None (ledger_new (MkId 1 2)) sample_entry).1.

Lemma sample_ledger_wf : ledger_wf sample_ledger.
Proof. apply append_wf, ledger_new_wf. Qed.

(** A second record, from another worker. *)
Definition sample_entry2 : LedgerEntry :=
  sample_entry <| e_id := MkId 0xA 5 |> <| e_worker := MkId 0xBB 1 |>.

Lemma append_invariant_witness :
  ledger_wf (append (Some authority_default) sample_ledger sample_entry2).1.
Proof.
  exact (proj1 (append_invariant (Some authority_default) sample_ledger sample_entry2
                  sample_ledger_wf)).
Defined.

Lemma append_refines_witness :
  abstract_append None (abstract sample_ledger) sample_entry2 =
  (abstract (append None sample_ledger sample_entry2).1, Accepted).
Proof. exact (append_refines None sample_ledger sample_entry2 sample_ledger_wf). Defined.

Lemma append_idempotent_witness :
  append None (append None sample_ledger sample_entry2).1 sample_entry2 =
  ((append None sample_ledger sample_entry2).1,
   MkAppendResult Duplicate "idempotent duplicate ignored").
Proof.
  apply append_idempotent; [exact sample_ledger_wf|]. by vm_compute.
Defined.

Lemma append_stale_rejected_witness :
  append (Some authority_default) sample_ledger sample_entry2 =
  (sample_ledger, MkAppendResult Stale "stale_epoch").
Proof.
  apply (append_stale_rejected authority_default); [by vm_compute|].
  intros [He _ _ _ _ _ _]. discriminate He.
Defined.

Lemma replay_snapshot_witness :
  snapshot (append_all None (ledger_new (MkId 9 9)) (snapshot sample_ledger)).1 =
  snapshot sample_ledger.
Proof. exact (proj1 (replay_snapshot sample_ledger (MkId 9 9) sample_ledger_wf)). Defined.

Lemma append_all_interleavings_witness :
  abstract (append_all None (ledger_new (MkId 1 2)) [sample_entry; sample_entry2]).1 =
  abstract (append_all None (ledger_new (MkId 1 2)) [sample_entry2; sample_entry]).1.
Proof.
  refine (proj1 (append_all_interleavings (MkId 1 2) [sample_entry; sample_entry2]
                   [sample_entry2; sample_entry] _ _ _)).
  - apply Permutation_swap.
  - repeat constructor; by vm_compute.
  - refine (bool_decide_unpack _ _). by vm_compute.
Defined.
