(* ===== verification/Account.v ===== *)
(** * Request accounts (request_account.hpp, request_account.cpp)

    [reconcile_request] folds the ledger entries of one request into its account:
    one pass over the entries that updates the running totals and the attribution
    of the entry's attempt, the choice of the winning attempt, the waste of the
    other attempts, and the assignment of the account's fields. The local
    variables of the function are the record [Totals]; the [std::map] of attempts
    is a [StdMap] (it is iterated in key order). *)

From Stdlib Require Import SpecFloat.
From stdpp Require Import base list strings numbers pretty.
From S2P Require Import Prelude Float64 StdMap Identity Kinds Entry Ledger CodecProofs.
Open Scope Z_scope.

(** ** Data *)

Inductive WorkKind := Useful | Wasted | Cancelled | Recomputed | Avoided | Reused | Idle.

Definition work_kind_name (w : WorkKind) : string :=
  match w with
  | Useful => "useful"
  | Wasted => "wasted"
  | Cancelled => "cancelled"
  | Recomputed => "recomputed"
  | Avoided => "avoided"
  | Reused => "reused"
  | Idle => "idle"
  end.

Record ReconcileResult := MkReconcileResult {
  rr_ok : bool;
  rr_reason : string;
  rr_entries : nat;
  rr_attempts : nat;
  rr_duplicate_ignored : nat;
  rr_declared_useful_work : double;
  rr_declared_wasted_work : double
}.

Definition reconcile_default : ReconcileResult :=
  MkReconcileResult false EmptyString 0 0 0 d0 d0.

#[export] Instance ReconcileResult_rebuild : Rebuild ReconcileResult := fun r =>
  MkReconcileResult (rr_ok r) (rr_reason r) (rr_entries r) (rr_attempts r)
    (rr_duplicate_ignored r) (rr_declared_useful_work r) (rr_declared_wasted_work r).

(** Counters are [uint64_t], sizes are lengths. *)
Record RequestAccount := MkRequestAccount {
  ra_request : RequestId;
  ra_tenant : TenantId;
  ra_workload : WorkloadId;
  ra_model : ModelId;
  ra_model_revision : ModelRevisionId;
  ra_wall_latency_s : Quantity;
  ra_queue_time_s : Quantity;
  ra_execution_s : Quantity;
  ra_prefill_s : Quantity;
  ra_decode_s : Quantity;
  ra_gpu_active_s : Quantity;
  ra_cpu_active_s : Quantity;
  ra_batch_wait_s : Quantity;
  ra_h2d_bytes : Quantity;
  ra_d2h_bytes : Quantity;
  ra_inter_node_bytes : Quantity;
  ra_transfer_duration_s : Quantity;
  ra_kv_allocated : Quantity;
  ra_kv_peak : Quantity;
  ra_kv_reuse : Quantity;
  ra_tensor_allocated : Quantity;
  ra_tensor_peak : Quantity;
  ra_tensor_reuse : Quantity;
  ra_model_byte_seconds : Quantity;
  ra_adapter_byte_seconds : Quantity;
  ra_tensor_byte_seconds : Quantity;
  ra_reservations_acquired : Z;
  ra_reservations_released : Z;
  ra_allocation_peak : Quantity;
  ra_spec_proposed : Z;
  ra_spec_accepted : Z;
  ra_spec_rejected : Z;
  ra_generated_tokens : Z;
  ra_spec_wasted_work_s : Quantity;
  ra_retries : Z;
  ra_failed_attempt_work : Quantity;
  ra_cancelled_work : Quantity;
  ra_recomputed_work : Quantity;
  ra_reuse_avoided_work : Quantity;
  ra_reused_work : Quantity;
  ra_kernel_hits : Z;
  ra_kernel_misses : Z;
  ra_graph_hits : Z;
  ra_graph_misses : Z;
  ra_cache_reads : Z;
  ra_cache_writes : Z;
  ra_energy_joules : Quantity;
  ra_completed : bool;
  ra_cancelled : bool;
  ra_failed : bool;
  ra_terminal_outcome : string;
  ra_attempt_count : nat;
  ra_reconcile : ReconcileResult;
  ra_aggregate_provenance_name : string
}.

#[export] Instance RequestAccount_rebuild : Rebuild RequestAccount := fun a =>
  MkRequestAccount
    (ra_request a) (ra_tenant a) (ra_workload a) (ra_model a) (ra_model_revision a)
    (ra_wall_latency_s a) (ra_queue_time_s a) (ra_execution_s a) (ra_prefill_s a)
    (ra_decode_s a) (ra_gpu_active_s a) (ra_cpu_active_s a) (ra_batch_wait_s a)
    (ra_h2d_bytes a) (ra_d2h_bytes a) (ra_inter_node_bytes a) (ra_transfer_duration_s a)
    (ra_kv_allocated a) (ra_kv_peak a) (ra_kv_reuse a) (ra_tensor_allocated a)
    (ra_tensor_peak a) (ra_tensor_reuse a) (ra_model_byte_seconds a)
    (ra_adapter_byte_seconds a) (ra_tensor_byte_seconds a) (ra_reservations_acquired a)
    (ra_reservations_released a) (ra_allocation_peak a) (ra_spec_proposed a)
    (ra_spec_accepted a) (ra_spec_rejected a) (ra_generated_tokens a) (ra_spec_wasted_work_s a)
    (ra_retries a) (ra_failed_attempt_work a) (ra_cancelled_work a) (ra_recomputed_work a)
    (ra_reuse_avoided_work a) (ra_reused_work a) (ra_kernel_hits a) (ra_kernel_misses a)
    (ra_graph_hits a) (ra_graph_misses a) (ra_cache_reads a) (ra_cache_writes a)
    (ra_energy_joules a) (ra_completed a) (ra_cancelled a) (ra_failed a)
    (ra_terminal_outcome a) (ra_attempt_count a) (ra_reconcile a)
    (ra_aggregate_provenance_name a).

(** The default member initialisers. *)
Definition account_default : RequestAccount :=
  {|
    ra_request := id_zero;
    ra_tenant := id_zero;
    ra_workload := id_zero;
    ra_model := id_zero;
    ra_model_revision := id_zero;
    ra_wall_latency_s := quantity_default;
    ra_queue_time_s := quantity_default;
    ra_execution_s := quantity_default;
    ra_prefill_s := quantity_default;
    ra_decode_s := quantity_default;
    ra_gpu_active_s := quantity_default;
    ra_cpu_active_s := quantity_default;
    ra_batch_wait_s := quantity_default;
    ra_h2d_bytes := quantity_default;
    ra_d2h_bytes := quantity_default;
    ra_inter_node_bytes := quantity_default;
    ra_transfer_duration_s := quantity_default;
    ra_kv_allocated := quantity_default;
    ra_kv_peak := quantity_default;
    ra_kv_reuse := quantity_default;
    ra_tensor_allocated := quantity_default;
    ra_tensor_peak := quantity_default;
    ra_tensor_reuse := quantity_default;
    ra_model_byte_seconds := quantity_default;
    ra_adapter_byte_seconds := quantity_default;
    ra_tensor_byte_seconds := quantity_default;
    ra_reservations_acquired := 0;
    ra_reservations_released := 0;
    ra_allocation_peak := quantity_default;
    ra_spec_proposed := 0;
    ra_spec_accepted := 0;
    ra_spec_rejected := 0;
    ra_generated_tokens := 0;
    ra_spec_wasted_work_s := quantity_default;
    ra_retries := 0;
    ra_failed_attempt_work := quantity_default;
    ra_cancelled_work := quantity_default;
    ra_recomputed_work := quantity_default;
    ra_reuse_avoided_work := quantity_default;
    ra_reused_work := quantity_default;
    ra_kernel_hits := 0;
    ra_kernel_misses := 0;
    ra_graph_hits := 0;
    ra_graph_misses := 0;
    ra_cache_reads := 0;
    ra_cache_writes := 0;
    ra_energy_joules := quantity_default;
    ra_completed := false;
    ra_cancelled := false;
    ra_failed := false;
    ra_terminal_outcome := EmptyString;
    ra_attempt_count := 0%nat;
    ra_reconcile := reconcile_default;
    ra_aggregate_provenance_name := "derived"
  |}.

(** [q.unit = u], [q.value = v], [q.provenance = p]. *)
Definition with_unit (u : Unit) (q : Quantity) : Quantity := q <| q_unit := u |>.
Definition with_value (v : double) (q : Quantity) : Quantity := q <| q_value := v |>.
Definition with_provenance (p : Provenance) (q : Quantity) : Quantity := q <| q_provenance := p |>.

(** [RequestAccount::set_units]. *)
Definition set_units (a : RequestAccount) : RequestAccount :=
  a <| ra_wall_latency_s ::= with_unit Seconds |>
    <| ra_queue_time_s ::= with_unit Seconds |>
    <| ra_execution_s ::= with_unit Seconds |>
    <| ra_prefill_s ::= with_unit Seconds |>
    <| ra_decode_s ::= with_unit Seconds |>
    <| ra_gpu_active_s ::= with_unit Seconds |>
    <| ra_cpu_active_s ::= with_unit Seconds |>
    <| ra_batch_wait_s ::= with_unit Seconds |>
    <| ra_h2d_bytes ::= with_unit Bytes |>
    <| ra_d2h_bytes ::= with_unit Bytes |>
    <| ra_inter_node_bytes ::= with_unit Bytes |>
    <| ra_transfer_duration_s ::= with_unit Seconds |>
    <| ra_kv_allocated ::= with_unit Bytes |>
    <| ra_kv_peak ::= with_unit Bytes |>
    <| ra_kv_reuse ::= with_unit Bytes |>
    <| ra_tensor_allocated ::= with_unit Bytes |>
    <| ra_tensor_peak ::= with_unit Bytes |>
    <| ra_tensor_reuse ::= with_unit Bytes |>
    <| ra_model_byte_seconds ::= with_unit ByteSeconds |>
    <| ra_adapter_byte_seconds ::= with_unit ByteSeconds |>
    <| ra_tensor_byte_seconds ::= with_unit ByteSeconds |>
    <| ra_allocation_peak ::= with_unit Bytes |>
    <| ra_failed_attempt_work ::= with_unit Seconds |>
    <| ra_cancelled_work ::= with_unit Seconds |>
    <| ra_recomputed_work ::= with_unit Seconds |>
    <| ra_reuse_avoided_work ::= with_unit Seconds |>
    <| ra_reused_work ::= with_unit Seconds |>
    <| ra_spec_wasted_work_s ::= with_unit Seconds |>
    <| ra_energy_joules ::= with_unit EnergyJoule |>.

(** ** Derived ratios *)

Definition reject_spec_work (a : RequestAccount) : double := q_value (ra_spec_wasted_work_s a).

Definition waste_ratio (a : RequestAccount) : double :=
  let useful := q_value (ra_execution_s a) in
  let waste := (q_value (ra_failed_attempt_work a) + q_value (ra_cancelled_work a) +
                reject_spec_work a)%D in
  let total := (useful + waste)%D in
  if (d0 <? total)%D then (waste / total)%D else d0.

Definition reuse_credit (a : RequestAccount) : double :=
  (q_value (ra_reuse_avoided_work a) + q_value (ra_reused_work a))%D.

Definition reuse_rate (a : RequestAccount) : double :=
  let useful := q_value (ra_execution_s a) in
  let reused := q_value (ra_reused_work a) in
  if (d0 <? useful + reused)%D then (reused / (useful + reused))%D else d0.

Definition spec_acceptance_efficiency (a : RequestAccount) : double :=
  if 0 <? ra_spec_proposed a
  then (d_of_Z (ra_spec_accepted a) / d_of_Z (ra_spec_proposed a))%D else d0.

(** The physical account carries no monetary cost. *)
Definition cost_per_token (a : RequestAccount) : double := d0.

(** ** The fold over the entries *)

Definition kNsPerSecond : double := d_of_Z 1000000000.

Definition sec (ns : Z) : double := (d_of_Z ns / kNsPerSecond)%D.

Definition dur_sec (e : LedgerEntry) : double :=
  if negb (e_has_end e) then d0 else sec (duration_ns e).

Record AttemptAttr := MkAttemptAttr {
  aa_completed : bool;
  aa_failed : bool;
  aa_cancelled : bool;
  aa_terminal_ns : Z;
  aa_exec_s : double;
  aa_prefill_s : double;
  aa_decode_s : double;
  aa_gpu_s : double;
  aa_cpu_s : double;
  aa_spec_rej_s : double;
  aa_gen_tokens : Z
}.

#[export] Instance AttemptAttr_rebuild : Rebuild AttemptAttr := fun a =>
  MkAttemptAttr (aa_completed a) (aa_failed a) (aa_cancelled a) (aa_terminal_ns a)
    (aa_exec_s a) (aa_prefill_s a) (aa_decode_s a) (aa_gpu_s a) (aa_cpu_s a)
    (aa_spec_rej_s a) (aa_gen_tokens a).

Definition attempt_default : AttemptAttr :=
  MkAttemptAttr false false false 0 d0 d0 d0 d0 d0 d0 0.

(** The local variables of [reconcile_request]; [alloc], [live], [peak] and
    [reuse] are the source's [t_alloc], [t_live], [t_peak] and [t_reuse]. *)
Record Totals := MkTotals {
  t_attempts : list (AttemptId * AttemptAttr);
  t_has_start : bool;
  t_has_end : bool;
  t_start_ns : Z;
  t_end_ns : Z;
  t_queue_s : double;
  t_batch_s : double;
  t_h2d : double;
  t_d2h : double;
  t_node : double;
  t_trans_dur : double;
  t_kv_alloc : double;
  t_kv_live : double;
  t_kv_peak : double;
  t_kv_reuse : double;
  t_alloc : double;
  t_live : double;
  t_peak : double;
  t_reuse : double;
  t_model_bs : double;
  t_adapter_bs : double;
  t_recompute_s : double;
  t_reuse_avoid : double;
  t_reused : double;
  t_energy_j : double;
  t_res_acq : Z;
  t_res_rel : Z;
  t_spec_prop : Z;
  t_spec_acc : Z;
  t_spec_rej : Z;
  t_retries : Z;
  t_k_hits : Z;
  t_k_misses : Z;
  t_g_hits : Z;
  t_g_misses : Z;
  t_c_reads : Z;
  t_c_writes : Z
}.

#[export] Instance Totals_rebuild : Rebuild Totals := fun t =>
  MkTotals (t_attempts t)
    (t_has_start t) (t_has_end t) (t_start_ns t) (t_end_ns t) (t_queue_s t) (t_batch_s t)
    (t_h2d t) (t_d2h t) (t_node t) (t_trans_dur t) (t_kv_alloc t) (t_kv_live t) (t_kv_peak t)
    (t_kv_reuse t) (t_alloc t) (t_live t) (t_peak t) (t_reuse t) (t_model_bs t)
    (t_adapter_bs t) (t_recompute_s t) (t_reuse_avoid t) (t_reused t) (t_energy_j t)
    (t_res_acq t) (t_res_rel t) (t_spec_prop t) (t_spec_acc t) (t_spec_rej t) (t_retries t)
    (t_k_hits t) (t_k_misses t) (t_g_hits t) (t_g_misses t) (t_c_reads t) (t_c_writes t).

Definition totals_init : Totals :=
  MkTotals []
    false false 0 0 d0 d0 d0 d0 d0 d0 d0 d0 d0 d0 d0 d0 d0 d0 d0 d0 d0 d0 d0 d0 0 0 0 0 0 0 0 0
    0 0 0 0.

(** [x += y] on a double and on a [uint64_t]. *)
Definition add_d (y x : double) : double := (x + y)%D.
Definition add_u64 (y x : Z) : Z := wrap 64 (x + y).

Section fold.
Context `{LlroundPlatform}.

(** What the case of the entry's kind does to [att], the attribution of the
    entry's attempt. *)
Definition attempt_event (e : LedgerEntry) (att : AttemptAttr) : AttemptAttr :=
  let d := dur_sec e in
  let val := q_value (e_quantity e) in
  let u := q_unit (e_quantity e) in
  match e_event_kind e with
  | RequestEnd =>
      att <| aa_completed := true |>
          <| aa_terminal_ns := Z.max (aa_terminal_ns att) (e_start_ts_ns e) |>
  | Prefill =>
      att <| aa_prefill_s ::= add_d d |> <| aa_exec_s ::= add_d d |> <| aa_gpu_s ::= add_d d |>
  | Decode =>
      let att :=
        att <| aa_decode_s ::= add_d d |> <| aa_exec_s ::= add_d d |> <| aa_gpu_s ::= add_d d |> in
      if bool_decide (u = Count) then att <| aa_gen_tokens ::= add_u64 (llround_u64 val) |> else att
  | GpuExecution => att <| aa_exec_s ::= add_d d |> <| aa_gpu_s ::= add_d d |>
  | CpuExecution => att <| aa_exec_s ::= add_d d |> <| aa_cpu_s ::= add_d d |>
  | SpeculationAccepted => att <| aa_gen_tokens ::= add_u64 (llround_u64 val) |>
  | SpeculationRejected => att <| aa_spec_rej_s ::= add_d d |>
  | Failure => att <| aa_failed := true |>
  | Cancellation => att <| aa_cancelled := true |>
  | _ => att
  end.

(** What the case of the entry's kind does to the other locals. *)
Definition totals_event (e : LedgerEntry) (t : Totals) : Totals :=
  let d := dur_sec e in
  let val := q_value (e_quantity e) in
  let u := q_unit (e_quantity e) in
  match e_event_kind e with
  | RequestStart =>
      t <| t_start_ns := if e_has_end e then e_end_ts_ns e else e_start_ts_ns e |>
        <| t_has_start := true |>
  | RequestEnd => t <| t_end_ns := e_start_ts_ns e |> <| t_has_end := true |>
  | Queue => t <| t_queue_s ::= add_d d |>
  | BatchWait => t <| t_batch_s ::= add_d d |>
  | SpeculationProposed => t <| t_spec_prop ::= add_u64 (llround_u64 val) |>
  | SpeculationAccepted => t <| t_spec_acc ::= add_u64 (llround_u64 val) |>
  | SpeculationRejected => t <| t_spec_rej ::= add_u64 (llround_u64 val) |>
  | KvAllocate =>
      let t := t <| t_kv_alloc ::= add_d val |> <| t_kv_live ::= add_d val |> in
      t <| t_kv_peak := dmax (t_kv_peak t) (t_kv_live t) |>
  | KvRelease => t <| t_kv_live := dmax d0 (t_kv_live t - val)%D |>
  | KvReuse => t <| t_kv_reuse ::= add_d val |>
  | TensorAllocate =>
      let t := t <| t_alloc ::= add_d val |> <| t_live ::= add_d val |> in
      t <| t_peak := dmax (t_peak t) (t_live t) |>
  | TensorRelease => t <| t_live := dmax d0 (t_live t - val)%D |>
  | TensorReuse => t <| t_reuse ::= add_d val |>
  | ModelResidency => t <| t_model_bs ::= add_d (val * d)%D |>
  | AdapterResidency => t <| t_adapter_bs ::= add_d (val * d)%D |>
  | KernelHit => t <| t_k_hits ::= add_u64 (llround_u64 val) |>
  | KernelMiss => t <| t_k_misses ::= add_u64 (llround_u64 val) |>
  | GraphHit => t <| t_g_hits ::= add_u64 (llround_u64 val) |>
  | GraphMiss => t <| t_g_misses ::= add_u64 (llround_u64 val) |>
  | TransferH2D => t <| t_h2d ::= add_d val |> <| t_trans_dur ::= add_d d |>
  | TransferD2H => t <| t_d2h ::= add_d val |> <| t_trans_dur ::= add_d d |>
  | TransferInterNode => t <| t_node ::= add_d val |> <| t_trans_dur ::= add_d d |>
  | CacheRead => t <| t_c_reads ::= add_u64 (llround_u64 val) |>
  | CacheWrite => t <| t_c_writes ::= add_u64 (llround_u64 val) |>
  | Reserve => t <| t_res_acq ::= add_u64 1 |>
  | Release => t <| t_res_rel ::= add_u64 1 |>
  | Retry => t <| t_retries ::= add_u64 (llround_u64 val) |>
  | Recompute => t <| t_recompute_s ::= add_d d |>
  | ReuseAvoided => t <| t_reuse_avoid ::= add_d val |>
  | Energy =>
      if bool_decide (u = EnergyWh) then t <| t_energy_j ::= add_d (val * d_of_Z 3600)%D |>
      else t <| t_energy_j ::= add_d val |>
  | _ => t
  end.

(** One iteration: [attempts[e.attempt]] is created when absent. *)
Definition fold_entry (t : Totals) (e : LedgerEntry) : Totals :=
  totals_event e t
    <| t_attempts ::= StdMap.modify attempt_default (e_attempt e) (attempt_event e) |>.

Definition fold_entries (entries : list LedgerEntry) : Totals :=
  fold_left fold_entry entries totals_init.

End fold.

(** ** The winning attempt *)

Record Winner := MkWinner { wn_has : bool; wn_winning : AttemptId; wn_best_ns : Z }.

Definition pick_winner (w : Winner) (kvp : AttemptId * AttemptAttr) : Winner :=
  let a := kvp.2 in
  if aa_completed a && negb (aa_failed a) && negb (aa_cancelled a) then
    if negb (wn_has w) || (wn_best_ns w <=? aa_terminal_ns a)
    then MkWinner true kvp.1 (aa_terminal_ns a) else w
  else w.

Definition find_winner (attempts : list (AttemptId * AttemptAttr)) : Winner :=
  fold_left pick_winner attempts (MkWinner false id_zero 0).

(** [attempts[winning]]. *)
Definition attempt_of (attempts : list (AttemptId * AttemptAttr)) (id : AttemptId) : AttemptAttr :=
  default attempt_default (StdMap.find id attempts).

(** The outcome of the request and the execution of its winning attempt. *)
Definition set_outcome (attempts : list (AttemptId * AttemptAttr)) (w : Winner)
    (acc : RequestAccount) : RequestAccount :=
  if wn_has w then
    let a := attempt_of attempts (wn_winning w) in
    acc <| ra_execution_s ::= with_value (aa_exec_s a) |>
        <| ra_prefill_s ::= with_value (aa_prefill_s a) |>
        <| ra_decode_s ::= with_value (aa_decode_s a) |>
        <| ra_gpu_active_s ::= with_value (aa_gpu_s a) |>
        <| ra_cpu_active_s ::= with_value (aa_cpu_s a) |>
        <| ra_generated_tokens := aa_gen_tokens a |>
        <| ra_completed := true |>
        <| ra_terminal_outcome := "completed" |>
  else
    let any_cancelled :=
      existsb (fun kvp => aa_cancelled kvp.2 && negb (aa_failed kvp.2)) attempts in
    acc <| ra_completed := false |>
        <| ra_cancelled := any_cancelled |>
        <| ra_failed := negb any_cancelled |>
        <| ra_terminal_outcome := if any_cancelled then "cancelled" else "failed" |>.

(** ** Waste of the other attempts *)

Record WasteSums := MkWasteSums { ws_failed : double; ws_cancelled : double; ws_spec : double }.

#[export] Instance WasteSums_rebuild : Rebuild WasteSums := fun w =>
  MkWasteSums (ws_failed w) (ws_cancelled w) (ws_spec w).

Definition waste_step (w : Winner) (s : WasteSums) (kvp : AttemptId * AttemptAttr) : WasteSums :=
  let a := kvp.2 in
  if wn_has w && id_eqb kvp.1 (wn_winning w) then s
  else
    let s := if aa_failed a then s <| ws_failed ::= add_d (aa_exec_s a) |> else s in
    let s := if aa_cancelled a then s <| ws_cancelled ::= add_d (aa_exec_s a) |> else s in
    s <| ws_spec ::= add_d (aa_spec_rej_s a) |>.

Definition waste_sums (attempts : list (AttemptId * AttemptAttr)) (w : Winner) : WasteSums :=
  let s := fold_left (waste_step w) attempts (MkWasteSums d0 d0 d0) in
  if wn_has w then s <| ws_spec ::= add_d (aa_spec_rej_s (attempt_of attempts (wn_winning w))) |>
  else s.

(** ** Assembly *)

Definition wall_latency (t : Totals) : double :=
  if t_has_start t && t_has_end t && (t_start_ns t <=? t_end_ns t)
  then sec (t_end_ns t - t_start_ns t) else d0.

Definition set_totals (t : Totals) (w : WasteSums) (a : RequestAccount) : RequestAccount :=
  a <| ra_wall_latency_s ::= with_value (wall_latency t) |>
    <| ra_queue_time_s ::= with_value (t_queue_s t) |>
    <| ra_batch_wait_s ::= with_value (t_batch_s t) |>
    <| ra_h2d_bytes ::= with_value (t_h2d t) |>
    <| ra_d2h_bytes ::= with_value (t_d2h t) |>
    <| ra_inter_node_bytes ::= with_value (t_node t) |>
    <| ra_transfer_duration_s ::= with_value (t_trans_dur t) |>
    <| ra_kv_allocated ::= with_value (t_kv_alloc t) |>
    <| ra_kv_peak ::= with_value (t_kv_peak t) |>
    <| ra_kv_reuse ::= with_value (t_kv_reuse t) |>
    <| ra_tensor_allocated ::= with_value (t_alloc t) |>
    <| ra_tensor_peak ::= with_value (t_peak t) |>
    <| ra_tensor_reuse ::= with_value (t_reuse t) |>
    <| ra_model_byte_seconds ::= with_value (t_model_bs t) |>
    <| ra_adapter_byte_seconds ::= with_value (t_adapter_bs t) |>
    <| ra_tensor_byte_seconds ::= with_value d0 |>
    <| ra_tensor_byte_seconds ::= with_provenance Unavailable |>
    <| ra_allocation_peak ::= with_value (dmax (t_kv_peak t) (t_peak t)) |>
    <| ra_reservations_acquired := t_res_acq t |>
    <| ra_reservations_released := t_res_rel t |>
    <| ra_spec_proposed := t_spec_prop t |>
    <| ra_spec_accepted := t_spec_acc t |>
    <| ra_spec_rejected := t_spec_rej t |>
    <| ra_spec_wasted_work_s ::= with_value (ws_spec w) |>
    <| ra_retries := t_retries t |>
    <| ra_failed_attempt_work ::= with_value (ws_failed w) |>
    <| ra_cancelled_work ::= with_value (ws_cancelled w) |>
    <| ra_recomputed_work ::= with_value (t_recompute_s t) |>
    <| ra_reuse_avoided_work ::= with_value (t_reuse_avoid t) |>
    <| ra_reused_work ::= with_value (t_reused t) |>
    <| ra_kernel_hits := t_k_hits t |>
    <| ra_kernel_misses := t_k_misses t |>
    <| ra_graph_hits := t_g_hits t |>
    <| ra_graph_misses := t_g_misses t |>
    <| ra_cache_reads := t_c_reads t |>
    <| ra_cache_writes := t_c_writes t |>
    <| ra_energy_joules ::= with_value (t_energy_j t) |>.

Definition set_provenance (t : Totals) (a : RequestAccount) : RequestAccount :=
  let derived := Derived in
  a <| ra_wall_latency_s ::= with_provenance derived |>
    <| ra_queue_time_s ::= with_provenance derived |>
    <| ra_execution_s ::= with_provenance derived |>
    <| ra_prefill_s ::= with_provenance derived |>
    <| ra_decode_s ::= with_provenance derived |>
    <| ra_gpu_active_s ::= with_provenance derived |>
    <| ra_cpu_active_s ::= with_provenance
         (if bool_decide (t_attempts t = []) then Unavailable else derived) |>
    <| ra_batch_wait_s ::= with_provenance derived |>
    <| ra_h2d_bytes ::= with_provenance derived |>
    <| ra_d2h_bytes ::= with_provenance derived |>
    <| ra_inter_node_bytes ::= with_provenance derived |>
    <| ra_transfer_duration_s ::= with_provenance derived |>
    <| ra_kv_allocated ::= with_provenance derived |>
    <| ra_kv_peak ::= with_provenance derived |>
    <| ra_kv_reuse ::= with_provenance derived |>
    <| ra_tensor_allocated ::= with_provenance derived |>
    <| ra_tensor_peak ::= with_provenance derived |>
    <| ra_tensor_reuse ::= with_provenance derived |>
    <| ra_model_byte_seconds ::= with_provenance derived |>
    <| ra_adapter_byte_seconds ::= with_provenance derived |>
    <| ra_allocation_peak ::= with_provenance derived |>
    <| ra_failed_attempt_work ::= with_provenance derived |>
    <| ra_cancelled_work ::= with_provenance derived |>
    <| ra_recomputed_work ::= with_provenance derived |>
    <| ra_reuse_avoided_work ::= with_provenance derived |>
    <| ra_reused_work ::= with_provenance derived |>
    <| ra_spec_wasted_work_s ::= with_provenance derived |>
    <| ra_energy_joules ::= with_provenance
         (if (d0 <? t_energy_j t)%D then derived else Unavailable) |>.

(** [std::to_string] of a size. *)
Definition size_to_string (n : nat) : string := pretty n.

Definition set_reconcile (entries : list LedgerEntry) (t : Totals) (a : RequestAccount)
    : RequestAccount :=
  a <| ra_attempt_count := length (t_attempts t) |>
    <| ra_reconcile ::= fun r =>
         r <| rr_ok := true |>
           <| rr_reason := ("reconciled " +:+ size_to_string (length entries) +:+
                " entries across " +:+ size_to_string (length (t_attempts t)) +:+ " attempt(s)") |>
           <| rr_entries := length entries |>
           <| rr_attempts := length (t_attempts t) |> |>.

(** The identities of the first entry. *)
Definition set_identity (entries : list LedgerEntry) (request : RequestId) (a : RequestAccount)
    : RequestAccount :=
  let a := a <| ra_request := request |> in
  match entries with
  | [] => a
  | e :: _ =>
      a <| ra_tenant := e_tenant e |> <| ra_workload := e_workload e |>
        <| ra_model := e_model e |> <| ra_model_revision := e_model_revision e |>
  end.

(** [reconcile_request]. *)
Definition reconcile_request `{LlroundPlatform} (entries : list LedgerEntry) (request : RequestId)
    : RequestAccount :=
  let acc := set_units (set_identity entries request account_default) in
  let t := fold_entries entries in
  let w := find_winner (t_attempts t) in
  let acc := set_outcome (t_attempts t) w acc in
  let acc := set_totals t (waste_sums (t_attempts t) w) acc in
  let acc := set_provenance t acc in
  set_reconcile entries t acc.
