(* ===== verification/AccountProofs.v ===== *)
(** * Correctness of request reconciliation

    The account that [reconcile_request] builds in one pass with thirty running
    variables is characterised field by field over the list of entries: every
    physical total is a sum over the entries of its kinds, every attempt is
    attributed from its own entries alone, the winner is the successful attempt
    that ended last, and the waste is that of the other attempts. *)

From Stdlib Require Import SpecFloat Permutation Sorting.Sorted.
From stdpp Require Import base sets list strings numbers.
From S2P Require Import Prelude Float64 StdMap Identity Kinds Entry Ledger CodecProofs Account.
Open Scope Z_scope.

(** ** Specification *)

(** The entries of the kinds [ks], and the entries of an attempt, in order. *)
Definition of_kinds (ks : list EventKind) (es : list LedgerEntry) : list LedgerEntry :=
  filter (fun e => e_event_kind e ∈ ks) es.

Definition of_attempt (a : AttemptId) (es : list LedgerEntry) : list LedgerEntry :=
  filter (fun e => e_attempt e = a) es.

Definition val (e : LedgerEntry) : double := q_value (e_quantity e).

(** The sum of [g] over the entries of the kinds [ks]. *)
Definition total (g : LedgerEntry -> double) (ks : list EventKind) (es : list LedgerEntry) : double :=
  dsum (g <$> of_kinds ks es).

(** Their number, and the rounded values they carry, as [uint64_t]. *)
Definition number (ks : list EventKind) (es : list LedgerEntry) : Z :=
  wrap 64 (zsum ((fun _ => 1) <$> of_kinds ks es)).

Definition tally `{LlroundPlatform} (ks : list EventKind) (es : list LedgerEntry) : Z :=
  wrap 64 (zsum ((fun e => llround_u64 (val e)) <$> of_kinds ks es)).

Definition byte_seconds (e : LedgerEntry) : double := (val e * dur_sec e)%D.

(** An energy reading in joules. *)
Definition joules (e : LedgerEntry) : double :=
  if bool_decide (q_unit (e_quantity e) = EnergyWh) then (val e * d_of_Z 3600)%D else val e.

Definition exec_kinds : list EventKind := [Prefill; Decode; GpuExecution; CpuExecution].
Definition gpu_kinds : list EventKind := [Prefill; Decode; GpuExecution].

(** The tokens an entry adds to its attempt. *)
Definition emits_tokens (e : LedgerEntry) : Prop :=
  e_event_kind e = SpeculationAccepted \/
  (e_event_kind e = Decode /\ q_unit (e_quantity e) = Count).

#[export] Instance emits_tokens_dec e : Decision (emits_tokens e).
Proof. unfold emits_tokens. apply _. Defined.

Definition tokens `{LlroundPlatform} (es : list LedgerEntry) : Z :=
  wrap 64 (zsum ((fun e => llround_u64 (val e)) <$> filter emits_tokens es)).

(** The attempt has an entry of kind [k]. *)
Definition attempt_has (k : EventKind) (a : AttemptId) (es : list LedgerEntry) : Prop :=
  of_kinds [k] (of_attempt a es) <> [].

#[export] Instance attempt_has_dec k a es : Decision (attempt_has k a es).
Proof. unfold attempt_has. apply _. Defined.

(** The latest end of the attempt. *)
Definition terminal_ns (a : AttemptId) (es : list LedgerEntry) : Z :=
  foldr Z.max 0 (e_start_ts_ns <$> of_kinds [RequestEnd] (of_attempt a es)).

(** The attempt ended, and neither failed nor was cancelled. *)
Definition successful (es : list LedgerEntry) (a : AttemptId) : Prop :=
  attempt_has RequestEnd a es /\ ~ attempt_has Failure a es /\ ~ attempt_has Cancellation a es.

#[export] Instance successful_dec es a : Decision (successful es a).
Proof. unfold successful. apply _. Defined.

(** [b] is not after [a]: it ended earlier, or at the same time with an identity
    that is not larger. *)
Definition ended_by (es : list LedgerEntry) (b a : AttemptId) : Prop :=
  terminal_ns b es < terminal_ns a es \/
  (terminal_ns b es = terminal_ns a es /\ id_compare b a <> Gt).

(** The attempt whose work the request is credited with. *)
Definition wins (es : list LedgerEntry) (a : AttemptId) : Prop :=
  successful es a /\ forall b, successful es b -> ended_by es b a.

(** ** The totals *)

(** What one iteration does to one variable: case analysis on the event kind. *)
Ltac total_step :=
  intros t e; unfold fold_entry, totals_event, joules;
  destruct (e_event_kind e); try reflexivity; case_bool_decide; reflexivity.

Ltac attempt_step :=
  intros x e; unfold attempt_event;
  destruct (e_event_kind e); try reflexivity; case_bool_decide; reflexivity.

Section totals.
Context `{LlroundPlatform}.

Lemma fold_total (proj : Totals -> double) g ks es :
  proj totals_init = d0 ->
  (forall t e, proj (fold_entry t e) =
     if decide (e_event_kind e ∈ ks) then (proj t + g e)%D else proj t) ->
  proj (fold_entries es) = total g ks es.
Proof.
  intros Hinit Hstep. unfold fold_entries, total, of_kinds, dsum.
  rewrite (fold_left_dsum fold_entry proj (fun e => e_event_kind e ∈ ks) g) by done.
  by rewrite Hinit.
Qed.

Lemma fold_tally (proj : Totals -> Z) (g : LedgerEntry -> Z) ks es :
  proj totals_init = 0 ->
  (forall t e, proj (fold_entry t e) =
     if decide (e_event_kind e ∈ ks) then wrap 64 (proj t + g e) else proj t) ->
  proj (fold_entries es) = wrap 64 (zsum (g <$> of_kinds ks es)).
Proof.
  intros Hinit Hstep. unfold fold_entries, of_kinds.
  rewrite (fold_left_proj fold_entry proj (fun e => e_event_kind e ∈ ks)
             (fun x e => wrap 64 (x + g e))) by done.
  rewrite Hinit, fold_left_wrap by auto with width. by rewrite Z.add_0_l.
Qed.

(** ** The attempts *)

Definition attempt_account (a : AttemptId) (es : list LedgerEntry) : AttemptAttr :=
  fold_left (fun x e => attempt_event e x) (of_attempt a es) attempt_default.

Lemma t_attempts_group es :
  t_attempts (fold_entries es) =
  StdMap.group_by e_attempt attempt_event attempt_default es [].
Proof.
  unfold fold_entries, StdMap.group_by. change (@nil (AttemptId * AttemptAttr)) with (t_attempts totals_init).
  generalize totals_init. induction es as [|e es IH]; intros t; [done|].
  simpl fold_left. rewrite IH. f_equal.
  unfold fold_entry, totals_event. destruct (e_event_kind e); try reflexivity.
  case_bool_decide; reflexivity.
Qed.

Lemma t_attempts_sorted es : StdMap.sorted (t_attempts (fold_entries es)).
Proof. rewrite t_attempts_group. auto. Qed.

Lemma find_attempt a es :
  StdMap.find a (t_attempts (fold_entries es)) =
  match of_attempt a es with [] => None | _ => Some (attempt_account a es) end.
Proof.
  rewrite t_attempts_group, StdMap.find_group_by by auto.
  unfold attempt_account, of_attempt. by destruct (filter _ es).
Qed.

Lemma attempt_of_account a es : attempt_of (t_attempts (fold_entries es)) a = attempt_account a es.
Proof.
  unfold attempt_of. rewrite find_attempt. unfold attempt_account. by destruct (of_attempt a es).
Qed.

Lemma elem_of_attempts a x es :
  (a, x) ∈ t_attempts (fold_entries es) <-> of_attempt a es <> [] /\ x = attempt_account a es.
Proof.
  rewrite <- StdMap.find_iff by apply t_attempts_sorted. rewrite find_attempt.
  destruct (of_attempt a es); naive_solver.
Qed.

(** *** One attempt *)

Lemma attempt_total (proj : AttemptAttr -> double) g ks a es :
  proj attempt_default = d0 ->
  (forall x e, proj (attempt_event e x) =
     if decide (e_event_kind e ∈ ks) then (proj x + g e)%D else proj x) ->
  proj (attempt_account a es) = total g ks (of_attempt a es).
Proof.
  intros Hinit Hstep. unfold attempt_account, total, of_kinds, dsum.
  rewrite (fold_left_dsum (fun x e => attempt_event e x) proj (fun e => e_event_kind e ∈ ks) g) by done.
  by rewrite Hinit.
Qed.

Lemma attempt_flag (proj : AttemptAttr -> bool) k a es :
  proj attempt_default = false ->
  (forall x e, proj (attempt_event e x) =
     if decide (e_event_kind e ∈ [k]) then true else proj x) ->
  proj (attempt_account a es) = bool_decide (attempt_has k a es).
Proof.
  intros Hinit Hstep. unfold attempt_account.
  rewrite (fold_left_proj (fun x e => attempt_event e x) proj
             (fun e => e_event_kind e ∈ [k]) (fun _ _ => true)) by done.
  rewrite fold_left_const, Hinit. case_bool_decide as Hhas; unfold attempt_has, of_kinds in Hhas.
  - by destruct (filter _ _).
  - destruct (filter _ _); [done|]. by destruct Hhas.
Qed.

Lemma attempt_completed a es :
  aa_completed (attempt_account a es) = bool_decide (attempt_has RequestEnd a es).
Proof. apply attempt_flag; [done|attempt_step]. Qed.

Lemma attempt_failed a es :
  aa_failed (attempt_account a es) = bool_decide (attempt_has Failure a es).
Proof. apply attempt_flag; [done|attempt_step]. Qed.

Lemma attempt_cancelled a es :
  aa_cancelled (attempt_account a es) = bool_decide (attempt_has Cancellation a es).
Proof. apply attempt_flag; [done|attempt_step]. Qed.

Lemma attempt_exec a es :
  aa_exec_s (attempt_account a es) = total dur_sec exec_kinds (of_attempt a es).
Proof. apply attempt_total; [done|attempt_step]. Qed.

Lemma attempt_spec_rej a es :
  aa_spec_rej_s (attempt_account a es) = total dur_sec [SpeculationRejected] (of_attempt a es).
Proof. apply attempt_total; [done|attempt_step]. Qed.

Lemma attempt_tokens a es : aa_gen_tokens (attempt_account a es) = tokens (of_attempt a es).
Proof.
  unfold attempt_account, tokens.
  rewrite (fold_left_proj (fun x e => attempt_event e x) aa_gen_tokens emits_tokens
             (fun x e => wrap 64 (x + llround_u64 (val e)))).
  - change (aa_gen_tokens attempt_default) with 0. by rewrite fold_left_wrap by auto with width.
  - intros x e. unfold attempt_event. case_decide as Hd; unfold emits_tokens in Hd.
    + destruct Hd as [->|[-> Hu]]; [done|]. by rewrite bool_decide_eq_true_2.
    + destruct (e_event_kind e); try reflexivity; [|naive_solver].
      case_bool_decide; [naive_solver|reflexivity].
Qed.

Lemma fold_max_init l x : fold_left Z.max l x = Z.max x (foldr Z.max 0 l) \/ x < 0.
Proof. revert x. induction l as [|y l IH]; intros x; simpl; [lia|]. destruct (IH (Z.max x y)); lia. Qed.

Lemma attempt_terminal a es : aa_terminal_ns (attempt_account a es) = terminal_ns a es.
Proof.
  unfold attempt_account, terminal_ns, of_kinds.
  rewrite (fold_left_proj (fun x e => attempt_event e x) aa_terminal_ns
             (fun e => e_event_kind e ∈ [RequestEnd]) (fun x e => Z.max x (e_start_ts_ns e)))
    by attempt_step.
  change (aa_terminal_ns attempt_default) with 0.
  assert (forall l x, fold_left (fun x e => Z.max x (e_start_ts_ns e)) l x =
                      fold_left Z.max (e_start_ts_ns <$> l) x) as ->.
  { induction l as [|e l IH]; intros x; [done|]. apply IH. }
  pose proof (fold_max_init (e_start_ts_ns <$> filter (fun e => e_event_kind e ∈ [RequestEnd])
    (of_attempt a es)) 0) as [->|]; [|lia].
  assert (forall l, 0 <= foldr Z.max 0 l) as Hpos; [|specialize (Hpos (e_start_ts_ns <$>
    filter (fun e => e_event_kind e ∈ [RequestEnd]) (of_attempt a es))); lia].
  induction l; simpl; lia.
Qed.

(** *** The winner *)

Lemma id_compare_refl {Tag} (k : Id128 Tag) : id_compare k k = Eq.
Proof. by apply (@kcmp_eq _ (id_order Tag)). Qed.


Definition attempt_ok (x : AttemptAttr) : bool :=
  aa_completed x && negb (aa_failed x) && negb (aa_cancelled x).

Lemma attempt_ok_successful a es : attempt_ok (attempt_account a es) = bool_decide (successful es a).
Proof.
  unfold attempt_ok. rewrite attempt_completed, attempt_failed, attempt_cancelled.
  unfold successful. repeat case_bool_decide; simpl; tauto.
Qed.

Lemma find_winner_spec l : StdMap.sorted l ->
  let w := find_winner l in
  if wn_has w then
    (exists x, (wn_winning w, x) ∈ l /\ attempt_ok x = true /\ aa_terminal_ns x = wn_best_ns w) /\
    (forall b y, (b, y) ∈ l -> attempt_ok y = true ->
       aa_terminal_ns y < wn_best_ns w \/
       (aa_terminal_ns y = wn_best_ns w /\ id_compare b (wn_winning w) <> Gt))
  else forall b y, (b, y) ∈ l -> attempt_ok y = false.
Proof.
  induction l as [|[k x] l IH] using rev_ind; intros Hs; [by intros w b y ?%not_elem_of_nil|].
  apply StdMap.sorted_snoc_inv in Hs as [Hs Hall]. specialize (IH Hs).
  unfold find_winner in *. rewrite fold_left_app. simpl fold_left.
  destruct (fold_left _ l _) as [has win best]. simpl in IH.
  unfold pick_winner. cbn [wn_has wn_best_ns fst snd]. fold (attempt_ok x).
  assert (forall b y, (b, y) ∈ l -> id_compare b k = Lt) as Hlt.
  { intros b y Hb. rewrite list.Forall_forall in Hall. apply (Hall b), list_elem_of_fmap.
    by exists (b, y). }
  destruct (attempt_ok x) eqn:Hok; [destruct has|]; simpl.
  - destruct IH as [(x' & Hin & Hok' & Ht) Hmax].
    destruct (Z.leb_spec best (aa_terminal_ns x)); simpl.
    + split; [exists x; set_solver|]. intros b y [Hb|Hb]%elem_of_app Hy.
      * destruct (Hmax b y Hb Hy) as [?|[? _]]; [left; lia|].
        rewrite (Hlt b y Hb). destruct (decide (best = aa_terminal_ns x)); [right|left; lia].
        split; [lia|done].
      * apply list_elem_of_singleton in Hb as [= -> ->]. right. split; [done|].
        by rewrite id_compare_refl.
    + split; [exists x'; set_solver|]. intros b y [Hb|Hb]%elem_of_app Hy; [by eapply Hmax|].
      apply list_elem_of_singleton in Hb as [= -> ->]. by left.
  - split; [exists x; set_solver|]. intros b y [Hb|Hb]%elem_of_app Hy.
    + by rewrite (IH b y Hb) in Hy.
    + apply list_elem_of_singleton in Hb as [= -> ->]. right. split; [done|].
      by rewrite id_compare_refl.
  - destruct has.
    + destruct IH as [(x' & Hin & Hok' & Ht) Hmax]. split; [exists x'; set_solver|].
      intros b y [Hb|Hb]%elem_of_app Hy; [by eapply Hmax|].
      apply list_elem_of_singleton in Hb as [= -> ->]. congruence.
    + intros b y [Hb|Hb]%elem_of_app; [by eapply IH|].
      apply list_elem_of_singleton in Hb as [= -> ->]. done.
Qed.

Definition winner (es : list LedgerEntry) : Winner := find_winner (t_attempts (fold_entries es)).

Lemma attempt_has_nonempty k a es : attempt_has k a es -> of_attempt a es <> [].
Proof. intros Hhas Hnil. apply Hhas. by rewrite Hnil. Qed.

Lemma successful_attempt a es : successful es a ->
  (a, attempt_account a es) ∈ t_attempts (fold_entries es) /\ attempt_ok (attempt_account a es) = true.
Proof.
  intros Hs. split; [|by rewrite attempt_ok_successful, bool_decide_eq_true_2].
  apply elem_of_attempts. split; [|done]. eapply attempt_has_nonempty, Hs.
Qed.

Lemma winner_spec es :
  if wn_has (winner es) then wins es (wn_winning (winner es)) else forall a, ~ successful es a.
Proof.
  pose proof (find_winner_spec _ (t_attempts_sorted es)) as Hw. fold (winner es) in Hw.
  simpl in Hw. destruct (wn_has (winner es)).
  - destruct Hw as [(x & [_ ->]%elem_of_attempts & Hok & Ht) Hmax].
    rewrite attempt_ok_successful, bool_decide_eq_true in Hok. split; [done|].
    intros b [Hb Hbok]%successful_attempt. unfold ended_by.
    rewrite <- !attempt_terminal, Ht. by apply (Hmax b (attempt_account b es)).
  - intros a [Ha Haok]%successful_attempt. by rewrite (Hw _ _ Ha) in Haok.
Qed.

Lemma wins_unique es a b : wins es a -> wins es b -> a = b.
Proof.
  intros [Ha Hamax] [Hb Hbmax].
  destruct (Hamax b Hb) as [?|[? Hba]], (Hbmax a Ha) as [?|[? Hab]]; try lia.
  apply (@kcmp_eq _ (id_order _)). simpl.
  pose proof (@kcmp_antisym _ (id_order _) a b) as Hanti. simpl in Hanti.
  destruct (id_compare a b), (id_compare b a); done.
Qed.

Lemma wins_winner es a : wins es a <-> wn_has (winner es) = true /\ a = wn_winning (winner es).
Proof.
  pose proof (winner_spec es) as Hw. split.
  - intros Ha. destruct (wn_has (winner es)).
    + split; [done|by eapply wins_unique].
    + exfalso. eapply Hw, Ha.
  - intros [Hhas ->]. by rewrite Hhas in Hw.
Qed.

(** The attempts in key order, each with its own account. *)
Lemma t_attempts_map es :
  t_attempts (fold_entries es) =
  (fun a => (a, attempt_account a es)) <$> StdMap.keys (t_attempts (fold_entries es)).
Proof.
  unfold StdMap.keys. rewrite <- list_fmap_compose.
  rewrite <- (list_fmap_id (t_attempts (fold_entries es))) at 1.
  apply list_fmap_ext. intros i [a x] Hl. simpl.
  apply list_elem_of_lookup_2, elem_of_attempts in Hl as [_ ->]. done.
Qed.

Lemma elem_of_attempt_keys a es :
  a ∈ StdMap.keys (t_attempts (fold_entries es)) <-> of_attempt a es <> [].
Proof.
  unfold StdMap.keys. rewrite list_elem_of_fmap. split.
  - intros ([b x] & -> & [Hb _]%elem_of_attempts). done.
  - intros Ha. exists (a, attempt_account a es). split; [done|]. by apply elem_of_attempts.
Qed.

(** *** Waste *)

(** The attempts the loop does not skip. *)
Definition losers (es : list LedgerEntry) : list AttemptId :=
  filter (fun a => ~ (wn_has (winner es) = true /\ a = wn_winning (winner es)))
    (StdMap.keys (t_attempts (fold_entries es))).

Lemma waste_loop w l s :
  let P := fun kvp : AttemptId * AttemptAttr => ~ (wn_has w = true /\ kvp.1 = wn_winning w) in
  let s' := fold_left (waste_step w) l s in
  ws_failed s' = dsum_from (ws_failed s)
    ((fun kvp => aa_exec_s kvp.2) <$> filter (fun kvp => P kvp /\ aa_failed kvp.2 = true) l) /\
  ws_cancelled s' = dsum_from (ws_cancelled s)
    ((fun kvp => aa_exec_s kvp.2) <$> filter (fun kvp => P kvp /\ aa_cancelled kvp.2 = true) l) /\
  ws_spec s' = dsum_from (ws_spec s) ((fun kvp => aa_spec_rej_s kvp.2) <$> filter P l).
Proof.
  intros P s'. unfold s', P. clear s' P.
  split_and!; apply fold_left_dsum; clear; intros s [a x]; unfold waste_step; cbn [fst snd];
    (destruct (wn_has w) eqn:Hw, (id_eqb a (wn_winning w)) eqn:Ha; cbn [andb];
     rewrite ?id_eqb_eq, ?id_eqb_neq in Ha;
     case_decide; repeat case_match; try reflexivity; exfalso; naive_solver).
Qed.

(** Filtering the attempts is filtering their identities. *)
Lemma sum_attempts (g : AttemptAttr -> double) (P : AttemptId * AttemptAttr -> Prop)
    `{!forall kvp, Decision (P kvp)} (Q : AttemptId -> Prop) `{!forall a, Decision (Q a)} es :
  (forall a, P (a, attempt_account a es) <-> Q a) ->
  (fun kvp => g kvp.2) <$> filter P (t_attempts (fold_entries es)) =
  (fun a => g (attempt_account a es)) <$> filter Q (StdMap.keys (t_attempts (fold_entries es))).
Proof.
  intros HPQ. rewrite t_attempts_map at 1.
  induction (StdMap.keys (t_attempts (fold_entries es))) as [|a l IH]; [done|].
  rewrite fmap_cons, !filter_cons, (decide_ext _ _ _ _ (HPQ a)).
  destruct (decide (Q a)); [|done]. rewrite !fmap_cons. by f_equal.
Qed.

Lemma filter_and {A} (P Q : A -> Prop) `{!forall a, Decision (P a), !forall a, Decision (Q a)} (l : list A) :
  filter (fun a => P a /\ Q a) l = filter Q (filter P l).
Proof.
  rewrite list_filter_filter. apply list_filter_iff. intros; tauto.
Qed.

Lemma StronglySorted_filter {A} (R : A -> A -> Prop) (P : A -> Prop) `{!forall a, Decision (P a)} l :
  StronglySorted R l -> StronglySorted R (filter P l).
Proof.
  induction 1 as [|a l Hs IH Hall]; [constructor|]. rewrite filter_cons.
  case_decide; [|done]. constructor; [done|].
  rewrite !list.Forall_forall in *. intros x [_ Hx]%list_elem_of_filter. by apply Hall.
Qed.

(** The work of an attempt, useful or not. *)
Definition exec_work (es : list LedgerEntry) (a : AttemptId) : double :=
  total dur_sec exec_kinds (of_attempt a es).

Definition rejected_work (es : list LedgerEntry) (a : AttemptId) : double :=
  total dur_sec [SpeculationRejected] (of_attempt a es).

Lemma waste_sums_spec es :
  let w := waste_sums (t_attempts (fold_entries es)) (winner es) in
  ws_failed w = dsum (exec_work es <$> filter (fun a => attempt_has Failure a es) (losers es)) /\
  ws_cancelled w = dsum (exec_work es <$> filter (fun a => attempt_has Cancellation a es) (losers es)) /\
  ws_spec w = (if wn_has (winner es)
               then dsum (rejected_work es <$> losers es) + rejected_work es (wn_winning (winner es))
               else dsum (rejected_work es <$> losers es))%D.
Proof.
  destruct (waste_loop (winner es) (t_attempts (fold_entries es)) (MkWasteSums d0 d0 d0))
    as (Hf & Hc & Hs). simpl in Hf, Hc, Hs.
  assert (forall a, aa_exec_s (attempt_account a es) = exec_work es a) as He by (intros; apply attempt_exec).
  assert (forall a, aa_spec_rej_s (attempt_account a es) = rejected_work es a) as Hr
    by (intros; apply attempt_spec_rej).
  rewrite (sum_attempts aa_exec_s _ (fun a => ~ (wn_has (winner es) = true /\ a = wn_winning (winner es)) /\
    attempt_has Failure a es)) in Hf
    by (intros a; simpl; by rewrite attempt_failed, bool_decide_eq_true).
  rewrite (sum_attempts aa_exec_s _ (fun a => ~ (wn_has (winner es) = true /\ a = wn_winning (winner es)) /\
    attempt_has Cancellation a es)) in Hc
    by (intros a; simpl; by rewrite attempt_cancelled, bool_decide_eq_true).
  rewrite (sum_attempts aa_spec_rej_s _ (fun a => ~ (wn_has (winner es) = true /\ a = wn_winning (winner es)))) in Hs
    by done.
  rewrite filter_and in Hf, Hc. fold (losers es) in Hf, Hc, Hs.
  rewrite (list_fmap_ext _ (exec_work es)) in Hf, Hc by (intros; apply He).
  rewrite (list_fmap_ext _ (rejected_work es)) in Hs by (intros; apply Hr).
  unfold waste_sums. destruct (wn_has (winner es)) eqn:Hw; [|done].
  cbn [ws_failed ws_cancelled ws_spec]. split_and!; [exact Hf|exact Hc|].
  change (((ws_spec (fold_left (waste_step (winner es)) (t_attempts (fold_entries es))
    (MkWasteSums d0 d0 d0))) + aa_spec_rej_s (attempt_of (t_attempts (fold_entries es))
    (wn_winning (winner es))))%D = (dsum (rejected_work es <$> losers es) +
      rejected_work es (wn_winning (winner es)))%D).
  by rewrite Hs, attempt_of_account, Hr.
Qed.

Lemma losers_sorted es : StronglySorted (fun a b => id_compare a b = Lt) (losers es).
Proof. apply StronglySorted_filter, (t_attempts_sorted es). Qed.

Lemma elem_of_losers es a : a ∈ losers es <-> of_attempt a es <> [] /\ ~ wins es a.
Proof. unfold losers. rewrite list_elem_of_filter, elem_of_attempt_keys, wins_winner. tauto. Qed.

(** *** The account's fields *)

Lemma reconcile_outcome_fields es r :
  let acc := reconcile_request es r in
  let a := attempt_account (wn_winning (winner es)) es in
  let any := existsb (fun kvp => aa_cancelled kvp.2 && negb (aa_failed kvp.2))
               (t_attempts (fold_entries es)) in
  if wn_has (winner es) then
    ra_completed acc = true /\ ra_cancelled acc = false /\ ra_failed acc = false /\
    ra_terminal_outcome acc = "completed" /\
    q_value (ra_execution_s acc) = aa_exec_s a /\ q_value (ra_prefill_s acc) = aa_prefill_s a /\
    q_value (ra_decode_s acc) = aa_decode_s a /\ q_value (ra_gpu_active_s acc) = aa_gpu_s a /\
    q_value (ra_cpu_active_s acc) = aa_cpu_s a /\ ra_generated_tokens acc = aa_gen_tokens a
  else
    ra_completed acc = false /\ ra_cancelled acc = any /\ ra_failed acc = negb any /\
    ra_terminal_outcome acc = (if any then "cancelled" else "failed") /\
    q_value (ra_execution_s acc) = d0 /\ q_value (ra_prefill_s acc) = d0 /\
    q_value (ra_decode_s acc) = d0 /\ q_value (ra_gpu_active_s acc) = d0 /\
    q_value (ra_cpu_active_s acc) = d0 /\ ra_generated_tokens acc = 0.
Proof.
  unfold reconcile_request. cbv zeta. fold (winner es). rewrite <- !attempt_of_account.
  unfold set_outcome. destruct (wn_has (winner es)); destruct es; split_and!; reflexivity.
Qed.

Lemma any_cancelled_spec es :
  existsb (fun kvp => aa_cancelled kvp.2 && negb (aa_failed kvp.2)) (t_attempts (fold_entries es)) = true
  <-> exists a, attempt_has Cancellation a es /\ ~ attempt_has Failure a es.
Proof.
  rewrite existsb_exists. split.
  - intros ([a x] & [_ ->]%list_elem_of_In%elem_of_attempts & Hx). exists a. simpl in Hx.
    rewrite attempt_cancelled, attempt_failed, andb_true_iff, negb_true_iff,
      bool_decide_eq_true, bool_decide_eq_false in Hx. done.
  - intros (a & Hc & Hf). exists (a, attempt_account a es). split.
    + apply list_elem_of_In, elem_of_attempts. split; [by eapply attempt_has_nonempty|done].
    + simpl. rewrite attempt_cancelled, attempt_failed, bool_decide_eq_true_2,
        bool_decide_eq_false_2 by done. done.
Qed.

End totals.

(** The physical totals of the account. *)
Lemma reconcile_totals_sums `{LlroundPlatform} es r :
  let acc := reconcile_request es r in
  q_value (ra_queue_time_s acc) = total dur_sec [Queue] es /\
  q_value (ra_batch_wait_s acc) = total dur_sec [BatchWait] es /\
  q_value (ra_h2d_bytes acc) = total val [TransferH2D] es /\
  q_value (ra_d2h_bytes acc) = total val [TransferD2H] es /\
  q_value (ra_inter_node_bytes acc) = total val [TransferInterNode] es /\
  q_value (ra_transfer_duration_s acc) =
    total dur_sec [TransferH2D; TransferD2H; TransferInterNode] es /\
  q_value (ra_kv_allocated acc) = total val [KvAllocate] es /\
  q_value (ra_kv_reuse acc) = total val [KvReuse] es /\
  q_value (ra_tensor_allocated acc) = total val [TensorAllocate] es /\
  q_value (ra_tensor_reuse acc) = total val [TensorReuse] es /\
  q_value (ra_model_byte_seconds acc) = total byte_seconds [ModelResidency] es /\
  q_value (ra_adapter_byte_seconds acc) = total byte_seconds [AdapterResidency] es /\
  q_value (ra_recomputed_work acc) = total dur_sec [Recompute] es /\
  q_value (ra_reuse_avoided_work acc) = total val [ReuseAvoided] es /\
  q_value (ra_energy_joules acc) = total joules [Energy] es.
Proof.
  intros acc.
  split; [apply (fold_total t_queue_s); [done|total_step]|].
  split; [apply (fold_total t_batch_s); [done|total_step]|].
  split; [apply (fold_total t_h2d); [done|total_step]|].
  split; [apply (fold_total t_d2h); [done|total_step]|].
  split; [apply (fold_total t_node); [done|total_step]|].
  split; [apply (fold_total t_trans_dur); [done|total_step]|].
  split; [apply (fold_total t_kv_alloc); [done|total_step]|].
  split; [apply (fold_total t_kv_reuse); [done|total_step]|].
  split; [apply (fold_total t_alloc); [done|total_step]|].
  split; [apply (fold_total t_reuse); [done|total_step]|].
  split; [apply (fold_total t_model_bs); [done|total_step]|].
  split; [apply (fold_total t_adapter_bs); [done|total_step]|].
  split; [apply (fold_total t_recompute_s); [done|total_step]|].
  split; [apply (fold_total t_reuse_avoid); [done|total_step]|].
  apply (fold_total t_energy_j); [done|total_step].
Qed.

(** The counters of the account. *)
Lemma reconcile_totals_counters `{LlroundPlatform} es r :
  let acc := reconcile_request es r in
  ra_reservations_acquired acc = number [Reserve] es /\
  ra_reservations_released acc = number [Release] es /\
  ra_spec_proposed acc = tally [SpeculationProposed] es /\
  ra_spec_accepted acc = tally [SpeculationAccepted] es /\
  ra_spec_rejected acc = tally [SpeculationRejected] es /\
  ra_retries acc = tally [Retry] es /\
  ra_kernel_hits acc = tally [KernelHit] es /\
  ra_kernel_misses acc = tally [KernelMiss] es /\
  ra_graph_hits acc = tally [GraphHit] es /\
  ra_graph_misses acc = tally [GraphMiss] es /\
  ra_cache_reads acc = tally [CacheRead] es /\
  ra_cache_writes acc = tally [CacheWrite] es.
Proof.
  intros acc. unfold number, tally.
  split_and!;
    [ apply (fold_tally t_res_acq) | apply (fold_tally t_res_rel) | apply (fold_tally t_spec_prop)
    | apply (fold_tally t_spec_acc) | apply (fold_tally t_spec_rej) | apply (fold_tally t_retries)
    | apply (fold_tally t_k_hits) | apply (fold_tally t_k_misses) | apply (fold_tally t_g_hits)
    | apply (fold_tally t_g_misses) | apply (fold_tally t_c_reads) | apply (fold_tally t_c_writes)];
    first [done | total_step].
Qed.

(** ** Order independence

    The classification of attempts and the integer counters see the entries of a
    request as a multiset. *)

#[export] Instance of_kinds_perm ks : Proper ((≡ₚ) ==> (≡ₚ)) (of_kinds ks).
Proof. intros es es' Hp. unfold of_kinds. by rewrite Hp. Qed.

#[export] Instance of_attempt_perm a : Proper ((≡ₚ) ==> (≡ₚ)) (of_attempt a).
Proof. intros es es' Hp. unfold of_attempt. by rewrite Hp. Qed.

Lemma perm_nil_iff {A} (l k : list A) : l ≡ₚ k -> l <> [] <-> k <> [].
Proof. intros Hp. split; intros Hn ->; apply Hn, Permutation_nil; by rewrite Hp. Qed.

#[export] Instance attempt_has_perm k a : Proper ((≡ₚ) ==> iff) (attempt_has k a).
Proof. intros es es' Hp. apply perm_nil_iff. by rewrite Hp. Qed.

#[export] Instance terminal_ns_perm a : Proper ((≡ₚ) ==> eq) (terminal_ns a).
Proof.
  intros es es' Hp. unfold terminal_ns.
  assert (forall l k : list Z, l ≡ₚ k -> foldr Z.max 0 l = foldr Z.max 0 k) as Hmax
    by (induction 1; simpl; lia).
  apply Hmax. by rewrite Hp.
Qed.

#[export] Instance successful_perm : Proper ((≡ₚ) ==> eq ==> iff) successful.
Proof. intros es es' Hp a _ <-. unfold successful. by rewrite !Hp. Qed.

#[export] Instance wins_perm : Proper ((≡ₚ) ==> eq ==> iff) wins.
Proof. intros es es' Hp a _ <-. unfold wins, ended_by. by setoid_rewrite Hp. Qed.

#[export] Instance number_perm ks : Proper ((≡ₚ) ==> eq) (number ks).
Proof. intros es es' Hp. unfold number. f_equal. apply zsum_Permutation. by rewrite Hp. Qed.

#[export] Instance tally_perm `{LlroundPlatform} ks : Proper ((≡ₚ) ==> eq) (tally ks).
Proof. intros es es' Hp. unfold tally. f_equal. apply zsum_Permutation. by rewrite Hp. Qed.

#[export] Instance tokens_perm `{LlroundPlatform} : Proper ((≡ₚ) ==> eq) tokens.
Proof. intros es es' Hp. unfold tokens. f_equal. apply zsum_Permutation. by rewrite Hp. Qed.

Lemma winner_perm `{LlroundPlatform} es es' : es ≡ₚ es' ->
  wn_has (winner es) = wn_has (winner es') /\
  (wn_has (winner es) = true -> wn_winning (winner es) = wn_winning (winner es')).
Proof.
  intros Hp. pose proof (winner_spec es) as H1. pose proof (winner_spec es') as H2.
  destruct (wn_has (winner es)), (wn_has (winner es')).
  - split; [done|]. intros _. apply (wins_unique es); [done|].
    by apply (wins_perm es es' Hp _ _ eq_refl).
  - destruct H1 as [H1 _]. by apply (successful_perm es es' Hp _ _ eq_refl), H2 in H1.
  - destruct H2 as [H2 _]. by apply (successful_perm es es' Hp _ _ eq_refl), H1 in H2.
  - done.
Qed.

Lemma any_cancelled_perm `{LlroundPlatform} es es' : es ≡ₚ es' ->
  existsb (fun kvp => aa_cancelled kvp.2 && negb (aa_failed kvp.2)) (t_attempts (fold_entries es)) =
  existsb (fun kvp => aa_cancelled kvp.2 && negb (aa_failed kvp.2)) (t_attempts (fold_entries es')).
Proof. intros Hp. apply eq_true_iff_eq. rewrite !any_cancelled_spec. by setoid_rewrite Hp. Qed.

Lemma attempt_count_perm `{LlroundPlatform} es es' : es ≡ₚ es' ->
  length (t_attempts (fold_entries es)) = length (t_attempts (fold_entries es')).
Proof.
  intros Hp. rewrite <- !(length_fmap fst). apply Permutation_length, NoDup_Permutation.
  - apply StdMap.keys_NoDup, t_attempts_sorted.
  - apply StdMap.keys_NoDup, t_attempts_sorted.
  - intros a. change (?l.*1) with (StdMap.keys l). rewrite !elem_of_attempt_keys.
    apply perm_nil_iff. by rewrite Hp.
Qed.

(** ** Non-negativity and peaks *)

(** What the ledger's content check and the C++ types give for a metered quantity. *)
Record metered (e : LedgerEntry) : Prop := {
  mt_wf : entry_wf e;
  mt_finite : isfinite (val e) = true;
  mt_nonneg : dnonneg (val e) = true
}.

Lemma sec_finite ns : in_width 64 ns -> isfinite (sec ns) = true /\ dnonneg (sec ns) = true.
Proof.
  intros Hns. apply (within_finite 200 900). unfold sec.
  assert (kNsPerSecond = S754_finite false 8388608000000000 (-23)) as -> by (by vm_compute).
  apply ddiv_within; [by apply d_of_Z_within|lia..].
Qed.

Lemma dur_sec_finite e : entry_wf e -> isfinite (dur_sec e) = true /\ dnonneg (dur_sec e) = true.
Proof.
  intros Hwf. unfold dur_sec. destruct (e_has_end e); [|done]. by apply sec_finite, duration_ns_range.
Qed.

Lemma total_nonneg g ks es :
  (forall e, metered e -> dnonneg (g e) = true) -> Forall metered es -> dnonneg (total g ks es) = true.
Proof.
  intros Hg Hes. apply dsum_nonneg. apply list.Forall_fmap, list.Forall_forall.
  intros e [_ He]%list_elem_of_filter. rewrite list.Forall_forall in Hes. by apply Hg, Hes.
Qed.

Lemma dur_sec_nonneg e : metered e -> dnonneg (dur_sec e) = true.
Proof. intros [Hwf _ _]. by apply dur_sec_finite. Qed.

Lemma byte_seconds_nonneg e : metered e -> dnonneg (byte_seconds e) = true.
Proof.
  intros [Hwf Hf Hn]. destruct (dur_sec_finite e Hwf). by apply dmul_nonneg.
Qed.

Lemma joules_nonneg e : metered e -> dnonneg (joules e) = true.
Proof. intros [_ Hf Hn]. unfold joules. case_bool_decide; [by apply dmul_nonneg|done]. Qed.

#[export] Hint Resolve total_nonneg dur_sec_nonneg byte_seconds_nonneg joules_nonneg mt_nonneg : double.

Lemma of_attempt_metered a es : Forall metered es -> Forall metered (of_attempt a es).
Proof.
  rewrite !list.Forall_forall. intros Hes e [_ He]%list_elem_of_filter. by apply Hes.
Qed.

(** The bytes live after the entries [es]: allocations of kind [al] add, releases
    of kind [re] subtract, never below zero. *)
Definition live_step (al re : EventKind) (x : double) (e : LedgerEntry) : double :=
  if decide (e_event_kind e = al) then (x + val e)%D
  else if decide (e_event_kind e = re) then dmax d0 (x - val e)%D else x.

Definition live (al re : EventKind) (es : list LedgerEntry) : double :=
  fold_left (live_step al re) es d0.

Lemma live_snoc al re es e : live al re (es ++ [e]) = live_step al re (live al re es) e.
Proof. unfold live. by rewrite fold_left_app. Qed.

Lemma live_nonneg al re es : Forall metered es -> dnonneg (live al re es) = true.
Proof.
  induction es as [|e es IH] using rev_ind; [done|].
  intros [Hes He%Forall_inv]%Forall_app. rewrite live_snoc. unfold live_step.
  repeat case_decide; [auto with double|by apply dmax_nonneg_l|auto].
Qed.

(** [p] is the highest level the live bytes reached at an allocation. *)
Definition is_peak (al re : EventKind) (es : list LedgerEntry) (p : double) : Prop :=
  dnonneg p = true /\
  (forall es1 e es2, es = es1 ++ e :: es2 -> e_event_kind e = al ->
     (live al re (es1 ++ [e]) <=? p)%D = true) /\
  (p = d0 \/ exists es1 e es2, es = es1 ++ e :: es2 /\ e_event_kind e = al /\
     p = live al re (es1 ++ [e])).

Section peak.
Context `{LlroundPlatform} (al re : EventKind) (pl pp : Totals -> double).
Hypothesis pl_init : pl totals_init = d0.
Hypothesis pp_init : pp totals_init = d0.
Hypothesis pl_step : forall t e, pl (fold_entry t e) = live_step al re (pl t) e.
Hypothesis pp_step : forall t e, pp (fold_entry t e) =
  if decide (e_event_kind e = al) then dmax (pp t) (live_step al re (pl t) e) else pp t.

Lemma fold_entries_snoc es e : fold_entries (es ++ [e]) = fold_entry (fold_entries es) e.
Proof. unfold fold_entries. by rewrite fold_left_app. Qed.

Lemma live_fold es : pl (fold_entries es) = live al re es.
Proof.
  induction es as [|e es IH] using rev_ind; [done|].
  by rewrite fold_entries_snoc, pl_step, live_snoc, IH.
Qed.

Lemma peak_fold es : Forall metered es -> is_peak al re es (pp (fold_entries es)).
Proof using All.
  induction es as [|e es IH] using rev_ind.
  { intros _. unfold fold_entries. simpl. rewrite pp_init. split_and!; [done| |by left].
    intros [|??] ???; done. }
  intros Hes. pose proof (live_nonneg al re _ Hes) as Hlive. rewrite live_snoc in Hlive.
  apply Forall_app in Hes as [Hes _]. destruct (IH Hes) as (Hn & Hub & Hatt). clear IH.
  rewrite fold_entries_snoc, pp_step, live_fold.
  assert (forall es1 e0 es2, es ++ [e] = es1 ++ e0 :: es2 ->
    (es1 = es /\ e0 = e) \/ exists es2', es = es1 ++ e0 :: es2') as Hsplit.
  { intros es1 e0 es2 Heq. destruct es2 as [|x es2 _] using rev_ind.
    - apply app_inj_tail in Heq as [-> ->]. by left.
    - rewrite app_comm_cons, app_assoc in Heq. apply app_inj_tail in Heq as [-> _]. eauto. }
  case_decide as Hk; split_and!.
  - by apply dmax_nonneg_l.
  - intros es1 e0 es2 [[-> ->]|[es2' ->]]%Hsplit Hk0.
    + rewrite live_snoc. apply dmax_ge_r; auto with double.
    + eapply SFcompare_le_trans; [by eapply Hub|]. apply dmax_ge_l; auto with double.
  - unfold dmax. destruct (_ <? _)%D.
    + right. exists es, e, []. split_and!; [done..|by rewrite live_snoc].
    + destruct Hatt as [->|(es1 & e0 & es2 & -> & Hk0 & ->)]; [by left|]. right.
      exists es1, e0, (es2 ++ [e]). by rewrite <- app_assoc.
  - done.
  - intros es1 e0 es2 [[-> ->]|[es2' ->]]%Hsplit Hk0; [done|by eapply Hub].
  - destruct Hatt as [->|(es1 & e0 & es2 & -> & Hk0 & ->)]; [by left|]. right.
    exists es1, e0, (es2 ++ [e]). by rewrite <- app_assoc.
Qed.
End peak.

Lemma kv_peak_fold `{LlroundPlatform} es : Forall metered es ->
  is_peak KvAllocate KvRelease es (t_kv_peak (fold_entries es)).
Proof.
  apply (peak_fold KvAllocate KvRelease t_kv_live t_kv_peak);
    first [done|unfold live_step; total_step].
Qed.

Lemma tensor_peak_fold `{LlroundPlatform} es : Forall metered es ->
  is_peak TensorAllocate TensorRelease es (t_peak (fold_entries es)).
Proof.
  apply (peak_fold TensorAllocate TensorRelease t_live t_peak);
    first [done|unfold live_step; total_step].
Qed.

(** The request's start and end are 64-bit values. *)
Lemma wall_latency_nonneg `{LlroundPlatform} es : Forall metered es ->
  dnonneg (wall_latency (fold_entries es)) = true.
Proof.
  intros Hes.
  assert (in_width 64 (t_start_ns (fold_entries es)) /\ in_width 64 (t_end_ns (fold_entries es)))
    as [Hs He].
  { induction es as [|e es IH] using rev_ind; [done|].
    apply Forall_app in Hes as [Hes He%Forall_inv]. destruct (IH Hes) as [Hs Hn].
    destruct He as [Hwf _ _]. pose proof (wf_start e Hwf). pose proof (wf_end e Hwf).
    unfold fold_entries in *. rewrite fold_left_app. simpl fold_left.
    unfold fold_entry, totals_event.
    destruct (e_event_kind e); try (split; assumption); [split; [by destruct (e_has_end e)|done]|].
    case_bool_decide; split; assumption. }
  unfold wall_latency. destruct (_ && _ && _) eqn:E; [|done].
  apply andb_true_iff in E as [_ E%Z.leb_le]. apply sec_finite. unfold in_width in *. lia.
Qed.

Lemma waste_nonneg (g : AttemptId -> double) l :
  (forall a, dnonneg (g a) = true) -> dnonneg (dsum (g <$> l)) = true.
Proof. intros Hg. by apply dsum_nonneg, list.Forall_fmap, list.Forall_true. Qed.

Lemma t_reused_zero `{LlroundPlatform} es : t_reused (fold_entries es) = d0.
Proof.
  unfold fold_entries. rewrite (fold_left_proj fold_entry t_reused (fun _ => False) (fun x _ => x)).
  - by induction es.
  - total_step.
Qed.

Lemma attempt_nonneg `{LlroundPlatform} a es : Forall metered es ->
  let x := attempt_account a es in
  dnonneg (aa_exec_s x) = true /\ dnonneg (aa_prefill_s x) = true /\
  dnonneg (aa_decode_s x) = true /\ dnonneg (aa_gpu_s x) = true /\ dnonneg (aa_cpu_s x) = true.
Proof.
  intros Hes%(of_attempt_metered a). cbv zeta.
  rewrite attempt_exec, (attempt_total aa_prefill_s dur_sec [Prefill]),
    (attempt_total aa_decode_s dur_sec [Decode]), (attempt_total aa_gpu_s dur_sec gpu_kinds),
    (attempt_total aa_cpu_s dur_sec [CpuExecution]) by (done || attempt_step).
  split_and!; auto with double.
Qed.

(** ** Properties *)

(** C14: every physical total of the account is the left-to-right sum, over exactly
    the entries of its event kinds, of what those entries carry: durations,
    values, byte-seconds, joules; and every counter is the sum of the rounded
    values (or the number) of its entries modulo 2^64. *)
Theorem reconcile_totals `{LlroundPlatform} es r :
  let acc := reconcile_request es r in
  q_value (ra_queue_time_s acc) = total dur_sec [Queue] es /\
  q_value (ra_batch_wait_s acc) = total dur_sec [BatchWait] es /\
  q_value (ra_h2d_bytes acc) = total val [TransferH2D] es /\
  q_value (ra_d2h_bytes acc) = total val [TransferD2H] es /\
  q_value (ra_inter_node_bytes acc) = total val [TransferInterNode] es /\
  q_value (ra_transfer_duration_s acc) =
    total dur_sec [TransferH2D; TransferD2H; TransferInterNode] es /\
  q_value (ra_kv_allocated acc) = total val [KvAllocate] es /\
  q_value (ra_kv_reuse acc) = total val [KvReuse] es /\
  q_value (ra_tensor_allocated acc) = total val [TensorAllocate] es /\
  q_value (ra_tensor_reuse acc) = total val [TensorReuse] es /\
  q_value (ra_model_byte_seconds acc) = total byte_seconds [ModelResidency] es /\
  q_value (ra_adapter_byte_seconds acc) = total byte_seconds [AdapterResidency] es /\
  q_value (ra_recomputed_work acc) = total dur_sec [Recompute] es /\
  q_value (ra_reuse_avoided_work acc) = total val [ReuseAvoided] es /\
  q_value (ra_energy_joules acc) = total joules [Energy] es /\
  ra_reservations_acquired acc = number [Reserve] es /\
  ra_reservations_released acc = number [Release] es /\
  ra_spec_proposed acc = tally [SpeculationProposed] es /\
  ra_spec_accepted acc = tally [SpeculationAccepted] es /\
  ra_spec_rejected acc = tally [SpeculationRejected] es /\
  ra_retries acc = tally [Retry] es /\
  ra_kernel_hits acc = tally [KernelHit] es /\
  ra_kernel_misses acc = tally [KernelMiss] es /\
  ra_graph_hits acc = tally [GraphHit] es /\
  ra_graph_misses acc = tally [GraphMiss] es /\
  ra_cache_reads acc = tally [CacheRead] es /\
  ra_cache_writes acc = tally [CacheWrite] es.
Proof.
  destruct (reconcile_totals_sums es r) as (?&?&?&?&?&?&?&?&?&?&?&?&?&?&?).
  repeat (split; [assumption|]). exact (reconcile_totals_counters es r).
Qed.

(** C15: the request is completed exactly when some attempt ended and neither
    failed nor was cancelled, and then it is credited with the work of one such
    attempt alone: the one that ended last, the largest identity on a tie. Its
    execution, prefill, decode, GPU and CPU time and its tokens are sums over that
    attempt's own entries. Without such an attempt no work is credited. *)
Theorem reconcile_winner `{LlroundPlatform} es r :
  let acc := reconcile_request es r in
  (ra_completed acc = true /\
   exists a, wins es a /\
     q_value (ra_execution_s acc) = total dur_sec exec_kinds (of_attempt a es) /\
     q_value (ra_prefill_s acc) = total dur_sec [Prefill] (of_attempt a es) /\
     q_value (ra_decode_s acc) = total dur_sec [Decode] (of_attempt a es) /\
     q_value (ra_gpu_active_s acc) = total dur_sec gpu_kinds (of_attempt a es) /\
     q_value (ra_cpu_active_s acc) = total dur_sec [CpuExecution] (of_attempt a es) /\
     ra_generated_tokens acc = tokens (of_attempt a es)) \/
  (ra_completed acc = false /\ (forall a, ~ successful es a) /\
   q_value (ra_execution_s acc) = d0 /\ q_value (ra_prefill_s acc) = d0 /\
   q_value (ra_decode_s acc) = d0 /\ q_value (ra_gpu_active_s acc) = d0 /\
   q_value (ra_cpu_active_s acc) = d0 /\ ra_generated_tokens acc = 0).
Proof.
  intros acc. pose proof (reconcile_outcome_fields es r) as Hf. pose proof (winner_spec es) as Hw.
  cbv zeta in Hf. fold acc in Hf. destruct (wn_has (winner es)); destruct_and? Hf.
  - left. split; [done|]. exists (wn_winning (winner es)). split; [done|].
    rewrite <- attempt_exec, <- attempt_tokens.
    rewrite <- (attempt_total aa_prefill_s dur_sec [Prefill]) by (done || attempt_step).
    rewrite <- (attempt_total aa_decode_s dur_sec [Decode]) by (done || attempt_step).
    rewrite <- (attempt_total aa_gpu_s dur_sec gpu_kinds) by (done || attempt_step).
    rewrite <- (attempt_total aa_cpu_s dur_sec [CpuExecution]) by (done || attempt_step).
    done.
  - right. done.
Qed.

(** the terminal outcome is exactly one of completed, cancelled and failed, as
    the flags and the name say: cancelled when no attempt succeeded and some
    attempt was cancelled without failing, failed otherwise. *)
Theorem reconcile_outcome `{LlroundPlatform} es r :
  let acc := reconcile_request es r in
  let cancelled := exists a, attempt_has Cancellation a es /\ ~ attempt_has Failure a es in
  ((exists a, successful es a) /\ ra_terminal_outcome acc = "completed" /\
   ra_completed acc = true /\ ra_cancelled acc = false /\ ra_failed acc = false) \/
  ((forall a, ~ successful es a) /\ cancelled /\ ra_terminal_outcome acc = "cancelled" /\
   ra_completed acc = false /\ ra_cancelled acc = true /\ ra_failed acc = false) \/
  ((forall a, ~ successful es a) /\ ~ cancelled /\ ra_terminal_outcome acc = "failed" /\
   ra_completed acc = false /\ ra_cancelled acc = false /\ ra_failed acc = true).
Proof.
  intros acc cancelled. pose proof (reconcile_outcome_fields es r) as Hf.
  pose proof (winner_spec es) as Hw. cbv zeta in Hf. fold acc in Hf.
  destruct (wn_has (winner es)); destruct_and? Hf.
  - left. split_and!; try done. by exists (wn_winning (winner es)); apply Hw.
  - right. pose proof (any_cancelled_spec es) as Hany. fold cancelled in Hany.
    destruct (existsb _ _); [left|right]; split_and!; try done; [by apply Hany|].
    intros Hc. by apply Hany in Hc.
Qed.

(** C16: where wasted work comes from: failed work is the execution time of the
    attempts that did not win and failed, cancelled work that of the attempts that did
    not win and were cancelled, each attempt once in each sum, in identity order, so
    that one which both failed and was cancelled is in both; wasted speculation is the
    rejected speculation of the attempts that did not win, and of the winner too when
    there is one. *)
Theorem reconcile_waste `{LlroundPlatform} es r :
  let acc := reconcile_request es r in
  exists losers, StronglySorted (fun a b => id_compare a b = Lt) losers /\
    (forall a, a ∈ losers <-> of_attempt a es <> [] /\ ~ wins es a) /\
    q_value (ra_failed_attempt_work acc) =
      dsum (exec_work es <$> filter (fun a => attempt_has Failure a es) losers) /\
    q_value (ra_cancelled_work acc) =
      dsum (exec_work es <$> filter (fun a => attempt_has Cancellation a es) losers) /\
    ((forall a, ~ wins es a) ->
      q_value (ra_spec_wasted_work_s acc) = dsum (rejected_work es <$> losers)) /\
    (forall a, wins es a ->
      q_value (ra_spec_wasted_work_s acc) = (dsum (rejected_work es <$> losers) + rejected_work es a)%D).
Proof.
  intros acc. destruct (waste_sums_spec es) as (Hf & Hc & Hs). exists (losers es).
  split_and!; [apply losers_sorted|apply elem_of_losers|exact Hf|exact Hc| |].
  - intros Hno. transitivity (ws_spec (waste_sums (t_attempts (fold_entries es)) (winner es)));
      [reflexivity|]. rewrite Hs. destruct (wn_has (winner es)) eqn:E; [|done].
    exfalso. by apply (Hno (wn_winning (winner es))), wins_winner.
  - intros a [Hhas ->]%wins_winner.
    transitivity (ws_spec (waste_sums (t_attempts (fold_entries es)) (winner es)));
      [reflexivity|]. by rewrite Hs, Hhas.
Qed.

(** C30: the classification of a request and its counters do not depend on the
    order in which its entries were recorded: outcome, tokens of the winning
    attempt, number of attempts, and every integer counter agree for any two
    interleavings of the same entries. *)
Theorem reconcile_order_independent `{LlroundPlatform} es es' r : es ≡ₚ es' ->
  let a := reconcile_request es r in
  let b := reconcile_request es' r in
  ra_completed a = ra_completed b /\ ra_cancelled a = ra_cancelled b /\
  ra_failed a = ra_failed b /\ ra_terminal_outcome a = ra_terminal_outcome b /\
  ra_generated_tokens a = ra_generated_tokens b /\
  ra_attempt_count a = ra_attempt_count b /\
  ra_reservations_acquired a = ra_reservations_acquired b /\
  ra_reservations_released a = ra_reservations_released b /\
  ra_spec_proposed a = ra_spec_proposed b /\ ra_spec_accepted a = ra_spec_accepted b /\
  ra_spec_rejected a = ra_spec_rejected b /\ ra_retries a = ra_retries b /\
  ra_kernel_hits a = ra_kernel_hits b /\ ra_kernel_misses a = ra_kernel_misses b /\
  ra_graph_hits a = ra_graph_hits b /\ ra_graph_misses a = ra_graph_misses b /\
  ra_cache_reads a = ra_cache_reads b /\ ra_cache_writes a = ra_cache_writes b.
Proof.
  intros Hp a b.
  pose proof (reconcile_totals_counters es r) as Ha. pose proof (reconcile_totals_counters es' r) as Hb.
  pose proof (reconcile_outcome_fields es r) as Fa. pose proof (reconcile_outcome_fields es' r) as Fb.
  cbv zeta in *. fold a in Ha, Fa. fold b in Hb, Fb.
  destruct (winner_perm es es' Hp) as [Hw Hwin]. rewrite <- Hw in Fb.
  rewrite <- (any_cancelled_perm es es' Hp) in Fb.
  assert (ra_attempt_count a = ra_attempt_count b) by (apply (attempt_count_perm es es' Hp)).
  rewrite !(number_perm _ es es' Hp), !(tally_perm _ es es' Hp) in Ha.
  rewrite !attempt_tokens in Fa, Fb. destruct (wn_has (winner es)).
  - rewrite <- Hwin, <- (of_attempt_perm _ es es' Hp) in Fb by done. destruct_and? Fa; destruct_and? Fb; destruct_and? Ha; destruct_and? Hb.
    split_and!; congruence.
  - destruct_and? Fa; destruct_and? Fb; destruct_and? Ha; destruct_and? Hb.
    split_and!; congruence.
Qed.

(** the KV and tensor peaks of the account are the highest levels their live
    bytes reached at an allocation (an upper bound that is attained), and the
    allocation peak is at least both. *)
Theorem reconcile_peaks `{LlroundPlatform} es r : Forall metered es ->
  let acc := reconcile_request es r in
  is_peak KvAllocate KvRelease es (q_value (ra_kv_peak acc)) /\
  is_peak TensorAllocate TensorRelease es (q_value (ra_tensor_peak acc)) /\
  (q_value (ra_kv_peak acc) <=? q_value (ra_allocation_peak acc))%D = true /\
  (q_value (ra_tensor_peak acc) <=? q_value (ra_allocation_peak acc))%D = true.
Proof.
  intros Hes acc. pose proof (kv_peak_fold es Hes) as Hk. pose proof (tensor_peak_fold es Hes) as Ht.
  split_and!; [exact Hk|exact Ht| |].
  - apply (dmax_ge_l (t_kv_peak (fold_entries es)) (t_peak (fold_entries es))).
    apply dnonneg_not_nan, Hk.
  - apply (dmax_ge_r (t_kv_peak (fold_entries es)) (t_peak (fold_entries es)));
      apply dnonneg_not_nan; [apply Hk|apply Ht].
Qed.

(** C31: the account of metered entries (in-range words, finite and non-negative
    values) holds no negative and no NaN quantity: time, bytes, byte-seconds,
    energy, useful work and waste alike. *)
Theorem reconcile_nonneg `{LlroundPlatform} es r : Forall metered es ->
  let acc := reconcile_request es r in
  Forall (fun q => dnonneg (q_value q) = true)
    [ra_wall_latency_s acc; ra_queue_time_s acc; ra_execution_s acc; ra_prefill_s acc;
     ra_decode_s acc; ra_gpu_active_s acc; ra_cpu_active_s acc; ra_batch_wait_s acc;
     ra_h2d_bytes acc; ra_d2h_bytes acc; ra_inter_node_bytes acc; ra_transfer_duration_s acc;
     ra_kv_allocated acc; ra_kv_peak acc; ra_kv_reuse acc; ra_tensor_allocated acc;
     ra_tensor_peak acc; ra_tensor_reuse acc; ra_model_byte_seconds acc;
     ra_adapter_byte_seconds acc; ra_tensor_byte_seconds acc; ra_allocation_peak acc;
     ra_failed_attempt_work acc; ra_cancelled_work acc; ra_recomputed_work acc;
     ra_reuse_avoided_work acc; ra_reused_work acc; ra_spec_wasted_work_s acc;
     ra_energy_joules acc].
Proof.
  intros Hes acc.
  destruct (reconcile_totals_sums es r) as (H1&H2&H3&H4&H5&H6&H7&H8&H9&H10&H11&H12&H13&H14&H15).
  pose proof (reconcile_outcome_fields es r) as Hf. destruct (waste_sums_spec es) as (Wf & Wc & Ws).
  pose proof (kv_peak_fold es Hes) as [Hk _]. pose proof (tensor_peak_fold es Hes) as [Ht _].
  destruct (attempt_nonneg (wn_winning (winner es)) es Hes) as (A1 & A2 & A3 & A4 & A5).
  cbv zeta in *. fold acc in H1,H2,H3,H4,H5,H6,H7,H8,H9,H10,H11,H12,H13,H14,H15,Hf.
  assert (forall a, dnonneg (exec_work es a) = true) as Hex
    by (intros a; apply total_nonneg; auto using of_attempt_metered with double).
  assert (forall a, dnonneg (rejected_work es a) = true) as Hrj
    by (intros a; apply total_nonneg; auto using of_attempt_metered with double).
  assert (dnonneg (q_value (ra_execution_s acc)) = true /\ dnonneg (q_value (ra_prefill_s acc)) = true /\
    dnonneg (q_value (ra_decode_s acc)) = true /\ dnonneg (q_value (ra_gpu_active_s acc)) = true /\
    dnonneg (q_value (ra_cpu_active_s acc)) = true) as (B1 & B2 & B3 & B4 & B5).
  { destruct (wn_has (winner es)); destruct Hf as (_&_&_&_&->&->&->&->&->&_); by split_and!. }
  assert (dnonneg (ws_spec (waste_sums (t_attempts (fold_entries es)) (winner es))) = true) as Hsp.
  { rewrite Ws. destruct (wn_has (winner es)); [apply dadd_nonneg; [|done]|]; by apply waste_nonneg. }
  repeat apply Forall_cons_2; [..|apply Forall_nil_2];
    rewrite ?H1, ?H2, ?H3, ?H4, ?H5, ?H6, ?H7, ?H8, ?H9, ?H10, ?H11, ?H12, ?H13, ?H14, ?H15.
  1: exact (wall_latency_nonneg es Hes).
  all: try (solve [assumption | reflexivity | apply total_nonneg; [eauto with double|assumption]]).
  - exact (dmax_nonneg_l _ (t_peak (fold_entries es)) Hk).
  - refine (eq_trans (f_equal dnonneg Wf) _). by apply waste_nonneg.
  - refine (eq_trans (f_equal dnonneg Wc) _). by apply waste_nonneg.
  - exact (f_equal dnonneg (t_reused_zero es)).
Qed.

(** Reuse is never credited as work: the account's reused work is zero, and so
    its reuse credit is the avoided work alone and its reuse rate is zero, whatever
    reuse events the entries hold. *)
Theorem reconcile_reused_zero `{LlroundPlatform} es r :
  let acc := reconcile_request es r in
  q_value (ra_reused_work acc) = d0 /\
  reuse_credit acc = (total val [ReuseAvoided] es + d0)%D /\
  (isfinite (q_value (ra_execution_s acc)) = true -> reuse_rate acc = d0).
Proof.
  intros acc. assert (q_value (ra_reused_work acc) = d0) as Hr by exact (t_reused_zero es).
  split_and!; [done| |].
  - unfold reuse_credit. rewrite Hr. f_equal. unfold acc.
    destruct (reconcile_totals_sums es r) as (_&_&_&_&_&_&_&_&_&_&_&_&_&->&_). done.
  - unfold reuse_rate. rewrite Hr. destruct (q_value (ra_execution_s acc)) as [[]|[]| |[] m e]; done.
Qed.

(** ** Witnesses *)

(** A failed first attempt, a successful second one, and KV traffic. *)
Definition sample_event (n : Z) (k : EventKind) (a : AttemptId) (v start stop : Z) : LedgerEntry :=
  sample_entry <| e_id := MkId 0xE n |> <| e_event_kind := k |> <| e_attempt := a |>
    <| e_quantity := MkQuantity (d_of_Z v) Bytes Measured |>
    <| e_start_ts_ns := start |> <| e_end_ts_ns := stop |>.

Definition sample_request : list LedgerEntry :=
  [sample_event 1 RequestStart (MkId 1 1) 0 1000 1000;
   sample_event 2 GpuExecution (MkId 1 1) 0 1000 3000;
   sample_event 3 Failure (MkId 1 1) 0 3000 3000;
   sample_event 4 KvAllocate (MkId 1 2) 4096 3000 3000;
   sample_event 5 Decode (MkId 1 2) 7 3000 9000;
   sample_event 6 KvRelease (MkId 1 2) 1024 9000 9000;
   sample_event 7 RequestEnd (MkId 1 2) 0 9000 9000].

Lemma sample_request_metered : Forall metered sample_request.
Proof. repeat constructor; solve [by vm_compute | solve_entry_wf]. Qed.

Lemma reconcile_peaks_witness :
  let _ : LlroundPlatform := fun _ => 0 in
  is_peak KvAllocate KvRelease sample_request
    (q_value (ra_kv_peak (reconcile_request sample_request (MkId 5 5)))) /\
  q_value (ra_kv_peak (reconcile_request sample_request (MkId 5 5))) = d_of_Z 4096.
Proof.
  intros P. split; [|by vm_compute].
  exact (proj1 (reconcile_peaks sample_request (MkId 5 5) sample_request_metered)).
Defined.

Lemma reconcile_nonneg_witness :
  let _ : LlroundPlatform := fun _ => 0 in
  dnonneg (q_value (ra_wall_latency_s (reconcile_request sample_request (MkId 5 5)))) = true.
Proof.
  intros P.
  exact (Forall_inv (reconcile_nonneg sample_request (MkId 5 5) sample_request_metered)).
Defined.

Lemma reconcile_order_independent_witness :
  let _ : LlroundPlatform := fun _ => 0 in
  ra_completed (reconcile_request (reverse sample_request) (MkId 5 5)) = true.
Proof.
  intros P.
  refine (eq_trans (proj1 (reconcile_order_independent (reverse sample_request) sample_request
    (MkId 5 5) (reverse_Permutation sample_request))) _).
  by vm_compute.
Defined.
