(* ===== verification/Pricing.v ===== *)
(** * Pricing (pricing.hpp, pricing.cpp)

    Rates, versioned policies, the cost of a physical account under a policy, and
    the store of policies. *)

From Stdlib Require Import SpecFloat Sorting.Sorted.
From stdpp Require Import base sets list strings numbers.
From S2P Require Import Prelude Float64 StdMap Identity Kinds Entry CodecProofs Account AccountProofs.
Open Scope Z_scope.

(** ** Data *)

Record PricingRates := MkPricingRates {
  gpu_per_second : double;
  cpu_per_second : double;
  memory_per_gib_second : double;
  host_memory_per_gib_second : double;
  pinned_memory_per_gib_second : double;
  transfer_per_gib : double;
  storage_per_gib_second : double;
  persistent_cache_cost : double;
  energy_per_kwh : double;
  custom_device_per_second : list (string * double)
}.

#[export] Instance PricingRates_rebuild : Rebuild PricingRates := fun r =>
  MkPricingRates (gpu_per_second r) (cpu_per_second r) (memory_per_gib_second r)
    (host_memory_per_gib_second r) (pinned_memory_per_gib_second r) (transfer_per_gib r)
    (storage_per_gib_second r) (persistent_cache_cost r) (energy_per_kwh r)
    (custom_device_per_second r).

Definition rates_default : PricingRates := MkPricingRates d0 d0 d0 d0 d0 d0 d0 d0 d0 [].

(** [PricingRates::all_finite]. *)
Definition all_finite (r : PricingRates) : bool :=
  let v := [cpu_per_second r; gpu_per_second r; memory_per_gib_second r;
            host_memory_per_gib_second r; pinned_memory_per_gib_second r; transfer_per_gib r;
            storage_per_gib_second r; persistent_cache_cost r; energy_per_kwh r] in
  forallb isfinite v && forallb (fun kv => isfinite kv.2) (custom_device_per_second r).

Record PricingPolicy := MkPricingPolicy {
  pp_id : PricingPolicyId;
  pp_generation : Z;
  pp_currency : string;
  pp_name : string;
  pp_rates : PricingRates
}.

#[export] Instance PricingPolicy_rebuild : Rebuild PricingPolicy := fun p =>
  MkPricingPolicy (pp_id p) (pp_generation p) (pp_currency p) (pp_name p) (pp_rates p).

(** [std::map::operator==] on names and doubles. *)
Fixpoint device_rates_eqb (a b : list (string * double)) : bool :=
  match a, b with
  | [], [] => true
  | (k, x) :: a, (k', x') :: b => String.eqb k k' && SFeqb x x' && device_rates_eqb a b
  | _, _ => false
  end.

(** [PricingPolicy::operator==]. *)
Definition policy_eqb (p o : PricingPolicy) : bool :=
  let r := pp_rates p in
  let q := pp_rates o in
  id_eqb (pp_id p) (pp_id o) && (pp_generation p =? pp_generation o) &&
  String.eqb (pp_currency p) (pp_currency o) &&
  String.eqb (pp_name p) (pp_name o) && Bool.eqb (all_finite r) (all_finite q) &&
  SFeqb (gpu_per_second r) (gpu_per_second q) &&
  SFeqb (cpu_per_second r) (cpu_per_second q) &&
  SFeqb (memory_per_gib_second r) (memory_per_gib_second q) &&
  SFeqb (host_memory_per_gib_second r) (host_memory_per_gib_second q) &&
  SFeqb (pinned_memory_per_gib_second r) (pinned_memory_per_gib_second q) &&
  SFeqb (transfer_per_gib r) (transfer_per_gib q) &&
  SFeqb (storage_per_gib_second r) (storage_per_gib_second q) &&
  SFeqb (persistent_cache_cost r) (persistent_cache_cost q) &&
  SFeqb (energy_per_kwh r) (energy_per_kwh q) &&
  device_rates_eqb (custom_device_per_second r) (custom_device_per_second q).

Record CostResult := MkCostResult {
  cr_policy_id : PricingPolicyId;
  cr_policy_generation : Z;
  cr_currency : string;
  cr_compute_cost : double;
  cr_cpu_compute_cost : double;
  cr_residency_cost : double;
  cr_transfer_cost : double;
  cr_storage_cache_cost : double;
  cr_energy_cost : double;
  cr_useful_work_cost : double;
  cr_wasted_work_cost : double;
  cr_cancelled_cost : double;
  cr_retry_cost : double;
  cr_rejected_spec_cost : double;
  cr_recomputed_cost : double;
  cr_reuse_credit : double;
  cr_energy_kwh : double
}.

(** [CostResult::total]. *)
Definition cost_total (r : CostResult) : double :=
  (cr_compute_cost r + cr_residency_cost r + cr_transfer_cost r +
   cr_storage_cache_cost r + cr_energy_cost r)%D.

(** [CostResult::reconciles]. *)
Definition cost_reconciles (r : CostResult) : bool :=
  let sum := (cr_useful_work_cost r + cr_wasted_work_cost r + cr_cancelled_cost r +
              cr_recomputed_cost r + cr_cpu_compute_cost r + cr_residency_cost r +
              cr_transfer_cost r + cr_storage_cache_cost r + cr_energy_cost r)%D in
  let t := cost_total r in
  (dabs (sum - t) <? d1e_9)%D.

(** [CostResult::useful_fraction]. *)
Definition useful_fraction (r : CostResult) : double :=
  let t := cost_total r in
  if (d0 <? t)%D then (cr_useful_work_cost r / t)%D else d0.

(** ** Applying a policy *)

(** [1024.0 * 1024.0 * 1024.0] and [3.6e6]. *)
Definition kGiB : double := (d_of_Z 1024 * d_of_Z 1024 * d_of_Z 1024)%D.
Definition kJoulesPerKwh : double := d_of_Z 3600000.

Definition apply_pricing (acc : RequestAccount) (policy : PricingPolicy) : CostResult :=
  let rates := pp_rates policy in
  let gpu_rate := gpu_per_second rates in
  let cpu_rate := cpu_per_second rates in
  let useful := (q_value (ra_execution_s acc) * gpu_rate)%D in
  let wasted := ((q_value (ra_failed_attempt_work acc) + q_value (ra_spec_wasted_work_s acc))
                 * gpu_rate)%D in
  let cancelled := (q_value (ra_cancelled_work acc) * gpu_rate)%D in
  let retry := (q_value (ra_failed_attempt_work acc) * gpu_rate)%D in
  let rejected := (q_value (ra_spec_wasted_work_s acc) * gpu_rate)%D in
  let recomputed := (q_value (ra_recomputed_work acc) * gpu_rate)%D in
  let cpu := (q_value (ra_cpu_active_s acc) * cpu_rate)%D in
  let compute := (useful + wasted + cancelled + recomputed + cpu)%D in
  let residency := ((q_value (ra_model_byte_seconds acc) + q_value (ra_adapter_byte_seconds acc))
                    / kGiB * memory_per_gib_second rates)%D in
  let transfer_bytes := (q_value (ra_h2d_bytes acc) + q_value (ra_d2h_bytes acc) +
                         q_value (ra_inter_node_bytes acc))%D in
  let transfer := (transfer_bytes / kGiB * transfer_per_gib rates)%D in
  let storage := (d_of_Z (ra_cache_writes acc) * persistent_cache_cost rates)%D in
  let kwh := (q_value (ra_energy_joules acc) / kJoulesPerKwh)%D in
  let energy := (kwh * energy_per_kwh rates)%D in
  let avoided_s := (q_value (ra_reuse_avoided_work acc) + q_value (ra_reused_work acc))%D in
  {| cr_policy_id := pp_id policy;
     cr_policy_generation := pp_generation policy;
     cr_currency := pp_currency policy;
     cr_compute_cost := compute;
     cr_cpu_compute_cost := cpu;
     cr_residency_cost := residency;
     cr_transfer_cost := transfer;
     cr_storage_cache_cost := storage;
     cr_energy_cost := energy;
     cr_useful_work_cost := useful;
     cr_wasted_work_cost := wasted;
     cr_cancelled_cost := cancelled;
     cr_retry_cost := retry;
     cr_rejected_spec_cost := rejected;
     cr_recomputed_cost := recomputed;
     cr_reuse_credit := (avoided_s * gpu_rate)%D;
     cr_energy_kwh := kwh |}.

(** ** The policy store *)

Definition PricingPolicyStore : Type := list (PricingPolicyId * PricingPolicy).

Definition store_add (p : PricingPolicy) (s : PricingPolicyStore) : PricingPolicyStore :=
  StdMap.assign (pp_id p) p s.

Definition store_find (id : PricingPolicyId) (s : PricingPolicyStore) : option PricingPolicy :=
  StdMap.find id s.

Definition store_all (s : PricingPolicyStore) : list PricingPolicy := s.*2.

(** Every binding is under its policy's own identity, in key order. *)
Definition store_wf (s : PricingPolicyStore) : Prop :=
  StdMap.sorted s /\ Forall (fun kv => kv.1 = pp_id kv.2) s.

(** ** Lemmas *)

Lemma dsub_diag x : dabs (x - x)%D = if isfinite x then d0 else S754_nan.
Proof.
  destruct x as [[]|[]| |s m e]; try reflexivity.
  unfold dsub, SFsub. rewrite Z.min_id.
  set (p := (shl_align m e e).1). by destruct s; rewrite Z.sub_diag.
Qed.

Lemma store_add_wf p s : store_wf s -> store_wf (store_add p s).
Proof.
  intros [Hs Hall]. split; [by apply StdMap.upsert_sorted|].
  apply list.Forall_forall. intros [k v] Hkv. simpl.
  apply StdMap.find_iff in Hkv; [|by apply StdMap.upsert_sorted].
  unfold store_add, StdMap.assign in Hkv.
  destruct (decide (k = pp_id p)) as [->|Hne].
  - rewrite StdMap.find_upsert_eq in Hkv by done. by simplify_eq.
  - rewrite StdMap.find_upsert_ne in Hkv by done. apply StdMap.find_Some_in in Hkv.
    rewrite list.Forall_forall in Hall. apply (Hall _ Hkv).
Qed.

(** ** Properties *)

(** the cost of an account reconciles: the billed total equals the sum of its
    declared components to the last bit, so the check succeeds exactly when the
    total is finite (a total that overflowed or met a NaN is reported). *)
Theorem apply_pricing_reconciles acc policy :
  cost_reconciles (apply_pricing acc policy) =
  isfinite (cost_total (apply_pricing acc policy)).
Proof.
  unfold cost_reconciles, cost_total, apply_pricing.
  cbn [cr_useful_work_cost cr_wasted_work_cost cr_cancelled_cost cr_recomputed_cost
    cr_cpu_compute_cost cr_residency_cost cr_transfer_cost cr_storage_cache_cost cr_energy_cost
    cr_compute_cost].
  rewrite dsub_diag. by destruct (isfinite _).
Qed.

(** C36: what pricing the account of a request bills, and at which rate. At the GPU
    rate: every execution second of the winning attempt, its CPU seconds included;
    recomputation; the execution of losing attempts that failed and of losing attempts
    that were cancelled (of both, for one that was both); and the rejected speculation
    of every attempt. At the CPU rate: the CPU seconds of the winning attempt, once
    more. At their own rates: residency, transfers, cache writes and energy. Without a
    winning attempt no execution is billed as useful. The compute cost is the sum of
    the seconds billed at either rate. *)
Theorem apply_pricing_bills `{LlroundPlatform} es r policy :
  let c := apply_pricing (reconcile_request es r) policy in
  let rates := pp_rates policy in
  let gpu := gpu_per_second rates in
  (forall a, wins es a ->
    cr_useful_work_cost c = (total dur_sec exec_kinds (of_attempt a es) * gpu)%D /\
    cr_cpu_compute_cost c = (total dur_sec [CpuExecution] (of_attempt a es) * cpu_per_second rates)%D) /\
  ((forall a, ~ wins es a) ->
    cr_useful_work_cost c = (d0 * gpu)%D /\ cr_cpu_compute_cost c = (d0 * cpu_per_second rates)%D) /\
  cr_residency_cost c = ((total byte_seconds [ModelResidency] es + total byte_seconds [AdapterResidency] es)
                         / kGiB * memory_per_gib_second rates)%D /\
  cr_transfer_cost c = ((total val [TransferH2D] es + total val [TransferD2H] es +
                         total val [TransferInterNode] es) / kGiB * transfer_per_gib rates)%D /\
  cr_storage_cache_cost c = (d_of_Z (tally [CacheWrite] es) * persistent_cache_cost rates)%D /\
  cr_energy_cost c = (total joules [Energy] es / kJoulesPerKwh * energy_per_kwh rates)%D /\
  cr_recomputed_cost c = (total dur_sec [Recompute] es * gpu)%D /\
  (exists losers rejected, StronglySorted (fun b b' => id_compare b b' = Lt) losers /\
    (forall b, b ∈ losers <-> of_attempt b es <> [] /\ ~ wins es b) /\
    (forall a, wins es a -> rejected = (dsum (rejected_work es <$> losers) + rejected_work es a)%D) /\
    ((forall a, ~ wins es a) -> rejected = dsum (rejected_work es <$> losers)) /\
    let failed := dsum (exec_work es <$> filter (fun b => attempt_has Failure b es) losers) in
    let cancelled := dsum (exec_work es <$> filter (fun b => attempt_has Cancellation b es) losers) in
    cr_wasted_work_cost c = ((failed + rejected) * gpu)%D /\
    cr_retry_cost c = (failed * gpu)%D /\ cr_rejected_spec_cost c = (rejected * gpu)%D /\
    cr_cancelled_cost c = (cancelled * gpu)%D) /\
  cr_compute_cost c = (cr_useful_work_cost c + cr_wasted_work_cost c + cr_cancelled_cost c +
                       cr_recomputed_cost c + cr_cpu_compute_cost c)%D.
Proof.
  intros c rates gpu. unfold c, apply_pricing. fold rates. fold gpu.
  cbn [cr_useful_work_cost cr_cpu_compute_cost cr_residency_cost cr_transfer_cost cr_retry_cost cr_compute_cost
       cr_storage_cache_cost cr_energy_cost cr_recomputed_cost cr_wasted_work_cost cr_cancelled_cost
       cr_rejected_spec_cost].
  pose proof (reconcile_outcome_fields es r) as Hf. cbv zeta in Hf.
  assert ((forall a, ~ wins es a) -> wn_has (winner es) = false) as Hnone.
  { intros Hno. destruct (wn_has (winner es)) eqn:E; [|done]. by destruct (Hno (wn_winning (winner es))); apply wins_winner. }
  destruct (reconcile_totals_sums es r) as (_&_&->&->&->&_&_&_&_&_&->&->&->&_&->).
  destruct (reconcile_totals_counters es r) as (_&_&_&_&_&_&_&_&_&_&_&->).
  destruct (waste_sums_spec es) as (Hwf & Hwc & Hws).
  split; [|split; [|split_and!; try done]].
  - intros a [Hhas ->]%wins_winner. rewrite Hhas in Hf. destruct Hf as (_&_&_&_&->&_&_&_&->&_).
    by rewrite attempt_exec, (attempt_total aa_cpu_s dur_sec [CpuExecution]) by (done || attempt_step).
  - intros Hno%Hnone. rewrite Hno in Hf. by destruct Hf as (_&_&_&_&->&_&_&_&->&_).
  - exists (losers es), (ws_spec (waste_sums (t_attempts (fold_entries es)) (winner es))).
    split; [apply losers_sorted|]. split; [apply elem_of_losers|]. split; [|split].
    + intros a [Hhas ->]%wins_winner. by rewrite Hws, Hhas.
    + intros Hno%Hnone. by rewrite Hws, Hno.
    + cbv zeta. by rewrite <- Hwf, <- Hwc.
Qed.

(** CPU time is billed at both rates: execution time counts GPU and CPU
    seconds, so when a request ran on the CPU alone its useful work is billed at
    the GPU rate and the same seconds again at the CPU rate. *)
Theorem cpu_time_billed_twice `{LlroundPlatform} es r policy a : wins es a ->
  (forall e, e ∈ of_attempt a es -> e_event_kind e ∈ exec_kinds -> e_event_kind e = CpuExecution) ->
  let acc := reconcile_request es r in
  let c := apply_pricing acc policy in
  cr_useful_work_cost c = (q_value (ra_cpu_active_s acc) * gpu_per_second (pp_rates policy))%D /\
  cr_cpu_compute_cost c = (q_value (ra_cpu_active_s acc) * cpu_per_second (pp_rates policy))%D.
Proof.
  intros [Hhas ->]%wins_winner Hcpu acc c. split; [|done].
  unfold c, apply_pricing. cbn [cr_useful_work_cost]. f_equal.
  pose proof (reconcile_outcome_fields es r) as Hf. cbv zeta in Hf. rewrite Hhas in Hf.
  destruct Hf as (_&_&_&_&Hex&_&_&_&Hcp&_). unfold acc. rewrite Hex, Hcp.
  rewrite attempt_exec, (attempt_total aa_cpu_s dur_sec [CpuExecution]) by (done || attempt_step).
  unfold total, of_kinds. do 2 f_equal.
  induction (of_attempt (wn_winning (winner es)) es) as [|e l IH]; [done|].
  rewrite !filter_cons. rewrite IH by (intros e' He'; apply Hcpu; by right).
  specialize (Hcpu e ltac:(by left)).
  destruct (e_event_kind e); try reflexivity; specialize (Hcpu ltac:(compute_done)); discriminate.
Qed.

(** The store answers a lookup with the policy last added under that identity
    and leaves every other identity alone; it stays in identity order, each policy
    under its own identity. Adding a new generation under an identity replaces the
    one before it. *)
Theorem store_find_add p s id : store_wf s ->
  store_wf (store_add p s) /\
  store_find id (store_add p s) = (if decide (id = pp_id p) then Some p else store_find id s).
Proof.
  intros Hwf. split; [by apply store_add_wf|]. destruct Hwf as [Hs _].
  unfold store_find, store_add, StdMap.assign. case_decide as Hd.
  - subst. by rewrite StdMap.find_upsert_eq.
  - by rewrite StdMap.find_upsert_ne.
Qed.

(** ** Witnesses *)

Definition sample_policy : PricingPolicy :=
  MkPricingPolicy (MkId 0xD 1) 1 "USD" "on-demand"
    (rates_default <| gpu_per_second := d_of_Z 2 |> <| cpu_per_second := d_of_Z 1 |>
                   <| transfer_per_gib := d_of_Z 3 |>).

Lemma sample_request_wins : wins sample_request (MkId 1 2).
Proof.
  pose (P := (fun _ => 0) : LlroundPlatform). apply (wins_winner (H := P)). split; by vm_compute.
Qed.

(** One second on the CPU: billed 1 at the CPU rate and 2 at the GPU rate. *)
Definition cpu_request : list LedgerEntry :=
  [sample_event 1 CpuExecution (MkId 1 1) 0 0 1000000000;
   sample_event 2 RequestEnd (MkId 1 1) 0 1000000000 1000000000].

Lemma cpu_time_billed_twice_witness :
  let _ : LlroundPlatform := fun _ => 0 in
  let acc := reconcile_request cpu_request (MkId 5 5) in
  cr_useful_work_cost (apply_pricing acc sample_policy) = (q_value (ra_cpu_active_s acc) * d_of_Z 2)%D /\
  q_value (ra_cpu_active_s acc) = d1 /\ cr_compute_cost (apply_pricing acc sample_policy) = d_of_Z 3.
Proof.
  intros P acc. split; [|split; by vm_compute].
  refine (proj1 (cpu_time_billed_twice cpu_request (MkId 5 5) sample_policy (MkId 1 1) _ _)).
  - apply (wins_winner (H := P)). split; by vm_compute.
  - refine (proj1 (list.Forall_forall
      (fun e => e_event_kind e ∈ exec_kinds -> e_event_kind e = CpuExecution) _) _).
    change (of_attempt (MkId 1 1) cpu_request) with cpu_request. unfold cpu_request.
    repeat apply list.Forall_cons_2; [done| |apply list.Forall_nil_2].
    unfold exec_kinds; simpl. set_solver.
Defined.

Lemma store_find_add_witness :
  store_find (MkId 0xD 1) (store_add sample_policy []) = Some sample_policy.
Proof.
  refine (eq_trans (proj2 (store_find_add sample_policy [] (MkId 0xD 1) _)) _).
  - split; [apply StdMap.sorted_nil|constructor].
  - by vm_compute.
Defined.
