(* ===== verification/Batch.v ===== *)
(** * Shared-cost attribution and batch accounts (batch.hpp, batch.cpp) *)

From Stdlib Require Import SpecFloat Sorting.Sorted.
From stdpp Require Import base sets list strings numbers.
From S2P Require Import Prelude Float64 StdMap Identity Kinds Entry CodecProofs Account AccountProofs.
Open Scope Z_scope.

(** ** Shared allocation *)

Inductive AttributionPolicy :=
| EqualShare | ProportionalBytes | ProportionalTokens | ProportionalExecution
| ProportionalReserved | DirectOwnership | Weighted.

#[export] Instance AttributionPolicy_eq_dec : EqDecision AttributionPolicy.
Proof. solve_decision. Defined.

Definition attribution_policy_name (p : AttributionPolicy) : string :=
  match p with
  | EqualShare => "equal_share"
  | ProportionalBytes => "proportional_bytes"
  | ProportionalTokens => "proportional_tokens"
  | ProportionalExecution => "proportional_execution"
  | ProportionalReserved => "proportional_reserved"
  | DirectOwnership => "direct_ownership"
  | Weighted => "weighted"
  end.

Record MemberShare := MkMemberShare { ms_request : RequestId; ms_share : double; ms_weight : double }.

Record SharedAllocation := MkSharedAllocation {
  sa_policy : AttributionPolicy;
  sa_members : list MemberShare;
  sa_unallocated_overhead : double;
  sa_total : double
}.

Definition member_sum (a : SharedAllocation) : double :=
  fold_left (fun s m => (s + ms_share m)%D) (sa_members a) d0.

(** [SharedAllocation::reconciles]. *)
Definition allocation_reconciles (a : SharedAllocation) : bool :=
  let diff := ((member_sum a + sa_unallocated_overhead a) - sa_total a)%D in
  let scale := if (d0 <? sa_total a)%D then sa_total a else d1 in
  (diff <? d1e_9 * scale)%D && (SFopp d1e_9 * scale <? diff)%D.

Definition uniform_weights (n : nat) : list double := replicate n d1.

(** One iteration of the allocation loop, on [members[i]] and [w[i]]. *)
Definition share_step (total wsum : double) (st : list MemberShare * double)
    (mw : RequestId * double) : list MemberShare * double :=
  let share := (total * (mw.2 / wsum))%D in
  (st.1 ++ [MkMemberShare mw.1 share mw.2], (st.2 + share)%D).

(** [allocate_shared]. *)
Definition allocate_shared (total : double) (members : list RequestId) (weights : list double)
    (policy : AttributionPolicy) (direct_owner : RequestId) : SharedAllocation :=
  let n := length members in
  match members with
  | [] => MkSharedAllocation policy [] d0 total
  | front :: _ =>
    if bool_decide (policy = DirectOwnership) then
      let owner := if is_zero direct_owner then front else direct_owner in
      MkSharedAllocation policy
        ((fun m => MkMemberShare m (if id_eqb m owner then total else d0)
                     (if id_eqb m owner then d1 else d0)) <$> members)
        d0 total
    else
      let w := if bool_decide (length weights = n) then weights else uniform_weights n in
      let w := if bool_decide (policy = EqualShare) then uniform_weights n else w in
      let wsum := fold_left dadd w d0 in
      let '(w, wsum) := if (wsum <=? d0)%D then (uniform_weights n, d_of_Z (Z.of_nat n))
                        else (w, wsum) in
      let '(shares, assigned) := fold_left (share_step total wsum) (zip members w) ([], d0) in
      let overhead := (total - assigned)%D in
      let overhead := if (overhead <? d0)%D && (SFopp d1e_12 <? overhead)%D then d0 else overhead in
      MkSharedAllocation policy shares overhead total
  end.

(** [member_weights_for_policy]. *)
Definition member_weight (policy : AttributionPolicy) (m : RequestAccount) : double :=
  match policy with
  | ProportionalBytes => (q_value (ra_kv_allocated m) + q_value (ra_tensor_allocated m))%D
  | ProportionalTokens => d_of_Z (ra_generated_tokens m)
  | ProportionalExecution => q_value (ra_execution_s m)
  | ProportionalReserved => d_of_Z (ra_reservations_acquired m)
  | EqualShare | DirectOwnership | Weighted => d1
  end.

Definition member_weights_for_policy (members : list RequestAccount) (policy : AttributionPolicy)
    : list double :=
  member_weight policy <$> members.

(** ** Batch accounts *)

Record BatchAccount := MkBatchAccount {
  ba_batch : BatchId;
  ba_members : list RequestId;
  ba_phase : string;
  ba_total_execution_s : double;
  ba_total_generated_tokens : double;
  ba_total_gpu_s : double;
  ba_cancelled_members : Z;
  ba_partial_completion : bool;
  ba_member_accounts : list RequestAccount
}.

#[export] Instance BatchAccount_rebuild : Rebuild BatchAccount := fun b =>
  MkBatchAccount (ba_batch b) (ba_members b) (ba_phase b) (ba_total_execution_s b)
    (ba_total_generated_tokens b) (ba_total_gpu_s b) (ba_cancelled_members b)
    (ba_partial_completion b) (ba_member_accounts b).

Definition batch_default : BatchAccount :=
  MkBatchAccount id_zero [] EmptyString d0 d0 d0 0 false [].

(** An entry without batch metadata is kept; one of another batch is skipped. *)
Definition in_batch (batch : BatchId) (e : LedgerEntry) : bool :=
  match StdMap.find "batch" (e_metadata e) with
  | Some b => String.eqb b (to_string batch)
  | None => true
  end.

(** One entry of the grouping loop: [by_request[e.request].push_back(e)]. *)
Definition batch_group (batch : BatchId) (m : list (RequestId * list LedgerEntry)) (e : LedgerEntry)
    : list (RequestId * list LedgerEntry) :=
  if in_batch batch e then StdMap.modify [] (e_request e) (fun l => l ++ [e]) m else m.

(** The body of the second loop, for a member and its account. *)
Definition add_member (ba : BatchAccount) (r : RequestId) (acc : RequestAccount) : BatchAccount :=
  let ba :=
    ba <| ba_members ::= fun l => l ++ [r] |>
       <| ba_member_accounts ::= fun l => l ++ [acc] |>
       <| ba_total_execution_s ::= add_d (q_value (ra_execution_s acc)) |>
       <| ba_total_generated_tokens ::= add_d (d_of_Z (ra_generated_tokens acc)) |>
       <| ba_total_gpu_s ::= add_d (q_value (ra_gpu_active_s acc)) |> in
  let ba := if ra_cancelled acc then ba <| ba_cancelled_members ::= add_u64 1 |> else ba in
  if negb (ra_completed acc) then ba <| ba_partial_completion := true |> else ba.

Definition member_account `{LlroundPlatform} (kvp : RequestId * list LedgerEntry) : RequestAccount :=
  reconcile_request kvp.2 kvp.1.

(** [reconcile_batch]. *)
Definition reconcile_batch `{LlroundPlatform} (entries : list LedgerEntry) (batch : BatchId)
    : BatchAccount :=
  let by_request := fold_left (batch_group batch) entries [] in
  let ba := fold_left (fun ba kvp => add_member ba kvp.1 (member_account kvp)) by_request
              (batch_default <| ba_batch := batch |>) in
  if bool_decide (ba_members ba = []) && negb (bool_decide (entries = []))
  then ba <| ba_partial_completion := true |> else ba.

(** ** Lemmas: allocation *)

Lemma share_loop total wsum l shares assigned :
  fold_left (share_step total wsum) l (shares, assigned) =
  (shares ++ ((fun mw => MkMemberShare mw.1 (total * (mw.2 / wsum))%D mw.2) <$> l),
   fold_left (fun s mw => (s + total * (mw.2 / wsum))%D) l assigned).
Proof.
  revert shares assigned. induction l as [|mw l IH]; intros; simpl; [by rewrite app_nil_r|].
  unfold share_step at 2. simpl. rewrite IH. by rewrite <- (assoc_L (++)).
Qed.

Lemma member_sum_shares total wsum l s :
  fold_left (fun s m => (s + ms_share m)%D)
    ((fun mw : RequestId * double => MkMemberShare mw.1 (total * (mw.2 / wsum))%D mw.2) <$> l) s =
  fold_left (fun s mw => (s + total * (mw.2 / wsum))%D) l s.
Proof. revert s. induction l as [|mw l IH]; intros; simpl; [done|apply IH]. Qed.

(** The weights the proportional branch uses. *)
Definition effective_weights (members : list RequestId) (weights : list double)
    (policy : AttributionPolicy) : list double :=
  let n := length members in
  let w := if bool_decide (length weights = n /\ policy <> EqualShare) then weights
           else uniform_weights n in
  if (dsum w <=? d0)%D then uniform_weights n else w.

Definition effective_wsum (members : list RequestId) (weights : list double)
    (policy : AttributionPolicy) : double :=
  let n := length members in
  let w := if bool_decide (length weights = n /\ policy <> EqualShare) then weights
           else uniform_weights n in
  if (dsum w <=? d0)%D then d_of_Z (Z.of_nat n) else dsum w.

Lemma effective_weights_length members weights policy :
  length (effective_weights members weights policy) = length members.
Proof.
  unfold effective_weights, uniform_weights. destruct (_ <=? _)%D; [by rewrite length_replicate|].
  case_bool_decide as H; [apply H|by rewrite length_replicate].
Qed.

(** The proportional branch in closed form. *)
Lemma allocate_proportional total members weights policy owner :
  members <> [] -> policy <> DirectOwnership ->
  let w := effective_weights members weights policy in
  let wsum := effective_wsum members weights policy in
  let a := allocate_shared total members weights policy owner in
  sa_members a = zip_with (fun m wi => MkMemberShare m (total * (wi / wsum))%D wi) members w /\
  sa_unallocated_overhead a =
    (let residual := (total - member_sum a)%D in
     if (residual <? d0)%D && (SFopp d1e_12 <? residual)%D then d0 else residual) /\
  sa_total a = total /\ sa_policy a = policy.
Proof.
  intros Hm Hp w wsum a. unfold a, allocate_shared.
  destruct members as [|front members]; [done|]. set (ms := front :: members) in *.
  rewrite bool_decide_eq_false_2 by done.
  set (w0 := if bool_decide (policy = EqualShare) then _ else _).
  assert (w0 = if bool_decide (length weights = length ms /\ policy <> EqualShare) then weights
               else uniform_weights (length ms)) as Hw0.
  { subst w0. repeat case_bool_decide; naive_solver. }
  change (fold_left dadd w0 d0) with (dsum w0).
  assert ((if (dsum w0 <=? d0)%D then (uniform_weights (length ms), d_of_Z (Z.of_nat (length ms)))
           else (w0, dsum w0)) = (w, wsum)) as ->.
  { unfold w, wsum, effective_weights, effective_wsum. rewrite <- Hw0. by destruct (_ <=? _)%D. }
  rewrite share_loop. cbn [sa_members sa_unallocated_overhead sa_total sa_policy app].
  split_and!; [|unfold member_sum; cbn [sa_members]; by rewrite member_sum_shares|done|done].
  etransitivity; [|symmetry; apply zip_with_zip]. apply list_fmap_ext. by intros i [m wi].
Qed.

(** The member sum when one member owns everything. *)
Lemma member_sum_owner (total : double) owner l s :
  fold_left (fun s m => (s + ms_share m)%D)
    ((fun m => MkMemberShare m (if id_eqb m owner then total else d0)
                 (if id_eqb m owner then d1 else d0)) <$> l) s =
  dsum_from s ((fun m => if id_eqb m owner then total else d0) <$> l).
Proof. revert s. induction l as [|m l IH]; intros; simpl; [done|apply IH]. Qed.

Lemma dsum_from_zeros s (total : double) owner l :
  owner ∉ l -> s <> S754_zero true ->
  dsum_from s ((fun m : RequestId => if id_eqb m owner then total else d0) <$> l) = s.
Proof.
  revert s. induction l as [|m l IH]; intros s Hl Hs; [done|]. unfold dsum_from. simpl.
  rewrite (proj2 (id_eqb_neq m owner)) by set_solver. rewrite dadd_d0_r by done.
  apply IH; [set_solver|done].
Qed.

Lemma dsum_from_owner (total : double) owner l :
  owner ∈ l -> NoDup l -> total <> S754_zero true ->
  dsum ((fun m : RequestId => if id_eqb m owner then total else d0) <$> l) = total.
Proof.
  intros Hin Hnd Ht. unfold dsum. induction l as [|m l IH]; [set_solver|].
  apply list.NoDup_cons in Hnd as [Hm Hnd]. rewrite fmap_cons. unfold dsum_from. cbn [fold_left].
  destruct (id_eqb m owner) eqn:E.
  - apply id_eqb_eq in E as ->. rewrite dadd_d0_l by done. by apply dsum_from_zeros.
  - apply id_eqb_neq in E. apply IH; [set_solver|done].
Qed.

(** ** Lemmas: batches *)

Lemma batch_grouping batch es :
  fold_left (batch_group batch) es [] =
  StdMap.group_by e_request (fun e l => l ++ [e]) [] (filter (fun e => in_batch batch e = true) es) [].
Proof.
  apply (fold_left_proj (batch_group batch) id (fun e => in_batch batch e = true)
    (fun m e => StdMap.modify [] (e_request e) (fun l => l ++ [e]) m)).
  intros m e. unfold batch_group, id. destruct (in_batch batch e); done.
Qed.

Lemma fold_push {A} (l acc : list A) : fold_left (fun v e => v ++ [e]) l acc = acc ++ l.
Proof.
  revert acc. induction l as [|x l IH]; intros; simpl; [by rewrite app_nil_r|].
  by rewrite IH, <- (assoc_L (++)).
Qed.

(** Grouping by request lists, in key order, each request with its own entries. *)
Lemma group_requests es :
  let m := StdMap.group_by e_request (fun e l => l ++ [e]) [] es [] in
  StdMap.sorted m /\
  (forall r, r ∈ StdMap.keys m <-> r ∈ e_request <$> es) /\
  m = (fun r => (r, filter (fun e => e_request e = r) es)) <$> StdMap.keys m.
Proof.
  intros m. assert (StdMap.sorted m) as Hs by apply StdMap.group_by_sorted, StdMap.sorted_nil.
  split_and!; [done| |].
  - intros r. unfold m. rewrite StdMap.keys_group_by. simpl. rewrite elem_of_nil. tauto.
  - unfold StdMap.keys. rewrite <- list_fmap_compose. rewrite <- (list_fmap_id m) at 1.
    apply list_fmap_ext. intros i [r l] Hl. simpl. f_equal.
    apply list_elem_of_lookup_2, StdMap.in_find in Hl; [|done].
    unfold m in Hl. rewrite StdMap.find_group_by in Hl by auto.
    destruct (filter (fun e => e_request e = r) es) eqn:E; [done|]. simplify_eq.
    rewrite fold_push. done.
Qed.

Lemma add_member_fields ba r acc :
  let ba' := add_member ba r acc in
  ba_batch ba' = ba_batch ba /\
  ba_members ba' = ba_members ba ++ [r] /\
  ba_member_accounts ba' = ba_member_accounts ba ++ [acc] /\
  ba_total_execution_s ba' = (ba_total_execution_s ba + q_value (ra_execution_s acc))%D /\
  ba_total_generated_tokens ba' = (ba_total_generated_tokens ba + d_of_Z (ra_generated_tokens acc))%D /\
  ba_total_gpu_s ba' = (ba_total_gpu_s ba + q_value (ra_gpu_active_s acc))%D /\
  ba_partial_completion ba' = ba_partial_completion ba || negb (ra_completed acc) /\
  ba_cancelled_members ba' =
    if decide (ra_cancelled acc = true) then wrap 64 (ba_cancelled_members ba + 1)
    else ba_cancelled_members ba.
Proof.
  unfold add_member. cbv zeta.
  destruct (ra_cancelled acc), (ra_completed acc), (ba_partial_completion ba) eqn:E;
    split_and!; solve [reflexivity | exact E].
Qed.

(** The second loop, over members paired with their accounts. *)
Definition add_members (l : list (RequestId * RequestAccount)) (ba : BatchAccount) : BatchAccount :=
  fold_left (fun ba x => add_member ba x.1 x.2) l ba.

Lemma fold_left_fmap {A B S} (g : S -> B -> S) (h : A -> B) l s :
  fold_left (fun s a => g s (h a)) l s = fold_left g (h <$> l) s.
Proof. revert s. induction l as [|a l IH]; intros s; simpl; [done|apply IH]. Qed.

Lemma batch_member_add `{LlroundPlatform} l ba :
  fold_left (fun ba kvp => add_member ba kvp.1 (member_account kvp)) l ba =
  add_members ((fun kvp => (kvp.1, member_account kvp)) <$> l) ba.
Proof.
  exact (fold_left_fmap (fun ba x => add_member ba x.1 x.2)
           (fun kvp => (kvp.1, member_account kvp)) l ba).
Qed.

Lemma add_members_fields l ba :
  let ba' := add_members l ba in
  ba_batch ba' = ba_batch ba /\
  ba_members ba' = ba_members ba ++ l.*1 /\
  ba_member_accounts ba' = ba_member_accounts ba ++ l.*2 /\
  ba_total_execution_s ba' =
    dsum_from (ba_total_execution_s ba) ((fun a => q_value (ra_execution_s a)) <$> l.*2) /\
  ba_total_generated_tokens ba' =
    dsum_from (ba_total_generated_tokens ba) ((fun a => d_of_Z (ra_generated_tokens a)) <$> l.*2) /\
  ba_total_gpu_s ba' =
    dsum_from (ba_total_gpu_s ba) ((fun a => q_value (ra_gpu_active_s a)) <$> l.*2) /\
  (ba_partial_completion ba' = ba_partial_completion ba || existsb (fun a => negb (ra_completed a)) l.*2).
Proof.
  revert ba. induction l as [|[r acc] l IH]; intros ba.
  { simpl. rewrite !app_nil_r, orb_false_r. done. }
  specialize (IH (add_member ba r acc)). cbv zeta in *.
  change (add_members ((r, acc) :: l) ba) with (add_members l (add_member ba r acc)).
  destruct IH as (->&->&->&->&->&->&->).
  destruct (add_member_fields ba r acc) as (->&->&->&->&->&->&->&_).
  rewrite <- !(assoc_L (++)), <- orb_assoc. done.
Qed.

Lemma add_members_cancelled l ba : in_width 64 (ba_cancelled_members ba) ->
  ba_cancelled_members (add_members l ba) =
  wrap 64 (ba_cancelled_members ba +
    zsum ((fun _ => 1) <$> filter (fun a => ra_cancelled a = true) l.*2)).
Proof.
  intros Hw. unfold add_members.
  rewrite (fold_left_proj (fun ba x => add_member ba x.1 x.2) ba_cancelled_members
    (fun x => ra_cancelled x.2 = true) (fun x _ => wrap 64 (x + 1))).
  - rewrite fold_left_wrap by done. do 3 f_equal. clear.
    induction l as [|[r acc] l IH]; [done|]. rewrite fmap_cons, !filter_cons. cbn [snd].
    destruct (decide (ra_cancelled acc = true)); [|exact IH]. rewrite !fmap_cons. by f_equal.
  - clear. intros ba [r acc]. apply (add_member_fields ba r acc).
Qed.

(** The batch account in closed form. *)
Lemma reconcile_batch_fields `{LlroundPlatform} es batch :
  let m := fold_left (batch_group batch) es [] in
  let accs := member_account <$> m in
  let ba := reconcile_batch es batch in
  ba_batch ba = batch /\ ba_members ba = m.*1 /\ ba_member_accounts ba = accs /\
  ba_total_execution_s ba = dsum ((fun a => q_value (ra_execution_s a)) <$> accs) /\
  ba_total_generated_tokens ba = dsum ((fun a => d_of_Z (ra_generated_tokens a)) <$> accs) /\
  ba_total_gpu_s ba = dsum ((fun a => q_value (ra_gpu_active_s a)) <$> accs) /\
  ba_cancelled_members ba = wrap 64 (zsum ((fun _ => 1) <$> filter (fun a => ra_cancelled a = true) accs)) /\
  ba_partial_completion ba =
    existsb (fun a => negb (ra_completed a)) accs ||
    (bool_decide (m.*1 = []) && negb (bool_decide (es = []))).
Proof.
  unfold reconcile_batch. cbv zeta. generalize (fold_left (batch_group batch) es []) as m. intros m.
  rewrite batch_member_add.
  pose proof (add_members_fields ((fun kvp => (kvp.1, member_account kvp)) <$> m)
    (batch_default <| ba_batch := batch |>)) as Hf. cbv zeta in Hf.
  pose proof (add_members_cancelled ((fun kvp => (kvp.1, member_account kvp)) <$> m)
    (batch_default <| ba_batch := batch |>) ltac:(done)) as Hc.
  pose proof (conj Hc Hf) as Hf'. clear Hc Hf. rename Hf' into Hf.
  rewrite <- !list_fmap_compose in Hf.
  change (fst ∘ (fun kvp : RequestId * list LedgerEntry => (kvp.1, member_account kvp)))
    with (@fst RequestId (list LedgerEntry)) in Hf.
  change (snd ∘ (fun kvp : RequestId * list LedgerEntry => (kvp.1, member_account kvp)))
    with member_account in Hf.
  rewrite !list_fmap_compose in Hf.
  generalize dependent (member_account <$> m). intros accs.
  generalize (add_members ((fun kvp => (kvp.1, member_account kvp)) <$> m)
    (batch_default <| ba_batch := batch |>)) as ba.
  intros ba (Hc & Hb & Hm & Ha & He & Ht & Hg & Hp). cbn in Hb, Hm, Ha.
  rewrite Hm. destruct (bool_decide (m.*1 = []) && negb (bool_decide (es = []))) eqn:E.
  - rewrite orb_true_r. split_and!; assumption || reflexivity.
  - rewrite orb_false_r. split_and!; assumption.
Qed.

(** ** Properties *)

(** a proportional allocation gives every member, in order, the share
    [total * (w / wsum)] of its weight, with uniform weights when none of the given
    ones apply, and reports what the shares leave of the total as overhead: the
    exactly rounded difference [total - member_sum], dropped only when it is a
    negative residue smaller than 1e-12. *)
Theorem allocate_shared_proportional total members weights policy owner :
  members <> [] -> policy <> DirectOwnership ->
  let w := effective_weights members weights policy in
  let wsum := effective_wsum members weights policy in
  let a := allocate_shared total members weights policy owner in
  ms_request <$> sa_members a = members /\
  sa_members a = zip_with (fun m wi => MkMemberShare m (total * (wi / wsum))%D wi) members w /\
  sa_unallocated_overhead a =
    (let residual := (total - member_sum a)%D in
     if (residual <? d0)%D && (SFopp d1e_12 <? residual)%D then d0 else residual).
Proof.
  intros Hm Hp w wsum a.
  destruct (allocate_proportional total members weights policy owner Hm Hp) as (Hs & Ho & _).
  fold w wsum a in Hs, Ho. split_and!; [|exact Hs|exact Ho].
  rewrite Hs. clear Hs Ho. pose proof (effective_weights_length members weights policy) as Hlen.
  fold w in Hlen. clearbody w wsum. clear a Hm.
  revert w Hlen. induction members as [|m ms IH]; intros [|wi w] Hlen; try done.
  simpl. f_equal. apply IH. by injection Hlen.
Qed.

(** direct ownership conserves the total exactly: when the owner (the first
    member by default) is one of the distinct members, it is charged the whole
    total, the others nothing, and the shares and the overhead sum to the total. *)
Theorem allocate_shared_direct total members weights owner :
  NoDup members -> (if is_zero owner then members <> [] else owner ∈ members) ->
  total <> S754_zero true ->
  let a := allocate_shared total members weights DirectOwnership owner in
  (member_sum a + sa_unallocated_overhead a)%D = total /\ sa_unallocated_overhead a = d0.
Proof.
  intros Hnd Hown Ht a. unfold a, allocate_shared, member_sum.
  destruct members as [|front ms]; [destruct (is_zero owner); [done|set_solver]|].
  rewrite bool_decide_eq_true_2 by done. cbn [sa_members sa_unallocated_overhead].
  split; [|done]. rewrite member_sum_owner. change (dsum_from d0) with dsum.
  rewrite dsum_from_owner; [by apply dadd_d0_r| |done|done].
  destruct (is_zero owner); [by left|done].
Qed.

(** The contract that shares plus overhead equal the total is broken in two
    cases: with no member, or when the direct owner is not a member, nothing is
    charged and nothing is reported as overhead, so the sum is zero whatever the
    total. *)
Theorem allocate_shared_loses_total total members weights policy owner :
  members = [] \/
  (policy = DirectOwnership /\ is_zero owner = false /\ owner ∉ members) ->
  let a := allocate_shared total members weights policy owner in
  (member_sum a + sa_unallocated_overhead a)%D = d0 /\ sa_total a = total.
Proof.
  intros [->|(-> & Hz & Hown)] a; [done|]. unfold a, allocate_shared, member_sum.
  destruct members as [|front ms]; [done|].
  rewrite bool_decide_eq_true_2, Hz by done. cbn [sa_members sa_unallocated_overhead sa_total].
  split; [|done]. rewrite member_sum_owner. by rewrite dsum_from_zeros.
Qed.

(** The entries [reconcile_batch] keeps. *)
Lemma in_batch_filter batch (es : list LedgerEntry) :
  filter (fun e => in_batch batch e = true) es =
  filter (fun e => StdMap.find "batch" (e_metadata e) ∈ [None; Some (to_string batch)]) es.
Proof.
  apply list_filter_iff. intros e. unfold in_batch.
  rewrite elem_of_cons, list_elem_of_singleton. destruct (StdMap.find _ _) as [b|]; [|naive_solver].
  rewrite String.eqb_eq. naive_solver.
Qed.

(** C35: a batch account covers the requests with an entry that names the batch, and
    also every request with an entry that names no batch at all, once each and in
    identity order; each member is reconciled from its entries of these two sorts, the
    totals are the sums over the members, cancelled members are counted, and completion
    is partial when a member did not complete or no entry is of either sort. *)
Theorem reconcile_batch_spec `{LlroundPlatform} es batch :
  let ba := reconcile_batch es batch in
  let mine := filter (fun e => StdMap.find "batch" (e_metadata e) ∈ [None; Some (to_string batch)]) es in
  let accs := (fun r => reconcile_request (filter (fun e => e_request e = r) mine) r)
                <$> ba_members ba in
  StronglySorted (fun a b => id_compare a b = Lt) (ba_members ba) /\
  (forall r, r ∈ ba_members ba <-> r ∈ e_request <$> mine) /\
  ba_member_accounts ba = accs /\
  ba_total_execution_s ba = dsum ((fun a => q_value (ra_execution_s a)) <$> accs) /\
  ba_total_generated_tokens ba = dsum ((fun a => d_of_Z (ra_generated_tokens a)) <$> accs) /\
  ba_total_gpu_s ba = dsum ((fun a => q_value (ra_gpu_active_s a)) <$> accs) /\
  ba_cancelled_members ba = wrap 64 (zsum ((fun _ => 1) <$> filter (fun a => ra_cancelled a = true) accs)) /\
  ba_partial_completion ba =
    existsb (fun a => negb (ra_completed a)) accs ||
    (bool_decide (ba_members ba = []) && negb (bool_decide (es = []))).
Proof.
  intros ba mine. destruct (reconcile_batch_fields es batch) as (_ & Hm & Ha & He & Ht & Hg & Hc & Hp).
  assert (filter (fun e => in_batch batch e = true) es = mine) as Hmine by apply in_batch_filter.
  fold ba in Hm, Ha, He, Ht, Hg, Hc, Hp. rewrite batch_grouping, Hmine in *.
  fold mine in Hm, Ha, He, Ht, Hg, Hc, Hp.
  destruct (group_requests mine) as (Hs & Hk & Hmap). cbv zeta in Hmap.
  assert (member_account <$> StdMap.group_by e_request (fun e l => l ++ [e]) [] mine [] =
    (fun r => reconcile_request (filter (fun e => e_request e = r) mine) r) <$> ba_members ba) as Hacc.
  { rewrite Hm. rewrite Hmap at 1. rewrite <- list_fmap_compose. reflexivity. }
  cbv zeta. rewrite <- Hacc, Hm. split_and!; assumption.
Qed.

(** ** Witnesses *)

Lemma allocate_shared_proportional_witness :
  let a := allocate_shared (d_of_Z 100) [MkId 1 1; MkId 1 2; MkId 1 3] [] EqualShare id_zero in
  ms_request <$> sa_members a = [MkId 1 1; MkId 1 2; MkId 1 3] /\
  allocation_reconciles a = true.
Proof.
  intros a. split; [|by vm_compute].
  exact (proj1 (allocate_shared_proportional (d_of_Z 100) [MkId 1 1; MkId 1 2; MkId 1 3] []
                  EqualShare id_zero ltac:(done) ltac:(done))).
Defined.

Lemma allocate_shared_direct_witness :
  let a := allocate_shared (d_of_Z 100) [MkId 1 1; MkId 1 2] [] DirectOwnership (MkId 1 2) in
  (member_sum a + sa_unallocated_overhead a)%D = d_of_Z 100.
Proof.
  refine (proj1 (allocate_shared_direct (d_of_Z 100) [MkId 1 1; MkId 1 2] [] (MkId 1 2) _ _ _)).
  - refine (bool_decide_unpack _ _). by vm_compute.
  - simpl. set_solver.
  - by vm_compute.
Defined.

Lemma allocate_shared_loses_total_witness :
  let a := allocate_shared (d_of_Z 100) [MkId 1 1; MkId 1 2] [] DirectOwnership (MkId 1 9) in
  (member_sum a + sa_unallocated_overhead a)%D = d0 /\ allocation_reconciles a = false.
Proof.
  intros a. split; [|by vm_compute].
  refine (proj1 (allocate_shared_loses_total (d_of_Z 100) [MkId 1 1; MkId 1 2] [] DirectOwnership
                   (MkId 1 9) _)).
  right. split_and!; [done|done|]. set_solver.
Defined.
