(* ===== verification/Query.v ===== *)
(** * Queries and aggregates (query.hpp, query.cpp)

    A query is a conjunction of optional constraints evaluated over a snapshot;
    grouping and aggregates work on its result. A [std::set] is a [StdMap] with
    trivial values. *)

From Stdlib Require Import SpecFloat Sorting.Sorted.
From stdpp Require Import base sets list strings numbers.
From S2P Require Import Prelude Float64 StdMap Identity Kinds Entry CodecProofs Account AccountProofs Batch.
Open Scope Z_scope.

Record LedgerQuery := MkLedgerQuery {
  lq_request : option RequestId;
  lq_tenant : option TenantId;
  lq_model : option ModelId;
  lq_model_revision : option ModelRevisionId;
  lq_adapter : option AdapterId;
  lq_batch : option BatchId;
  lq_attempt : option AttemptId;
  lq_worker : option WorkerId;
  lq_device : option DeviceId;
  lq_event_kind : option EventKind;
  lq_resource_kind : option ResourceKind;
  lq_start_ns : option Z;
  lq_end_ns : option Z;
  lq_pricing_policy : option PricingPolicyId;
  lq_outcome : string
}.

#[export] Instance LedgerQuery_rebuild : Rebuild LedgerQuery := fun q =>
  MkLedgerQuery (lq_request q) (lq_tenant q) (lq_model q) (lq_model_revision q) (lq_adapter q)
    (lq_batch q) (lq_attempt q) (lq_worker q) (lq_device q) (lq_event_kind q)
    (lq_resource_kind q) (lq_start_ns q) (lq_end_ns q) (lq_pricing_policy q) (lq_outcome q).

Definition query_default : LedgerQuery :=
  MkLedgerQuery None None None None None None None None None None None None None None EmptyString.

(** [q.x] is set and [ok] fails on it: the constraint is present and violated. *)
Definition violated {A} (o : option A) (ok : A -> bool) : bool :=
  match o with Some x => negb (ok x) | None => false end.

(** [it == end || it->second != v]. *)
Definition metadata_differs (e : LedgerEntry) (k v : string) : bool :=
  match StdMap.find k (e_metadata e) with
  | Some v' => negb (String.eqb v' v)
  | None => true
  end.

(** The body of the loop of [query_ledger], constraint by constraint: is the entry
    skipped? *)
Definition query_skips (q : LedgerQuery) (e : LedgerEntry) : bool :=
  violated (lq_request q) (id_eqb (e_request e)) ||
  violated (lq_tenant q) (id_eqb (e_tenant e)) ||
  violated (lq_model q) (id_eqb (e_model e)) ||
  violated (lq_model_revision q) (id_eqb (e_model_revision e)) ||
  violated (lq_adapter q) (fun x => e_has_adapter e && id_eqb (e_adapter e) x) ||
  violated (lq_attempt q) (id_eqb (e_attempt e)) ||
  violated (lq_worker q) (id_eqb (e_worker e)) ||
  violated (lq_device q) (id_eqb (e_device e)) ||
  violated (lq_event_kind q) (fun k => bool_decide (e_event_kind e = k)) ||
  violated (lq_resource_kind q) (fun k => bool_decide (e_resource_kind e = k)) ||
  violated (lq_start_ns q) (fun t => negb (e_start_ts_ns e <? t)) ||
  violated (lq_end_ns q) (fun t => negb (t <? e_start_ts_ns e)) ||
  match lq_batch q with
  | Some b => metadata_differs e "batch" (to_string b)
  | None => false
  end ||
  (negb (String.eqb (lq_outcome q) EmptyString) && metadata_differs e "outcome" (lq_outcome q)).

Definition query_step (q : LedgerQuery) (out : list LedgerEntry) (e : LedgerEntry) : list LedgerEntry :=
  if query_skips q e then out else out ++ [e].

(** [query_ledger]. *)
Definition query_ledger (entries : list LedgerEntry) (q : LedgerQuery) : list LedgerEntry :=
  fold_left (query_step q) entries [].

(** [distinct_requests]: [seen.insert(r).second] is true when [r] was absent. *)
Definition distinct_step (st : list (RequestId * ()) * list RequestId) (e : LedgerEntry)
    : list (RequestId * ()) * list RequestId :=
  let '(seen, out) := st in
  if is_zero (e_request e) then st
  else match StdMap.find (e_request e) seen with
       | Some _ => st
       | None => (StdMap.emplace (e_request e) () seen, out ++ [e_request e])
       end.

Definition distinct_requests (entries : list LedgerEntry) : list RequestId :=
  (fold_left distinct_step entries ([], [])).2.

(** [group_by_request]. *)
Definition group_step (st : list (RequestId * ()) * list (RequestId * list LedgerEntry))
    (e : LedgerEntry) : list (RequestId * ()) * list (RequestId * list LedgerEntry) :=
  let '(order, m) := st in
  if is_zero (e_request e) then st
  else (StdMap.emplace (e_request e) () order,
        StdMap.modify [] (e_request e) (fun l => l ++ [e]) m).

Definition group_by_request (entries : list LedgerEntry) : list (RequestId * list LedgerEntry) :=
  let '(order, m) := fold_left group_step entries ([], []) in
  (fun req => (req, default [] (StdMap.find req m))) <$> StdMap.keys order.

Record Aggregate := MkAggregate {
  ag_requests : nat;
  ag_cost_per_request : double;
  ag_cost_per_token : double;
  ag_gpu_seconds_per_request : double;
  ag_gpu_seconds_per_token : double;
  ag_transfer_bytes_per_request : double;
  ag_kv_bytes_per_request : double;
  ag_waste_ratio_avg : double;
  ag_retry_overhead : double;
  ag_reuse_rate_avg : double;
  ag_avoided_work : double;
  ag_total_cost : double;
  ag_total_gpu_s : double;
  ag_total_tokens : double
}.

#[export] Instance Aggregate_rebuild : Rebuild Aggregate := fun a =>
  MkAggregate (ag_requests a) (ag_cost_per_request a) (ag_cost_per_token a)
    (ag_gpu_seconds_per_request a) (ag_gpu_seconds_per_token a) (ag_transfer_bytes_per_request a)
    (ag_kv_bytes_per_request a) (ag_waste_ratio_avg a) (ag_retry_overhead a)
    (ag_reuse_rate_avg a) (ag_avoided_work a) (ag_total_cost a) (ag_total_gpu_s a)
    (ag_total_tokens a).

Definition aggregate_default : Aggregate :=
  MkAggregate 0 d0 d0 d0 d0 d0 d0 d0 d0 d0 d0 d0 d0 d0.

(** The loop's state: the aggregate, [waste_sum] and [reuse_sum]. *)
Record AggLoop := MkAggLoop { al_agg : Aggregate; al_waste : double; al_reuse : double }.

Definition aggregate_step (st : AggLoop) (acc : RequestAccount) : AggLoop :=
  let a := al_agg st in
  MkAggLoop
    (a <| ag_total_gpu_s ::= add_d (q_value (ra_gpu_active_s acc)) |>
       <| ag_total_tokens ::= add_d (d_of_Z (ra_generated_tokens acc)) |>
       <| ag_transfer_bytes_per_request ::=
            add_d (q_value (ra_h2d_bytes acc) + q_value (ra_d2h_bytes acc) +
                   q_value (ra_inter_node_bytes acc))%D |>
       <| ag_kv_bytes_per_request ::= add_d (q_value (ra_kv_allocated acc)) |>
       <| ag_retry_overhead ::= add_d (d_of_Z (ra_retries acc)) |>
       <| ag_avoided_work ::=
            add_d (q_value (ra_reuse_avoided_work acc) + q_value (ra_reused_work acc))%D |>)
    (al_waste st + waste_ratio acc)%D
    (al_reuse st + reuse_rate acc)%D.

(** [aggregate_accounts]. *)
Definition aggregate_accounts (accounts : list RequestAccount) : Aggregate :=
  let st := fold_left aggregate_step accounts
              (MkAggLoop (aggregate_default <| ag_requests := length accounts |>) d0 d0) in
  let a := al_agg st in
  let n := match accounts with [] => d1 | _ => d_of_Z (Z.of_nat (length accounts)) end in
  a <| ag_gpu_seconds_per_request := (ag_total_gpu_s a / n)%D |>
    <| ag_kv_bytes_per_request := (ag_kv_bytes_per_request a / n)%D |>
    <| ag_transfer_bytes_per_request := (ag_transfer_bytes_per_request a / n)%D |>
    <| ag_waste_ratio_avg := (al_waste st / n)%D |>
    <| ag_reuse_rate_avg := (al_reuse st / n)%D |>
    <| ag_retry_overhead := (ag_retry_overhead a / n)%D |>
    <| ag_cost_per_token :=
         if (d0 <? ag_total_tokens a)%D then (ag_total_cost a / ag_total_tokens a)%D else d0 |>
    <| ag_gpu_seconds_per_token :=
         if (d0 <? ag_total_tokens a)%D then (ag_total_gpu_s a / ag_total_tokens a)%D else d0 |>.

(** ** Specification of a query *)

(** The entry satisfies every constraint the query states. *)
Record matches (q : LedgerQuery) (e : LedgerEntry) : Prop := {
  mq_request : forall x, lq_request q = Some x -> e_request e = x;
  mq_tenant : forall x, lq_tenant q = Some x -> e_tenant e = x;
  mq_model : forall x, lq_model q = Some x -> e_model e = x;
  mq_model_revision : forall x, lq_model_revision q = Some x -> e_model_revision e = x;
  mq_adapter : forall x, lq_adapter q = Some x -> e_has_adapter e = true /\ e_adapter e = x;
  mq_attempt : forall x, lq_attempt q = Some x -> e_attempt e = x;
  mq_worker : forall x, lq_worker q = Some x -> e_worker e = x;
  mq_device : forall x, lq_device q = Some x -> e_device e = x;
  mq_event_kind : forall x, lq_event_kind q = Some x -> e_event_kind e = x;
  mq_resource_kind : forall x, lq_resource_kind q = Some x -> e_resource_kind e = x;
  mq_start : forall t, lq_start_ns q = Some t -> t <= e_start_ts_ns e;
  mq_end : forall t, lq_end_ns q = Some t -> e_start_ts_ns e <= t;
  mq_batch : forall b, lq_batch q = Some b -> StdMap.find "batch" (e_metadata e) = Some (to_string b);
  mq_outcome : lq_outcome q <> EmptyString ->
    StdMap.find "outcome" (e_metadata e) = Some (lq_outcome q)
}.

(** ** Lemmas *)

Lemma violated_false {A} (o : option A) ok :
  violated o ok = false <-> forall x, o = Some x -> ok x = true.
Proof. destruct o; simpl; rewrite ?negb_false_iff; naive_solver. Qed.

Lemma metadata_differs_false e k v :
  metadata_differs e k v = false <-> StdMap.find k (e_metadata e) = Some v.
Proof.
  unfold metadata_differs. destruct (StdMap.find k (e_metadata e)) as [v'|]; [|done].
  rewrite negb_false_iff, String.eqb_eq. naive_solver.
Qed.

Lemma query_skips_matches q e : query_skips q e = false <-> matches q e.
Proof.
  unfold query_skips. rewrite !orb_false_iff, !violated_false, andb_false_iff, negb_false_iff,
    metadata_differs_false, String.eqb_eq.
  setoid_rewrite id_eqb_eq. setoid_rewrite andb_true_iff. setoid_rewrite id_eqb_eq.
  setoid_rewrite bool_decide_eq_true. setoid_rewrite negb_true_iff. setoid_rewrite Z.ltb_ge.
  split.
  - intros Hall. destruct_and?. constructor; try done.
    + intros b Hb. rewrite Hb in *. by apply metadata_differs_false.
    + intros Hne. by destruct_or?.
  - intros [???????????? Hb Ho]. split_and!; try done.
    + destruct (lq_batch q) as [b|]; [|done]. by apply metadata_differs_false, Hb.
    + destruct (decide (lq_outcome q = EmptyString)); [by left|right; by apply Ho].
Qed.

Lemma query_ledger_filter es q :
  query_ledger es q = filter (fun e => query_skips q e = false) es.
Proof.
  etransitivity; [|apply (fold_push _ [])].
  apply (fold_left_proj (query_step q) id (fun e => query_skips q e = false) (fun out e => out ++ [e])).
  intros out e. unfold query_step, id. by destruct (query_skips q e).
Qed.

(** The query by request alone. *)
Lemma query_request es r :
  query_ledger es (query_default <| lq_request := Some r |>) = filter (fun e => e_request e = r) es.
Proof.
  rewrite query_ledger_filter. apply list_filter_iff. intros e. unfold query_skips. cbn.
  rewrite !orb_false_r. unfold id_eqb. rewrite negb_false_iff.
  destruct (e_request e) as [h l], r as [h' l']. cbn. rewrite andb_true_iff, !Z.eqb_eq. naive_solver.
Qed.

(** *** Distinct requests *)

Lemma distinct_invariant es :
  let st := fold_left distinct_step es ([], []) in
  StdMap.sorted st.1 /\ NoDup st.2 /\ (forall r, r ∈ StdMap.keys st.1 <-> r ∈ st.2) /\
  (forall r, r ∈ st.2 <-> is_zero r = false /\ r ∈ e_request <$> es).
Proof.
  induction es as [|e es IH] using rev_ind.
  { simpl. split_and!; [apply StdMap.sorted_nil|constructor|done|].
    intros r. rewrite elem_of_nil. tauto. }
  rewrite fold_left_app. cbn [fold_left]. destruct (fold_left distinct_step es ([], [])) as [seen out].
  cbn [fst snd] in *. destruct IH as (Hs & Hnd & Hk & Hin). cbv zeta. unfold distinct_step.
  setoid_rewrite fmap_app. setoid_rewrite elem_of_app. setoid_rewrite list_elem_of_singleton.
  destruct (is_zero (e_request e)) eqn:Hz.
  { cbn [fst snd]. split_and!; try done. intros r. rewrite Hin. naive_solver congruence. }
  destruct (StdMap.find (e_request e) seen) eqn:Hf; cbn [fst snd].
  - assert (e_request e ∈ out) as He by (apply Hk, StdMap.find_is_Some_keys; eauto).
    split_and!; try done. intros r. rewrite Hin. split; [naive_solver|].
    intros [? [? | ->]]; [done|]. by apply Hin.
  - assert (e_request e ∉ out) as He.
    { intros He%Hk%StdMap.find_is_Some_keys. rewrite Hf in He. by destruct He. }
    split_and!.
    + by apply StdMap.upsert_sorted.
    + apply list.NoDup_app. split_and!; [done|set_solver|apply NoDup_singleton].
    + intros r. unfold StdMap.emplace. rewrite StdMap.keys_upsert, elem_of_app, Hk,
        list_elem_of_singleton. tauto.
    + intros r. rewrite elem_of_app, Hin, list_elem_of_singleton. naive_solver congruence.
Qed.

Lemma distinct_prefix es e : distinct_requests es `prefix_of` distinct_requests (es ++ [e]).
Proof.
  unfold distinct_requests. rewrite fold_left_app. cbn [fold_left].
  destruct (fold_left distinct_step es ([], [])) as [seen out]. unfold distinct_step.
  destruct (is_zero _); [done|]. destruct (StdMap.find _ _); [done|]. by eexists.
Qed.

(** *** Groups *)

(** The keys after an insertion depend on the keys alone. *)
Lemma upsert_keys_ext {K V W} `{KeyOrder K} k (f : option V -> V) (g : option W -> W)
    (m : list (K * V)) (m' : list (K * W)) :
  StdMap.keys m = StdMap.keys m' ->
  StdMap.keys (StdMap.upsert k f m) = StdMap.keys (StdMap.upsert k g m').
Proof.
  unfold StdMap.keys. revert m'.
  induction m as [|[k1 v1] m IH]; intros [|[k2 w2] m'] Hk; try done.
  rewrite !fmap_cons in Hk. injection Hk as Hk1 Hk. simpl in Hk1. subst k2. simpl.
  destruct (kcmp k k1); rewrite !fmap_cons; [by f_equal|by rewrite Hk|f_equal; by apply IH].
Qed.

Definition identified (e : LedgerEntry) : Prop := is_zero (e_request e) = false.

#[export] Instance identified_dec e : Decision (identified e).
Proof. unfold identified. apply _. Defined.

Lemma group_loop es :
  let st := fold_left group_step es ([], []) in
  StdMap.keys st.1 = StdMap.keys st.2 /\
  st.2 = StdMap.group_by e_request (fun e l => l ++ [e]) [] (filter identified es) [].
Proof.
  induction es as [|e es IH] using rev_ind; [done|].
  rewrite fold_left_app, list.filter_app. cbn [fold_left].
  destruct (fold_left group_step es ([], [])) as [order m]. cbn [fst snd] in *. destruct IH as [Hk ->].
  cbv zeta. unfold group_step. rewrite filter_cons, filter_nil. unfold StdMap.group_by.
  rewrite fold_left_app. case_decide as Hi; unfold identified in Hi.
  - rewrite Hi. cbn [fst snd fold_left]. split; [by apply upsert_keys_ext|done].
  - destruct (is_zero (e_request e)); done.
Qed.

Lemma group_by_request_groups es :
  group_by_request es =
  (fun r => (r, filter (fun e => e_request e = r) (filter identified es))) <$>
    StdMap.keys (StdMap.group_by e_request (fun e l => l ++ [e]) [] (filter identified es) []).
Proof.
  unfold group_by_request. destruct (group_loop es) as [Hk Hm].
  destruct (fold_left group_step es ([], [])) as [order m]. cbn [fst snd] in *. rewrite Hk, Hm.
  destruct (group_requests (filter identified es)) as (Hs & _ & Hmap). cbv zeta in Hmap, Hs.
  apply list_fmap_ext. intros i r Hr. f_equal.
  apply list_elem_of_lookup_2, StdMap.find_is_Some_keys in Hr as [l Hl]. rewrite Hl. simpl.
  apply StdMap.find_Some_in in Hl. rewrite Hmap in Hl.
  by apply list_elem_of_fmap in Hl as (r' & [= -> ->] & _).
Qed.

(** Splitting a list by the distinct values of a key rearranges it. *)
Lemma bind_filter_perm {A K} `{EqDecision K} (key : A -> K) (ids : list K) (l : list A) :
  NoDup ids -> (forall a, a ∈ l -> key a ∈ ids) ->
  mjoin ((fun r => filter (fun a => key a = r) l) <$> ids) ≡ₚ l.
Proof.
  intros Hnd. induction l as [|a l IH]; intros Hin.
  { clear. induction ids; done. }
  etransitivity; [|apply perm_skip, IH; intros; apply Hin; by right].
  specialize (Hin a ltac:(by left)). clear IH. induction ids as [|r ids IH]; [set_solver|].
  apply list.NoDup_cons in Hnd as [Hr Hnd]. rewrite !fmap_cons. cbn [mjoin list_join].
  rewrite filter_cons. case_decide as Hd.
  - rewrite <- app_comm_cons. constructor. f_equiv. subst r.
    assert ((fun r => filter (fun a0 => key a0 = r) (a :: l)) <$> ids =
            (fun r => filter (fun a0 => key a0 = r) l) <$> ids) as ->; [|done].
    apply list_fmap_ext. intros i r Hi%list_elem_of_lookup_2. rewrite filter_cons.
    by rewrite decide_False by set_solver.
  - rewrite IH by set_solver. by rewrite Permutation_middle.
Qed.

(** *** Aggregates *)

Definition transfer_bytes (acc : RequestAccount) : double :=
  (q_value (ra_h2d_bytes acc) + q_value (ra_d2h_bytes acc) + q_value (ra_inter_node_bytes acc))%D.

Definition request_count (accounts : list RequestAccount) : double :=
  match accounts with [] => d1 | _ => d_of_Z (Z.of_nat (length accounts)) end.

Lemma aggregate_loop l st :
  let st' := fold_left aggregate_step l st in
  ag_total_gpu_s (al_agg st') =
    dsum_from (ag_total_gpu_s (al_agg st)) ((fun a => q_value (ra_gpu_active_s a)) <$> l) /\
  ag_total_tokens (al_agg st') =
    dsum_from (ag_total_tokens (al_agg st)) ((fun a => d_of_Z (ra_generated_tokens a)) <$> l) /\
  ag_transfer_bytes_per_request (al_agg st') =
    dsum_from (ag_transfer_bytes_per_request (al_agg st)) (transfer_bytes <$> l) /\
  ag_kv_bytes_per_request (al_agg st') =
    dsum_from (ag_kv_bytes_per_request (al_agg st)) ((fun a => q_value (ra_kv_allocated a)) <$> l) /\
  ag_retry_overhead (al_agg st') =
    dsum_from (ag_retry_overhead (al_agg st)) ((fun a => d_of_Z (ra_retries a)) <$> l) /\
  ag_avoided_work (al_agg st') = dsum_from (ag_avoided_work (al_agg st)) (reuse_credit <$> l) /\
  al_waste st' = dsum_from (al_waste st) (waste_ratio <$> l) /\
  al_reuse st' = dsum_from (al_reuse st) (reuse_rate <$> l) /\
  ag_total_cost (al_agg st') = ag_total_cost (al_agg st) /\
  ag_cost_per_request (al_agg st') = ag_cost_per_request (al_agg st) /\
  ag_requests (al_agg st') = ag_requests (al_agg st).
Proof.
  revert st. induction l as [|acc l IH]; intros st; [done|].
  exact (IH (aggregate_step st acc)).
Qed.

(** ** Properties *)

(** a query returns exactly the entries that satisfy every constraint it
    states, in ledger order and with their multiplicity. *)
Theorem query_ledger_spec es q :
  query_ledger es q `sublist_of` es /\
  (forall e, e ∈ query_ledger es q <-> e ∈ es /\ matches q e) /\
  (forall es', query_ledger (es ++ es') q = query_ledger es q ++ query_ledger es' q).
Proof.
  split_and!.
  - rewrite query_ledger_filter. apply sublist_filter.
  - intros e. rewrite query_ledger_filter, list_elem_of_filter, query_skips_matches. tauto.
  - intros es'. rewrite !query_ledger_filter. apply list.filter_app.
Qed.

(** The pricing policy of a query constrains nothing: two queries that differ
    only there return the same entries. *)
Theorem query_ignores_pricing_policy es q p :
  query_ledger es (q <| lq_pricing_policy := p |>) = query_ledger es q.
Proof. reflexivity. Qed.

(** the distinct requests of a snapshot are its non-zero request identities,
    each once, in the order they are first seen. *)
Theorem distinct_requests_spec es :
  NoDup (distinct_requests es) /\
  (forall r, r ∈ distinct_requests es <-> is_zero r = false /\ r ∈ e_request <$> es) /\
  (forall e, distinct_requests (es ++ [e]) =
     if is_zero (e_request e) || bool_decide (e_request e ∈ distinct_requests es)
     then distinct_requests es else distinct_requests es ++ [e_request e]).
Proof.
  destruct (distinct_invariant es) as (Hs & Hnd & Hk & Hin). split_and!; [done|done|].
  intros e. unfold distinct_requests in *. rewrite fold_left_app. cbn [fold_left].
  destruct (fold_left distinct_step es ([], [])) as [seen out]. cbn [fst snd] in *.
  unfold distinct_step. destruct (is_zero (e_request e)); [done|]. cbn [orb].
  destruct (StdMap.find (e_request e) seen) eqn:Hf.
  - rewrite bool_decide_eq_true_2; [done|]. apply Hk, StdMap.find_is_Some_keys. eauto.
  - rewrite bool_decide_eq_false_2; [done|].
    intros He%Hk%StdMap.find_is_Some_keys. rewrite Hf in He. by destruct He.
Qed.

(** grouping by request partitions the entries that name a request: the groups
    are in increasing identity order, each holds exactly the entries of its request
    in ledger order, none is lost and none is duplicated. *)
Theorem group_by_request_spec es :
  let groups := group_by_request es in
  StronglySorted (fun a b => id_compare a b = Lt) groups.*1 /\
  (forall r l, (r, l) ∈ groups -> l = filter (fun e => e_request e = r) es /\ l <> []) /\
  mjoin groups.*2 ≡ₚ filter identified es.
Proof.
  cbv zeta. rewrite group_by_request_groups.
  destruct (group_requests (filter identified es)) as (Hs & Hk & _). cbv zeta in Hs, Hk.
  set (ids := StdMap.keys _) in *. rewrite <- !list_fmap_compose.
  change (fst ∘ _) with (@id RequestId). rewrite list_fmap_id. split_and!.
  - exact Hs.
  - intros r l (r' & [= -> ->] & Hr)%list_elem_of_fmap.
    apply Hk, list_elem_of_fmap in Hr as (e & -> & He).
    pose proof He as [Hid _]%list_elem_of_filter. split.
    + rewrite list_filter_filter. apply list_filter_iff. intros e'.
      unfold identified in *. naive_solver congruence.
    + intros Hnil. eapply not_elem_of_nil. rewrite <- Hnil. by apply list_elem_of_filter.
  - apply bind_filter_perm; [by apply StdMap.keys_NoDup|].
    intros e He. apply Hk, list_elem_of_fmap. eauto.
Qed.

(** The aggregates are the sums and the per-request means over the accounts;
    no cost enters them, so the cost fields are zero. *)
Theorem aggregate_accounts_spec accounts :
  let a := aggregate_accounts accounts in
  let n := request_count accounts in
  ag_requests a = length accounts /\
  ag_total_gpu_s a = dsum ((fun x => q_value (ra_gpu_active_s x)) <$> accounts) /\
  ag_total_tokens a = dsum ((fun x => d_of_Z (ra_generated_tokens x)) <$> accounts) /\
  ag_gpu_seconds_per_request a = (ag_total_gpu_s a / n)%D /\
  ag_kv_bytes_per_request a = (dsum ((fun x => q_value (ra_kv_allocated x)) <$> accounts) / n)%D /\
  ag_transfer_bytes_per_request a = (dsum (transfer_bytes <$> accounts) / n)%D /\
  ag_waste_ratio_avg a = (dsum (waste_ratio <$> accounts) / n)%D /\
  ag_reuse_rate_avg a = (dsum (reuse_rate <$> accounts) / n)%D /\
  ag_retry_overhead a = (dsum ((fun x => d_of_Z (ra_retries x)) <$> accounts) / n)%D /\
  ag_avoided_work a = dsum (reuse_credit <$> accounts) /\
  ag_total_cost a = d0 /\ ag_cost_per_request a = d0.
Proof.
  cbv zeta. unfold aggregate_accounts. fold (request_count accounts).
  destruct (aggregate_loop accounts
    (MkAggLoop (aggregate_default <| ag_requests := length accounts |>) d0 d0))
    as (H1 & H2 & H3 & H4 & H5 & H6 & H7 & H8 & H9 & H10 & H11).
  destruct (fold_left aggregate_step accounts _) as [a w r]. cbn [al_agg al_waste al_reuse] in *.
  split_and!; first [assumption | reflexivity | refine (f_equal (fun x => (x / _)%D) _); assumption].
Qed.
