(* ===== verification/Persistence.v ===== *)
(** * Persistence (persistence.hpp, persistence.cpp)

    The ledger fingerprint and [LedgerStore]: writing a snapshot, appending to a
    stream, loading it back and replaying it into a ledger. The file system is a
    map from paths to contents; [FileIO] is what the operating system decides (may
    a path be opened, how many bytes of a write reach the file, does a flush
    succeed), so every theorem holds whatever fails.

    [load] runs with as much fuel as the file has bytes, and each frame takes at
    least eight of them; [None] stands for a read outside the buffer or exhausted
    fuel, and [load_total] shows it never occurs. *)

From Stdlib Require Import SpecFloat Strings.Byte.
From stdpp Require Import base gmap list strings numbers.
From S2P Require Import Prelude Float64 StdMap Identity Reader Kinds Entry Codec CodecProofs.
From S2P Require Import Authority Ledger Account.
Open Scope Z_scope.

(** ** Fingerprint *)

Record Mix := MkMix { mix_a : Z; mix_b : Z }.

Definition mix_init : Mix := MkMix 0xCBF29CE484222325 0x9E3779B97F4A7C15.

Definition mix_feed (m : Mix) (v : Z) : Mix :=
  let a := mix_a m in
  let b := mix_b m in
  MkMix
    (Z.lxor a (wrap 64 (v + 0x9E3779B97F4A7C15 + wrap 64 (Z.shiftl a 6) + Z.shiftr a 2)))
    (wrap 64 (Z.lxor b (wrap 64 (v * 0x100000001B3)) * 0x9E3779B97F4A7C15)).

Definition mix_feed_bytes (m : Mix) (bs : list byte) : Mix :=
  fold_left (fun m b => mix_feed m (byte_to_Z b)) bs m.

(** One entry; one that does not encode feeds all ones. *)
Definition mix_entry (m : Mix) (e : LedgerEntry) : Mix :=
  match encode_entry e with
  | None => mix_feed m 0xFFFFFFFFFFFFFFFF
  | Some frame => mix_feed_bytes m frame
  end.

(** The sixteen bytes of a [LedgerFingerprint]. *)
Definition ledger_fingerprint (entries : list LedgerEntry) : list byte :=
  let m := fold_left mix_entry entries mix_init in
  bytes64 (mix_a m) ++ bytes64 (mix_b m).

(** [LedgerFingerprint::to_string]. *)
Definition fingerprint_to_string (fp : list byte) : string := hex_of_bytes fp.

(** ** Files and output streams *)

Abbreviation Files := (gmap string (list byte)).

(** What the operating system decides. *)
Class FileIO := {
  open_trunc_ok : string -> bool;
  open_app_ok : string -> bool;
  (* how many bytes of a write reach a file with this content *)
  write_count : list byte -> list byte -> nat;
  flush_ok : list byte -> bool
}.

(** An [std::ofstream]: what its file holds, and whether it is good. *)
Record Stream := MkStream { st_content : list byte; st_good : bool }.

Section io.
Context `{FileIO}.

(** [f.write(bs)]: a stream that is not good writes nothing. *)
Definition stream_write (s : Stream) (bs : list byte) : Stream :=
  if st_good s then
    let n := write_count (st_content s) bs in
    MkStream (st_content s ++ take n bs) (Nat.leb (length bs) n)
  else s.

Definition stream_flush (s : Stream) : Stream :=
  MkStream (st_content s) (st_good s && flush_ok (st_content s)).

Definition write_u64 (s : Stream) (v : Z) : Stream := stream_write s (bytes64 v).
Definition write_u32 (s : Stream) (v : Z) : Stream := stream_write s (bytes32 v).

(** [write_header]; the result it returns is [st_good]. *)
Definition write_header (s : Stream) (id : LedgerId) : Stream :=
  let s := write_u64 s kLedgerMagic in
  let s := write_u32 s kSchemaVersion in
  stream_write s (to_bytes id).

(** The write loop, with the message of a failed write. *)
Fixpoint write_entries (failure : string) (entries : list LedgerEntry) (s : Stream)
    : Stream * option string :=
  match entries with
  | [] => (s, None)
  | e :: entries =>
      match encode_entry e with
      | None => (s, Some "entry failed to encode"%string)
      | Some frame =>
          let s := stream_write s frame in
          if st_good s then write_entries failure entries s else (s, Some failure)
      end
  end.

(** [save_snapshot]: the files afterwards, and the error if it returned [false]. *)
Definition save_snapshot (entries : list LedgerEntry) (ledger_id : LedgerId) (path : string)
    (files : Files) : Files * option string :=
  if negb (open_trunc_ok path) then (files, Some ("cannot open " +:+ path))
  else
    let s := write_header (MkStream [] true) ledger_id in
    if negb (st_good s) then (<[path := st_content s]> files, Some "cannot write header"%string)
    else
      let '(s, err) := write_entries "write failed" entries s in
      match err with
      | Some err => (<[path := st_content s]> files, Some err)
      | None =>
          let s := stream_flush s in
          (<[path := st_content s]> files,
           if st_good s then None else Some "flush failed"%string)
      end.

(** The file starts with the eight bytes of the magic. *)
Definition has_header (content : option (list byte)) : bool :=
  match content with
  | Some (b0 :: b1 :: b2 :: b3 :: b4 :: b5 :: b6 :: b7 :: _) =>
      be64 b0 b1 b2 b3 b4 b5 b6 b7 =? kLedgerMagic
  | _ => false
  end.

(** The second half of [append_entries], on a file that has a header. *)
Definition append_frames (entries : list LedgerEntry) (path : string) (files : Files)
    : Files * option string :=
  if negb (open_app_ok path) then (files, Some "cannot open for append"%string)
  else
    let '(s, err) := write_entries "append write failed" entries
                       (MkStream (default [] (files !! path)) true) in
    match err with
    | Some err => (<[path := st_content s]> files, Some err)
    | None =>
        let s := stream_flush s in
        (<[path := st_content s]> files,
         if st_good s then None else Some "append flush failed"%string)
    end.

(** [append_entries]. *)
Definition append_entries (entries : list LedgerEntry) (path : string) (files : Files)
    : Files * option string :=
  if has_header (files !! path) then append_frames entries path files
  else
    let id := match entries with [] => id_zero | e :: _ => e_ledger e end in
    if negb (open_trunc_ok path) then (files, Some "cannot create file"%string)
    else
      let s := write_header (MkStream [] true) id in
      let files := <[path := st_content s]> files in
      if negb (st_good s) then (files, Some "cannot create file"%string)
      else append_frames entries path files.
End io.

(** ** Loading *)

Record LoadResult := MkLoadResult {
  lr_ok : bool;
  lr_reason : string;
  lr_ledger_id : LedgerId;
  lr_entries : list LedgerEntry;
  lr_fingerprint : list byte;
  lr_frame_count : nat
}.

#[export] Instance LoadResult_rebuild : Rebuild LoadResult := fun r =>
  MkLoadResult (lr_ok r) (lr_reason r) (lr_ledger_id r) (lr_entries r) (lr_fingerprint r)
    (lr_frame_count r).

Definition load_default : LoadResult :=
  MkLoadResult false EmptyString id_zero [] (replicate 16 x00) 0.

(** The frame loop on [data + pos]: the frames read so far and, when the loop
    returned early, its reason. *)
Fixpoint load_loop (fuel : nat) (data : list byte) (seen : list LedgerEntry)
    : option (list LedgerEntry * option string) :=
  match data with
  | [] => Some (seen, None)
  | _ =>
    match fuel with
    | O => None
    | S fuel =>
      match data with
      | d0 :: d1 :: d2 :: d3 :: _ :: _ :: _ :: _ :: _ =>
        let len := be32 d0 d1 d2 d3 in
        if Z.of_nat (length data) <? len + 8 then Some (seen, Some "truncated frame payload"%string)
        else match decode_entry data with
        | DecodeOutOfBounds => None
        | DecodeRejected => Some (seen, Some "corrupt frame or invalid record"%string)
        | Decoded e consumed =>
            if negb (consumed =? len + 8) then Some (seen, Some "frame length mismatch"%string)
            else if existsb (fun existing => id_eqb (e_id existing) (e_id e)) seen
            then Some (seen, Some "duplicate entry id"%string)
            else load_loop fuel (drop (Z.to_nat consumed) data) (seen ++ [e])
        end
      | _ => Some (seen, Some "truncated frame header"%string)
      end
    end
  end.

(** [load] on the bytes of the file. *)
Definition load_bytes (data : list byte) : option LoadResult :=
  let res := load_default in
  match data with
  | b0 :: b1 :: b2 :: b3 :: b4 :: b5 :: b6 :: b7 :: v0 :: v1 :: v2 :: v3 :: rest =>
    match from_bytes rest with
    | None => Some (res <| lr_reason := "file too small for header"%string |>)
    | Some id =>
      if negb (be64 b0 b1 b2 b3 b4 b5 b6 b7 =? kLedgerMagic)
      then Some (res <| lr_reason := "bad magic"%string |>)
      else if negb (be32 v0 v1 v2 v3 =? kSchemaVersion)
      then Some (res <| lr_reason := "unsupported version"%string |>)
      else
        let res := res <| lr_ledger_id := id |> in
        match load_loop (length data) (drop kIdentityBytes rest) [] with
        | None => None
        | Some (seen, Some reason) =>
            Some (res <| lr_reason := reason |> <| lr_frame_count := length seen |>)
        | Some (seen, None) =>
            Some (res <| lr_frame_count := length seen |>
                      <| lr_entries := seen |>
                      <| lr_fingerprint := ledger_fingerprint seen |>
                      <| lr_ok := true |>
                      <| lr_reason := "loaded " +:+ size_to_string (length seen) +:+ " frames" |>)
        end
    end
  | _ => Some (res <| lr_reason := "file too small for header"%string |>)
  end.

Definition load (path : string) (files : Files) : option LoadResult :=
  match files !! path with
  | None => Some (load_default <| lr_reason := "cannot open " +:+ path |>)
  | Some data => load_bytes data
  end.

(** [recover] is [load]. *)
Definition recover (path : string) (files : Files) : option LoadResult := load path files.

(** The replay loop: stops at the first entry that is neither accepted nor a
    duplicate. *)
Fixpoint replay_entries (authority : option AuthorityState) (out : Ledger)
    (entries : list LedgerEntry) : Ledger * option string :=
  match entries with
  | [] => (out, None)
  | e :: entries =>
      let (out, ar) := append authority out e in
      match ar_status ar with
      | Accepted | Duplicate => replay_entries authority out entries
      | _ => (out, Some ("replay rejected entry: " +:+ ar_reason ar))
      end
  end.

(** [replay_into]. *)
Definition replay_into (authority : option AuthorityState) (out : Ledger) (path : string)
    (files : Files) : option (Ledger * option string) :=
  match load path files with
  | None => None
  | Some res =>
      if negb (lr_ok res) then Some (out, Some (lr_reason res))
      else Some (replay_entries authority out (lr_entries res))
  end.
