(* ===== verification/PersistenceProofs.v ===== *)
(** * Correctness of persistence

    Round trips through a file, appending to a stream, truncation, totality of the
    loader, and recovery of a ledger by replay. *)

From Stdlib Require Import SpecFloat Strings.Byte.
From stdpp Require Import base gmap list strings numbers.
From S2P Require Import Prelude Float64 StdMap Identity Reader Kinds Entry Codec CodecProofs.
From S2P Require Import Authority Ledger Account Persistence.
Open Scope Z_scope.

(** ** The bytes of a file *)

Definition header_bytes (id : LedgerId) : list byte :=
  bytes64 kLedgerMagic ++ bytes32 kSchemaVersion ++ to_bytes id.

Definition frames (es : list LedgerEntry) : list byte :=
  mjoin ((fun e => frame (entry_payload e)) <$> es).

(** An entry that survives a round trip through a frame. *)
Record storable (e : LedgerEntry) : Prop := {
  so_wf : entry_wf e;
  so_fits : fits_frame e;
  so_checks : encode_checks e = true
}.

Lemma frames_cons e es : frames (e :: es) = frame (entry_payload e) ++ frames es.
Proof. done. Qed.

Lemma frames_app es es' : frames (es ++ es') = frames es ++ frames es'.
Proof.
  induction es as [|e es IH]; [done|]. rewrite <- app_comm_cons, !frames_cons, IH.
  by rewrite (assoc_L (++)).
Qed.

(** *** Canonical entries encode to the same bytes *)

Lemma entry_payload_canonical e : entry_payload (canonical e) = entry_payload e.
Proof. destruct e as [???????[]??????????????[]?[]??]; reflexivity. Qed.

Lemma encode_checks_canonical e : encode_checks (canonical e) = encode_checks e.
Proof. reflexivity. Qed.

Lemma encode_entry_canonical e : encode_entry (canonical e) = encode_entry e.
Proof. unfold encode_entry. by rewrite encode_checks_canonical, entry_payload_canonical. Qed.

Lemma fingerprint_canonical es : ledger_fingerprint (canonical <$> es) = ledger_fingerprint es.
Proof.
  unfold ledger_fingerprint. generalize mix_init.
  induction es as [|e es IH]; intros m; [done|]. cbn [fmap list_fmap fold_left].
  assert (mix_entry m (canonical e) = mix_entry m e) as ->
    by (unfold mix_entry; by rewrite encode_entry_canonical).
  apply IH.
Qed.

Lemma frames_canonical es : frames (canonical <$> es) = frames es.
Proof.
  induction es as [|e es IH]; [done|]. rewrite fmap_cons, !frames_cons, IH.
  by rewrite entry_payload_canonical.
Qed.

Lemma encode_entry_storable e : storable e -> encode_entry e = Some (frame (entry_payload e)).
Proof.
  intros [Hwf [Hfit Hlen] Hc]. unfold encode_entry. rewrite Hc. cbn [negb].
  pose proof (metadata_count_width e Hfit Hlen) as Hm. unfold in_width in Hm.
  rewrite (proj2 (Z.ltb_ge _ _)) by lia. done.
Qed.

(** ** Streams *)

Section streams.
Context `{FileIO}.

Lemma stream_write_good s bs : st_good (stream_write s bs) = true ->
  st_good s = true /\ st_content (stream_write s bs) = st_content s ++ bs.
Proof.
  unfold stream_write. destruct (st_good s) eqn:Hg; [|congruence]. cbn [st_good st_content].
  intros Hl%Nat.leb_le. split; [done|]. by rewrite take_ge.
Qed.

Lemma write_header_good s id : st_good (write_header s id) = true ->
  st_good s = true /\ st_content (write_header s id) = st_content s ++ header_bytes id.
Proof.
  unfold write_header, write_u32, write_u64, header_bytes.
  intros (H1 & ->)%stream_write_good. apply stream_write_good in H1 as (H1 & ->).
  apply stream_write_good in H1 as (H1 & ->). by rewrite <- !(assoc_L (++)).
Qed.

Lemma write_entries_ok failure es s s' : st_good s = true ->
  write_entries failure es s = (s', None) ->
  st_good s' = true /\ st_content s' = st_content s ++ frames es /\
  Forall (fun e => encode_checks e = true) es.
Proof.
  revert s. induction es as [|e es IH]; intros s Hg Hw; simpl in Hw.
  - simplify_eq. by rewrite app_nil_r.
  - destruct (encode_entry e) as [fr|] eqn:He; [|done].
    apply encode_entry_Some in He as [Hc ->].
    destruct (st_good (stream_write s _)) eqn:Hg1; [|done].
    destruct (IH _ Hg1 Hw) as (Hg' & -> & Hall).
    apply stream_write_good in Hg1 as [_ ->].
    split_and!; [done|by rewrite frames_cons, (assoc_L (++))|by constructor].
Qed.

(** On success, the file holds the header and the frames, and nothing else. *)
Lemma save_snapshot_ok es id path files files' :
  save_snapshot es id path files = (files', None) ->
  files' = <[path := header_bytes id ++ frames es]> files /\
  Forall (fun e => encode_checks e = true) es.
Proof.
  unfold save_snapshot. destruct (open_trunc_ok path); [cbn [negb]|done].
  destruct (st_good (write_header _ id)) eqn:Hg; [cbn [negb]|done].
  destruct (write_entries _ es _) as [s [err|]] eqn:Hw; [done|].
  destruct (write_entries_ok _ _ _ _ Hg Hw) as (_ & Hs & Hall).
  apply write_header_good in Hg as [_ Hh]. rewrite Hh in Hs. simpl in Hs.
  intros [= <- _]. unfold stream_flush. cbn [st_content]. by rewrite Hs.
Qed.

(** Saving changes no other file. *)
Lemma save_snapshot_other es id out files other : other <> out ->
  (save_snapshot es id out files).1 !! other = files !! other.
Proof.
  intros Ho. unfold save_snapshot. destruct (negb (open_trunc_ok out)); [done|].
  destruct (negb _); [by apply lookup_insert_ne|].
  destruct (write_entries _ _ _) as [st [err|]]; [by apply lookup_insert_ne|].
  destruct (st_good (stream_flush st)); by apply lookup_insert_ne.
Qed.

Lemma append_frames_ok es path files files' :
  append_frames es path files = (files', None) ->
  files' = <[path := default [] (files !! path) ++ frames es]> files /\
  Forall (fun e => encode_checks e = true) es.
Proof.
  unfold append_frames. destruct (open_app_ok path); [cbn [negb]|done].
  destruct (write_entries _ es _) as [s [err|]] eqn:Hw; [done|].
  apply write_entries_ok in Hw as (_ & Hs & Hall); [|done].
  intros [= <- _]. unfold stream_flush. cbn [st_content]. simpl in Hs. by rewrite Hs.
Qed.

Lemma append_entries_ok es path files files' content :
  files !! path = Some content -> has_header (Some content) = true ->
  append_entries es path files = (files', None) ->
  files' !! path = Some (content ++ frames es) /\ Forall (fun e => encode_checks e = true) es.
Proof.
  intros Hf Hh. unfold append_entries. rewrite Hf, Hh.
  intros [-> Hall]%append_frames_ok. rewrite Hf. by rewrite lookup_insert_eq.
Qed.
End streams.

(** ** The loader *)

(** Fuel above the number of bytes left is never exhausted, and is all the same. *)
Lemma decode_in_bounds d0 d1 d2 d3 d4 d5 d6 d7 rest :
  be32 d0 d1 d2 d3 <= Z.of_nat (length rest) ->
  decode_entry (d0 :: d1 :: d2 :: d3 :: d4 :: d5 :: d6 :: d7 :: rest) <> DecodeOutOfBounds.
Proof.
  intros Hl. cbn [decode_entry]. destruct (_ <? wrap 32 _); [done|].
  rewrite (proj2 (Z.ltb_ge _ _)) by done. destruct (negb _); [done|]. by destruct (decode_payload _).
Qed.

Lemma load_loop_S fuel d0 d1 d2 d3 d4 d5 d6 d7 rest seen :
  load_loop (S fuel) (d0 :: d1 :: d2 :: d3 :: d4 :: d5 :: d6 :: d7 :: rest) seen =
  let data := d0 :: d1 :: d2 :: d3 :: d4 :: d5 :: d6 :: d7 :: rest in
  let len := be32 d0 d1 d2 d3 in
  if Z.of_nat (length rest) <? len then Some (seen, Some "truncated frame payload"%string)
  else match decode_entry data with
  | DecodeOutOfBounds => None
  | DecodeRejected => Some (seen, Some "corrupt frame or invalid record"%string)
  | Decoded e consumed =>
      if negb (consumed =? len + 8) then Some (seen, Some "frame length mismatch"%string)
      else if existsb (fun existing => id_eqb (e_id existing) (e_id e)) seen
      then Some (seen, Some "duplicate entry id"%string)
      else load_loop fuel (drop (Z.to_nat len) rest) (seen ++ [e])
  end.
Proof.
  cbv zeta. cbn [load_loop]. pose proof (be32_range d0 d1 d2 d3) as [Hlo _].
  replace (_ <? be32 d0 d1 d2 d3 + 8) with (Z.of_nat (length rest) <? be32 d0 d1 d2 d3).
  - destruct (_ <? _); [done|]. destruct (decode_entry _); [|done..].
    destruct (Z.eqb_spec consumed (be32 d0 d1 d2 d3 + 8)) as [->|]; [|done].
    rewrite Z2Nat.inj_add, Nat.add_comm by lia. done.
  - apply eq_true_iff_eq. rewrite !Z.ltb_lt. cbn [length]. lia.
Qed.

Lemma load_loop_total fuel data seen : (length data <= fuel)%nat ->
  load_loop fuel data seen <> None /\
  load_loop fuel data seen = load_loop (length data) data seen.
Proof.
  revert data seen. induction fuel as [fuel IH] using lt_wf_ind. intros data seen Hl.
  destruct data as [|d0 data]; [by destruct fuel|].
  destruct fuel as [|fuel]; [simpl in Hl; lia|].
  do 7 (destruct data as [|? data]; [done|]).
  cbn [length] in Hl |- *. rewrite !load_loop_S. cbv zeta.
  destruct (Z.ltb_spec (Z.of_nat (length data)) (be32 d0 b b0 b1)) as [?|Hlen]; [done|].
  destruct (decode_entry _) as [e consumed| |] eqn:Hd; [|done|].
  2: { exfalso. eapply decode_in_bounds; [|exact Hd]. lia. }
  destruct (negb _); [done|]. destruct (existsb _ _); [done|].
  set (rest := drop _ data). assert (length rest <= length data)%nat
    by (unfold rest; rewrite length_drop; lia).
  destruct (IH fuel ltac:(lia) rest (seen ++ [e]) ltac:(lia)) as [Hn ->].
  rewrite <- (proj2 (IH fuel ltac:(lia) rest (seen ++ [e]) ltac:(lia))). split; [done|].
  rewrite (proj2 (IH fuel ltac:(lia) rest (seen ++ [e]) ltac:(lia))). symmetry. apply IH; lia.
Qed.

(** The loop with exactly enough fuel. *)
Definition load_frames (data : list byte) (seen : list LedgerEntry)
    : option (list LedgerEntry * option string) :=
  load_loop (length data) data seen.

Lemma existsb_id_false (seen : list LedgerEntry) e :
  e_id e ∉ e_id <$> seen -> existsb (fun x => id_eqb (e_id x) (e_id e)) seen = false.
Proof.
  induction seen as [|x seen IH]; intros Hn; [done|]. cbn [existsb].
  rewrite fmap_cons, not_elem_of_cons in Hn. destruct Hn as [Hx Hn].
  rewrite (proj2 (id_eqb_neq _ _)) by congruence. by apply IH.
Qed.

Lemma existsb_id_true (seen : list LedgerEntry) e :
  existsb (fun x => id_eqb (e_id x) (e_id e)) seen = false -> e_id e ∉ e_id <$> seen.
Proof.
  induction seen as [|x seen IH]; intros Hn; [set_solver|]. cbn [existsb] in Hn.
  apply orb_false_iff in Hn as [Hx%id_eqb_neq Hn]. rewrite fmap_cons, not_elem_of_cons.
  split; [congruence|by apply IH].
Qed.

(** One stored frame: its entry is read, and the loop goes on behind it. *)
Lemma load_frames_frame e rest seen : storable e -> e_id e ∉ e_id <$> seen ->
  load_frames (frame (entry_payload e) ++ rest) seen = load_frames rest (seen ++ [canonical e]).
Proof.
  intros [Hwf Hfit Hc] Hn.
  pose proof (decode_entry_frame (entry_payload e) rest (proj2 Hfit)) as Hd.
  rewrite decode_payload_entry_payload in Hd by done.
  destruct Hfit as [_ Hlen]. unfold load_frames, frame, bytes32 in *.
  cbn [app] in Hd |- *. cbn [length]. rewrite load_loop_S. cbv zeta. rewrite Hd.
  rewrite be32_bytes32, !(wrap_small 32 (Z.of_nat _)) by (unfold in_width; lia).
  rewrite length_app. rewrite (proj2 (Z.ltb_ge _ _)) by lia. cbn [length].
  rewrite (proj2 (Z.eqb_eq _ _)) by lia. cbn [negb].
  rewrite existsb_id_false by done. rewrite Nat2Z.id, drop_app_length.
  apply load_loop_total. lia.
Qed.

Lemma load_frames_frames es rest seen : Forall storable es ->
  NoDup (e_id <$> (seen ++ es)) ->
  load_frames (frames es ++ rest) seen = load_frames rest (seen ++ (canonical <$> es)).
Proof.
  revert seen. induction es as [|e es IH]; intros seen Hst Hnd; [by rewrite app_nil_r|].
  apply list.Forall_cons in Hst as [He Hes]. rewrite frames_cons, <- (assoc_L (++)).
  rewrite load_frames_frame; [|done|].
  - rewrite IH, <- (assoc_L (++)); [done|done|].
    rewrite fmap_app, fmap_cons in Hnd. rewrite !fmap_app. simpl.
    by rewrite <- (assoc_L (++)).
  - rewrite fmap_app, fmap_cons in Hnd. apply list.NoDup_app in Hnd as (_ & Hd & _).
    intros Hin. apply (Hd _ Hin). by left.
Qed.

(** *** Header *)

Definition loaded (id : LedgerId) (seen : list LedgerEntry) : LoadResult :=
  MkLoadResult true ("loaded " +:+ size_to_string (length seen) +:+ " frames") id seen
    (ledger_fingerprint seen) (length seen).

Lemma load_bytes_header id body : id_wf id ->
  load_bytes (header_bytes id ++ body) =
  match load_frames body [] with
  | None => None
  | Some (seen, Some reason) =>
      Some (load_default <| lr_ledger_id := id |> <| lr_reason := reason |>
                         <| lr_frame_count := length seen |>)
  | Some (seen, None) => Some (loaded id seen)
  end.
Proof.
  intros Hid. unfold header_bytes. rewrite <- !(assoc_L (++)).
  assert (drop kIdentityBytes (to_bytes id ++ body) = body) as Hdrop by done.
  pose proof (from_bytes_to_bytes_app id body Hid) as Hfrom.
  unfold bytes64, bytes32. cbn [app]. unfold load_bytes.
  rewrite Hfrom, Hdrop.
  replace (negb (be64 _ _ _ _ _ _ _ _ =? kLedgerMagic)) with false by (by vm_compute).
  replace (negb (be32 _ _ _ _ =? kSchemaVersion)) with false by (by vm_compute).
  cbv iota. match goal with |- context [load_loop ?fuel body []] =>
    rewrite (proj2 (load_loop_total fuel body [] ltac:(cbn [length]; rewrite length_app; lia))) end.
  fold (load_frames body []). by destruct (load_frames body []) as [[seen [reason|]]|].
Qed.

Lemma load_frames_nil seen : load_frames [] seen = Some (seen, None).
Proof. done. Qed.

(** The file of a snapshot, loaded. *)
Lemma load_bytes_snapshot id es : id_wf id -> Forall storable es -> NoDup (e_id <$> es) ->
  load_bytes (header_bytes id ++ frames es) = Some (loaded id (canonical <$> es)).
Proof.
  intros Hid Hst Hnd. rewrite load_bytes_header by done.
  rewrite <- (app_nil_r (frames es)), load_frames_frames by done.
  by rewrite load_frames_nil.
Qed.

Lemma has_header_bytes id body : has_header (Some (header_bytes id ++ body)) = true.
Proof. unfold header_bytes, bytes64. cbn [app has_header]. by vm_compute. Qed.

(** What a successful load says about the loop's result: frames that decoded, with
    distinct identities. *)
Lemma load_loop_sound fuel data seen seen' :
  Forall (fun e => entry_wf e /\ canonical e = e) seen -> NoDup (e_id <$> seen) ->
  load_loop fuel data seen = Some (seen', None) ->
  Forall (fun e => entry_wf e /\ canonical e = e) seen' /\ NoDup (e_id <$> seen').
Proof.
  revert data seen. induction fuel as [|fuel IH]; intros data seen Hwf Hnd Hl.
  { destruct data; [by simplify_eq/=|done]. }
  destruct data as [|d0 data]; [by simplify_eq/=|].
  do 7 (destruct data as [|? data]; [done|]). rewrite load_loop_S in Hl. cbv zeta in Hl.
  destruct (_ <? _); [done|]. destruct (decode_entry _) as [e n| |] eqn:Hd; [|done|done].
  destruct (negb _); [done|]. destruct (existsb _ _) eqn:Hex; [done|].
  apply IH in Hl; [done| |].
  - apply Forall_app. split; [done|]. constructor; [|constructor].
    apply decode_entry_valid in Hd. by destruct Hd as (? & ? & _).
  - rewrite fmap_app. apply list.NoDup_app. split_and!; [done| |apply NoDup_singleton].
    intros x Hx Hx'. apply list_elem_of_singleton in Hx'. subst x. by apply existsb_id_true in Hex.
Qed.

(** *** Truncation *)

(** A proper, non-empty prefix of a frame stops the loop with an error. *)
Lemma load_frames_partial e k seen : storable e ->
  (0 < k < length (frame (entry_payload e)))%nat ->
  exists reason, load_frames (take k (frame (entry_payload e))) seen = Some (seen, Some reason).
Proof.
  intros [_ [_ Hlen] _] Hk. rewrite length_frame in Hk. unfold frame, bytes32, load_frames.
  destruct k as [|k]; [lia|]. do 7 (destruct k as [|k]; [by eexists|]).
  cbn [app take length]. rewrite load_loop_S. cbv zeta.
  rewrite be32_bytes32, !(wrap_small 32 (Z.of_nat _)) by (unfold in_width; lia).
  rewrite length_take, (proj2 (Z.ltb_lt _ _)) by lia. by eexists.
Qed.

(** Loading a prefix of the frames either fails, or the cut was between two frames
    and the entries before it are read. *)
Lemma load_frames_truncated es k seen : Forall storable es ->
  NoDup (e_id <$> (seen ++ es)) ->
  (exists j, (j <= length es)%nat /\ take k (frames es) = frames (take j es) /\
     load_frames (take k (frames es)) seen = Some (seen ++ (canonical <$> take j es), None)) \/
  exists seen' reason, load_frames (take k (frames es)) seen = Some (seen', Some reason).
Proof.
  revert k seen. induction es as [|e es IH]; intros k seen Hst Hnd.
  { left. exists 0%nat. split_and!; [simpl; lia|by destruct k|].
    change (frames []) with (@nil byte). rewrite take_nil. simpl. by rewrite app_nil_r. }
  apply list.Forall_cons in Hst as [He Hes].
  destruct (decide (k = 0%nat)) as [->|Hk].
  { left. exists 0%nat. simpl. rewrite app_nil_r. split_and!; [lia|done..]. }
  rewrite frames_cons. destruct (decide (k < length (frame (entry_payload e)))%nat) as [Hlt|Hge].
  { right. rewrite take_app_le by lia. destruct (load_frames_partial e k seen He) as [r Hr]; eauto with lia. }
  assert (e_id e ∉ e_id <$> seen) as Hn.
  { rewrite fmap_app, fmap_cons in Hnd. apply list.NoDup_app in Hnd as (_ & Hd & _).
    intros Hin. apply (Hd _ Hin). by left. }
  rewrite take_app_ge, load_frames_frame by (done || lia).
  destruct (IH (k - length (frame (entry_payload e)))%nat (seen ++ [canonical e]) Hes)
    as [(j & Hj & Ht & Hl)|Hl].
  - rewrite fmap_app, fmap_cons in Hnd. rewrite !fmap_app. simpl. by rewrite <- (assoc_L (++)).
  - left. exists (S j). rewrite Ht, <- (Ht), Hl. split_and!; [simpl; lia| |].
    + by rewrite Ht, firstn_cons, frames_cons.
    + by rewrite firstn_cons, fmap_cons, <- (assoc_L (++)).
  - by right.
Qed.

Lemma replay_entries_append l es : Forall (fun e => content_is_valid e = true) es ->
  NoDup (e_id <$> (lg_entries l ++ es)) -> ledger_wf l ->
  exists l', replay_entries None l es = (l', None) /\ lg_entries l' = lg_entries l ++ es /\
             ledger_wf l'.
Proof.
  revert l. induction es as [|e es IH]; intros l Hv Hnd Hwf.
  { exists l. by rewrite app_nil_r. }
  apply list.Forall_cons in Hv as [He Hes].
  destruct (append_all_fresh l [e] Hwf) as [Hent Hacc]; [by constructor| |].
  { rewrite (cons_middle e), (assoc_L (++)), fmap_app in Hnd.
    by apply list.NoDup_app in Hnd as (? & _). }
  simpl in Hent, Hacc |- *. pose proof (append_wf None l e Hwf) as Hwf'.
  destruct (append None l e) as [l1 r]. simpl in *. apply Forall_inv in Hacc. rewrite Hacc.
  destruct (IH l1 Hes) as (l' & Hr & Hl' & Hw'); [|done|].
  - by rewrite Hent, <- (assoc_L (++)).
  - exists l'. rewrite Hl', Hent, <- (assoc_L (++)). done.
Qed.

(** ** Properties *)

(** a snapshot that [save_snapshot] reports as written loads back: the same
    ledger identity, the same entries in the same order (unused optional identities
    at their defaults), the fingerprint of the entries that were saved, and one
    frame per entry, whatever the file system held and whatever it might have
    refused. *)
Theorem save_load_roundtrip `{FileIO} es id path files files' :
  id_wf id -> Forall entry_wf es -> Forall fits_frame es -> NoDup (e_id <$> es) ->
  save_snapshot es id path files = (files', None) ->
  load path files' =
    Some (MkLoadResult true ("loaded " +:+ size_to_string (length es) +:+ " frames") id
            (canonical <$> es) (ledger_fingerprint es) (length es)).
Proof.
  intros Hid Hwf Hfit Hnd [-> Hc]%save_snapshot_ok. unfold load. rewrite lookup_insert_eq.
  rewrite load_bytes_snapshot; [|done| |done].
  - unfold loaded. by rewrite length_fmap, fingerprint_canonical.
  - rewrite list.Forall_forall in Hwf, Hfit, Hc |- *. intros e He. constructor; auto.
Qed.

(** appending to a stream that holds a ledger leaves what it holds untouched:
    when [append_entries] reports success, loading returns the old entries followed
    by the new ones, under the same ledger identity. *)
Theorem append_load `{FileIO} es0 es id path files files' :
  id_wf id -> Forall storable es0 -> Forall storable es ->
  NoDup (e_id <$> (es0 ++ es)) ->
  files !! path = Some (header_bytes id ++ frames es0) ->
  append_entries es path files = (files', None) ->
  load path files' = Some (loaded id (canonical <$> (es0 ++ es))).
Proof.
  intros Hid H0 H1 Hnd Hf Ha. eapply append_entries_ok in Ha as [Hp _];
    [|exact Hf|apply has_header_bytes].
  unfold load. rewrite Hp, <- (assoc_L (++)), <- frames_app.
  apply load_bytes_snapshot; [done|by apply Forall_app|done].
Qed.

(** C20: what a truncated snapshot loads as. Cut between two frames, it loads without
    an error and holds exactly the entries before the cut: the format has no record
    count, so a truncation of this kind is not detected. Cut inside a frame, it fails
    to load and yields no entry. *)
Theorem load_truncated id es : id_wf id -> Forall storable es -> NoDup (e_id <$> es) ->
  (forall j, (j <= length es)%nat ->
     load_bytes (header_bytes id ++ take (length (frames (take j es))) (frames es)) =
       Some (loaded id (canonical <$> take j es)) /\ lr_ok (loaded id (canonical <$> take j es)) = true) /\
  (forall k, (k <= length (frames es))%nat ->
     (forall j, (j <= length es)%nat -> k <> length (frames (take j es))) ->
     exists res, load_bytes (header_bytes id ++ take k (frames es)) = Some res /\ lr_ok res = false /\
       lr_entries res = []).
Proof.
  intros Hid Hst Hnd. split.
  - intros j Hj. split; [|done].
    assert (frames es = frames (take j es) ++ frames (drop j es)) as Hsplit by (by rewrite <- frames_app, take_drop).
    rewrite Hsplit, take_app_length. apply load_bytes_snapshot; [done|by apply Forall_take|].
    rewrite fmap_take. by eapply sublist_NoDup, sublist_take.
  - intros k Hk Hcut. rewrite load_bytes_header by done.
    destruct (load_frames_truncated es k [] Hst Hnd) as [(j & Hj & Ht & _)|(seen' & r & ->)]; [|by eexists].
    exfalso. apply (Hcut j Hj). by rewrite <- Ht, length_take_le.
Qed.

(** C21: loading never reads outside the file and always ends with a result, on any
    bytes at all, a length field near 2^32 included; and what it accepts is
    well-formed entries with distinct identities. *)
Theorem load_total path files :
  exists res, load path files = Some res /\
    (lr_ok res = true ->
     Forall entry_wf (lr_entries res) /\ NoDup (e_id <$> lr_entries res) /\
     lr_fingerprint res = ledger_fingerprint (lr_entries res) /\
     lr_frame_count res = length (lr_entries res)).
Proof.
  unfold load. destruct (files !! path) as [data|]; [|by eexists].
  unfold load_bytes.
  do 12 (destruct data as [|? data]; [by eexists|]).
  destruct (from_bytes data) as [id|]; [|by eexists].
  destruct (negb _); [by eexists|]. destruct (negb _); [by eexists|].
  destruct (load_loop_total (length (b :: b0 :: b1 :: b2 :: b3 :: b4 :: b5 :: b6 :: b7 :: b8 :: b9 :: b10 :: data))
    (drop kIdentityBytes data) []) as [Hn _]; [rewrite length_drop; simpl; lia|].
  destruct (load_loop _ _ _) as [[seen [reason|]]|] eqn:Hl; [by eexists| |done].
  eexists. split; [reflexivity|]. intros _. simpl.
  apply load_loop_sound in Hl as [Hwf Hnd]; [|constructor|constructor].
  split_and!; try done. rewrite list.Forall_forall in Hwf |- *. intros e He. by apply Hwf.
Qed.

(** C11: recovery: saving the snapshot of a ledger and replaying the file into a
    fresh ledger rebuilds it, with the same records in the same order, the same
    fingerprint and the ledger invariant. *)
Theorem recover_ledger `{FileIO} l fresh path files files' :
  ledger_wf l -> id_wf (lg_id l) -> Forall entry_wf (snapshot l) -> Forall fits_frame (snapshot l) ->
  save_snapshot (snapshot l) (lg_id l) path files = (files', None) ->
  exists l', replay_into None (ledger_new fresh) path files' = Some (l', None) /\
    snapshot l' = canonical <$> snapshot l /\
    ledger_fingerprint (snapshot l') = ledger_fingerprint (snapshot l) /\ ledger_wf l'.
Proof.
  intros Hl Hid Hwf Hfit [-> Hc]%save_snapshot_ok.
  pose proof (ledger_wf_NoDup l Hl) as Hnd. unfold snapshot in *.
  unfold replay_into, load. rewrite lookup_insert_eq, load_bytes_snapshot; [|done| |done].
  2: { rewrite list.Forall_forall in Hwf, Hfit, Hc |- *. intros e He. constructor; auto. }
  cbn [lr_ok lr_entries loaded negb].
  destruct (replay_entries_append (ledger_new fresh) (canonical <$> lg_entries l))
    as (l' & Hr & Hl' & Hw').
  - apply list.Forall_fmap. rewrite list.Forall_forall in Hc |- *. intros e He. simpl.
    rewrite content_is_valid_encode_checks, encode_checks_canonical. by apply Hc.
  - simpl. rewrite <- list_fmap_compose. exact Hnd.
  - apply ledger_new_wf.
  - exists l'. rewrite Hr, Hl'. simpl. by rewrite fingerprint_canonical.
Qed.

(** [append_entries] does not leave existing content untouched when the file
    does not start with the magic: whatever it held is truncated away and replaced
    by a fresh header and the new frames. *)
Theorem append_truncates_foreign `{FileIO} es path files files' content :
  files !! path = Some content -> has_header (Some content) = false ->
  append_entries es path files = (files', None) ->
  files' !! path =
    Some (header_bytes (match es with [] => id_zero | e :: _ => e_ledger e end) ++ frames es).
Proof.
  intros Hf Hh. unfold append_entries. rewrite Hf, Hh.
  destruct (open_trunc_ok path); [cbn [negb]|done].
  destruct (st_good (write_header _ _)) eqn:Hg; [cbn [negb]|done].
  apply write_header_good in Hg as [_ ->]. intros [-> _]%append_frames_ok.
  by rewrite !lookup_insert_eq.
Qed.

(** ** Witnesses *)

(** A file system that refuses nothing. *)
Definition reliable_io : FileIO :=
  {| open_trunc_ok := fun _ => true; open_app_ok := fun _ => true;
     write_count := fun _ bs => length bs; flush_ok := fun _ => true |}.

Lemma sample_storable : storable sample_entry.
Proof. constructor; [exact sample_entry_wf|exact sample_entry_fits|by vm_compute]. Qed.

Lemma sample_storable2 : storable sample_entry2.
Proof. constructor; [solve_entry_wf|split; [repeat constructor|by vm_compute]|by vm_compute]. Qed.

Definition sample_files : Files :=
  (save_snapshot (H := reliable_io) [sample_entry] (MkId 1 2) "ledger.bin" ∅).1.

Lemma sample_id_wf : @id_wf LedgerIdTag (MkId 1 2).
Proof. unfold id_wf, in_width; simpl; lia. Qed.

Lemma save_load_roundtrip_witness :
  exists res, load "ledger.bin" sample_files = Some res /\ lr_entries res = [canonical sample_entry].
Proof.
  eexists. split.
  - apply (save_load_roundtrip (H := reliable_io) [sample_entry] (MkId 1 2) "ledger.bin" ∅).
    + exact sample_id_wf.
    + apply list.Forall_singleton. exact sample_entry_wf.
    + apply list.Forall_singleton. exact sample_entry_fits.
    + apply NoDup_singleton.
    + by vm_compute.
  - reflexivity.
Defined.

Lemma append_load_witness :
  load "ledger.bin" (append_entries (H := reliable_io) [sample_entry2] "ledger.bin"
    {["ledger.bin" := header_bytes (MkId 1 2) ++ frames [sample_entry]]}).1 =
  Some (loaded (MkId 1 2) [canonical sample_entry; canonical sample_entry2]).
Proof.
  apply (append_load (H := reliable_io) [sample_entry] [sample_entry2] (MkId 1 2) "ledger.bin"
           {["ledger.bin" := header_bytes (MkId 1 2) ++ frames [sample_entry]]}).
  - exact sample_id_wf.
  - apply list.Forall_singleton. exact sample_storable.
  - apply list.Forall_singleton. exact sample_storable2.
  - refine (bool_decide_unpack _ _). by vm_compute.
  - reflexivity.
  - by vm_compute.
Defined.

Lemma load_truncated_witness :
  (exists res, load_bytes (header_bytes (MkId 1 2) ++ take 100 (frames [sample_entry])) = Some res /\
     lr_ok res = false) /\
  load_bytes (header_bytes (MkId 1 2) ++ take 0 (frames [sample_entry])) = Some (loaded (MkId 1 2) []).

Proof.
  destruct (load_truncated (MkId 1 2) [sample_entry]) as [Hat Hin].
  - exact sample_id_wf.
  - apply list.Forall_singleton. exact sample_storable.
  - apply NoDup_singleton.
  - split; [|exact (proj1 (Hat 0%nat ltac:(simpl; lia)))].
    destruct (Hin 100%nat) as (res & Hr & Hok & _).
    + refine (bool_decide_unpack _ _). by vm_compute.
    + intros [|[|j]] Hj; [by vm_compute|by vm_compute|simpl in Hj; lia].
    + exists res. split; [exact Hr|exact Hok].
Defined.

Lemma recover_ledger_witness :
  exists l', replay_into None (ledger_new (MkId 7 7)) "ledger.bin" sample_files = Some (l', None) /\
    snapshot l' = [canonical sample_entry].
Proof.
  destruct (recover_ledger (H := reliable_io) (append None (ledger_new (MkId 1 2)) sample_entry).1
              (MkId 7 7) "ledger.bin" ∅ sample_files) as (l' & Hr & Hs & _).
  - exact sample_ledger_wf.
  - exact sample_id_wf.
  - apply list.Forall_singleton. exact sample_entry_wf.
  - apply list.Forall_singleton. exact sample_entry_fits.
  - by vm_compute.
  - exists l'. split; [exact Hr|exact Hs].
Defined.

Lemma append_truncates_foreign_witness :
  (append_entries (H := reliable_io) [] "notes.txt" {["notes.txt" := [x61; x62]]}).1 !! "notes.txt"%string =
  Some (header_bytes id_zero).
Proof.
  refine (append_truncates_foreign (H := reliable_io) [] "notes.txt" {["notes.txt" := [x61; x62]]} _
            [x61; x62] _ _ _).
  - reflexivity.
  - reflexivity.
  - by vm_compute.
Defined.
