(* ===== verification/Protocol.v ===== *)
(** * The framed protocol (protocol.hpp, protocol.cpp)

    Messages between coordinator and workers, their encoding
    [u32 length][u32 crc][u8 type][payload], and [FramedSocket] over a byte stream
    that the network may cut into chunks anywhere. A [Message] is the variant its
    type selects; the status of an acknowledgement is kept as the raw byte, since
    the decoder casts any byte to the enumeration.

    The receiving end is the list of what [recv] will find: chunks of data, then
    the end of the stream or an error. The sending end is [SendPlatform], the result
    of each [send] call. *)

From Stdlib Require Import Strings.Byte.
From stdpp Require Import base list strings numbers.
From S2P Require Import Prelude Float64 StdMap Identity Reader Kinds Entry Codec Crc CodecProofs Ledger.
Open Scope Z_scope.

(** ** Messages *)

Inductive MessageType := TRegister | TRegisterAck | TEventSubmit | TEventAck | TRoll | TShutdown | TPing.

#[export] Instance MessageType_eq_dec : EqDecision MessageType.
Proof. solve_decision. Defined.

Definition msg_type_val (t : MessageType) : Z :=
  match t with
  | TRegister => 1 | TRegisterAck => 2 | TEventSubmit => 3 | TEventAck => 4
  | TRoll => 5 | TShutdown => 6 | TPing => 7
  end.

(** An unknown type byte is a ping. *)
Definition msg_type_from (v : Z) : MessageType :=
  match v with
  | 1 => TRegister
  | 2 => TRegisterAck
  | 3 => TEventSubmit
  | 4 => TEventAck
  | 5 => TRoll
  | 6 => TShutdown
  | 7 => TPing
  | _ => TPing
  end.

Record RegisterMsg := MkRegisterMsg { rg_worker : WorkerId; rg_boot : WorkerBootId }.

Record RegisterAckMsg := MkRegisterAckMsg {
  rk_ok : bool;
  rk_epoch : CoordinatorEpoch;
  rk_accounting_generation : AccountingGeneration;
  rk_reason : string
}.

Record EventAckMsg := MkEventAckMsg { ea_status : Z; ea_reason : string }.

Record RollMsg := MkRollMsg {
  rl_epoch : CoordinatorEpoch;
  rl_accounting_generation : AccountingGeneration
}.

Inductive Message :=
| Register (reg : RegisterMsg)
| RegisterAck (reg_ack : RegisterAckMsg)
| EventSubmit (entry : LedgerEntry)
| EventAck (event_ack : EventAckMsg)
| Roll (roll : RollMsg)
| Shutdown
| Ping.

Definition message_type (m : Message) : MessageType :=
  match m with
  | Register _ => TRegister
  | RegisterAck _ => TRegisterAck
  | EventSubmit _ => TEventSubmit
  | EventAck _ => TEventAck
  | Roll _ => TRoll
  | Shutdown => TShutdown
  | Ping => TPing
  end.

(** [static_cast<uint8_t>] of an [AppendStatus]. *)
Definition append_status_val (s : AppendStatus) : Z :=
  match s with
  | Accepted => 0 | Duplicate => 1 | DuplicateConflict => 2 | Stale => 3 | Invalid => 4
  end.

(** ** Encoding *)

(** The payload of each message; [None] when the entry does not encode. *)
Definition message_payload (msg : Message) : option (list byte) :=
  match msg with
  | Register reg => Some (put_id (rg_worker reg) ++ put_id (rg_boot reg))
  | RegisterAck a =>
      Some (put_bool8 (rk_ok a) ++ put_u64 (value (rk_epoch a)) ++
            put_u64 (value (rk_accounting_generation a)) ++ put_string (rk_reason a))
  | EventSubmit e =>
      match encode_entry e with
      | None => None
      | Some fr => Some (put_u32 (wrap 32 (Z.of_nat (length fr))) ++ fr)
      end
  | EventAck a => Some (put_u8 (ea_status a) ++ put_string (ea_reason a))
  | Roll r => Some (put_u64 (value (rl_epoch r)) ++ put_u64 (value (rl_accounting_generation r)))
  | Shutdown | Ping => Some []
  end.

(** [encode_message]. *)
Definition encode_message (msg : Message) : option (list byte) :=
  match message_payload msg with
  | None => None
  | Some payload =>
      let content := put_u8 (msg_type_val (message_type msg)) ++ payload in
      Some (bytes32 (wrap 32 (Z.of_nat (length content))) ++ bytes32 (crc32 content) ++ content)
  end.

(** ** Decoding *)

Inductive MessageResult := MsgOk (m : Message) | MsgRejected | MsgOutOfBounds.

(** Run a reader on the payload and require that nothing is left. *)
Definition whole_payload (m : Rd Message) (payload : list byte) : MessageResult :=
  match m (reader_of payload) with
  | (Some msg, r) => if Nat.eqb (remaining r) 0 then MsgOk msg else MsgRejected
  | (None, _) => MsgRejected
  end.

Definition read_register : Rd Message :=
  let* worker := get_id in
  let* boot := get_id in
  rd_ret (Register (MkRegisterMsg worker boot)).

Definition read_register_ack : Rd Message :=
  let* ok := get_bool8 in
  let* e := get_u64 in
  let* g := get_u64 in
  let* reason := get_string in
  rd_ret (RegisterAck (MkRegisterAckMsg ok (MkGen e) (MkGen g) reason)).

Definition read_event_ack : Rd Message :=
  let* st := get_u8 in
  let* reason := get_string in
  rd_ret (EventAck (MkEventAckMsg st reason)).

Definition read_roll : Rd Message :=
  let* e := get_u64 in
  let* g := get_u64 in
  rd_ret (Roll (MkRollMsg (MkGen e) (MkGen g))).

(** The [EventSubmit] case: a length that must be the bytes left, then a frame. *)
Definition decode_event_submit (payload : list byte) : MessageResult :=
  match get_u32 (reader_of payload) with
  | (None, _) => MsgRejected
  | (Some flen, r) =>
      if negb (Z.of_nat (remaining r) =? flen) then MsgRejected
      else match decode_entry (drop 4 payload) with
      | DecodeOutOfBounds => MsgOutOfBounds
      | DecodeRejected => MsgRejected
      | Decoded e consumed =>
          if (consumed =? flen) && (consumed =? Z.of_nat (remaining r)) then MsgOk (EventSubmit e)
          else MsgRejected
      end
  end.

(** [decode_message]. *)
Definition decode_message (data : list byte) : MessageResult :=
  match data with
  | [] => MsgRejected
  | t :: payload =>
      match msg_type_from (byte_to_Z t) with
      | TRegister => whole_payload read_register payload
      | TRegisterAck => whole_payload read_register_ack payload
      | TEventSubmit => decode_event_submit payload
      | TEventAck => whole_payload read_event_ack payload
      | TRoll => whole_payload read_roll payload
      | TShutdown => whole_payload (rd_ret Shutdown) payload
      | TPing => whole_payload (rd_ret Ping) payload
      end
  end.

(** ** Sockets *)

(** What the next [recv] calls find: data in whatever chunks the network formed,
    or an error; the end of the list is the end of the stream. *)
Inductive NetEvent := NetData (bs : list byte) | NetError.

Definition Net : Type := list NetEvent.

(** [recv(sock, p, n)]: at most [n] bytes of the next chunk; [inr []] is a closed
    stream. *)
Definition recv (n : nat) (net : Net) : (unit + list byte) * Net :=
  match net with
  | [] => (inr [], [])
  | NetError :: rest => (inl tt, rest)
  | NetData bs :: rest =>
      (inr (take n bs), if Nat.ltb n (length bs) then NetData (drop n bs) :: rest else rest)
  end.

(** [read_all]: every iteration receives at least a byte or returns, so [n]
    iterations are enough. *)
Fixpoint read_all (n : nat) (fuel : nat) (got : list byte) (net : Net)
    : (string + list byte) * Net :=
  if Nat.leb n (length got) then (inr got, net)
  else match fuel with
  | O => (inl "out of fuel"%string, net)
  | S fuel =>
      match recv (n - length got) net with
      | (inl _, net) => (inl "recv error"%string, net)
      | (inr [], net) => (inl "connection closed during recv"%string, net)
      | (inr bs, net) => read_all n fuel (got ++ bs) net
      end
  end.

Inductive RecvResult :=
| Received (m : Message)
| RecvFailed (err : string)
| RecvOutOfBounds.

(** [recv_message]. A message that does not decode leaves [err] empty. *)
Definition recv_message (net : Net) : RecvResult * Net :=
  match read_all 8 8 [] net with
  | (inl err, net) => (RecvFailed err, net)
  | (inr (h0 :: h1 :: h2 :: h3 :: h4 :: h5 :: h6 :: h7 :: _), net) =>
      let len := be32 h0 h1 h2 h3 in
      let crc_want := be32 h4 h5 h6 h7 in
      if len =? 0 then (RecvFailed "zero-length frame", net)
      else if Z.shiftl 16 20 <? len then (RecvFailed "frame too large", net)
      else match read_all (Z.to_nat len) (Z.to_nat len) [] net with
      | (inl err, net) => (RecvFailed err, net)
      | (inr content, net) =>
          if negb (crc32 content =? crc_want) then (RecvFailed "frame checksum mismatch", net)
          else match decode_message content with
          | MsgOk m => (Received m, net)
          | MsgRejected => (RecvFailed EmptyString, net)
          | MsgOutOfBounds => (RecvOutOfBounds, net)
          end
      end
  | (inr _, net) => (RecvFailed EmptyString, net)
  end.

(** [send(sock, p, n)] after [sent] bytes: how many were taken, zero for a closed
    connection, negative for an error. *)
Class SendPlatform := send_result : list byte -> list byte -> Z.

Fixpoint write_all `{SendPlatform} (fuel : nat) (sent rest : list byte)
    : list byte * option string :=
  match rest with
  | [] => (sent, None)
  | _ =>
    match fuel with
    | O => (sent, Some "out of fuel"%string)
    | S fuel =>
        let r := send_result sent rest in
        if r =? 0 then (sent, Some "connection closed during send"%string)
        else if r <? 0 then (sent, Some "send error"%string)
        else write_all fuel (sent ++ take (Z.to_nat r) rest) (drop (Z.to_nat r) rest)
    end
  end.

(** [send_message]: the bytes that left, and the error if it returned [false]. *)
Definition send_message `{SendPlatform} (msg : Message) : list byte * option string :=
  match encode_message msg with
  | None => ([], Some "message encode failed"%string)
  | Some fr => write_all (length fr) [] fr
  end.
