(* ===== verification/ProtocolProofs.v ===== *)
(** * Correctness of the framed protocol

    Round trip of every message, independence from how the network cuts the stream,
    detection of corrupted frames, and the out-of-bounds read an event frame with a
    length near 2^32 causes. *)

From Stdlib Require Import Strings.Byte.
From stdpp Require Import base list strings numbers.
From S2P Require Import Prelude Float64 StdMap Identity Reader Kinds Entry Codec Crc CodecProofs Ledger.
From S2P Require Import Protocol.
Open Scope Z_scope.

(** ** Specification *)

Definition string_fits (s : string) : Prop := Z.of_nat (String.length s) < 2 ^ 32.

(** The C++ types of the members of a message, and strings and entries that are not
    dropped. *)
Definition message_ok (m : Message) : Prop :=
  match m with
  | Register r => id_wf (rg_worker r) /\ id_wf (rg_boot r)
  | RegisterAck a =>
      gen_wf (rk_epoch a) /\ gen_wf (rk_accounting_generation a) /\ string_fits (rk_reason a)
  | EventSubmit e => entry_wf e /\ fits_frame e
  | EventAck a => in_width 8 (ea_status a) /\ string_fits (ea_reason a)
  | Roll r => gen_wf (rl_epoch r) /\ gen_wf (rl_accounting_generation r)
  | Shutdown | Ping => True
  end.

(** The message as the receiver rebuilds it. *)
Definition received (m : Message) : Message :=
  match m with EventSubmit e => EventSubmit (canonical e) | _ => m end.

(** The stream will deliver [bs], in non-empty chunks cut anywhere, before [tail]. *)
Definition flows (net : Net) (bs : list byte) (tail : Net) : Prop :=
  exists chunks, net = (NetData <$> chunks) ++ tail /\ Forall (fun c => c <> []) chunks /\
    mjoin chunks = bs.

(** Receive [n] messages, as a reader loop does. *)
Fixpoint recv_messages (n : nat) (net : Net) : option (list Message) * Net :=
  match n with
  | O => (Some [], net)
  | S n =>
      match recv_message net with
      | (Received m, net) =>
          match recv_messages n net with
          | (Some ms, net) => (Some (m :: ms), net)
          | (None, net) => (None, net)
          end
      | (_, net) => (None, net)
      end
  end.

(** ** Encoding and decoding *)

Lemma whole_payload_reads m bs msg : reads m bs msg -> whole_payload m bs = MsgOk msg.
Proof.
  intros Hm. unfold whole_payload. rewrite (Hm (reader_of bs) []);
    [|by rewrite app_nil_r|simpl; lia].
  unfold remaining, advance, update; simpl. by rewrite Nat.add_0_r, Nat.leb_refl, Nat.sub_diag.
Qed.

Lemma msg_type_from_val t : msg_type_from (msg_type_val t) = t.
Proof. by destruct t. Qed.

Lemma decode_event_submit_frame e : entry_wf e -> fits_frame e -> encode_checks e = true ->
  let fr := frame (entry_payload e) in
  decode_event_submit (put_u32 (wrap 32 (Z.of_nat (length fr))) ++ fr) = MsgOk (EventSubmit (canonical e)).
Proof.
  intros Hwf Hfit Hc fr. pose proof (proj2 Hfit) as Hlen.
  assert (Z.of_nat (length fr) < 2 ^ 32) as Hl by (unfold fr; rewrite length_frame; lia).
  rewrite (wrap_small 32) by (unfold in_width; lia). unfold decode_event_submit.
  rewrite (reads_put_u32 (Z.of_nat (length fr)) ltac:(unfold in_width; lia)
             (reader_of (put_u32 (Z.of_nat (length fr)) ++ fr)) fr) by (done || simpl; lia).
  change (drop 4 (put_u32 (Z.of_nat (length fr)) ++ fr)) with fr.
  assert (remaining (advance (length (put_u32 (Z.of_nat (length fr))))
    (reader_of (put_u32 (Z.of_nat (length fr)) ++ fr))) = length fr) as ->.
  { rewrite rd_rest_length by (simpl; lia). done. }
  rewrite Z.eqb_refl. cbn [negb].
  pose proof (decode_entry_frame (entry_payload e) [] Hlen) as Hd.
  rewrite app_nil_r, decode_payload_entry_payload in Hd by done. fold fr in Hd.
  by rewrite Hd, Z.eqb_refl.
Qed.

Lemma decode_message_payload m payload : message_ok m -> message_payload m = Some payload ->
  decode_message (put_u8 (msg_type_val (message_type m)) ++ payload) = MsgOk (received m).
Proof.
  intros Hok Hp. unfold put_u8. cbn [app decode_message]. rewrite byte_to_Z_of_Z.
  rewrite Z.mod_small by (destruct m; simpl; lia). rewrite msg_type_from_val.
  destruct m as [[w b]|[ok [e] [g] s]|e|[st s]|[[e] [g]]| |]; cbn [message_ok message_payload
    message_type received rg_worker rg_boot rk_ok rk_epoch rk_accounting_generation rk_reason
    ea_status ea_reason rl_epoch rl_accounting_generation value] in Hok, Hp |- *; try (apply (inj Some) in Hp; subst payload).
  - destruct Hok. apply whole_payload_reads.
    eapply reads_bind; [by apply reads_put_id|].
    by apply (reads_bind_ret _ (fun b => Register (MkRegisterMsg w b))), reads_put_id.
  - destruct Hok as (? & ? & ?). apply whole_payload_reads.
    eapply reads_bind; [apply reads_put_bool8|]. eapply reads_bind; [by apply reads_put_u64|].
    eapply reads_bind; [by apply reads_put_u64|].
    by apply (reads_bind_ret _ (fun s => RegisterAck (MkRegisterAckMsg ok (MkGen e) (MkGen g) s))),
      reads_put_string.
  - destruct Hok. destruct (encode_entry e) as [fr|] eqn:He; [|done]. simplify_eq.
    apply encode_entry_Some in He as [Hc ->]. by apply decode_event_submit_frame.
  - destruct Hok. apply whole_payload_reads.
    eapply reads_bind; [by apply reads_put_u8|].
    by apply (reads_bind_ret _ (fun s => EventAck (MkEventAckMsg st s))), reads_put_string.
  - destruct Hok. apply whole_payload_reads.
    eapply reads_bind; [by apply reads_put_u64|].
    by apply (reads_bind_ret _ (fun g => Roll (MkRollMsg (MkGen e) (MkGen g)))), reads_put_u64.
  - done.
  - done.
Qed.

(** ** The stream *)

Lemma flows_nil tail : flows tail [] tail.
Proof. exists []. done. Qed.

(** One [recv] of at most [n] bytes from a stream that has data. *)
Lemma recv_flows n net b bs tail : (0 < n)%nat -> flows net (b :: bs) tail ->
  exists c rest net', c <> [] /\ (length c <= n)%nat /\ b :: bs = c ++ rest /\
    recv n net = (inr c, net') /\ flows net' rest tail.
Proof.
  intros Hn (chunks & -> & Hne & Hj). destruct chunks as [|c chunks]; [done|].
  apply list.Forall_cons in Hne as [Hc Hne]. cbn [fmap list_fmap app recv].
  exists (take n c), (drop n c ++ mjoin chunks).
  assert (take n c <> []) as Ht by (by destruct n, c; try lia).
  assert (b :: bs = take n c ++ drop n c ++ mjoin chunks) as Heq.
  { rewrite (assoc_L (++)), take_drop. by rewrite <- Hj. }
  destruct (Nat.ltb_spec n (length c)) as [Hlt|Hge].
  - eexists. split_and!; [done|rewrite length_take; lia|done|done|].
    exists (drop n c :: chunks). split_and!; [done| |done].
    constructor; [|done]. intros Hd%(f_equal length). rewrite length_drop in Hd. simpl in Hd. lia.
  - eexists. split_and!; [done|rewrite length_take; lia|done|done|].
    exists chunks. split_and!; [done|done|]. by rewrite drop_ge.
Qed.

Lemma read_all_flows n fuel got net bs rest tail :
  flows net (bs ++ rest) tail -> (length got + length bs = n)%nat -> (length bs <= fuel)%nat ->
  exists net', read_all n fuel got net = (inr (got ++ bs), net') /\ flows net' rest tail.
Proof.
  revert got net bs. induction fuel as [|fuel IH]; intros got net bs Hf Hn Hfuel; cbn [read_all].
  - destruct bs as [|b bs]; [|simpl in Hfuel; lia]. exists net.
    rewrite (proj2 (Nat.leb_le _ _)) by (simpl in Hn; lia). by rewrite app_nil_r.
  - destruct bs as [|b bs].
    { exists net. rewrite (proj2 (Nat.leb_le _ _)) by (simpl in Hn; lia). by rewrite app_nil_r. }
    rewrite (proj2 (Nat.leb_gt _ _)) by (simpl in Hn; lia).
    destruct (recv_flows (n - length got) net b (bs ++ rest) tail)
      as (c & rest' & net' & Hc & Hlen & Heq & -> & Hf'); [simpl in Hn; lia|done|].
    change (b :: bs ++ rest) with ((b :: bs) ++ rest) in Heq.
    assert (exists bs', b :: bs = c ++ bs' /\ rest' = bs' ++ rest) as (bs' & Hbs & ->).
    { exists (drop (length c) (b :: bs)).
      assert (length c <= length (b :: bs))%nat as Hcl by lia.
      split.
      - rewrite <- (take_drop (length c) (b :: bs)) at 1. f_equal.
        apply (f_equal (take (length c))) in Heq. rewrite take_app_length in Heq.
        by rewrite take_app_le in Heq.
      - apply (f_equal (drop (length c))) in Heq. rewrite drop_app_length in Heq.
        by rewrite drop_app_le in Heq. }
    destruct c as [|b' c]; [done|].
    destruct (IH (got ++ b' :: c) net' bs') as (net'' & -> & Hf''); [done| | |].
    + apply (f_equal length) in Hbs. rewrite length_app in Hbs. rewrite length_app. simpl in *. lia.
    + apply (f_equal length) in Hbs. rewrite length_app in Hbs. simpl in *. lia.
    + exists net''. split; [|done]. by rewrite <- (assoc_L (++)), <- Hbs.
Qed.

(** What [recv_message] does with a well-framed content, however it arrives. *)
Lemma recv_message_content net content crc rest tail :
  0 < Z.of_nat (length content) <= 2 ^ 24 -> in_width 32 crc ->
  flows net ((bytes32 (Z.of_nat (length content)) ++ bytes32 crc ++ content) ++ rest) tail ->
  exists net', flows net' rest tail /\
    recv_message net =
    (if negb (crc32 content =? crc) then RecvFailed "frame checksum mismatch"
     else match decode_message content with
          | MsgOk m => Received m
          | MsgRejected => RecvFailed EmptyString
          | MsgOutOfBounds => RecvOutOfBounds
          end, net').
Proof.
  intros Hlen Hcrc Hf. unfold recv_message.
  rewrite !(assoc_L (++)) in Hf. rewrite <- (assoc_L (++) _ content rest) in Hf.
  apply (read_all_flows 8 8 [] _ (bytes32 (Z.of_nat (length content)) ++ bytes32 crc)) in Hf
    as (net1 & Hr & Hf1); [|done|simpl; lia].
  rewrite Hr. unfold bytes32. cbn [app]. rewrite !be32_bytes32.
  rewrite !(wrap_small 32) by (unfold in_width in *; lia).
  rewrite (proj2 (Z.eqb_neq _ _)) by lia. change (Z.shiftl 16 20) with (2 ^ 24).
  rewrite (proj2 (Z.ltb_ge _ _)) by lia. rewrite Nat2Z.id.
  apply (read_all_flows (length content) (length content) [] _ content) in Hf1
    as (net2 & -> & Hf2); [|done|lia].
  exists net2. split; [done|]. cbn [app]. destruct (negb _); [done|].
  by destruct (decode_message content).
Qed.

(** ** Sending *)

Lemma write_all_prefix `{SendPlatform} fuel sent rest : (length rest <= fuel)%nat ->
  let '(out, err) := write_all fuel sent rest in
  (exists k, out = sent ++ take k rest) /\
  (err = None -> out = sent ++ rest) /\ err <> Some "out of fuel"%string.
Proof.
  revert sent rest. induction fuel as [|fuel IH]; intros sent rest Hf.
  - destruct rest; [|simpl in Hf; lia]. cbn. split_and!; [exists 0%nat|..]; by rewrite ?app_nil_r.
  - destruct rest as [|b rest].
    { cbn. split_and!; [exists 0%nat|..]; by rewrite ?app_nil_r. }
    cbn [write_all]. set (r := send_result sent (b :: rest)).
    destruct (Z.eqb_spec r 0); [|destruct (Z.ltb_spec r 0)].
    + split_and!; [exists 0%nat; by rewrite app_nil_r|done|done].
    + split_and!; [exists 0%nat; by rewrite app_nil_r|done|done].
    + specialize (IH (sent ++ take (Z.to_nat r) (b :: rest)) (drop (Z.to_nat r) (b :: rest))).
      destruct (write_all fuel _ _) as [out err].
      destruct IH as ((k & Hk) & Hok & Hfuel); [rewrite length_drop; simpl in *; lia|].
      rewrite <- (assoc_L (++)) in Hk, Hok. rewrite take_drop in Hok.
      split_and!; [|done|done]. exists (Z.to_nat r + k)%nat. rewrite Hk. f_equal.
      by rewrite take_take_drop.
Qed.

Lemma encode_message_frame m fr : encode_message m = Some fr ->
  Z.of_nat (length fr) <= 2 ^ 24 ->
  exists payload, message_payload m = Some payload /\
    let content := put_u8 (msg_type_val (message_type m)) ++ payload in
    fr = bytes32 (Z.of_nat (length content)) ++ bytes32 (crc32 content) ++ content /\
    0 < Z.of_nat (length content) <= 2 ^ 24.
Proof.
  unfold encode_message. destruct (message_payload m) as [payload|]; [|done].
  intros Heq Hlen. apply (inj Some) in Heq. subst fr. exists payload. split; [done|]. cbv zeta in *.
  assert (Z.of_nat (length (put_u8 (msg_type_val (message_type m)) ++ payload)) <= 2 ^ 24) as Hl.
  { rewrite !length_app in Hlen. rewrite length_app. simpl in *. lia. }
  split; [|simpl in *; lia]. by rewrite (wrap_small 32) by (unfold in_width; lia).
Qed.

Lemma recv_sent m fr net rest tail : message_ok m -> encode_message m = Some fr ->
  Z.of_nat (length fr) <= 2 ^ 24 -> flows net (fr ++ rest) tail ->
  exists net', recv_message net = (Received (received m), net') /\ flows net' rest tail.
Proof.
  intros Hok He Hlen Hf.
  destruct (encode_message_frame m fr He Hlen) as (payload & Hp & -> & Hl).
  apply recv_message_content in Hf as (net' & Hf' & Hr); [|done|apply crc32_width].
  exists net'. split; [|done]. rewrite Hr, Z.eqb_refl. cbn [negb].
  by rewrite decode_message_payload.
Qed.

(** ** Properties *)

(** C18: messages arrive as they were sent: whatever chunks the network cuts the
    concatenated frames into, receiving as many messages as were sent returns them
    in order (entries with unused optional identities at their defaults) and leaves
    the stream at the first byte after the last frame. *)
Theorem send_recv_messages ms frs net rest tail :
  Forall2 (fun m fr => message_ok m /\ encode_message m = Some fr /\
                       Z.of_nat (length fr) <= 2 ^ 24) ms frs ->
  flows net (mjoin frs ++ rest) tail ->
  exists net', recv_messages (length ms) net = (Some (received <$> ms), net') /\ flows net' rest tail.
Proof.
  intros Hms. revert net. induction Hms as [|m fr ms frs (Hok & He & Hl) _ IH]; intros net Hf.
  { by exists net. }
  cbn [mjoin list_join] in Hf. rewrite <- (assoc_L (++)) in Hf.
  destruct (recv_sent m fr net _ tail Hok He Hl Hf) as (net1 & Hr & Hf1).
  destruct (IH net1 Hf1) as (net2 & Hr2 & Hf2). exists net2. split; [|done].
  cbn [length recv_messages]. by rewrite Hr, Hr2.
Qed.

(** [send_message] writes a prefix of the frame and, when it reports success,
    the whole frame, however few bytes each [send] takes; its loop always ends. *)
Theorem send_message_writes `{SendPlatform} m out err :
  send_message m = (out, err) ->
  (err = None -> encode_message m = Some out) /\
  (forall fr, encode_message m = Some fr -> out `prefix_of` fr) /\
  err <> Some "out of fuel"%string.
Proof.
  unfold send_message. destruct (encode_message m) as [fr|] eqn:He.
  - intros Hw. pose proof (write_all_prefix (length fr) [] fr (le_n _)) as Hp. rewrite Hw in Hp.
    destruct Hp as ((k & ->) & Hok & Hfuel). split_and!; [|intros fr' [= <-]|done].
    + intros ->. by rewrite Hok.
    + simpl. exists (drop k fr). by rewrite take_drop.
  - intros [= <- <-]. split_and!; done.
Qed.

(** a frame whose content was altered in at most four adjacent bytes is
    refused with a checksum mismatch, and the stream stays in step: the next frame
    starts where the altered one ends. *)
Theorem recv_corrupted m content pre ws ws' post net rest tail :
  message_payload m = Some content ->
  put_u8 (msg_type_val (message_type m)) ++ content = pre ++ ws ++ post ->
  Z.of_nat (length content) < 2 ^ 24 ->
  length ws' = length ws -> (length ws <= 4)%nat -> ws' <> ws ->
  flows net ((bytes32 (Z.of_nat (length (pre ++ ws ++ post))) ++
              bytes32 (crc32 (pre ++ ws ++ post)) ++ (pre ++ ws' ++ post)) ++ rest) tail ->
  exists net', recv_message net = (RecvFailed "frame checksum mismatch", net') /\ flows net' rest tail.
Proof.
  intros Hp Hc Hlen Hw H4 Hne Hf.
  assert (length (pre ++ ws ++ post) = length (pre ++ ws' ++ post)) as Hl
    by (by rewrite !length_app, Hw).
  rewrite Hl in Hf.
  assert (0 < Z.of_nat (length (pre ++ ws' ++ post)) <= 2 ^ 24) as Hr.
  { rewrite <- Hl, <- Hc. simpl. lia. }
  apply recv_message_content in Hf as (net' & Hf' & ->); [|done|apply crc32_width].
  exists net'. split; [|done].
  rewrite (proj2 (Z.eqb_neq _ _)); [done|].
  apply crc32_burst; [done|lia|done].
Qed.

(** A peer can make the receiver read outside its buffer: an event submission
    whose checksum is right and whose inner entry frame announces a length of at
    least 2^32 - 8 passes every check of [decode_message], and [decode_entry] then
    runs past the end. *)
Theorem recv_event_out_of_bounds d0 d1 d2 d3 d4 d5 d6 d7 body net rest tail :
  2 ^ 32 - 8 <= be32 d0 d1 d2 d3 -> Z.of_nat (length body) < 2 ^ 20 ->
  let inner := d0 :: d1 :: d2 :: d3 :: d4 :: d5 :: d6 :: d7 :: body in
  let content := put_u8 3 ++ put_u32 (Z.of_nat (length inner)) ++ inner in
  flows net ((bytes32 (Z.of_nat (length content)) ++ bytes32 (crc32 content) ++ content) ++ rest) tail ->
  exists net', recv_message net = (RecvOutOfBounds, net').
Proof.
  intros Hbig Hbody inner content Hf.
  assert (length content = (13 + length body)%nat) as Hl by done.
  apply recv_message_content in Hf as (net' & _ & ->); [|lia|apply crc32_width].
  exists net'. rewrite Z.eqb_refl. cbn [negb].
  assert (decode_message content = MsgOutOfBounds) as ->; [|done].
  unfold content. change (put_u8 3) with [x03]. cbn [app decode_message].
  change (msg_type_from (byte_to_Z x03)) with TEventSubmit. unfold decode_event_submit.
  rewrite (reads_put_u32 (Z.of_nat (length inner)) ltac:(unfold in_width, inner; simpl; lia)
             (reader_of (put_u32 (Z.of_nat (length inner)) ++ inner)) inner) by (done || simpl; lia).
  rewrite rd_rest_length by (simpl; lia).
  change (rd_rest (advance _ _)) with inner. rewrite Z.eqb_refl. cbn [negb].
  change (drop 4 (put_u32 (Z.of_nat (length inner)) ++ inner)) with inner.
  unfold inner. by rewrite decode_entry_wraps by lia.
Qed.

(** ** Witnesses *)

Definition sample_ack : Message := EventAck (MkEventAckMsg 0 "accepted").

(** The bytes of a list in chunks of one. *)
Definition drip (bs : list byte) : Net := (fun b => NetData [b]) <$> bs.

Lemma drip_flows bs : flows (drip bs) bs [].
Proof.
  exists ((fun b => [b]) <$> bs). split_and!.
  - unfold drip. rewrite app_nil_r. by rewrite <- list_fmap_compose.
  - by apply list.Forall_fmap, list.Forall_true.
  - induction bs as [|b bs IH]; [done|]. cbn. by rewrite <- IH at 2.
Qed.

Lemma send_recv_messages_witness :
  exists fr1 fr2 net', encode_message sample_ack = Some fr1 /\ encode_message (EventSubmit sample_entry) = Some fr2 /\
    recv_messages 2 (drip (fr1 ++ fr2)) =
      (Some [sample_ack; EventSubmit (canonical sample_entry)], net').
Proof.
  destruct (encode_message sample_ack) as [fr1|] eqn:E1; [|by vm_compute in E1].
  destruct (encode_message (EventSubmit sample_entry)) as [fr2|] eqn:E2; [|by vm_compute in E2].
  exists fr1, fr2.
  destruct (send_recv_messages [sample_ack; EventSubmit sample_entry] [fr1; fr2] (drip (fr1 ++ fr2)) [] [])
    as (net' & Hr & _).
  - constructor; [|constructor; [|constructor]].
    + split_and!; [by vm_compute|exact E1|]. vm_compute in E1. injection E1 as <-. by vm_compute.
    + split_and!; [exact (conj sample_entry_wf sample_entry_fits)|exact E2|].
      vm_compute in E2. injection E2 as <-. by vm_compute.
  - cbn [mjoin list_join]. rewrite !app_nil_r. apply drip_flows.
  - exists net'. split; [reflexivity|]. split; [reflexivity|]. exact Hr.
Defined.

(** A platform that takes three bytes at a time. *)
Lemma send_message_writes_witness :
  let _ : SendPlatform := fun _ _ => 3 in
  exists fr, send_message sample_ack = (fr, None) /\ encode_message sample_ack = Some fr.
Proof.
  intros P. destruct (send_message sample_ack) as [out err] eqn:E.
  assert (err = None) as -> by (vm_compute in E; by injection E).
  exists out. split; [reflexivity|].
  exact (proj1 (send_message_writes sample_ack out None E) eq_refl).
Defined.

(** The status byte of an acknowledgement flipped in transit. *)
Lemma recv_corrupted_witness :
  exists net', recv_message (drip (bytes32 14 ++ bytes32 (crc32 ([x04] ++ [x00] ++
      (put_string "accepted"))) ++ ([x04] ++ [x03] ++ put_string "accepted"))) =
    (RecvFailed "frame checksum mismatch", net').
Proof.
  destruct (recv_corrupted sample_ack ([x00] ++ put_string "accepted") [x04] [x00] [x03]
    (put_string "accepted")
    (drip (bytes32 14 ++ bytes32 (crc32 ([x04] ++ [x00] ++ (put_string "accepted"))) ++
           ([x04] ++ [x03] ++ put_string "accepted"))) [] []) as (net' & Hr & _).
  - by vm_compute.
  - by vm_compute.
  - by vm_compute.
  - reflexivity.
  - apply Nat.leb_le. reflexivity.
  - discriminate.
  - rewrite app_nil_r. apply drip_flows.
  - exists net'. exact Hr.
Defined.

Lemma recv_event_out_of_bounds_witness :
  let content := put_u8 3 ++ put_u32 8 ++ [xff; xff; xff; xff; x00; x00; x00; x00] in
  exists net', recv_message (drip (bytes32 13 ++ bytes32 (crc32 content) ++ content)) =
    (RecvOutOfBounds, net').
Proof.
  intros content.
  apply (recv_event_out_of_bounds xff xff xff xff x00 x00 x00 x00 [] _ [] []).
  - by vm_compute.
  - by vm_compute.
  - rewrite app_nil_r. apply drip_flows.
Defined.
