(* ===== verification/Coordinator.v ===== *)
(** * The coordinator (coordinator.hpp, coordinator.cpp)

    The coordinator's threads as a transition system. A connection is its position
    in [all_conns_]; [co_sent] records every message handed to [send_message], with
    its connection. Between two steps any thread may run:

    - the acceptor adds a connection ([accept_conn]);
    - the reader of a connection receives a message or fails ([read_message],
      [read_failed]), and only enqueues work or answers a ping;
    - the accounting thread takes a work item and handles it ([acct_step]). A handler
      is split where it releases a lock, so that other threads run in between:
      [AcctPc] is where the accounting thread is;
    - callers of the public interface advance the epoch, set a request's authority,
      enqueue an event, or stop the coordinator.

    Each step is the code between two lock boundaries, which no other thread can
    observe half done.

    Acceptor and readers test [running_] at the top of their loops and then block in
    [accept] or [recv_message], so that what arrives after [stop] is still taken by a
    thread that had passed its test. The flag only ever goes from true to false while
    the threads run: a thread that comes back to its test while the flag is true may
    pass it and go on, at whatever time its call returns; one that comes back later
    leaves its loop. A step therefore records whether the flag was still true when
    its thread came back ([cn_reading], [co_accepting]); [read_exit] and
    [accept_exit] are the tests that fail. *)

From stdpp Require Import base gmap list strings numbers.
From S2P Require Import Prelude Float64 Identity Kinds Entry CodecProofs Authority Ledger Protocol.
Open Scope Z_scope.

(** ** State *)

Record Conn := MkConn {
  cn_worker : WorkerId;
  cn_registered : bool;
  cn_reading : bool   (** its reader thread has not left its loop *)
}.

#[export] Instance Conn_rebuild : Rebuild Conn := fun c =>
  MkConn (cn_worker c) (cn_registered c) (cn_reading c).

(** A [WorkItem]; its [conn] is null when it came from [enqueue_event]. *)
Inductive WorkItem :=
| WEvent (conn : option nat) (entry : LedgerEntry)
| WRegister (conn : nat) (reg : RegisterMsg)
| WWorkerLost (conn : nat) (worker : WorkerId).

(** Where the accounting thread is. *)
Inductive AcctPc :=
| Ready                                    (** at the top of [accounting_loop] *)
| RegStored (conn : nat) (reg : RegisterMsg) (epoch : CoordinatorEpoch) (ag : AccountingGeneration)
| AckDue (conn : nat) (ack : Message)
| LostRolled (worker : WorkerId)           (** in-flight requests are marked *)
| LostAdvanced (worker : WorkerId)         (** [advance_epoch] returned *)
| LostGathered (targets : list nat)        (** the surviving sockets are known *)
| RollDue (targets : list nat) (roll : RollMsg)
| Exited.

Record Coordinator := MkCoordinator {
  co_ledger : Ledger;
  co_authority : AuthorityState;
  co_in_flight : gset RequestId;
  co_conns : list Conn;
  co_queue : list WorkItem;
  co_pc : AcctPc;
  co_sent : list (nat * Message);
  co_accepting : bool;   (** the acceptor has not left its loop *)
  co_running : bool;
  co_stop_requested : bool
}.

#[export] Instance Coordinator_rebuild : Rebuild Coordinator := fun s =>
  MkCoordinator (co_ledger s) (co_authority s) (co_in_flight s) (co_conns s) (co_queue s)
    (co_pc s) (co_sent s) (co_accepting s) (co_running s) (co_stop_requested s).

(** [Coordinator(ledger_id)], then [start]: the ledger is attached to the
    coordinator's own authority state. *)
Definition coordinator_new (ledger_id : LedgerId) : Coordinator :=
  MkCoordinator (ledger_new ledger_id)
    (authority_default <| as_epoch := MkGen 1 |> <| as_accounting_generation := MkGen 1 |>)
    ∅ [] [] Ready [] true true false.

(** ** Public operations *)

Definition advance_authority (a : AuthorityState) : AuthorityState :=
  a <| as_epoch ::= next |> <| as_accounting_generation ::= next |>.

Definition advance_epoch (s : Coordinator) : Coordinator := s <| co_authority ::= advance_authority |>.

(** What a [RequestStart] (or a caller) makes the authority adopt. *)
Definition adopt_request (e : LedgerEntry) (a : AuthorityState) : AuthorityState :=
  a <| as_request_generation ::= <[e_request e := au_request_generation (e_authority e)]> |>
    <| as_current_attempt ::= <[e_request e := au_attempt (e_authority e)]> |>
    <| as_attempt_generation ::= <[e_request e := au_attempt_generation (e_authority e)]> |>
    <| as_request_rolled ::= <[e_request e := false]> |>.

Definition set_request_authority (e : LedgerEntry) (s : Coordinator) : Coordinator :=
  s <| co_authority ::= adopt_request e |>.

Definition enqueue (w : WorkItem) (s : Coordinator) : Coordinator :=
  s <| co_queue ::= fun q => q ++ [w] |>.

Definition enqueue_event (e : LedgerEntry) (s : Coordinator) : Coordinator := enqueue (WEvent None e) s.

Definition connected_workers (s : Coordinator) : nat :=
  length (filter (fun c => cn_registered c = true) (co_conns s)).

Definition stop (s : Coordinator) : Coordinator :=
  s <| co_stop_requested := true |> <| co_running := false |>.

Definition send (c : nat) (m : Message) (s : Coordinator) : Coordinator :=
  s <| co_sent ::= fun l => l ++ [(c, m)] |>.

(** ** Acceptor and readers *)

(** One iteration of [accept_loop] in which [accept] succeeds: the connection is
    added, its reader is started, and both threads come to their test. *)
Definition accept_conn (s : Coordinator) : option Coordinator :=
  if co_accepting s then
    Some (s <| co_conns ::= fun l => l ++ [MkConn id_zero false (co_running s)] |>
            <| co_accepting := co_running s |>)
  else None.

(** [accept_loop] ends: its test fails, or [accept] fails after [stop]. A failure
    before that changes nothing. *)
Definition accept_exit (s : Coordinator) : option Coordinator :=
  if co_accepting s && (negb (co_running s) || co_stop_requested s)
  then Some (s <| co_accepting := false |>) else None.

(** The reader of a connection is in its loop, or out of it. *)
Definition set_reading (c : nat) (b : bool) (s : Coordinator) : Coordinator :=
  s <| co_conns ::= alter (fun x => x <| cn_reading := b |>) c |>.

(** One iteration of [read_loop] in which [recv_message] succeeds. *)
Definition read_message (c : nat) (msg : Message) (s : Coordinator) : option Coordinator :=
  match co_conns s !! c with
  | Some conn =>
      if cn_reading conn then
        let s := match msg with
          | Register reg => enqueue (WRegister c reg) s
          | EventSubmit e => enqueue (WEvent (Some c) e) s
          | Ping => send c Ping s
          | _ => s
          end in
        Some (set_reading c (co_running s) s)
      else None
  | None => None
  end.

(** The test of [read_loop] fails: the thread ends and reports nothing. *)
Definition read_exit (c : nat) (s : Coordinator) : option Coordinator :=
  match co_conns s !! c with
  | Some conn => if cn_reading conn && negb (co_running s) then Some (set_reading c false s) else None
  | None => None
  end.

(** [read_loop] after a failed [recv_message]: the thread ends, and a registered
    worker is reported lost. *)
Definition read_failed (c : nat) (s : Coordinator) : option Coordinator :=
  match co_conns s !! c with
  | Some conn =>
      if cn_reading conn then
        let s := if cn_registered conn then enqueue (WWorkerLost c (cn_worker conn)) s else s in
        Some (set_reading c false s)
      else None
  | None => None
  end.

(** ** The accounting thread *)

(** [handle_registration] under the lock. *)
Definition store_registration (c : nat) (reg : RegisterMsg) (s : Coordinator) : Coordinator :=
  let s := s <| co_authority ::= fun a => a <| as_worker_boot ::= <[rg_worker reg := rg_boot reg]> |> |> in
  s <| co_pc := RegStored c reg (as_epoch (co_authority s))
                  (as_accounting_generation (co_authority s)) |>.

(** [handle_event] under the lock. *)
Definition account_event (c : nat) (e : LedgerEntry) (s : Coordinator) : Coordinator :=
  let s := if bool_decide (e_event_kind e = RequestStart)
           then s <| co_authority ::= adopt_request e |> else s in
  let (l, ar) := append (Some (co_authority s)) (co_ledger s) e in
  let s := s <| co_ledger := l |> in
  let s :=
    if bool_decide (ar_status ar = Accepted) then
      if bool_decide (e_event_kind e = RequestStart) then s <| co_in_flight ::= union {[e_request e]} |>
      else if bool_decide (e_event_kind e = RequestEnd)
      then s <| co_in_flight ::= fun f => f ∖ {[e_request e]} |>
      else s
    else s in
  s <| co_pc := AckDue c (EventAck (MkEventAckMsg (append_status_val (ar_status ar)) (ar_reason ar))) |>.

(** [handle_worker_lost] under its first lock: every in-flight request is rolled. *)
Definition roll_in_flight (worker : WorkerId) (s : Coordinator) : Coordinator :=
  s <| co_authority ::= fun a =>
         a <| as_request_rolled ::= fun m => set_fold (fun r m => <[r := true]> m) m (co_in_flight s) |> |>
    <| co_pc := LostRolled worker |>.

(** The connections [handle_worker_lost] notifies. *)
Definition survivors (worker : WorkerId) (conns : list Conn) : list nat :=
  (filter (fun ic => cn_registered ic.2 = true /\ cn_worker ic.2 <> worker) (imap pair conns)).*1.

Inductive AcctResult := Stepped (s : Coordinator) | Waiting | NullDeref.

(** One step of the accounting thread. *)
Definition acct_step (s : Coordinator) : AcctResult :=
  match co_pc s with
  | Ready =>
      match co_queue s with
      | [] => if co_stop_requested s then Stepped (s <| co_pc := Exited |>) else Waiting
      | w :: q =>
          let s := s <| co_queue := q |> in
          match w with
          | WRegister c reg => Stepped (store_registration c reg s)
          | WEvent (Some c) e => Stepped (account_event c e s)
          | WEvent None e => NullDeref
          | WWorkerLost _ worker => Stepped (roll_in_flight worker s)
          end
      end
  | RegStored c reg epoch ag =>
      Stepped (s <| co_conns ::= alter (fun x => x <| cn_worker := rg_worker reg |>
                                                  <| cn_registered := true |>) c |>
                 <| co_pc := AckDue c (RegisterAck (MkRegisterAckMsg true epoch ag "registered")) |>)
  | AckDue c ack => Stepped (send c ack s <| co_pc := Ready |>)
  | LostRolled worker => Stepped (advance_epoch s <| co_pc := LostAdvanced worker |>)
  | LostAdvanced worker => Stepped (s <| co_pc := LostGathered (survivors worker (co_conns s)) |>)
  | LostGathered targets =>
      Stepped (s <| co_pc := RollDue targets (MkRollMsg (as_epoch (co_authority s))
                               (as_accounting_generation (co_authority s))) |>)
  | RollDue targets roll =>
      Stepped (s <| co_sent ::= fun l => l ++ ((fun t => (t, Roll roll)) <$> targets) |>
                 <| co_pc := Ready |>)
  | Exited => Waiting
  end.

(** ** The transition system *)

Inductive Action :=
| AAccept | AAcceptExit | ARead (c : nat) (m : Message) | AReadFailed (c : nat) | AReadExit (c : nat)
| AAccount
| AAdvance | ASetAuthority (e : LedgerEntry) | AEnqueue (e : LedgerEntry) | AStop.

Definition perform (a : Action) (s : Coordinator) : option Coordinator :=
  match a with
  | AAccept => accept_conn s
  | AAcceptExit => accept_exit s
  | ARead c m => read_message c m s
  | AReadFailed c => read_failed c s
  | AReadExit c => read_exit c s
  | AAccount => match acct_step s with Stepped s => Some s | _ => None end
  | AAdvance => Some (advance_epoch s)
  | ASetAuthority e => Some (set_request_authority e s)
  | AEnqueue e => Some (enqueue_event e s)
  | AStop => Some (stop s)
  end.

Inductive steps : list Action -> Coordinator -> Coordinator -> Prop :=
| steps_nil s : steps [] s s
| steps_cons a l s s1 s2 : perform a s = Some s1 -> steps l s1 s2 -> steps (a :: l) s s2.

(** A run as a function, for concrete executions. *)
Fixpoint run (l : list Action) (s : Coordinator) : option Coordinator :=
  match l with
  | [] => Some s
  | a :: l => match perform a s with Some s => run l s | None => None end
  end.

Definition reachable (id : LedgerId) (s : Coordinator) : Prop :=
  exists l, steps l (coordinator_new id) s.

(** The steps that advance the epoch: an outside call, or the accounting thread
    handling a lost worker. *)
Definition rolls (a : Action) (s : Coordinator) : bool :=
  match a, co_pc s with
  | AAdvance, _ => true
  | AAccount, LostRolled _ => true
  | _, _ => false
  end.
