(* ===== verification/CoordinatorProofs.v ===== *)
(** * Correctness of the coordinator

    Invariants of every reachable state, by induction over the interleaved steps of
    its threads; fencing of events from earlier epochs and of rolled requests;
    functional correctness of the handlers; draining of the queue. *)

From Stdlib Require Import Sorting.Sorted.
From stdpp Require Import base gmap list strings numbers.
From S2P Require Import Prelude Float64 Identity Kinds Entry CodecProofs Authority Ledger Protocol Coordinator.
Open Scope Z_scope.

(** ** Specification *)

(** The requests with an open [RequestStart], by the ledger's own records. *)
Definition in_flight_step (f : gset RequestId) (e : LedgerEntry) : gset RequestId :=
  match e_event_kind e with
  | RequestStart => {[e_request e]} ∪ f
  | RequestEnd => f ∖ {[e_request e]}
  | _ => f
  end.

Definition in_flight_of (es : list LedgerEntry) : gset RequestId := fold_left in_flight_step es ∅.

(** Runs, counting the steps that advance the epoch. *)
Inductive trace : Z -> Coordinator -> Coordinator -> Prop :=
| trace_refl s : trace 0 s s
| trace_step n a s s1 s2 : trace n s s1 -> perform a s1 = Some s2 ->
    trace (if rolls a s1 then n + 1 else n) s s2.

(** The step makes the authority adopt the request [r] anew. *)
Definition adopts (r : RequestId) (a : Action) (s : Coordinator) : Prop :=
  match a, co_pc s, co_queue s with
  | ASetAuthority e, _, _ => e_request e = r
  | AAccount, Ready, WEvent (Some _) e :: _ => e_event_kind e = RequestStart /\ e_request e = r
  | _, _, _ => False
  end.

(** Runs in which nothing adopts [r]. *)
Inductive unadopted (r : RequestId) : Coordinator -> Coordinator -> Prop :=
| unadopted_refl s : unadopted r s s
| unadopted_step a s s1 s2 : unadopted r s s1 -> ~ adopts r a s1 -> perform a s1 = Some s2 ->
    unadopted r s s2.

Record coordinator_wf (s : Coordinator) : Prop := {
  cw_ledger : ledger_wf (co_ledger s);
  cw_in_flight : co_in_flight s = in_flight_of (lg_entries (co_ledger s));
  cw_generations : value (as_epoch (co_authority s)) = value (as_accounting_generation (co_authority s));
  cw_epoch : gen_wf (as_epoch (co_authority s));
  cw_scope : as_enforce_request_scope (co_authority s) = true
}.

(** ** Handlers *)

(** The authority an event is judged under: a [RequestStart] is adopted first. *)
Definition judging_authority (e : LedgerEntry) (a : AuthorityState) : AuthorityState :=
  if bool_decide (e_event_kind e = RequestStart) then adopt_request e a else a.

Lemma judging_authority_fields e a :
  as_epoch (judging_authority e a) = as_epoch a /\
  as_accounting_generation (judging_authority e a) = as_accounting_generation a /\
  as_worker_boot (judging_authority e a) = as_worker_boot a /\
  as_enforce_request_scope (judging_authority e a) = as_enforce_request_scope a.
Proof. unfold judging_authority. by case_bool_decide. Qed.

Definition event_ack (ar : AppendResult) : Message :=
  EventAck (MkEventAckMsg (append_status_val (ar_status ar)) (ar_reason ar)).

Lemma account_event_fields c e s :
  let r := append (Some (judging_authority e (co_authority s))) (co_ledger s) e in
  let s' := account_event c e s in
  co_ledger s' = r.1 /\ co_authority s' = judging_authority e (co_authority s) /\
  co_in_flight s' =
    (if bool_decide (ar_status r.2 = Accepted) then in_flight_step (co_in_flight s) e else co_in_flight s) /\
  co_conns s' = co_conns s /\ co_queue s' = co_queue s /\ co_sent s' = co_sent s /\
  co_running s' = co_running s /\ co_stop_requested s' = co_stop_requested s /\
  co_pc s' = AckDue c (event_ack r.2).
Proof.
  unfold account_event, judging_authority, in_flight_step. cbv zeta.
  case_bool_decide as Hk;
    change (co_authority (s <| co_authority ::= adopt_request e |>)) with (adopt_request e (co_authority s));
    change (co_ledger (s <| co_authority ::= adopt_request e |>)) with (co_ledger s);
    destruct (append (Some _) (co_ledger s) e) as [l ar]; cbn [fst snd];
    destruct (bool_decide (ar_status ar = Accepted)); destruct (e_event_kind e);
    try done; split_and!; reflexivity.
Qed.

(** Marking a set of requests. *)
Lemma roll_lookup (X : gset RequestId) (m : gmap RequestId bool) r :
  (set_fold (fun r m => <[r := true]> m) m X : gmap RequestId bool) !! r =
  if decide (r ∈ X) then Some true else m !! r.
Proof.
  assert ((r ∈ X -> (set_fold (fun r m => <[r := true]> m) m X : gmap RequestId bool) !! r = Some true) /\
          (r ∉ X -> (set_fold (fun r m => <[r := true]> m) m X : gmap RequestId bool) !! r = m !! r))
    as [Hin Hout]; [|case_decide; auto].
  apply (set_fold_ind_L (fun (m' : gmap RequestId bool) (X : gset RequestId) =>
    (r ∈ X -> m' !! r = Some true) /\ (r ∉ X -> m' !! r = m !! r))).
  - set_solver.
  - intros x Y m' Hx [IH1 IH2]. destruct (decide (r = x)) as [->|Hne].
    + rewrite lookup_insert_eq. set_solver.
    + rewrite lookup_insert_ne by done. set_solver.
Qed.

Lemma adopt_request_rolled r e a : e_request e <> r ->
  as_request_rolled (adopt_request e a) !! r = as_request_rolled a !! r.
Proof.
  intros Hne. change (as_request_rolled (adopt_request e a)) with
    (<[e_request e := false]> (as_request_rolled a)). by rewrite lookup_insert_ne.
Qed.

(** What a step can do to the ledger and to the authority: an event is accounted,
    or the ledger stays and only the fields below change. *)
Lemma perform_cases a s s' : perform a s = Some s' ->
  (co_ledger s' = co_ledger s /\ co_in_flight s' = co_in_flight s /\
   as_epoch (co_authority s') =
     (if rolls a s then next (as_epoch (co_authority s)) else as_epoch (co_authority s)) /\
   as_accounting_generation (co_authority s') =
     (if rolls a s then next (as_accounting_generation (co_authority s))
      else as_accounting_generation (co_authority s)) /\
   as_enforce_request_scope (co_authority s') = as_enforce_request_scope (co_authority s) /\
   (forall r, ~ adopts r a s -> as_request_rolled (co_authority s) !! r = Some true ->
      as_request_rolled (co_authority s') !! r = Some true)) \/
  (exists c e q, a = AAccount /\ co_pc s = Ready /\ co_queue s = WEvent (Some c) e :: q /\
     s' = account_event c e (s <| co_queue := q |>)).
Proof.
  intros Hp. destruct a as [| |c m|c|c| | |e|e|]; cbn [perform] in Hp.
  - left. unfold accept_conn in Hp. destruct (co_accepting s); [|done]. by simplify_eq.
  - left. unfold accept_exit in Hp. destruct (_ && _); [|done]. by simplify_eq.
  - left. unfold read_message in Hp. destruct (co_conns s !! c) as [conn|]; [|done].
    destruct (cn_reading conn); [|done]. destruct m; by simplify_eq.
  - left. unfold read_failed in Hp. destruct (co_conns s !! c) as [conn|]; [|done].
    destruct (cn_reading conn); [|done]. destruct (cn_registered conn); by simplify_eq.
  - left. unfold read_exit in Hp. destruct (co_conns s !! c) as [conn|]; [|done].
    destruct (_ && _); [|done]. by simplify_eq.
  - unfold acct_step in Hp. unfold rolls, adopts. destruct (co_pc s) eqn:Hpc.
    + destruct (co_queue s) as [|w q] eqn:Hq.
      { left. destruct (co_stop_requested s); by simplify_eq. }
      destruct w as [[c|] e|c reg|c w]; [|done|..]; simplify_eq.
      * right. by exists c, e, q.
      * left. done.
      * left. split_and!; try done. intros r _ Hr. unfold roll_in_flight.
        change (set_fold (fun r m => <[r := true]> m) (as_request_rolled (co_authority s))
          (co_in_flight s) !! r = Some true). rewrite roll_lookup. by case_decide.
    + left. by simplify_eq.
    + left. by simplify_eq.
    + left. by simplify_eq.
    + left. by simplify_eq.
    + left. by simplify_eq.
    + left. by simplify_eq.
    + done.
  - left. by simplify_eq.
  - left. simplify_eq. split_and!; try done. intros r Hr Hrolled. simpl in Hr.
    unfold set_request_authority.
    change (as_request_rolled (adopt_request e (co_authority s)) !! r = Some true).
    by rewrite adopt_request_rolled.
  - left. by simplify_eq.
  - left. by simplify_eq.
Qed.

(** ** Invariant *)

Lemma in_flight_of_snoc es e : in_flight_of (es ++ [e]) = in_flight_step (in_flight_of es) e.
Proof. unfold in_flight_of. by rewrite fold_left_app. Qed.

Lemma account_event_wf c e s : coordinator_wf s -> coordinator_wf (account_event c e s).
Proof.
  intros [Hl Hf Hg He Hs].
  destruct (account_event_fields c e s) as (Fl & Fa & Ff & _).
  destruct (judging_authority_fields e (co_authority s)) as (Je & Jg & _ & Js).
  split; rewrite ?Fl, ?Fa, ?Je, ?Jg, ?Js; try done.
  - by apply append_wf.
  - rewrite Ff, Hf. destruct (append _ _ e) as [l' ar] eqn:E. cbn [fst snd].
    apply append_cases in E as [[-> Hn]|(Ha & _ & _ & _ & ->)].
    + by rewrite bool_decide_eq_false_2.
    + rewrite bool_decide_eq_true_2 by done. cbn [lg_entries]. by rewrite in_flight_of_snoc.
Qed.

Lemma next_value_eq {T1 T2} (g1 : Generation T1) (g2 : Generation T2) :
  value g1 = value g2 -> value (next g1) = value (next g2).
Proof. unfold next. simpl. congruence. Qed.

Lemma perform_wf a s s' : coordinator_wf s -> perform a s = Some s' -> coordinator_wf s'.
Proof.
  intros Hwf [(Hl & Hf & He & Hg & Hs & _)|(c & e & q & _ & _ & _ & ->)]%perform_cases.
  - destruct Hwf as [Wl Wf Wg We Ws].
    split; rewrite ?Hl, ?Hf, ?He, ?Hg, ?Hs; try done;
      destruct (rolls a s); auto using next_value_eq.
  - apply account_event_wf. by destruct Hwf.
Qed.

Lemma coordinator_new_wf id : coordinator_wf (coordinator_new id).
Proof. pose proof (ledger_new_wf id). by split. Qed.

Lemma steps_wf l s s' : steps l s s' -> coordinator_wf s -> coordinator_wf s'.
Proof. induction 1; eauto using perform_wf. Qed.

Lemma trace_wf n s s' : trace n s s' -> coordinator_wf s -> coordinator_wf s'.
Proof. induction 1; eauto using perform_wf. Qed.

(** ** Append-only *)

Lemma perform_prefix a s s' : perform a s = Some s' ->
  lg_entries (co_ledger s) `prefix_of` lg_entries (co_ledger s').
Proof.
  intros [(-> & _)|(c & e & q & _ & _ & _ & ->)]%perform_cases; [done|].
  destruct (account_event_fields c e (s <| co_queue := q |>)) as (-> & _).
  apply (append_prefix _ (co_ledger s)).
Qed.

Lemma steps_prefix l s s' : steps l s s' ->
  lg_entries (co_ledger s) `prefix_of` lg_entries (co_ledger s').
Proof. induction 1; [done|]. etrans; [by eapply perform_prefix|done]. Qed.

(** ** Epochs *)

Lemma perform_epoch a s s' : perform a s = Some s' ->
  as_epoch (co_authority s') =
    (if rolls a s then next (as_epoch (co_authority s)) else as_epoch (co_authority s)).
Proof.
  intros [(_ & _ & He & _)|(c & e & q & -> & Hpc & _ & ->)]%perform_cases; [done|].
  destruct (account_event_fields c e (s <| co_queue := q |>)) as (_ & -> & _).
  unfold rolls. rewrite Hpc. apply (judging_authority_fields e (co_authority s)).
Qed.

Lemma trace_epoch n s s' : trace n s s' ->
  0 <= n /\ value (as_epoch (co_authority s')) = wrap 64 (value (as_epoch (co_authority s)) + n) \/
  ~ gen_wf (as_epoch (co_authority s)).
Proof.
  induction 1 as [s|n a s s1 s2 _ IH Hp%perform_epoch].
  - destruct (decide (0 <= value (as_epoch (co_authority s)) < 2 ^ 64)) as [Hw|Hw]; [left|by right].
    split; [lia|]. by rewrite Z.add_0_r, wrap_small.
  - destruct IH as [[Hn IH]|]; [left|by right]. rewrite Hp. destruct (rolls a s1); [|done].
    split; [lia|]. unfold next. cbn [value]. rewrite IH, wrap_add_l. f_equal. lia.
Qed.

Lemma trace_epoch_ne n s s' : trace n s s' -> gen_wf (as_epoch (co_authority s)) -> 0 < n < 2 ^ 64 ->
  as_epoch (co_authority s) <> as_epoch (co_authority s').
Proof.
  intros [[_ He]|]%trace_epoch Hw Hn Heq; [|done]. rewrite <- Heq in He.
  unfold gen_wf, in_width, wrap in *. destruct (as_epoch (co_authority s)) as [v].
  cbn [value] in *. divlia.
Qed.

(** An event of another epoch changes neither the ledger nor the set of open
    requests, and is answered with a refusal. *)
Lemma account_event_stale c e s : au_epoch (e_authority e) <> as_epoch (co_authority s) ->
  co_ledger (account_event c e s) = co_ledger s /\
  co_in_flight (account_event c e s) = co_in_flight s /\
  co_pc (account_event c e s) =
    AckDue c (event_ack (if content_is_valid e then MkAppendResult Stale "stale_epoch"
                         else MkAppendResult Invalid "invalid content")).
Proof.
  intros Hne. destruct (account_event_fields c e s) as (-> & _ & -> & _ & _ & _ & _ & _ & ->).
  assert (append (Some (judging_authority e (co_authority s))) (co_ledger s) e =
    (co_ledger s, if content_is_valid e then MkAppendResult Stale "stale_epoch"
                  else MkAppendResult Invalid "invalid content")) as ->.
  { unfold append. destruct (content_is_valid e); [cbn [negb]|done].
    rewrite validate_stale_epoch; [done|].
    by rewrite (proj1 (judging_authority_fields e (co_authority s))). }
  cbn [fst snd]. by destruct (content_is_valid e).
Qed.

Lemma StronglySorted_snoc (l : list Z) x :
  StronglySorted Z.le l -> Forall (fun y => y <= x) l -> StronglySorted Z.le (l ++ [x]).
Proof.
  induction 1 as [|y l Hs IH Hall]; intros Hx; simpl; [repeat constructor|].
  apply list.Forall_cons in Hx as [Hy Hx]. constructor; [by apply IH|].
  apply Forall_app. split; [done|]. by constructor.
Qed.

Definition entry_epoch (e : LedgerEntry) : Z := value (au_epoch (e_authority e)).

Definition epochs_in_order (s : Coordinator) : Prop :=
  StronglySorted Z.le (entry_epoch <$> lg_entries (co_ledger s)) /\
  Forall (fun v => v <= value (as_epoch (co_authority s))) (entry_epoch <$> lg_entries (co_ledger s)).

Lemma account_event_epochs c e s : epochs_in_order s -> epochs_in_order (account_event c e s).
Proof.
  intros [Hs Hall]. unfold epochs_in_order.
  destruct (account_event_fields c e s) as (-> & -> & _).
  destruct (judging_authority_fields e (co_authority s)) as (Je & _). rewrite Je.
  destruct (append _ _ e) as [l' ar] eqn:E. cbn [fst].
  apply append_cases in E as [[-> _]|(_ & _ & _ & Hv & ->)]; [done|].
  specialize (Hv _ eq_refl). apply validate_authority_iff in Hv as [He _ _ _ _ _ _].
  rewrite Je in He. cbn [lg_entries]. rewrite fmap_app. split.
  - apply StronglySorted_snoc; [done|]. unfold entry_epoch at 1. by rewrite He.
  - apply Forall_app. split; [done|]. constructor; [|constructor]. unfold entry_epoch. rewrite He. lia.
Qed.

Lemma trace_epochs n id s : trace n (coordinator_new id) s -> n < 2 ^ 64 - 1 -> epochs_in_order s.
Proof.
  intros Ht. remember (coordinator_new id) as s0 eqn:H0.
  induction Ht as [s|n a s s1 s2 Ht IH Hp]; intros Hn; subst; [by split; constructor|].
  assert (epochs_in_order s1) as IH' by (apply IH; [done|]; destruct (rolls a s1); lia).
  destruct (trace_epoch _ _ _ Ht) as [[Hn0 He]|]; [|exfalso; apply H; by vm_compute].
  change (value (as_epoch (co_authority (coordinator_new id)))) with 1 in He.
  apply perform_cases in Hp as [(Hl & _ & He2 & _)|(c & e & q & _ & _ & _ & ->)].
  - unfold epochs_in_order in *. rewrite Hl, He2. destruct IH' as [Hs Hall]. split; [done|].
    destruct (rolls a s1); [|done]. eapply list.Forall_impl; [exact Hall|]. cbv beta. intros v Hv.
    unfold next. cbn [value]. rewrite He in Hv |- *. rewrite wrap_add_l.
    rewrite wrap_small in Hv by (unfold in_width; lia). rewrite wrap_small by (unfold in_width; lia). lia.
  - by apply account_event_epochs.
Qed.

(** ** Rolled requests *)

Lemma unadopted_rolled r s s' : unadopted r s s' ->
  coordinator_wf s -> as_request_rolled (co_authority s) !! r = Some true ->
  coordinator_wf s' /\ as_request_rolled (co_authority s') !! r = Some true.
Proof.
  intros Hu Hwf Hr. induction Hu as [s|a s s1 s2 _ IH Ha Hp]; [done|].
  destruct (IH Hwf Hr) as [Hwf1 Hr1]. split; [by eapply perform_wf|].
  apply perform_cases in Hp as [(_ & _ & _ & _ & _ & Hrolled)|(c & e & q & -> & Hpc & Hq & ->)].
  { by apply Hrolled. }
  destruct (account_event_fields c e (s1 <| co_queue := q |>)) as (_ & -> & _).
  unfold judging_authority. case_bool_decide as Hk; [|done].
  change (co_authority (s1 <| co_queue := q |>)) with (co_authority s1).
  rewrite adopt_request_rolled; [done|]. intros Heq. apply Ha. unfold adopts. by rewrite Hpc, Hq.
Qed.

Lemma account_event_rolled c e s : coordinator_wf s ->
  as_request_rolled (co_authority s) !! e_request e = Some true -> e_event_kind e <> RequestStart ->
  co_ledger (account_event c e s) = co_ledger s /\
  co_in_flight (account_event c e s) = co_in_flight s.
Proof.
  intros [_ _ _ _ Hs] Hr Hk. destruct (account_event_fields c e s) as (-> & _ & -> & _).
  unfold judging_authority. rewrite bool_decide_eq_false_2 by done.
  destruct (append _ _ e) as [l' ar] eqn:E. cbn [fst snd].
  apply append_cases in E as [[-> Hn]|(_ & _ & _ & Hv & _)].
  - by rewrite bool_decide_eq_false_2.
  - exfalso. by apply (validate_rolled e (co_authority s) Hs Hr Hk), Hv.
Qed.

(** ** Handlers, run to completion *)

Lemma run_app l l' s : run (l ++ l') s = match run l s with Some s => run l' s | None => None end.
Proof. revert s. induction l as [|a l IH]; intros s; [done|]. simpl. destruct (perform a s); auto. Qed.

Lemma survivors_spec w conns i :
  i ∈ survivors w conns <->
  exists c, conns !! i = Some c /\ cn_registered c = true /\ cn_worker c <> w.
Proof.
  unfold survivors. rewrite list_elem_of_fmap. split.
  - intros ([j c] & -> & [[Hr Hw] Hin]%list_elem_of_filter). exists c. simpl in *.
    apply list_elem_of_lookup in Hin as [k Hk]. rewrite list_lookup_imap in Hk.
    destruct (conns !! k) as [c'|] eqn:E; [|done]. simplify_eq/=. done.
  - intros (c & Hi & Hr & Hw). exists (i, c). split; [done|]. apply list_elem_of_filter.
    split; [done|]. apply list_elem_of_lookup. exists i. rewrite list_lookup_imap, Hi. done.
Qed.

(** The accounting thread finishes the handler it is in. *)
Lemma finish_handler s : co_pc s <> Exited ->
  exists k s', (k <= 4)%nat /\ run (replicate k AAccount) s = Some s' /\
    co_pc s' = Ready /\ co_queue s' = co_queue s.
Proof.
  intros Hpc. destruct s as [l a f cs q pc sent ac rn st]. cbn [co_pc] in Hpc.
  destruct pc as [|c reg ep ag|c m|w|w|ts|ts ro|]; [..|done].
  - exists 0%nat. eexists. split; [lia|]. split; [reflexivity|done].
  - exists 2%nat. eexists. split; [lia|]. split; [reflexivity|done].
  - exists 1%nat. eexists. split; [lia|]. split; [reflexivity|done].
  - exists 4%nat. eexists. split; [lia|]. split; [reflexivity|done].
  - exists 3%nat. eexists. split; [lia|]. split; [reflexivity|done].
  - exists 2%nat. eexists. split; [lia|]. split; [reflexivity|done].
  - exists 1%nat. eexists. split; [lia|]. split; [reflexivity|done].
Qed.

(** An item that carries its connection. *)
Definition attributed (w : WorkItem) : Prop := match w with WEvent None _ => False | _ => True end.

Lemma take_item s w q : co_pc s = Ready -> co_queue s = w :: q -> attributed w ->
  exists s', perform AAccount s = Some s' /\ co_queue s' = q /\ co_pc s' <> Exited.
Proof.
  intros Hpc Hq Hw. cbn [perform]. unfold acct_step. rewrite Hpc, Hq.
  destruct w as [[c|] e|c reg|c w]; [|done|..]; eexists; (split; [reflexivity|]); [|done|done].
  destruct (account_event_fields c e (s <| co_queue := q |>)) as (_&_&_&_&->&_&_&_&->). done.
Qed.

Lemma drain s : Forall attributed (co_queue s) -> co_pc s <> Exited ->
  exists n s', (n <= 5 * length (co_queue s) + 4)%nat /\
    run (replicate n AAccount) s = Some s' /\ co_pc s' = Ready /\ co_queue s' = [].
Proof.
  remember (co_queue s) as q eqn:Hq. revert s Hq. induction q as [|w q IH]; intros s Hq Hall Hpc.
  - destruct (finish_handler s Hpc) as (k & s' & Hk & Hr & Hp' & Hq'). exists k, s'.
    split_and!; [lia|done..|]. by rewrite Hq', <- Hq.
  - apply list.Forall_cons in Hall as [Hw Hall].
    destruct (finish_handler s Hpc) as (k & s1 & Hk & Hr1 & Hp1 & Hq1).
    destruct (take_item s1 w q Hp1 ltac:(congruence) Hw) as (s2 & Hr2 & Hq2 & Hp2).
    destruct (IH s2 (eq_sym Hq2) Hall Hp2) as (n & s3 & Hn & Hr3 & Hp3 & Hq3).
    exists (k + S n)%nat, s3. split_and!; [simpl; lia| |done|done].
    rewrite replicate_add, run_app, Hr1. change (replicate (S n) AAccount) with (AAccount :: replicate n AAccount).
    cbn [run]. by rewrite Hr2.
Qed.

(** ** Properties *)

(** C1: in every reachable state of the interleaved coordinator the ledger is well
    formed, the set of open requests is exactly what the accepted starts and ends
    in the ledger say, the epoch and the accounting generation move together, and
    request scope is enforced. *)
Theorem coordinator_invariant id s : reachable id s ->
  ledger_wf (co_ledger s) /\
  co_in_flight s = in_flight_of (lg_entries (co_ledger s)) /\
  value (as_epoch (co_authority s)) = value (as_accounting_generation (co_authority s)) /\
  as_enforce_request_scope (co_authority s) = true.
Proof.
  intros [l Hl]. destruct (steps_wf _ _ _ Hl (coordinator_new_wf id)) as [? ? ? _ ?]. done.
Qed.

(** No step of any thread removes, reorders or changes a stored record. *)
Theorem coordinator_append_only l s s' : steps l s s' ->
  lg_entries (co_ledger s) `prefix_of` lg_entries (co_ledger s').
Proof. apply steps_prefix. Qed.

(** C2: epoch fencing. Whatever the threads do, once the epoch has advanced (fewer
    than 2^64 times) an event that carries the earlier epoch leaves the ledger and
    the open requests as they are, and its sender is told it is stale (or invalid,
    when its content is). *)
Theorem stale_epoch_fenced n id s s' c e :
  reachable id s -> trace n s s' -> 0 < n < 2 ^ 64 ->
  au_epoch (e_authority e) = as_epoch (co_authority s) ->
  co_ledger (account_event c e s') = co_ledger s' /\
  co_in_flight (account_event c e s') = co_in_flight s' /\
  co_pc (account_event c e s') =
    AckDue c (event_ack (if content_is_valid e then MkAppendResult Stale "stale_epoch"
                         else MkAppendResult Invalid "invalid content")).
Proof.
  intros [l Hl] Ht Hn He. destruct (steps_wf _ _ _ Hl (coordinator_new_wf id)) as [_ _ _ Hw _].
  apply account_event_stale. rewrite He. by eapply trace_epoch_ne.
Qed.

(** C13: the ledger is written in epoch order: in a state reached with fewer than
    2^64 - 1 epoch changes, the epochs of the records never decrease along the
    ledger and none is beyond the current epoch. *)
Theorem ledger_epochs_sorted n id s : trace n (coordinator_new id) s -> n < 2 ^ 64 - 1 ->
  StronglySorted Z.le (entry_epoch <$> lg_entries (co_ledger s)) /\
  Forall (fun v => v <= value (as_epoch (co_authority s))) (entry_epoch <$> lg_entries (co_ledger s)).
Proof. apply trace_epochs. Qed.

(** C4: a request that is rolled stays closed: until a [RequestStart] for it is
    processed or its authority is set from outside, no event for it other than a
    [RequestStart] is stored, even one that carries the current epoch. *)
Theorem rolled_request_fenced id s s' r c e :
  reachable id s -> as_request_rolled (co_authority s) !! r = Some true -> unadopted r s s' ->
  e_request e = r -> e_event_kind e <> RequestStart ->
  co_ledger (account_event c e s') = co_ledger s' /\
  co_in_flight (account_event c e s') = co_in_flight s'.
Proof.
  intros [l Hl] Hr Hu <- Hk. pose proof (steps_wf _ _ _ Hl (coordinator_new_wf id)) as Hwf.
  destruct (unadopted_rolled _ _ _ Hu Hwf Hr) as [Hwf' Hr']. by apply account_event_rolled.
Qed.

(** C6: handling an event refines one step of the abstract ledger: two steps of the
    accounting thread store (or refuse) it as [abstract_append] does under the
    authority it is judged by, and send its connection exactly one acknowledgement,
    with that outcome. *)
Theorem handle_event_refines s c e q : ledger_wf (co_ledger s) ->
  co_pc s = Ready -> co_queue s = WEvent (Some c) e :: q ->
  exists s' ar, run [AAccount; AAccount] s = Some s' /\
    abstract_append (Some (judging_authority e (co_authority s))) (abstract (co_ledger s)) e =
      (abstract (co_ledger s'), ar_status ar) /\
    co_sent s' = co_sent s ++ [(c, event_ack ar)] /\ co_queue s' = q /\ co_pc s' = Ready.
Proof.
  intros Hwf Hpc Hq. cbn [run perform]. unfold acct_step at 1. rewrite Hpc, Hq.
  set (s1 := s <| co_queue := q |>).
  destruct (account_event_fields c e s1) as (Hl & _ & _ & _ & Hq' & Hs' & _ & _ & Hpc').
  unfold acct_step. rewrite Hpc'.
  set (r := append (Some (judging_authority e (co_authority s1))) (co_ledger s1) e) in *.
  exists (send c (event_ack r.2) (account_event c e s1) <| co_pc := Ready |>), r.2.
  split; [reflexivity|]. split_and!; [| |exact Hq'|reflexivity].
  - change (co_ledger (send c (event_ack r.2) (account_event c e s1) <| co_pc := Ready |>))
      with (co_ledger (account_event c e s1)). rewrite Hl. by apply append_refines_abstract.
  - change (co_sent (account_event c e s1) ++ [(c, event_ack r.2)] = co_sent s ++ [(c, event_ack r.2)]).
    by rewrite Hs'.
Qed.

(** C32: handling a lost worker, run to completion: every open request is rolled, the
    epoch and the accounting generation advance by one, the ledger is untouched,
    and the new authority is sent to exactly the registered connections of the
    other workers. *)
Theorem handle_worker_lost_spec s c w q :
  co_pc s = Ready -> co_queue s = WWorkerLost c w :: q ->
  exists s', run (replicate 5 AAccount) s = Some s' /\
    co_ledger s' = co_ledger s /\ co_in_flight s' = co_in_flight s /\
    as_epoch (co_authority s') = next (as_epoch (co_authority s)) /\
    as_accounting_generation (co_authority s') = next (as_accounting_generation (co_authority s)) /\
    (forall r, as_request_rolled (co_authority s') !! r =
       if decide (r ∈ co_in_flight s) then Some true else as_request_rolled (co_authority s) !! r) /\
    (exists targets, co_sent s' = co_sent s ++
       ((fun t => (t, Roll (MkRollMsg (as_epoch (co_authority s'))
                             (as_accounting_generation (co_authority s'))))) <$> targets) /\
       (forall i, i ∈ targets <->
          exists conn, co_conns s !! i = Some conn /\ cn_registered conn = true /\ cn_worker conn <> w)) /\
    co_queue s' = q /\ co_pc s' = Ready.
Proof.
  destruct s as [l a f cs q0 pc sent rn st]. cbn [co_pc co_queue]. intros -> ->.
  eexists. split; [reflexivity|]. split_and!; try reflexivity.
  - intros r. apply roll_lookup.
  - exists (survivors w cs). split; [reflexivity|]. apply survivors_spec.
Qed.

(** registration opens the way for a request: after a worker's registration is
    handled, it is acknowledged with the current epoch and generation, and a
    [RequestStart] that carries them and the worker's boot, with valid content and a
    new identity, is accepted and opens the request, whatever attempt or generation
    the request had before. *)
Theorem registered_start_accepted s c reg q e :
  co_pc s = Ready -> co_queue s = WRegister c reg :: q ->
  e_event_kind e = RequestStart -> content_is_valid e = true ->
  lg_index (co_ledger s) !! e_id e = None -> e_worker e = rg_worker reg ->
  au_worker_boot (e_authority e) = rg_boot reg ->
  au_epoch (e_authority e) = as_epoch (co_authority s) ->
  au_accounting_generation (e_authority e) = as_accounting_generation (co_authority s) ->
  exists s', run (replicate 3 AAccount) s = Some s' /\
    co_sent s' = co_sent s ++ [(c, RegisterAck (MkRegisterAckMsg true (as_epoch (co_authority s))
                                  (as_accounting_generation (co_authority s)) "registered"))] /\
    co_pc (account_event c e s') = AckDue c (event_ack (MkAppendResult Accepted "accepted")) /\
    e_request e ∈ co_in_flight (account_event c e s') /\
    lg_entries (co_ledger (account_event c e s')) = lg_entries (co_ledger s) ++ [e].
Proof.
  destruct s as [l a f cs q0 pc sent rn st]. cbn [co_pc co_queue co_ledger co_authority co_sent].
  intros -> -> Hk Hc Hid Hw Hb He Hg. eexists. split; [reflexivity|]. split; [reflexivity|].
  match goal with |- context [account_event c e ?x] => set (s' := x) end.
  destruct (account_event_fields c e s') as (-> & _ & -> & _ & _ & _ & _ & _ & ->).
  change (co_ledger s') with l. change (co_in_flight s') with f.
  assert (append (Some (judging_authority e (co_authority s'))) l e =
    (MkLedger (lg_id l) (lg_entries l ++ [e]) (<[e_id e := length (lg_entries l)]> (lg_index l)),
     MkAppendResult Accepted "accepted")) as ->.
  { unfold append. rewrite Hc, Hid. cbn [negb].
    rewrite bool_decide_eq_true_2; [done|]. apply validate_authority_iff.
    unfold judging_authority. rewrite bool_decide_eq_true_2 by done.
    split; try done.
    - change (<[rg_worker reg := rg_boot reg]> (as_worker_boot a) !! e_worker e =
              Some (au_worker_boot (e_authority e))).
      by rewrite Hw, lookup_insert_eq, Hb.
    - intros _ y. change (<[e_request e := au_request_generation (e_authority e)]>
        (as_request_generation a) !! e_request e = Some y -> y = au_request_generation (e_authority e)).
      rewrite lookup_insert_eq. congruence.
    - intros _ y. change (<[e_request e := au_attempt (e_authority e)]>
        (as_current_attempt a) !! e_request e = Some y -> y = au_attempt (e_authority e)).
      rewrite lookup_insert_eq. congruence.
    - intros _ y. change (<[e_request e := au_attempt_generation (e_authority e)]>
        (as_attempt_generation a) !! e_request e = Some y -> y = au_attempt_generation (e_authority e)).
      rewrite lookup_insert_eq. congruence. }
  cbn [fst snd ar_status]. rewrite bool_decide_eq_true_2 by done.
  split_and!; [done| |done]. unfold in_flight_step. rewrite Hk. set_solver.
Qed.

(** A refused [RequestStart] still takes over the request: when one arrives
    under a stale epoch it is not stored and is answered as stale, yet the attempt
    and the generations it carries are adopted and the rolled mark is cleared, so
    that the running attempt's own events are refused from then on. *)
Theorem stale_start_takes_over s c e e' :
  content_is_valid e = true -> e_event_kind e = RequestStart ->
  au_epoch (e_authority e) <> as_epoch (co_authority s) ->
  as_enforce_request_scope (co_authority s) = true ->
  e_request e' = e_request e -> e_event_kind e' <> RequestStart ->
  au_attempt (e_authority e') <> au_attempt (e_authority e) ->
  let s' := account_event c e s in
  co_ledger s' = co_ledger s /\
  co_pc s' = AckDue c (event_ack (MkAppendResult Stale "stale_epoch")) /\
  as_request_rolled (co_authority s') !! e_request e = Some false /\
  as_current_attempt (co_authority s') !! e_request e = Some (au_attempt (e_authority e)) /\
  co_ledger (account_event c e' s') = co_ledger s.
Proof.
  intros Hc Hk He Hs Hr Hk' Ha s'. destruct (account_event_stale c e s He) as (Hl & _ & Hpc).
  rewrite Hc in Hpc. fold s' in Hl, Hpc.
  assert (co_authority s' = adopt_request e (co_authority s)) as Hauth.
  { unfold s'. destruct (account_event_fields c e s) as (_ & -> & _).
    unfold judging_authority. by rewrite bool_decide_eq_true_2. }
  assert (as_current_attempt (co_authority s') !! e_request e = Some (au_attempt (e_authority e))) as Hcur.
  { rewrite Hauth. apply lookup_insert_eq. }
  split_and!; [done|done| |done|].
  - rewrite Hauth. apply lookup_insert_eq.
  - destruct (account_event_fields c e' s') as (-> & _).
    unfold judging_authority. rewrite bool_decide_eq_false_2 by done.
    destruct (append _ _ e') as [l' ar] eqn:E. cbn [fst].
    apply append_cases in E as [[-> _]|(_ & _ & _ & Hv & _)]; [done|].
    specialize (Hv _ eq_refl). apply validate_authority_iff in Hv as [_ _ _ _ _ Hat _].
    exfalso. apply Ha. symmetry. apply Hat; [by rewrite Hauth|]. by rewrite Hr.
Qed.

(** An event enqueued through the public interface carries no connection: when
    the accounting thread reaches it, it dereferences a null pointer. *)
Theorem enqueue_event_null s e : co_pc s = Ready -> co_queue s = [] ->
  acct_step (enqueue_event e s) = NullDeref.
Proof.
  destruct s as [l a f cs q pc sent ac rn st]. cbn [co_pc co_queue]. by intros -> ->.
Qed.

(** A worker that disconnects while its registration is still queued is never
    reported lost: its reader ends without a work item, the registration is then
    handled, and the connection stays registered with the epoch unchanged. *)
Theorem lost_before_registration id reg :
  exists s, run [AAccept; ARead 0 (Register reg); AReadFailed 0; AAccount; AAccount; AAccount]
              (coordinator_new id) = Some s /\
    connected_workers s = 1%nat /\ co_queue s = [] /\
    as_epoch (co_authority s) = as_epoch (co_authority (coordinator_new id)) /\
    co_conns s !! 0%nat = Some (MkConn (rg_worker reg) true false) /\
    acct_step s = Waiting.
Proof. eexists. split; [reflexivity|]. by split_and!. Qed.

(** ** Witnesses *)

Lemma run_steps l s s' : run l s = Some s' -> steps l s s'.
Proof.
  revert s. induction l as [|a l IH]; intros s Hr; simpl in Hr; [simplify_eq; constructor|].
  destruct (perform a s) as [s1|] eqn:E; [|done]. econstructor; [exact E|by apply IH].
Qed.

(** The state a run ends in, when it can be performed to its end. *)
Definition after (l : list Action) (s : Coordinator) : Coordinator := default s (run l s).

Lemma run_after l s :
  match run l s with Some _ => true | None => false end = true -> run l s = Some (after l s).
Proof. unfold after. by destruct (run l s). Qed.

Definition sample_register : RegisterMsg := MkRegisterMsg (MkId 0xAA 1) (MkId 0x1001 1).

Definition sample_start : LedgerEntry :=
  sample_entry <| e_id := MkId 0xA 1 |> <| e_event_kind := RequestStart |>.

(** A worker registers and opens a request. *)
Definition sample_run : list Action :=
  [AAccept; ARead 0 (Register sample_register); AAccount; AAccount; AAccount;
   ARead 0 (EventSubmit sample_start); AAccount; AAccount].

Definition sample_coordinator : Coordinator :=
  after sample_run (coordinator_new (MkId 1 2)).

Lemma sample_reachable : reachable (MkId 1 2) sample_coordinator.
Proof. exists sample_run. apply run_steps, run_after. by vm_compute. Qed.

Lemma sample_coordinator_wf : coordinator_wf sample_coordinator.
Proof. destruct sample_reachable as [l Hl]. exact (steps_wf _ _ _ Hl (coordinator_new_wf _)). Qed.

Lemma coordinator_invariant_witness :
  co_in_flight sample_coordinator = in_flight_of (lg_entries (co_ledger sample_coordinator)) /\
  length (lg_entries (co_ledger sample_coordinator)) = 1%nat.
Proof.
  split; [|by vm_compute].
  exact (proj1 (proj2 (coordinator_invariant (MkId 1 2) sample_coordinator sample_reachable))).
Defined.

Lemma coordinator_append_only_witness :
  lg_entries (co_ledger sample_coordinator) `prefix_of`
  lg_entries (co_ledger (advance_epoch sample_coordinator)).
Proof.
  apply (coordinator_append_only [AAdvance]). econstructor; [reflexivity|constructor].
Defined.

Lemma stale_epoch_fenced_witness :
  co_ledger (account_event 0 sample_entry (advance_epoch sample_coordinator)) =
  co_ledger (advance_epoch sample_coordinator).
Proof.
  refine (proj1 (stale_epoch_fenced 1 (MkId 1 2) sample_coordinator (advance_epoch sample_coordinator)
                   0 sample_entry sample_reachable _ _ _)).
  - apply (trace_step 0 AAdvance sample_coordinator sample_coordinator); [constructor|reflexivity].
  - lia.
  - by vm_compute.
Defined.

(** The worker disconnects, and its request is rolled. *)
Definition sample_lost : Coordinator :=
  after (sample_run ++ AReadFailed 0 :: replicate 5 AAccount) (coordinator_new (MkId 1 2)).

Lemma sample_lost_reachable : reachable (MkId 1 2) sample_lost.
Proof.
  exists (sample_run ++ AReadFailed 0 :: replicate 5 AAccount). apply run_steps, run_after.
  by vm_compute.
Qed.

(** The worker comes back and opens the request again in the new epoch. *)
Definition resumed_start : LedgerEntry :=
  sample_start <| e_id := MkId 0xA 2 |>
    <| e_authority := MkAuthorityEnvelope (MkGen 2) (MkId 0x1001 1) (MkGen 1) (MkGen 2)
                        (MkId 0x3001 1) (MkGen 1) (MkId 0x5001 1) |>.

Definition resumed_run : list Action :=
  sample_run ++ AReadFailed 0 :: replicate 5 AAccount ++
  [AAccept; ARead 1 (Register sample_register); AAccount; AAccount; AAccount;
   ARead 1 (EventSubmit resumed_start); AAccount; AAccount].

Definition sample_resumed : Coordinator := after resumed_run (coordinator_new (MkId 1 2)).

(** A run as a trace, which counts its epoch changes. *)
Lemma run_trace l n s0 s s' : trace n s0 s -> run l s = Some s' ->
  exists m, m <= n + Z.of_nat (length l) /\ trace m s0 s'.
Proof.
  revert n s. induction l as [|a l IH]; intros n s Ht Hr; cbn [run] in Hr.
  { simplify_eq. exists n. split; [simpl; lia|done]. }
  destruct (perform a s) as [s1|] eqn:E; [|done]. pose proof (trace_step _ _ _ _ _ Ht E) as Ht1.
  destruct (IH _ _ Ht1 Hr) as (m & Hm & Ht2). exists m. split; [|done]. cbn [length].
  destruct (rolls a s); lia.
Qed.

Lemma ledger_epochs_sorted_witness :
  StronglySorted Z.le (entry_epoch <$> lg_entries (co_ledger sample_resumed)) /\
  entry_epoch <$> lg_entries (co_ledger sample_resumed) = [1; 2].
Proof.
  split; [|by vm_compute].
  destruct (run_trace resumed_run 0 (coordinator_new (MkId 1 2)) (coordinator_new (MkId 1 2)) sample_resumed)
    as (n & Hn & Ht); [constructor|apply run_after; by vm_compute|].
  refine (proj1 (ledger_epochs_sorted n (MkId 1 2) sample_resumed Ht _)). change (length resumed_run) with 22%nat in Hn. lia.
Defined.

Lemma rolled_request_fenced_witness :
  co_ledger (account_event 0 sample_entry sample_lost) = co_ledger sample_lost.
Proof.
  refine (proj1 (rolled_request_fenced (MkId 1 2) sample_lost sample_lost (MkId 0x1234 1) 0 sample_entry
                   sample_lost_reachable _ _ _ _)).
  - by vm_compute.
  - constructor.
  - by vm_compute.
  - by vm_compute.
Defined.

Definition sample_queued : Coordinator := enqueue (WEvent (Some 0%nat) sample_entry) sample_coordinator.

Lemma handle_event_refines_witness :
  exists s' ar, run [AAccount; AAccount] sample_queued = Some s' /\
    co_sent s' = co_sent sample_queued ++ [(0%nat, event_ack ar)].
Proof.
  destruct (handle_event_refines sample_queued 0 sample_entry []) as (s' & ar & Hr & _ & Hs & _).
  - exact (cw_ledger _ sample_coordinator_wf).
  - by vm_compute.
  - by vm_compute.
  - exists s', ar. split; [exact Hr|exact Hs].
Defined.

Lemma handle_worker_lost_spec_witness :
  exists s', run (replicate 5 AAccount) (enqueue (WWorkerLost 0 (MkId 0xAA 1)) sample_coordinator) = Some s' /\
    as_epoch (co_authority s') = MkGen 2.
Proof.
  destruct (handle_worker_lost_spec (enqueue (WWorkerLost 0 (MkId 0xAA 1)) sample_coordinator)
              0 (MkId 0xAA 1) []) as (s' & Hr & _ & _ & He & _).
  - by vm_compute.
  - by vm_compute.
  - exists s'. split; [exact Hr|]. rewrite He. by vm_compute.
Defined.

Lemma registered_start_accepted_witness :
  exists s', run (replicate 3 AAccount)
      (enqueue (WRegister 0 sample_register) (coordinator_new (MkId 1 2))) = Some s' /\
    lg_entries (co_ledger (account_event 0 sample_start s')) = [sample_start].
Proof.
  destruct (registered_start_accepted (enqueue (WRegister 0 sample_register) (coordinator_new (MkId 1 2)))
              0 sample_register [] sample_start) as (s' & Hr & _ & _ & _ & Hl); [by vm_compute..|].
  exists s'. split; [exact Hr|exact Hl].
Defined.

(** The worker that lost its epoch replays its start with another attempt. *)
Definition replayed_start : LedgerEntry :=
  sample_start <| e_id := MkId 0xA 9 |>
    <| e_authority := MkAuthorityEnvelope (MkGen 1) (MkId 0x1001 1) (MkGen 1) (MkGen 1)
                        (MkId 0x3001 7) (MkGen 1) (MkId 0x5001 1) |>.

Lemma stale_start_takes_over_witness :
  as_request_rolled (co_authority (account_event 0 replayed_start sample_lost)) !! MkId 0x1234 1 = Some false.
Proof.
  refine (proj1 (proj2 (proj2 (stale_start_takes_over sample_lost 0 replayed_start sample_entry
    _ _ _ _ _ _ _)))); by vm_compute.
Defined.

Lemma enqueue_event_null_witness :
  acct_step (enqueue_event sample_entry (coordinator_new (MkId 1 2))) = NullDeref.
Proof. apply enqueue_event_null; by vm_compute. Defined.
