(* ===== verification/Text.v ===== *)
(** * Numbers as text

    The conversions between numbers and text the programs use: [std::to_string] of a
    double ([%f], unit.cpp), the six-digit stream output of the command-line tool
    ([%g], [f2] of iledger_cli.cpp), and the parsers [std::stoi] and [std::stod]
    with the exceptions they throw. Decimal conversions are exact: a double is a
    rational [m * 2 ^ e], and rounding to a decimal place is to nearest, ties to
    even, as the C library does in its default rounding mode. *)

From Stdlib Require Import SpecFloat Ascii.
From stdpp Require Import base sets list strings numbers pretty.
From S2P Require Import Prelude Float64 Kinds.
Open Scope Z_scope.

(** ** Digits *)

Definition digit_char (n : Z) : ascii := ascii_of_N (Z.to_N (48 + n)).

Definition digit_val (c : ascii) : option Z :=
  let n := Z.of_N (N_of_ascii c) in
  if (48 <=? n) && (n <=? 57) then Some (n - 48) else None.

(** The last [w] decimal digits of [n]. *)
Fixpoint pad (w : nat) (n : Z) (rest : string) : string :=
  match w with
  | O => rest
  | S w => pad w (n / 10) (String (digit_char (n mod 10)) rest)
  end.

(** The decimal exponent of a positive integer: [10 ^ log10 n <= n < 10 ^ (log10 n + 1)]. *)
Fixpoint log10_loop (fuel : nat) (n : Z) : Z :=
  match fuel with
  | O => 0
  | S fuel => if n <? 10 then 0 else 1 + log10_loop fuel (n / 10)
  end.

Definition log10 (n : Z) : Z := log10_loop (S (Z.to_nat (Z.log2 n))) n.

(** The decimal text of a non-negative integer. *)
Definition dec (n : Z) (rest : string) : string := pad (S (Z.to_nat (log10 n))) n rest.

(** ** Rounding a double to decimal places *)

(** The quotient [num / den] rounded to nearest, ties to even. *)
Definition rne (num den : Z) : Z :=
  let q := num / den in
  let r := num mod den in
  if 2 * r <? den then q
  else if den <? 2 * r then q + 1
  else if Z.even q then q else q + 1.

(** [m * 2 ^ e] as a fraction. *)
Definition frac_num (m : positive) (e : Z) : Z := Zpos m * 2 ^ Z.max e 0.
Definition frac_den (e : Z) : Z := 2 ^ Z.max (- e) 0.

(** [num / den * 10 ^ k], rounded to an integer. *)
Definition round_place (num den k : Z) : Z :=
  rne (num * 10 ^ Z.max k 0) (den * 10 ^ Z.max (- k) 0).

(** The decimal exponent of a fraction below one: counts up until [num * 10 ^ j]
    reaches [den]. *)
Fixpoint log10_down (fuel : nat) (num den : Z) : Z :=
  match fuel with
  | O => 0
  | S fuel => if den <=? num then 0 else log10_down fuel (num * 10) den - 1
  end.

Definition frac_log10 (num den : Z) : Z :=
  if den <=? num then log10 (num / den)
  else log10_down (S (S (Z.to_nat (Z.log2 den)))) num den.

(** Six significant digits: [n * 10 ^ (x - 5)] with [10 ^ 5 <= n < 10 ^ 6]. *)
Definition six_digits (num den : Z) : Z * Z :=
  let x := frac_log10 num den in
  let n := round_place num den (5 - x) in
  if n =? 10 ^ 6 then (10 ^ 5, x + 1) else (n, x).

(** ** Output *)

(** The text C gives to a NaN is implementation-defined; so is whether [strtod]
    reports a range error for a result too small to be normal. *)
Class TextPlatform := { nan_text : string; underflow_is_range_error : double -> bool }.

Definition sign_text (s : bool) (rest : string) : string :=
  if s then String "-"%char rest else rest.

(** Trailing zeros of [d] decimals are dropped. *)
Fixpoint strip_zeros (d : nat) (n : Z) : Z * nat :=
  match d with
  | O => (n, O)
  | S d' => if n mod 10 =? 0 then strip_zeros d' (n / 10) else (n, d)
  end.

(** [n / 10 ^ d] with [d] decimals. *)
Definition point_text (n : Z) (d : nat) (rest : string) : string :=
  dec (n / 10 ^ Z.of_nat d)
    (match d with O => rest | _ => String "."%char (pad d n rest) end).

Definition exponent_text (x : Z) : string :=
  String "e"%char
    (String (if x <? 0 then "-"%char else "+"%char)
       (if Z.abs x <? 100 then pad 2 (Z.abs x) EmptyString else dec (Z.abs x) EmptyString)).

Section output.
Context `{TextPlatform}.

(** [%f]: six decimals. *)
Definition fixed6 (x : double) : string :=
  match x with
  | S754_nan => nan_text
  | S754_infinity s => sign_text s "inf"
  | S754_zero s => sign_text s (point_text 0 6 EmptyString)
  | S754_finite s m e =>
      sign_text s (point_text (round_place (frac_num m e) (frac_den e) 6) 6 EmptyString)
  end.

(** The [%g] text of [n * 10 ^ (x - 5)]: plain between [1e-4] and [1e6], with an
    exponent elsewhere. *)
Definition general_text (n x : Z) : string :=
  if (-4 <=? x) && (x <? 6) then
    let (n, d) := strip_zeros (Z.to_nat (5 - x)) n in point_text n d EmptyString
  else
    let (n, d) := strip_zeros 5 n in point_text n d (exponent_text x).

(** [f2]: a stream of precision 6. *)
Definition f2 (v : double) : string :=
  match v with
  | S754_nan => nan_text
  | S754_infinity s => sign_text s "inf"
  | S754_zero s => sign_text s "0"
  | S754_finite s m e =>
      let (n, x) := six_digits (frac_num m e) (frac_den e) in sign_text s (general_text n x)
  end.

(** [to_string] of a quantity (unit.cpp). *)
Definition quantity_to_string (q : Quantity) : string :=
  fixed6 (q_value q) +:+ " " +:+ unit_name (q_unit q) +:+ " [" +:+
  provenance_name (q_provenance q) +:+ "]".

End output.

(** ** Input *)

(** What a parser may throw. *)
Inductive ParseResult (A : Type) := Parsed (a : A) | InvalidArgument | OutOfRange.
Arguments Parsed {A} a.
Arguments InvalidArgument {A}.
Arguments OutOfRange {A}.

(** [isspace] in the C locale. *)
Definition is_space (c : ascii) : bool :=
  let n := N_of_ascii c in (n =? 32)%N || ((9 <=? n)%N && (n <=? 13)%N).

Fixpoint skip_spaces (s : string) : string :=
  match s with
  | String c s' => if is_space c then skip_spaces s' else s
  | EmptyString => EmptyString
  end.

(** An optional sign: whether it is negative, and what follows. *)
Definition scan_sign (s : string) : bool * string :=
  match s with
  | String c s' =>
      if Ascii.eqb c "-"%char then (true, s')
      else if Ascii.eqb c "+"%char then (false, s') else (false, s)
  | EmptyString => (false, s)
  end.

(** The longest run of digits: value (continuing [acc]), how many, the rest. *)
Fixpoint scan_digits (digit : ascii -> option Z) (base acc : Z) (count : nat) (s : string)
    : Z * nat * string :=
  match s with
  | String c s' =>
      match digit c with
      | Some v => scan_digits digit base (acc * base + v) (S count) s'
      | None => (acc, count, s)
      end
  | EmptyString => (acc, count, s)
  end.

(** [std::stoi], base ten: an [int] of 32 bits. *)
Definition stoi (s : string) : ParseResult Z :=
  let (neg, s) := scan_sign (skip_spaces s) in
  match scan_digits digit_val 10 0 0 s with
  | (_, O, _) => InvalidArgument
  | (v, _, _) =>
      let z := if neg then - v else v in
      if (- 2 ^ 31 <=? z) && (z <? 2 ^ 31) then Parsed z else OutOfRange
  end.

(** Digits with an optional point: the digits read as one integer, how many there
    were, how many after the point, and the rest. *)
Definition scan_point (digit : ascii -> option Z) (base : Z) (s : string) : Z * nat * nat * string :=
  let '(v, n, s) := scan_digits digit base 0 0 s in
  match s with
  | String c s' =>
      if Ascii.eqb c "."%char then
        let '(v, d, s) := scan_digits digit base v 0 s' in (v, (n + d)%nat, d, s)
      else (v, n, O, s)
  | EmptyString => (v, n, O, s)
  end.

(** An optional exponent part introduced by [marker] in either case; without a
    digit it is not part of the number. *)
Definition scan_exponent (lower upper : ascii) (s : string) : Z * string :=
  match s with
  | String c s' =>
      if Ascii.eqb c lower || Ascii.eqb c upper then
        let (neg, s'') := scan_sign s' in
        match scan_digits digit_val 10 0 0 s'' with
        | (_, O, _) => (0, s)
        | (v, _, rest) => ((if neg then - v else v), rest)
        end
      else (0, s)
  | EmptyString => (0, s)
  end.

(** The decimal number at the start of the text: coefficient and decimal exponent. *)
Definition scan_decimal (s : string) : option (Z * Z * string) :=
  match scan_point digit_val 10 s with
  | (_, O, _, _) => None
  | (v, _, d, s) =>
      let (x, s) := scan_exponent "e"%char "E"%char s in Some (v, x - Z.of_nat d, s)
  end.

(** The double nearest to [c * 10 ^ k]. *)
Definition d_of_decimal (neg : bool) (c k : Z) : double :=
  match c with
  | Zpos m =>
      match 10 ^ Z.max (- k) 0 with
      | Zpos t =>
          if 0 <=? k then binary_normalize 53 1024 (cond_Zopp neg (c * 10 ^ k)) 0 neg
          else ddiv (S754_finite neg m 0) (S754_finite false t 0)
      | _ => S754_nan
      end
  | _ => S754_zero neg
  end.

Definition hex_val (c : ascii) : option Z :=
  let n := Z.of_N (N_of_ascii c) in
  if (48 <=? n) && (n <=? 57) then Some (n - 48)
  else if (97 <=? n) && (n <=? 102) then Some (n - 87)
  else if (65 <=? n) && (n <=? 70) then Some (n - 55)
  else None.

Definition lower (c : ascii) : ascii :=
  let n := N_of_ascii c in
  if (65 <=? n)%N && (n <=? 90)%N then ascii_of_N (n + 32) else c.

(** Does the text start with [word], whatever the case? *)
Fixpoint starts_with_ci (word s : string) : bool :=
  match word, s with
  | EmptyString, _ => true
  | String w word, String c s => Ascii.eqb w (lower c) && starts_with_ci word s
  | _, _ => false
  end.

(** The hexadecimal number after [0x], if a digit follows. *)
Definition scan_hex (s : string) : option (Z * Z) :=
  match s with
  | String c0 (String c1 s) =>
      if Ascii.eqb c0 "0"%char && Ascii.eqb (lower c1) "x"%char then
        match scan_point hex_val 16 s with
        | (_, O, _, _) => None
        | (v, _, d, s) =>
            let (x, _) := scan_exponent "p"%char "P"%char s in Some (v, x - 4 * Z.of_nat d)
        end
      else None
  | _ => None
  end.

(** A result whose digits are not all zero is checked for the range of a double. *)
Definition check_range `{TextPlatform} (c : Z) (x : double) : ParseResult double :=
  match x with
  | S754_infinity _ => OutOfRange
  | S754_zero _ => if negb (c =? 0) && underflow_is_range_error x then OutOfRange else Parsed x
  | S754_finite _ m e =>
      if (Zpos m <? 2 ^ 52) && underflow_is_range_error x then OutOfRange else Parsed x
  | S754_nan => Parsed x
  end.

(** [std::stod]: text after the number is ignored. *)
Definition stod `{TextPlatform} (s : string) : ParseResult double :=
  let (neg, s) := scan_sign (skip_spaces s) in
  if starts_with_ci "inf" s then Parsed (S754_infinity neg)
  else if starts_with_ci "nan" s then Parsed S754_nan
  else match scan_hex s with
  | Some (c, x) => check_range c (binary_normalize 53 1024 (cond_Zopp neg c) x neg)
  | None =>
      match scan_decimal s with
      | Some (c, k, _) => check_range c (d_of_decimal neg c k)
      | None => InvalidArgument
      end
  end.

(** ** Rounding is to the nearest *)

(** [num / den * 10 ^ t] is within a half of [n]. *)
Definition within_half (num den n t : Z) : Prop :=
  2 * Z.abs (num * 10 ^ Z.max t 0 - n * (den * 10 ^ Z.max (- t) 0)) <= den * 10 ^ Z.max (- t) 0.

Lemma pow10_pos k : 0 <= k -> 0 < 10 ^ k.
Proof. intros. by apply Z.pow_pos_nonneg. Qed.
#[local] Hint Resolve pow10_pos : core.

Lemma rne_near num den : 0 < den -> 2 * Z.abs (num - rne num den * den) <= den.
Proof.
  intros Hd. unfold rne. pose proof (Z.div_mod num den ltac:(lia)) as Hq.
  pose proof (Z.mod_pos_bound num den Hd). split_cases; nia.
Qed.

(** Rounding stays between integers. *)
Lemma rne_between num den lo hi : 0 < den -> lo * den <= num < hi * den -> lo <= rne num den <= hi.
Proof. intros Hd Hn. pose proof (rne_near num den Hd). split; nia. Qed.

Lemma round_place_near num den k : 0 < den -> within_half num den (round_place num den k) k.
Proof.
  intros Hd. unfold within_half, round_place. apply rne_near.
  pose proof (pow10_pos (Z.max (- k) 0) ltac:(lia)). nia.
Qed.

Lemma log10_loop_spec fuel n : 1 <= n < 10 ^ Z.of_nat fuel ->
  0 <= log10_loop fuel n /\ 10 ^ log10_loop fuel n <= n < 10 ^ (log10_loop fuel n + 1).
Proof.
  revert n. induction fuel as [|fuel IH]; intros n Hn; [simpl in Hn; lia|].
  cbn [log10_loop]. destruct (Z.ltb_spec n 10); [simpl; lia|].
  rewrite Nat2Z.inj_succ, Z.pow_succ_r in Hn by lia.
  destruct (IH (n / 10)) as (H0 & Hlo & Hhi); [Z.div_mod_to_equations; lia|].
  rewrite Z.pow_add_r in Hhi by lia. change (10 ^ 1) with 10 in Hhi.
  rewrite !(Z.pow_add_r 10 (1 + _)), !(Z.pow_add_r 10 1) by lia. change (10 ^ 1) with 10.
  Z.div_mod_to_equations; nia.
Qed.

Lemma pow2_lt_pow10 k : 0 <= k -> 2 ^ k <= 10 ^ k.
Proof. intros. apply Z.pow_le_mono_l. lia. Qed.

Lemma log10_spec n : 1 <= n -> 0 <= log10 n /\ 10 ^ log10 n <= n < 10 ^ (log10 n + 1).
Proof.
  intros Hn. apply log10_loop_spec. split; [done|].
  pose proof (Z.log2_nonneg n). destruct (Z.log2_spec n ltac:(lia)) as [_ Hl].
  rewrite Nat2Z.inj_succ, Z2Nat.id by done.
  pose proof (pow2_lt_pow10 (Z.succ (Z.log2 n)) ltac:(lia)). lia.
Qed.

(** The decimal exponent of a fraction below one. *)
Lemma log10_down_spec fuel num den : 0 < num -> 0 < den -> num < 10 * den ->
  den < num * 10 ^ Z.of_nat fuel ->
  log10_down fuel num den <= 0 /\
  den <= num * 10 ^ (- log10_down fuel num den) < 10 * den.
Proof.
  revert num. induction fuel as [|fuel IH]; intros num Hn Hd Hlt Hf.
  - simpl in *. change (10 ^ 0) with 1 in *. lia.
  - cbn [log10_down]. destruct (Z.leb_spec den num); [simpl; lia|].
    rewrite Nat2Z.inj_succ, Z.pow_succ_r in Hf by lia.
    destruct (IH (num * 10)) as (H0 & Hlo); [lia..|].
    split; [lia|]. replace (- (log10_down fuel (num * 10) den - 1))
      with (1 + - log10_down fuel (num * 10) den) by lia.
    rewrite Z.pow_add_r by lia. change (10 ^ 1) with 10. lia.
Qed.

Lemma frac_log10_spec num den : 0 < num -> 0 < den ->
  let x := frac_log10 num den in
  den * 10 ^ Z.max x 0 <= num * 10 ^ Z.max (- x) 0 < 10 * (den * 10 ^ Z.max x 0).
Proof.
  intros Hn Hd. unfold frac_log10. destruct (Z.leb_spec den num).
  - destruct (log10_spec (num / den)) as (H0 & Hlo & Hhi); [Z.div_mod_to_equations; nia|].
    set (x := log10 (num / den)) in *. rewrite Z.max_l, Z.max_r by lia. change (10 ^ 0) with 1.
    rewrite Z.pow_add_r in Hhi by lia. change (10 ^ 1) with 10 in Hhi.
    pose proof (Z.div_mod num den ltac:(lia)). pose proof (Z.mod_pos_bound num den Hd). nia.
  - destruct (log10_down_spec (S (S (Z.to_nat (Z.log2 den)))) num den) as (H0 & Hlo);
      [lia..| |].
    + destruct (Z.log2_spec den Hd) as [_ Hl]. pose proof (Z.log2_nonneg den).
      rewrite !Nat2Z.inj_succ, Z2Nat.id by done.
      pose proof (pow2_lt_pow10 (Z.succ (Z.succ (Z.log2 den))) ltac:(lia)).
      rewrite (Z.pow_succ_r 2 (Z.succ _)) in * by lia. nia.
    + set (x := log10_down _ _ _) in *. rewrite (Z.max_r x 0), (Z.max_l (- x) 0) by lia. change (10 ^ 0) with 1. lia.
Qed.

(** The digit at the place [5 - x] makes six of them. *)
Lemma six_place num den : 0 < num -> 0 < den ->
  let x := frac_log10 num den in
  let b := den * 10 ^ Z.max (- (5 - x)) 0 in
  10 ^ 5 * b <= num * 10 ^ Z.max (5 - x) 0 < 10 ^ 6 * b.
Proof.
  intros Hn Hd x b. pose proof (frac_log10_spec num den Hn Hd) as Hx. cbv zeta in Hx. fold x in Hx.
  unfold b. change (10 ^ 6) with (10 * 10 ^ 5).
  destruct (Z.le_gt_cases 5 x); [|destruct (Z.le_gt_cases 0 x)].
  - rewrite (Z.max_l x), (Z.max_r (- x)) in Hx by lia. rewrite Z.max_l, Z.max_r by lia.
    replace (10 ^ x) with (10 ^ 5 * 10 ^ (- (5 - x))) in Hx
      by (rewrite <-Z.pow_add_r by lia; f_equal; lia).
    lia.
  - rewrite (Z.max_l x), (Z.max_r (- x)) in Hx by lia. rewrite Z.max_r, Z.max_l by lia.
    replace (10 ^ 5) with (10 ^ x * 10 ^ (5 - x)) by (rewrite <-Z.pow_add_r by lia; f_equal; lia).
    pose proof (pow10_pos (5 - x) ltac:(lia)). change (10 ^ 0) with 1 in *. nia.
  - rewrite (Z.max_r x), (Z.max_l (- x)) in Hx by lia. rewrite Z.max_r, Z.max_l by lia.
    replace (5 - x) with (5 + - x) by lia. rewrite (Z.pow_add_r 10 5) by lia.
    change (10 ^ 0) with 1 in *. nia.
Qed.

Lemma within_half_carry num den n t : within_half num den (10 * n) (t + 1) ->
  0 < den -> within_half num den n t.
Proof.
  unfold within_half. intros Hw Hd. destruct (Z.le_gt_cases 0 t).
  - rewrite !(Z.max_l t), !(Z.max_r (- t)) by lia. rewrite (Z.max_l (t + 1)), (Z.max_r (- _)) in Hw by lia.
    rewrite Z.pow_add_r in Hw by lia. change (10 ^ 1) with 10 in Hw. change (10 ^ 0) with 1 in *. nia.
  - rewrite !(Z.max_r t), !(Z.max_l (- t)) by lia. rewrite (Z.max_r (t + 1)), (Z.max_l (- (t + 1))) in Hw by lia.
    replace (- t) with (1 + - (t + 1)) by lia. rewrite Z.pow_add_r by lia.
    pose proof (pow10_pos (- (t + 1)) ltac:(lia)). change (10 ^ 1) with 10. change (10 ^ 0) with 1 in *. nia.
Qed.

(** Six digits, and the nearest ones. *)
Lemma six_digits_spec num den n x : 0 < num -> 0 < den -> six_digits num den = (n, x) ->
  10 ^ 5 <= n < 10 ^ 6 /\ within_half num den n (5 - x).
Proof.
  intros Hn Hd. unfold six_digits. pose proof (six_place num den Hn Hd) as Hp. cbv zeta in Hp.
  set (x0 := frac_log10 num den) in *. pose proof (round_place_near num den (5 - x0) Hd) as Hw.
  assert (10 ^ 5 <= round_place num den (5 - x0) <= 10 ^ 6) as Hr.
  { apply rne_between; [|done]. pose proof (pow10_pos (Z.max (- (5 - x0)) 0) ltac:(lia)). nia. }
  destruct (Z.eqb_spec (round_place num den (5 - x0)) (10 ^ 6)) as [E|E]; intros [= <- <-].
  - split; [lia|]. apply within_half_carry; [|done].
    replace (5 - (x0 + 1) + 1) with (5 - x0) by lia. by rewrite E in Hw.
  - split; [lia|done].
Qed.

(** ** Printed numbers read back *)

Lemma digit_char_cases (P : ascii -> Z -> Prop) n : 0 <= n < 10 ->
  P "0"%char 0 -> P "1"%char 1 -> P "2"%char 2 -> P "3"%char 3 -> P "4"%char 4 ->
  P "5"%char 5 -> P "6"%char 6 -> P "7"%char 7 -> P "8"%char 8 -> P "9"%char 9 ->
  P (digit_char n) n.
Proof.
  intros Hn. rewrite <- (Z2Nat.id n) by lia. assert (Z.to_nat n < 10)%nat as Hk by lia.
  revert Hk. generalize (Z.to_nat n) as k. clear n Hn. intros k Hk ? ? ? ? ? ? ? ? ? ?.
  do 10 (destruct k as [|k]; [done|]). lia.
Qed.

Lemma digit_val_char n : 0 <= n < 10 -> digit_val (digit_char n) = Some n.
Proof. intros Hn. by apply (digit_char_cases (fun c n => digit_val c = Some n)). Qed.

(** The characters of a printed number. *)
Definition numeric (c : ascii) : Prop := is_Some (digit_val c) \/ c ∈ ["."; "e"; "+"; "-"]%char.

Fixpoint all_chars (P : ascii -> Prop) (s : string) : Prop :=
  match s with EmptyString => True | String c s => P c /\ all_chars P s end.

(** The run of digits ends here. *)
Definition digits_stop (s : string) : Prop :=
  match s with EmptyString => True | String c _ => digit_val c = None end.

Lemma scan_digits_stop acc cnt s : digits_stop s -> scan_digits digit_val 10 acc cnt s = (acc, cnt, s).
Proof. destruct s as [|c s]; [done|]. simpl. by intros ->. Qed.

Lemma scan_digits_pad w n rest acc cnt : 0 <= n ->
  scan_digits digit_val 10 acc cnt (pad w n rest) =
  scan_digits digit_val 10 (acc * 10 ^ Z.of_nat w + n mod 10 ^ Z.of_nat w) (cnt + w) rest.
Proof.
  revert n rest. induction w as [|w IH]; intros n rest Hn.
  - change (10 ^ Z.of_nat 0) with 1. cbn [pad]. rewrite Z.mod_1_r, Nat.add_0_r. f_equal. lia.
  - cbn [pad]. rewrite IH by (apply Z.div_pos; lia). cbn [scan_digits].
    rewrite digit_val_char by (apply Z.mod_pos_bound; lia).
    rewrite Nat.add_succ_r, Nat2Z.inj_succ, Z.pow_succ_r by lia. f_equal.
    rewrite Z.rem_mul_r by (try apply Z.pow_nonzero; lia). lia.
Qed.

Lemma pad_chars (P : ascii -> Prop) w n rest : (forall d, 0 <= d < 10 -> P (digit_char d)) ->
  all_chars P rest -> all_chars P (pad w n rest).
Proof.
  intros Hd. revert n rest. induction w as [|w IH]; intros n rest Hr; [done|].
  apply IH. split; [|done]. apply Hd, Z.mod_pos_bound. lia.
Qed.

Lemma pad_head w n rest : exists d s, 0 <= d < 10 /\ pad (S w) n rest = String (digit_char d) s.
Proof.
  revert n rest. induction w as [|w IH]; intros n rest.
  - exists (n mod 10), rest. split; [apply Z.mod_pos_bound; lia|done].
  - cbn [pad]. apply (IH (n / 10)).
Qed.

Lemma scan_digits_dec n rest : 0 <= n -> digits_stop rest ->
  exists cnt, scan_digits digit_val 10 0 0 (dec n rest) = (n, S cnt, rest).
Proof.
  intros Hn Hr. unfold dec. rewrite scan_digits_pad by done. rewrite scan_digits_stop by done.
  rewrite Z.mul_0_l, Z.add_0_l. exists (Z.to_nat (log10 n)). do 2 f_equal.
  destruct (decide (n = 0)) as [->|]; [done|]. destruct (log10_spec n) as (? & ? & ?); [lia|].
  rewrite Nat2Z.inj_succ, Z2Nat.id by done. apply Z.mod_small. lia.
Qed.

Lemma strip_zeros_spec d n n' d' : 0 <= n -> strip_zeros d n = (n', d') ->
  (d' <= d)%nat /\ 0 <= n' /\ n = n' * 10 ^ Z.of_nat (d - d').
Proof.
  revert n. induction d as [|d IH]; intros n Hn; cbn [strip_zeros].
  - intros [= <- <-]. change (10 ^ Z.of_nat (0 - 0)) with 1. lia.
  - destruct (Z.eqb_spec (n mod 10) 0) as [E|E].
    + intros H'. apply IH in H' as (Hd & Hn' & Hv); [|apply Z.div_pos; lia].
      split_and!; [lia|done|]. rewrite (Nat.sub_succ_l d' d) by done.
      rewrite Nat2Z.inj_succ, Z.pow_succ_r by lia. rewrite (Z.div_mod n 10), E, Hv by lia. lia.
    + intros [= <- <-]. rewrite Nat.sub_diag. change (10 ^ Z.of_nat 0) with 1. lia.
Qed.

(** What may follow the digits of a printed number. *)
Definition point_stop (s : string) : Prop :=
  match s with EmptyString => True | String c _ => digit_val c = None /\ c <> "."%char end.

Lemma scan_point_text n d rest : 0 <= n -> point_stop rest ->
  exists cnt, scan_point digit_val 10 (point_text n d rest) = (n, S cnt, d, rest).
Proof.
  intros Hn Hr. unfold scan_point, point_text.
  assert (0 <= n / 10 ^ Z.of_nat d) by (apply Z.div_pos; [done|apply pow10_pos; lia]).
  destruct d as [|d].
  - change (10 ^ Z.of_nat 0) with 1 in *. rewrite Z.div_1_r in *.
    destruct (scan_digits_dec n rest) as [cnt ->]; [done|by destruct rest; naive_solver|].
    exists cnt. destruct rest as [|c rest]; [done|]. destruct Hr as [_ Hc].
    by rewrite (proj2 (Ascii.eqb_neq c "."%char) Hc).
  - edestruct scan_digits_dec as [cnt ->]; [done|done|]. rewrite Ascii.eqb_refl.
    rewrite scan_digits_pad by done. rewrite scan_digits_stop by (destruct rest; naive_solver).
    exists (cnt + S d)%nat. do 3 f_equal.
    pose proof (Z.div_mod n (10 ^ Z.of_nat (S d)) ltac:(apply Z.pow_nonzero; lia)). lia.
Qed.

Lemma scan_exponent_text x : scan_exponent "e"%char "E"%char (exponent_text x) = (x, EmptyString).
Proof.
  unfold exponent_text, scan_exponent. cbn [Ascii.eqb Bool.eqb orb andb].
  set (body := if Z.abs x <? 100 then _ else _).
  assert (exists cnt, scan_digits digit_val 10 0 0 body = (Z.abs x, S cnt, EmptyString)) as [cnt Hb].
  { unfold body. destruct (Z.ltb_spec (Z.abs x) 100).
    - rewrite scan_digits_pad by lia. exists 1%nat. rewrite scan_digits_stop by done.
      rewrite Z.mod_small by (change (10 ^ Z.of_nat 2) with 100; lia). done.
    - apply scan_digits_dec; [lia|done]. }
  destruct (Z.ltb_spec x 0); cbn; rewrite Hb; f_equal; lia.
Qed.

(** The text of [n * 10 ^ (x - 5)] denotes that number. *)
Lemma scan_general_text n x : 0 <= n ->
  exists c k, scan_decimal (general_text n x) = Some (c, k, EmptyString) /\
    0 <= k + (5 - x) /\ n = c * 10 ^ (k + (5 - x)).
Proof.
  intros Hn. unfold general_text, scan_decimal.
  destruct ((-4 <=? x) && (x <? 6)) eqn:Hx; destruct (strip_zeros _ n) as [n' d'] eqn:Hs;
    apply strip_zeros_spec in Hs as (Hd & Hn' & ->); [|done| |done];
    (edestruct scan_point_text as [cnt ->]; [done|done|]).
  - exists n', (0 - Z.of_nat d'). split; [done|]. rewrite Nat2Z.inj_sub, Z2Nat.id by lia.
    split; [lia|]. do 2 f_equal. lia.
  - rewrite scan_exponent_text. exists n', (x - Z.of_nat d'). split; [done|].
    split; [lia|]. do 2 f_equal. lia.
Qed.

Lemma numeric_digit d : 0 <= d < 10 -> numeric (digit_char d).
Proof. intros Hd. left. rewrite digit_val_char by done. by eexists. Qed.
#[local] Hint Resolve numeric_digit : core.

Lemma exponent_text_numeric x : all_chars numeric (exponent_text x).
Proof.
  unfold exponent_text. split; [right; set_solver|]. split.
  - right. destruct (x <? 0); set_solver.
  - destruct (Z.abs x <? 100); apply pad_chars; auto; done.
Qed.

Lemma point_text_numeric n d rest : all_chars numeric rest -> all_chars numeric (point_text n d rest).
Proof.
  intros Hr. apply pad_chars; [auto|]. destruct d; [done|]. split; [right; set_solver|].
  apply pad_chars; auto.
Qed.

Lemma general_text_numeric n x : all_chars numeric (general_text n x).
Proof.
  unfold general_text. split_cases; apply point_text_numeric; [done|apply exponent_text_numeric].
Qed.

Lemma general_text_head n x : exists d s, 0 <= d < 10 /\ general_text n x = String (digit_char d) s.
Proof. unfold general_text. split_cases; apply pad_head. Qed.

Lemma scan_hex_numeric s : all_chars numeric s -> scan_hex s = None.
Proof.
  destruct s as [|c0 [|c1 s]]; [done..|]. intros (_ & Hc1 & _). simpl.
  destruct (Ascii.eqb (lower c1) "x"%char) eqn:E; [|by rewrite andb_false_r].
  exfalso. apply Ascii.eqb_eq in E. destruct Hc1 as [[v Hv]|Hc1].
  - destruct c1 as [[] [] [] [] [] [] [] []]; discriminate.
  - rewrite !elem_of_cons, elem_of_nil in Hc1. destruct_or! Hc1; subst; done.
Qed.

Lemma digit_head d : 0 <= d < 10 ->
  is_space (digit_char d) = false /\ Ascii.eqb (digit_char d) "-" = false /\
  Ascii.eqb (digit_char d) "+" = false /\ Ascii.eqb "i" (lower (digit_char d)) = false /\
  Ascii.eqb "n" (lower (digit_char d)) = false.
Proof.
  intros Hd. apply (digit_char_cases (fun c _ => is_space c = false /\ Ascii.eqb c "-" = false /\
    Ascii.eqb c "+" = false /\ Ascii.eqb "i" (lower c) = false /\ Ascii.eqb "n" (lower c) = false));
    by vm_compute.
Qed.

(** A parsed text that starts with a digit is read as a number. *)
Lemma stod_decimal `{TextPlatform} s d r c k rest : 0 <= d < 10 ->
  all_chars numeric (String (digit_char d) r) ->
  scan_decimal (String (digit_char d) r) = Some (c, k, rest) ->
  stod (sign_text s (String (digit_char d) r)) = check_range c (d_of_decimal s c k).
Proof.
  intros Hd Hall Hs. apply scan_hex_numeric in Hall.
  destruct (digit_head d Hd) as (Hsp & Hm & Hp & Hi & Hn). set (ch := digit_char d) in *.
  unfold stod. assert (scan_sign (skip_spaces (sign_text s (String ch r))) = (s, String ch r)) as ->.
  { destruct s; [done|]. cbn [sign_text skip_spaces]. rewrite Hsp. unfold scan_sign. by rewrite Hm, Hp. }
  cbn [starts_with_ci]. rewrite Hi, Hn. cbn [andb]. by rewrite Hall, Hs.
Qed.

(** The text printed for a number is scanned as the number rounded to six digits. *)
Lemma f2_scans `{TextPlatform} s m e :
  exists n x c k, 10 ^ 5 <= n < 10 ^ 6 /\
    within_half (frac_num m e) (frac_den e) n (5 - x) /\
    0 <= k + (5 - x) /\ n = c * 10 ^ (k + (5 - x)) /\
    stod (f2 (S754_finite s m e)) = check_range c (d_of_decimal s c k).
Proof.
  unfold f2. destruct (six_digits _ _) as [n x] eqn:E.
  apply six_digits_spec in E as [Hn Hw];
    [|by apply Z.mul_pos_pos, Z.pow_pos_nonneg; lia|by apply Z.pow_pos_nonneg; lia].
  destruct (scan_general_text n x) as (c & k & Hs & Hk & Hv); [lia|].
  exists n, x, c, k. split; [done|]. split; [done|]. split; [done|]. split; [done|].
  destruct (general_text_head n x) as (d & r & Hd & Hg). pose proof (general_text_numeric n x) as Hall.
  rewrite Hg in *. by eapply stod_decimal.
Qed.

(** The six decimals [std::to_string] prints are the nearest. *)
Theorem fixed6_reads_back `{TextPlatform} s m e :
  exists n, within_half (frac_num m e) (frac_den e) n 6 /\
    stod (fixed6 (S754_finite s m e)) = check_range n (d_of_decimal s n (-6)).
Proof.
  set (n := round_place (frac_num m e) (frac_den e) 6). exists n.
  assert (0 < frac_den e) by (by apply Z.pow_pos_nonneg; lia).
  split; [by apply round_place_near|]. unfold fixed6. fold n.
  assert (0 <= n) as Hn.
  { apply (rne_between _ _ 0 (frac_num m e * 10 ^ 6 + 1)); change (10 ^ Z.max 6 0) with (10 ^ 6);
      change (10 ^ Z.max (- (6)) 0) with 1;
      assert (0 < frac_num m e) by (by apply Z.mul_pos_pos, Z.pow_pos_nonneg; lia); nia. }
  destruct (pad_head (Z.to_nat (log10 (n / 10 ^ Z.of_nat 6))) (n / 10 ^ Z.of_nat 6)
              (String "."%char (pad 6 n EmptyString))) as (d & r & Hd & Hg).
  change (point_text n 6 EmptyString = String (digit_char d) r) in Hg.
  pose proof (point_text_numeric n 6 EmptyString I) as Hall. rewrite Hg in *.
  eapply stod_decimal; [done..|]. rewrite <-Hg. unfold scan_decimal.
  by destruct (scan_point_text n 6 EmptyString Hn I) as [cnt ->].
Qed.
