(* ===== verification/Nearest.v ===== *)
(** * Reading decimals back

    What [std::stod] makes of the decimals the programs print. [Text] models [strtod]
    by exact division and the rounding of the Standard Library's [binary_round_aux];
    this file shows that the result is the nearest double: no double is closer to the
    decimal, and infinity is returned only beyond the largest double and half a unit
    of its last place. The text printed for a number is then read back as the double
    nearest to the number rounded to six digits. *)

From Stdlib Require Import SpecFloat.
From stdpp Require Import base list strings numbers.
From S2P Require Import Prelude Float64 Kinds Text.
Open Scope Z_scope.

(** ** Distance of a double from a decimal *)

(** Every finite double is a multiple of [2 ^ -1074]. *)
Definition units (x : double) : Z :=
  match x with S754_finite s m e => cond_Zopp s (Zpos m * 2 ^ (e + 1074)) | _ => 0 end.

(** [|c * 10 ^ k - x|] in units of [2 ^ -1074], times the denominator of [10 ^ k]. *)
Definition distance (neg : bool) (c k : Z) (x : double) : Z :=
  Z.abs (cond_Zopp neg c * 10 ^ Z.max k 0 * 2 ^ 1074 - units x * 10 ^ Z.max (- k) 0).

(** [y] is what a conversion that rounds to nearest returns for [c * 10 ^ k]. *)
Definition nearest (neg : bool) (c k : Z) (y : double) : Prop :=
  match y with
  | S754_nan => False
  | S754_infinity s =>
      s = neg /\ (2 ^ 54 - 1) * 2 ^ 970 * 10 ^ Z.max (- k) 0 <= c * 10 ^ Z.max k 0
  | _ => forall z, isfinite z = true -> valid_binary 53 1024 z = true ->
           distance neg c k y <= distance neg c k z
  end.

(** ** Rounding to nearest *)

(** [p] is [m] units, or between [m] and [m + 1] units as the location says. *)
Definition located (p u m : Z) (l : location) : Prop :=
  match l with
  | loc_Exact => p = m * u
  | loc_Inexact c => m * u < p < (m + 1) * u /\ (2 * p ?= (2 * m + 1) * u) = c
  end.

Lemma shr_1_bits mrs : 0 <= shr_m mrs ->
  exists b : bool, shr_m mrs = 2 * shr_m (shr_1 mrs) + Z.b2z b /\
    shr_1 mrs = Build_shr_record (shr_m (shr_1 mrs)) b (shr_r mrs || shr_s mrs).
Proof.
  destruct mrs as [[|[p|p|]|p] r s]; cbn; intros Hm; try lia;
    [exists false|exists true|exists false|exists true]; (split; [simpl; lia|done]).
Qed.

Lemma shr_1_located p u mrs : 0 < u -> 0 <= shr_m mrs ->
  located p u (shr_m mrs) (loc_of_shr_record mrs) ->
  located p (2 * u) (shr_m (shr_1 mrs)) (loc_of_shr_record (shr_1 mrs)) /\
  shr_m (shr_1 mrs) = shr_m mrs / 2.
Proof.
  intros Hu Hm Hl. destruct (shr_1_bits mrs Hm) as (b & Hb & Hs). rewrite Hs.
  set (m' := shr_m (shr_1 mrs)) in *. clearbody m'. destruct mrs as [m r s]. cbn [shr_m shr_r shr_s] in *.
  split; [|destruct b; cbn in Hb; Z.div_mod_to_equations; lia]. subst m. clear Hs.
  destruct r, s, b; cbn in Hl |- *;
    rewrite ?Z.compare_eq_iff, ?Z.compare_lt_iff, ?Z.compare_gt_iff in *; lia.
Qed.

Lemma iter_shr_1_located p u n mrs : 0 < u -> 0 <= shr_m mrs ->
  located p u (shr_m mrs) (loc_of_shr_record mrs) ->
  let mrs' := SpecFloat.iter_pos shr_1 n mrs in
  located p (2 ^ Zpos n * u) (shr_m mrs') (loc_of_shr_record mrs') /\ shr_m mrs' = shr_m mrs / 2 ^ Zpos n.
Proof.
  revert u mrs. induction n as [n IH|n IH|]; intros u mrs Hu Hm Hl; cbn [SpecFloat.iter_pos]; cbv zeta.
  - destruct (shr_1_located p u mrs Hu Hm Hl) as [H1 E1].
    assert (0 <= shr_m (shr_1 mrs)) as P1 by (rewrite E1; apply Z.div_pos; lia).
    destruct (IH (2 * u) (shr_1 mrs) ltac:(lia) P1 H1) as [H2 E2].
    assert (0 <= shr_m (SpecFloat.iter_pos shr_1 n (shr_1 mrs))) as P2 by (rewrite E2; apply Z.div_pos; lia).
    destruct (IH (2 ^ Zpos n * (2 * u)) _ ltac:(lia) P2 H2) as [H3 E3].
    rewrite (Pos2Z.inj_xI n), Z.pow_add_r, Z.pow_twice_r by lia. split.
    + by replace (2 ^ Zpos n * 2 ^ Zpos n * 2 ^ 1 * u) with (2 ^ Zpos n * (2 ^ Zpos n * (2 * u))) by lia.
    + rewrite E3, E2, E1, !Z.div_div by lia. f_equal. lia.
  - destruct (IH u mrs Hu Hm Hl) as [H2 E2].
    assert (0 <= shr_m (SpecFloat.iter_pos shr_1 n mrs)) as P2 by (rewrite E2; apply Z.div_pos; lia).
    destruct (IH (2 ^ Zpos n * u) _ ltac:(lia) P2 H2) as [H3 E3].
    rewrite (Pos2Z.inj_xO n), Z.pow_twice_r. split; [by rewrite <- Z.mul_assoc|].
    by rewrite E3, E2, Z.div_div by lia.
  - by apply shr_1_located.
Qed.

Lemma fexp_eq e : fexp 53 1024 e = Z.max (e - 53) (-1074).
Proof. done. Qed.

Lemma Zdigits2_bounds m : 0 < m -> 2 ^ (Zdigits2 m - 1) <= m < 2 ^ Zdigits2 m /\ 1 <= Zdigits2 m.
Proof.
  destruct m as [|m|m]; [lia| |lia]. intros _. cbn [Zdigits2]. rewrite digits2_pos_log2.
  pose proof (Z.log2_spec (Zpos m) ltac:(lia)). pose proof (Z.log2_nonneg (Zpos m)).
  replace (Z.log2 (Zpos m) + 1 - 1) with (Z.log2 (Zpos m)) by lia.
  replace (Z.log2 (Zpos m) + 1) with (Z.succ (Z.log2 (Zpos m))) by lia. lia.
Qed.

(** The first shift of [binary_round_aux] brings [m] to the exponent of its last place:
    below [2 ^ 53], and not below [2 ^ 52] unless the exponent is the least. *)
Lemma shr_fexp_located p u m e l : 0 < u -> 0 < m \/ (m = 0 /\ e = -1074) -> located p u m l ->
  e <= fexp 53 1024 (Zdigits2 m + e) ->
  exists mrs e1, shr_fexp 53 1024 m e l = (mrs, e1) /\ e <= e1 /\ -1074 <= e1 /\
    located p (2 ^ (e1 - e) * u) (shr_m mrs) (loc_of_shr_record mrs) /\
    0 <= shr_m mrs < 2 ^ 53 /\ (-1074 < e1 -> 2 ^ 52 <= shr_m mrs).
Proof.
  intros Hu Hm Hl He. unfold shr_fexp. set (e1 := fexp 53 1024 (Zdigits2 m + e)) in *.
  assert (0 <= m < 2 ^ Zdigits2 m /\ 0 <= Zdigits2 m) as [Hd Hd0]
    by (destruct Hm as [Hm|[-> ->]]; [pose proof (Zdigits2_bounds m Hm); lia|done]).
  assert (loc_of_shr_record (shr_record_of_loc m l) = l) as Hll by (by destruct l as [|[]]).
  assert (shr_m (shr_record_of_loc m l) = m) as Hlm by (by destruct l as [|[]]).
  assert (exists mrs, shr (shr_record_of_loc m l) e (e1 - e) = (mrs, e1) /\
    located p (2 ^ (e1 - e) * u) (shr_m mrs) (loc_of_shr_record mrs) /\ shr_m mrs = m / 2 ^ (e1 - e))
    as (mrs & -> & Hloc & Hq).
  { unfold shr. destruct (e1 - e) as [|n|n] eqn:En; [| |lia].
    - eexists. split; [f_equal; lia|]. rewrite Hll, Hlm, Z.pow_0_r, Z.mul_1_l, Z.div_1_r. done.
    - eexists. split; [f_equal; lia|].
      destruct (iter_shr_1_located p u n (shr_record_of_loc m l)) as [H1 H2]; rewrite ?Hll, ?Hlm in *; try done; lia. }
  exists mrs, e1. assert (e1 = Z.max (Zdigits2 m + e - 53) (-1074)) as He1 by apply fexp_eq.
  split_and!; [done|done|lia|done|rewrite Hq; apply Z.div_pos; lia| |].
  - rewrite Hq. apply Z.div_lt_upper_bound; [lia|]. rewrite <- Z.pow_add_r by lia.
    apply (Z.lt_le_trans _ (2 ^ Zdigits2 m)); [lia|]. apply Z.pow_le_mono_r; lia.
  - intros Hmin. rewrite Hq. destruct Hm as [Hm|[-> ->]]; [|cbn [Zdigits2] in *; lia].
    pose proof (Zdigits2_bounds m Hm). apply Z.div_le_lower_bound; [lia|]. rewrite <- Z.pow_add_r by lia.
    replace (e1 - e + 52) with (Zdigits2 m - 1) by lia. lia.
Qed.

Lemma round_nearest_even_near p u m l : 0 < u -> located p u m l ->
  let n := round_nearest_even m l in 2 * Z.abs (p - n * u) <= u /\ m <= n <= m + 1.
Proof.
  intros Hu Hl. destruct l as [|[]]; cbn in Hl |- *;
    rewrite ?Z.compare_eq_iff, ?Z.compare_lt_iff, ?Z.compare_gt_iff in *; try destruct (Z.even m); lia.
Qed.

(** No multiple of the unit is closer. *)
Lemma multiple_near p u n j : 0 < u -> 2 * Z.abs (p - n * u) <= u -> Z.abs (p - n * u) <= Z.abs (p - j * u).
Proof.
  intros Hu Hn. destruct (Z.eq_dec j n) as [->|Hne]; [lia|].
  destruct (Z.lt_ge_cases j n).
  - assert ((j + 1) * u <= n * u) by (apply Z.mul_le_mono_nonneg_r; lia). lia.
  - assert ((n + 1) * u <= j * u) by (apply Z.mul_le_mono_nonneg_r; lia). lia.
Qed.

(** No double is closer than the rounded multiple of the last place. *)
Lemma rounded_nearest p D e1 m1 n mz ez : 0 < D -> -1074 <= e1 -> -1074 <= ez ->
  let u := 2 ^ (e1 + 1074) * D in
  m1 * u <= p -> (-1074 < e1 -> 2 ^ 52 <= m1) -> 2 * Z.abs (p - n * u) <= u -> Z.abs mz < 2 ^ 53 ->
  Z.abs (p - n * u) <= Z.abs (p - mz * 2 ^ (ez + 1074) * D).
Proof.
  intros HD He1 Hez u Hlo Hnorm Hn Hmz. assert (0 < u) as Hu by (unfold u; nia).
  destruct (Z.le_gt_cases e1 ez) as [He|He].
  - replace (mz * 2 ^ (ez + 1074) * D) with (mz * 2 ^ (ez - e1) * u); [by apply multiple_near|].
    unfold u. replace (ez + 1074) with (ez - e1 + (e1 + 1074)) by lia. rewrite (Z.pow_add_r 2 (ez - e1)) by lia. lia.
  - specialize (Hnorm ltac:(lia)). pose proof (multiple_near p u n (2 ^ 52) Hu Hn) as Hj.
    assert (2 ^ (e1 + 1074) = 2 * 2 ^ (e1 - 1 - ez) * 2 ^ (ez + 1074)) as Hp.
    { replace (e1 + 1074) with (1 + (e1 - 1 - ez) + (ez + 1074)) by lia. by rewrite !Z.pow_add_r by lia. }
    assert (0 < 2 ^ (e1 - 1 - ez)) as Hp0 by lia. assert (0 < 2 ^ (ez + 1074)) as Hp1 by lia.
    assert (mz * 2 ^ (ez + 1074) * D <= 2 ^ 52 * u).
    { unfold u. rewrite Hp. set (w := 2 ^ (ez + 1074)) in *. set (g := 2 ^ (e1 - 1 - ez)) in *.
      assert (mz <= 2 ^ 52 * (2 * g)) by nia. assert (0 <= w * D) by nia.
      replace (mz * w * D) with (mz * (w * D)) by lia.
      replace (2 ^ 52 * (2 * g * w * D)) with (2 ^ 52 * (2 * g) * (w * D)) by lia. nia. }
    assert (2 ^ 52 * u <= m1 * u) by nia. lia.
Qed.

(** The second shift of [binary_round_aux] only renormalises a carry into [2 ^ 53]. *)
Lemma shr_fexp_carry n e1 : 0 <= n <= 2 ^ 53 -> -1074 <= e1 ->
  exists mrs e2, shr_fexp 53 1024 n e1 loc_Exact = (mrs, e2) /\ e1 <= e2 /\ 0 <= shr_m mrs /\
    shr_m mrs * 2 ^ (e2 - e1) = n /\ (e2 = e1 \/ (e2 = e1 + 1 /\ n = 2 ^ 53)).
Proof.
  intros Hn He1. destruct (Z.eq_dec n (2 ^ 53)) as [->|Hne].
  - unfold shr_fexp. rewrite fexp_eq. change (Zdigits2 (2 ^ 53)) with 54.
    replace (Z.max (54 + e1 - 53) (-1074) - e1) with 1 by lia.
    eexists _, _. split; [reflexivity|]. replace (e1 + 1 - e1) with 1 by lia.
    split_and!; [lia|by vm_compute|by vm_compute|by right].
  - assert (Zdigits2 n <= 53) as Hd by (apply Zdigits2_le; lia).
    unfold shr_fexp, shr. rewrite fexp_eq.
    exists (Build_shr_record n false false), e1. rewrite Z.sub_diag, Z.pow_0_r. cbn [shr_m].
    split_and!; [|lia..]. destruct (Z.max (Zdigits2 n + e1 - 53) (-1074) - e1) eqn:E; [done|lia|done].
Qed.

(** [y] is [p / D] units of [2 ^ -1074], rounded to nearest, with the sign [neg]. *)
Definition rounds (neg : bool) (p D : Z) (y : double) : Prop :=
  match y with
  | S754_nan => False
  | S754_infinity s => s = neg /\ (2 ^ 54 - 1) * 2 ^ 2044 * D <= p
  | _ => forall mz ez, Z.abs mz < 2 ^ 53 -> -1074 <= ez ->
           Z.abs (p - cond_Zopp neg (units y) * D) <= Z.abs (p - mz * 2 ^ (ez + 1074) * D)
  end.

(** [binary_round_aux] rounds to nearest. *)
Lemma binary_round_aux_nearest neg p D m e l : 0 < D -> -1074 <= e -> 0 < m \/ (m = 0 /\ e = -1074) ->
  located p (2 ^ (e + 1074) * D) m l -> e <= fexp 53 1024 (Zdigits2 m + e) ->
  rounds neg p D (binary_round_aux 53 1024 neg m e l).
Proof.
  intros HD He Hm Hl Hf. unfold binary_round_aux, rounds.
  assert (0 < 2 ^ (e + 1074) * D) as Hu0 by (apply Z.mul_pos_pos; lia).
  destruct (shr_fexp_located p _ m e l Hu0 Hm Hl Hf) as (mrs & e1 & -> & Hee & Hmin & Hloc & Hm1 & Hnorm).
  replace (2 ^ (e1 - e) * (2 ^ (e + 1074) * D)) with (2 ^ (e1 + 1074) * D) in Hloc
    by (rewrite Z.mul_assoc, <- Z.pow_add_r by lia; do 2 f_equal; lia).
  set (u := 2 ^ (e1 + 1074) * D) in *. assert (0 < u) as Hu by (unfold u; nia).
  destruct (round_nearest_even_near p u _ _ Hu Hloc) as [Hn Hnm].
  set (n := round_nearest_even _ _) in *.
  assert (shr_m mrs * u <= p) as Hlo by (destruct (loc_of_shr_record mrs); cbn in Hloc; lia).
  destruct (shr_fexp_carry n e1 ltac:(lia) Hmin) as (mrs' & e2 & -> & He2 & Hpos & Hval & Hcases).
  assert (shr_m mrs' * 2 ^ (e2 + 1074) * D = n * u) as Hunits.
  { unfold u. rewrite <- Hval. replace (e2 + 1074) with (e2 - e1 + (e1 + 1074)) by lia.
    rewrite (Z.pow_add_r 2 (e2 - e1)) by lia. lia. }
  pose proof (fun mz ez Hz He => rounded_nearest p D e1 (shr_m mrs) n mz ez HD Hmin He Hlo Hnorm Hn Hz) as Hnear.
  fold u in Hnear. destruct (shr_m mrs') as [|m2|m2]; [| |lia].
  - intros mz ez Hz Hez. assert (n = 0) as Hn0 by lia. specialize (Hnear mz ez Hz Hez). rewrite Hn0 in Hnear.
    by destruct neg.
  - destruct (Z.leb_spec e2 (1024 - 53)) as [Hle|Hgt].
    + intros mz ez Hz Hez. specialize (Hnear mz ez Hz Hez). rewrite <- Hunits in Hnear.
      by destruct neg; cbn [units cond_Zopp]; rewrite ?Z.opp_involutive.
    + split; [done|]. change (2 ^ 2044) with (2 ^ (970 + 1074)).
      assert (2 ^ (971 + 1074) = 2 * 2 ^ (970 + 1074)) as H2 by (by rewrite <- Z.pow_succ_r).
      destruct (Z.eq_dec e1 971) as [->|Hne1].
      * assert (n = 2 ^ 53) as Hn53 by lia. rewrite Hn53 in Hn. unfold u in Hn. rewrite H2 in Hn. lia.
      * assert (2 ^ (972 + 1074) <= 2 ^ (e1 + 1074)) as Hbig by (apply Z.pow_le_mono_r; lia).
        assert (2 ^ (972 + 1074) = 4 * 2 ^ (970 + 1074)) as H4 by (change 4 with (2 ^ 2); by rewrite <- Z.pow_add_r).
        assert (2 ^ 52 * u <= p) by (specialize (Hnorm ltac:(lia)); nia).
        set (g := 2 ^ (970 + 1074)) in *. assert (4 * g * D <= u) by (unfold u; nia). lia.
Qed.

(** ** Integers and quotients *)

(** What an integer is aligned to before it is rounded. *)
Lemma shl_align_exact m :
  let '(mz, ez) := shl_align m 0 (fexp 53 1024 (Zpos (digits2_pos m) + 0)) in
  -1074 <= ez /\ ez <= fexp 53 1024 (Zdigits2 (Zpos mz) + ez) /\
  Zpos m * 2 ^ 1074 = Zpos mz * 2 ^ (ez + 1074).
Proof.
  unfold shl_align. rewrite !fexp_eq. destruct (_ - 0) as [|d|d] eqn:E.
  - cbn [Zdigits2]. rewrite fexp_eq. split_and!; [lia|lia|done].
  - cbn [Zdigits2]. rewrite fexp_eq. split_and!; [lia|lia|done].
  - assert (Zdigits2 (Zpos (Pos.iter xO m d)) = Zpos (digits2_pos m) + Zpos d) as Hd.
    { cbn [Zdigits2]. rewrite !digits2_pos_log2, iter_xO, Z.log2_mul_pow2 by lia. lia. }
    rewrite fexp_eq, Hd, iter_xO. split_and!; [lia|lia|].
    rewrite <- Z.mul_assoc, <- Z.pow_add_r by lia. do 2 f_equal. lia.
Qed.

(** The quotient [SFdiv] rounds is precise enough to be rounded, and located. *)
Lemma div_core_located c t : 0 < c -> 0 < t ->
  let '(q, e, l) := SFdiv_core_binary 53 1024 c 0 t 0 in
  -1074 <= e /\ (0 < q \/ (q = 0 /\ e = -1074)) /\ e <= fexp 53 1024 (Zdigits2 q + e) /\
  located (c * 2 ^ 1074) (2 ^ (e + 1074) * t) q l.
Proof.
  intros Hc Ht. unfold SFdiv_core_binary. rewrite !Z.add_0_r, Z.sub_diag, Z.sub_0_l.
  destruct (Zdigits2_bounds c Hc) as [Hdc Hdc1], (Zdigits2_bounds t Ht) as [Hdt Hdt1].
  set (e := Z.min (fexp 53 1024 (Zdigits2 c - Zdigits2 t)) 0).
  assert (e = Z.min (Z.max (Zdigits2 c - Zdigits2 t - 53) (-1074)) 0) as He by (unfold e; by rewrite fexp_eq).
  assert (match - e with Zpos _ => Z.shiftl c (- e) | Z0 => c | Zneg _ => 0 end = c * 2 ^ (- e)) as ->.
  { destruct (- e) as [|n|n] eqn:En; [lia| |lia]. by rewrite Z.shiftl_mul_pow2 by lia. }
  destruct (Z.div_eucl (c * 2 ^ (- e)) t) as [q r] eqn:Eqr.
  pose proof (Z_div_mod (c * 2 ^ (- e)) t ltac:(lia)) as Hqr. rewrite Eqr in Hqr. destruct Hqr as [Hq Hr].
  assert (c * 2 ^ 1074 = (q * t + r) * 2 ^ (e + 1074)) as HP.
  { replace (q * t + r) with (c * 2 ^ (- e)) by lia. rewrite <- Z.mul_assoc, <- Z.pow_add_r by lia. do 2 f_equal. lia. }
  set (w := 2 ^ (e + 1074)) in *. assert (0 < w) as Hw by (unfold w; lia).
  (* the quotient has 53 digits, or the exponent is the least or the quotient is an integer's *)
  assert (2 ^ (Zdigits2 c - 1 - e - Zdigits2 t) <= q \/ Zdigits2 c - 1 - e - Zdigits2 t < 0) as Hlow.
  { destruct (Z.lt_ge_cases (Zdigits2 c - 1 - e - Zdigits2 t) 0) as [|Hge]; [by right|left].
    apply Z.lt_succ_r, (Z.mul_lt_mono_pos_r t); [done|]. apply (Z.lt_le_trans _ (2 ^ (Zdigits2 c - 1 - e))); [|].
    - assert (2 ^ (Zdigits2 c - 1 - e) = 2 ^ (Zdigits2 c - 1 - e - Zdigits2 t) * 2 ^ Zdigits2 t) as ->
        by (rewrite <- Z.pow_add_r by lia; f_equal; lia).
      apply Z.mul_lt_mono_pos_l; lia.
    - replace (Zdigits2 c - 1 - e) with (Zdigits2 c - 1 + - e) by lia. rewrite Z.pow_add_r by lia. nia. }
  split; [lia|].
  assert (0 <= q) as Hq0 by nia.
  assert (0 < q -> 2 ^ (Zdigits2 q - 1) <= q < 2 ^ Zdigits2 q) as Hdq by (intros; by apply Zdigits2_bounds).
  assert (-1074 < e -> 0 < q /\ 53 <= Zdigits2 q) as Hbig.
  { intros Hmin. assert (2 ^ 52 <= 2 ^ (Zdigits2 c - 1 - e - Zdigits2 t)) by (apply Z.pow_le_mono_r; lia).
    assert (2 ^ 52 <= q) as Hq52 by lia. split; [lia|]. specialize (Hdq ltac:(lia)).
    destruct (Z.lt_ge_cases (Zdigits2 q) 53); [|done].
    assert (2 ^ Zdigits2 q <= 2 ^ 52) by (apply Z.pow_le_mono_r; lia). lia. }
  split; [lia|]. split; [rewrite fexp_eq; lia|]. rewrite HP.
  unfold new_location, new_location_even, new_location_odd.
  destruct (Z.even t) eqn:Et; cbv beta;
    (destruct (Z.eqb_spec r 0) as [->|Hr0]; [cbn; lia|]; unfold located;
     assert (0 < r * w < t * w) as Hrw by (split; [|apply Z.mul_lt_mono_pos_r]; lia)).
  - split; [lia|]. replace (2 * ((q * t + r) * w)) with (2 * q * t * w + w * (2 * r)) by lia.
    replace ((2 * q + 1) * (w * t)) with (2 * q * t * w + w * t) by lia.
    rewrite Z.add_compare_mono_l. symmetry. by apply Zmult_compare_compat_l, Z.lt_gt.
  - split; [lia|]. assert (2 * r <> t) as Hodd by (intros <-; by rewrite Z.even_mul in Et).
    destruct (Z.compare_spec (2 * r + 1) t) as [E|E|E];
      rewrite ?Z.compare_lt_iff, ?Z.compare_gt_iff.
    + assert (w * (2 * r) < w * t) by (apply Z.mul_lt_mono_pos_l; lia). lia.
    + assert (w * (2 * r) < w * t) by (apply Z.mul_lt_mono_pos_l; lia). lia.
    + assert (w * t < w * (2 * r)) by (apply Z.mul_lt_mono_pos_l; lia). lia.
Qed.

(** ** The conversion of a decimal *)

(** A finite double, as the mantissa and exponent the comparison is against. *)
Lemma units_finite z : isfinite z = true -> valid_binary 53 1024 z = true ->
  exists mz ez, Z.abs mz < 2 ^ 53 /\ -1074 <= ez /\ units z = mz * 2 ^ (ez + 1074).
Proof.
  destruct z as [s| | |s m e]; try done; intros _ Hv; [by exists 0, 0|].
  pose proof (proj1 (is_double_finite_iff s m e) Hv) as Hb.
  exists (cond_Zopp s (Zpos m)), e. split_and!; [destruct s; cbn; lia|lia|].
  destruct s; cbn [units cond_Zopp]; lia.
Qed.

(** From the magnitude to the signed number. *)
Lemma nearest_signed neg c k y :
  rounds neg (c * 10 ^ Z.max k 0 * 2 ^ 1074) (10 ^ Z.max (- k) 0) y -> nearest neg c k y.
Proof.
  assert (forall y, (forall mz ez, Z.abs mz < 2 ^ 53 -> -1074 <= ez ->
           Z.abs (c * 10 ^ Z.max k 0 * 2 ^ 1074 - cond_Zopp neg (units y) * 10 ^ Z.max (- k) 0) <=
           Z.abs (c * 10 ^ Z.max k 0 * 2 ^ 1074 - mz * 2 ^ (ez + 1074) * 10 ^ Z.max (- k) 0)) ->
         forall z, isfinite z = true -> valid_binary 53 1024 z = true ->
           distance neg c k y <= distance neg c k z) as Hfin.
  { intros x Hx z Hz Hv. destruct (units_finite z Hz Hv) as (mz & ez & Hm & He & Hu).
    specialize (Hx (cond_Zopp neg mz) ez ltac:(destruct neg; cbn; lia) He). unfold distance. rewrite Hu.
    set (T := 10 ^ Z.max k 0) in *. set (B := 10 ^ Z.max (- k) 0) in *. set (W := 2 ^ 1074) in *.
    set (V := 2 ^ (ez + 1074)) in *. destruct neg; cbn [cond_Zopp] in *; lia. }
  destruct y as [s|s| |s m e]; cbn [nearest rounds]; intros Hy; [by apply Hfin| |done|by apply Hfin].
  destruct Hy as [-> Hy]. split; [done|]. change (2 ^ 2044) with (2 ^ (970 + 1074)) in Hy.
  rewrite Z.pow_add_r in Hy by lia. set (W := 2 ^ 1074) in *. assert (0 < W) by (by unfold W).
  apply (Z.mul_le_mono_pos_r _ _ W); [done|]. lia.
Qed.

(** [d_of_decimal] is the nearest double. *)
Theorem d_of_decimal_nearest neg c k : 0 < c -> nearest neg c k (d_of_decimal neg c k).
Proof.
  intros Hc. apply nearest_signed. unfold d_of_decimal. destruct c as [|m|m]; [lia| |lia].
  destruct (10 ^ Z.max (- k) 0) as [|t|t] eqn:Et; [lia| |lia].
  destruct (Z.leb_spec 0 k) as [Hk|Hk].
  - rewrite (Z.max_l k 0), (Z.max_r (- k) 0) in * by lia. injection Et as <-.
    destruct (Zpos m * 10 ^ k) as [|i|i] eqn:Ei; [nia| |nia].
    assert (binary_normalize 53 1024 (cond_Zopp neg (Zpos i)) 0 neg = binary_round 53 1024 neg i 0) as ->
      by (by destruct neg).
    unfold binary_round. pose proof (shl_align_exact i) as Hs. destruct (shl_align _ _ _) as [mz ez].
    destruct Hs as (Hez & Hf & Hv).
    apply binary_round_aux_nearest; [done|done|lia| |done]. cbn [located]. rewrite Hv. lia.
  - rewrite (Z.max_r k 0), Z.pow_0_r, Z.mul_1_r by lia.
    pose proof (div_core_located (Zpos m) (Zpos t) ltac:(lia) ltac:(lia)) as Hd.
    unfold ddiv, SFdiv. destruct (SFdiv_core_binary _ _ _ _ _ _) as [[q e] l].
    destruct Hd as (He & Hq & Hf & Hl). rewrite xorb_false_r.
    apply binary_round_aux_nearest; done.
Qed.

(** ** Reading back what was printed *)

(** C40: a number the command-line tool prints is read back by [std::stod] to six
    digits. The text of a finite non-zero number denotes [c * 10 ^ k], the number
    rounded to six significant digits, off by at most half a unit of the last of them;
    reading it yields the double [y] nearest to [c * 10 ^ k]: no finite double is closer.
    [std::stod] returns [y] when it is a normal number, and throws [std::out_of_range]
    when it is infinite, or when it is subnormal or zero and the platform reports
    underflow as a range error. Zeros and infinities are read back as they were. *)
Theorem f2_reads_back `{TextPlatform} s :
  (forall m e, exists n x c k y, 10 ^ 5 <= n < 10 ^ 6 /\
    within_half (frac_num m e) (frac_den e) n (5 - x) /\
    0 <= k + (5 - x) /\ n = c * 10 ^ (k + (5 - x)) /\
    nearest s c k y /\
    stod (f2 (S754_finite s m e)) =
      match y with
      | S754_finite _ my _ =>
          if (Zpos my <? 2 ^ 52) && underflow_is_range_error y then OutOfRange else Parsed y
      | S754_zero _ => if underflow_is_range_error y then OutOfRange else Parsed y
      | _ => OutOfRange
      end) /\
  stod (f2 (S754_zero s)) = Parsed (S754_zero s) /\
  stod (f2 (S754_infinity s)) = Parsed (S754_infinity s).
Proof.
  split; [|by destruct s].
  intros m e. destruct (f2_scans s m e) as (n & x & c & k & Hn & Hw & Hk & Hc & ->).
  assert (0 < c) as Hc0 by (pose proof (Z.pow_pos_nonneg 10 (k + (5 - x)) ltac:(lia) Hk); nia).
  pose proof (d_of_decimal_nearest s c k Hc0) as Hy.
  exists n, x, c, k, (d_of_decimal s c k). do 5 (split; [done|]). unfold check_range.
  rewrite (proj2 (Z.eqb_neq c 0)) by lia. by destruct (d_of_decimal s c k).
Qed.
