(* ===== verification/Sockets.v ===== *)
(** * Socket ownership (protocol.hpp, protocol.cpp)

    The calls that create, adopt and close sockets: [network_init],
    [TcpServer::bind_and_listen], [TcpServer::accept], [TcpServer::close],
    [connect_tcp], [FramedSocket::adopt] and [FramedSocket::close]. The process's
    open descriptors are a set; what the operating system answers is an interface,
    with the one law the code relies on: a new descriptor is not one that is open.
    The theorem is that no path double-closes a descriptor, and that the only one that
    leaks is a second listen on a server that is still listening. *)

From stdpp Require Import base gmap sets list strings numbers.
From S2P Require Import Prelude.
Open Scope Z_scope.

(** [static_cast<SOCKET>(~0)]. *)
Definition invalid_socket : Z := -1.

(** [in_addr]: [INADDR_ANY] is the zero address. *)
Inductive Addr := AnyAddr | HostAddr (host : string).

(** The socket calls of the operating system. *)
Class SocketPlatform := {
  os_startup : bool;                         (* WSAStartup; true elsewhere *)
  os_socket : gset Z -> Z;                   (* a descriptor, or the invalid one *)
  os_pton : string -> bool;                  (* is the text an IPv4 address? *)
  os_bind : Z -> Addr -> Z -> bool;
  os_listen : Z -> bool;
  os_accept : gset Z -> Z -> Z;
  os_connect : Z -> Addr -> Z -> bool
}.

(** A descriptor the system hands out is not in use. *)
Class SocketLaws `{SocketPlatform} : Prop := {
  os_socket_fresh open : os_socket open ∉ open;
  os_accept_fresh open s : os_accept open s ∉ open
}.

Section sockets.
Context `{SocketPlatform}.

(** [network_init]. *)
Definition network_init : bool * string :=
  if os_startup then (true, EmptyString) else (false, "WSAStartup failed"%string).

(** [FramedSocket::ok]. *)
Definition sock_ok (s : Z) : bool := negb (s =? invalid_socket).

(** [::close(s)]. *)
Definition os_close (s : Z) (open : gset Z) : gset Z := open ∖ {[s]}.

(** [FramedSocket::close]: the new handle and descriptors. *)
Definition sock_close (s : Z) (open : gset Z) : Z * gset Z :=
  if sock_ok s then (invalid_socket, os_close s open) else (s, open).

(** [FramedSocket::adopt]. *)
Definition adopt (held s : Z) (open : gset Z) : Z * gset Z :=
  let open := if sock_ok held then (sock_close held open).2 else open in (s, open).

(** [TcpServer::bind_and_listen]: the listening socket, the descriptors and the
    error of a call that returned [false]. *)
Definition bind_and_listen (listen_sock : Z) (host : string) (port : Z) (open : gset Z)
    : Z * gset Z * option string :=
  let s := os_socket open in
  if s =? invalid_socket then (listen_sock, open, Some "socket failed"%string)
  else
    let open := {[s]} ∪ open in
    let addr := if decide (host = EmptyString) then Some AnyAddr
                else if os_pton host then Some (HostAddr host) else None in
    match addr with
    | None => (listen_sock, os_close s open, Some "bad host"%string)
    | Some addr =>
        if negb (os_bind s addr port) then (listen_sock, os_close s open, Some "bind failed"%string)
        else if negb (os_listen s) then (listen_sock, os_close s open, Some "listen failed"%string)
        else (s, open, None)
    end.

(** [TcpServer::accept]: the accepted socket or the error. *)
Definition tcp_accept (listen_sock : Z) (open : gset Z) : (Z + string) * gset Z :=
  let s := os_accept open listen_sock in
  if s =? invalid_socket then (inr "accept failed"%string, open) else (inl s, {[s]} ∪ open).

(** [TcpServer::close]. *)
Definition tcp_close (listen_sock : Z) (open : gset Z) : Z * gset Z :=
  if negb (listen_sock =? invalid_socket) then (invalid_socket, os_close listen_sock open)
  else (listen_sock, open).

(** [connect_tcp]. The result of [inet_pton] is not looked at: a host that is not an
    address leaves the zero address. *)
Definition connect_tcp (held : Z) (host : string) (port : Z) (open : gset Z)
    : Z * gset Z * option string :=
  let s := os_socket open in
  if s =? invalid_socket then (held, open, Some "socket failed"%string)
  else
    let open := {[s]} ∪ open in
    let addr := if os_pton host then HostAddr host else AnyAddr in
    if negb (os_connect s addr port) then (held, os_close s open, Some "connect failed"%string)
    else let (held, open) := adopt held s open in (held, open, None).

(** ** A process's sockets *)

Record Endpoints := MkEndpoints {
  ep_open : gset Z;       (** descriptors the system has open for the process *)
  ep_listen : Z;          (** the [TcpServer] *)
  ep_conns : list Z       (** the [FramedSocket]s *)
}.

Inductive SocketOp :=
| OpListen (host : string) (port : Z)
| OpAccept
| OpConnect (host : string) (port : Z)
| OpCloseConn (i : nat)
| OpCloseServer.

(** One call; a connection is made on a fresh [FramedSocket]. *)
Definition socket_op (o : SocketOp) (p : Endpoints) : Endpoints :=
  match o with
  | OpListen host port =>
      let '(l, open, _) := bind_and_listen (ep_listen p) host port (ep_open p) in
      MkEndpoints open l (ep_conns p)
  | OpAccept =>
      match tcp_accept (ep_listen p) (ep_open p) with
      | (inl s, open) =>
          let (held, open) := adopt invalid_socket s open in
          MkEndpoints open (ep_listen p) (ep_conns p ++ [held])
      | (inr _, open) => MkEndpoints open (ep_listen p) (ep_conns p)
      end
  | OpConnect host port =>
      let '(held, open, _) := connect_tcp invalid_socket host port (ep_open p) in
      MkEndpoints open (ep_listen p) (ep_conns p ++ [held])
  | OpCloseConn i =>
      match ep_conns p !! i with
      | Some s =>
          let (held, open) := sock_close s (ep_open p) in
          MkEndpoints open (ep_listen p) (<[i := held]> (ep_conns p))
      | None => p
      end
  | OpCloseServer =>
      let (l, open) := tcp_close (ep_listen p) (ep_open p) in MkEndpoints open l (ep_conns p)
  end.

(** The handles that own a descriptor. *)
Definition owned (p : Endpoints) : list Z :=
  filter (fun s => s <> invalid_socket) (ep_listen p :: ep_conns p).

(** The descriptor a call leaves without a handle: [bind_and_listen] assigns the new
    socket to [listen_sock] without closing the one it holds. *)
Definition lost_by (o : SocketOp) (p : Endpoints) : list Z :=
  match o with
  | OpListen host port =>
      match bind_and_listen (ep_listen p) host port (ep_open p) with
      | (_, _, None) => if sock_ok (ep_listen p) then [ep_listen p] else []
      | _ => []
      end
  | _ => []
  end.

(** The descriptors lost along a sequence of calls. *)
Fixpoint lost (os : list SocketOp) (p : Endpoints) : list Z :=
  match os with
  | [] => []
  | o :: os => lost_by o p ++ lost os (socket_op o p)
  end.

(** Every open descriptor is owned exactly once, or is one of those lost. *)
Record endpoints_wf (gone : list Z) (p : Endpoints) : Prop := {
  ew_open : ep_open p = list_to_set (owned p ++ gone);
  ew_once : NoDup (owned p ++ gone)
}.

Definition is_listen (o : SocketOp) : bool := match o with OpListen _ _ => true | _ => false end.

(** Closing everything, as [Coordinator::stop] does. *)
Definition close_all (p : Endpoints) : Endpoints :=
  fold_left (fun p i => socket_op (OpCloseConn i) p) (seq 0 (length (ep_conns p)))
    (socket_op OpCloseServer p).

End sockets.

(** ** Ownership is kept *)

Section ownership.
Context `{SocketPlatform}.

Lemma endpoints_add gone gone' p p' s : endpoints_wf gone p -> s ∉ ep_open p ->
  ep_open p' = {[s]} ∪ ep_open p -> owned p' ++ gone' ≡ₚ s :: owned p ++ gone -> endpoints_wf gone' p'.
Proof.
  intros [Hw Hn] Hs Ho Hp. rewrite Hw, elem_of_list_to_set in Hs. split.
  - rewrite Hp, list_to_set_cons, Ho, Hw. done.
  - rewrite Hp. by constructor.
Qed.

Lemma endpoints_remove gone p p' s : endpoints_wf gone p -> ep_open p' = os_close s (ep_open p) ->
  owned p ≡ₚ s :: owned p' -> endpoints_wf gone p'.
Proof.
  intros [Hw Hn] Ho Hp. rewrite Hp in Hn. cbn [app] in Hn. apply list.NoDup_cons in Hn as [Hs Hn].
  split; [|done]. rewrite Ho, Hw, Hp. unfold os_close. apply set_eq. intros x. cbn [app].
  rewrite list_to_set_cons. set_solver.
Qed.

Lemma sock_ok_true s : sock_ok s = true <-> s <> invalid_socket.
Proof. unfold sock_ok. rewrite negb_true_iff, Z.eqb_neq. done. Qed.

Lemma sock_ok_false s : sock_ok s = false <-> s = invalid_socket.
Proof. unfold sock_ok. rewrite negb_false_iff, Z.eqb_eq. done. Qed.

Lemma os_close_fresh s open : s ∉ open -> os_close s ({[s]} ∪ open) = open.
Proof. unfold os_close. set_solver. Qed.

(** Handles after a call that appends one. *)
Lemma owned_snoc open open' l c s : s <> invalid_socket ->
  owned (MkEndpoints open' l (c ++ [s])) ≡ₚ s :: owned (MkEndpoints open l c).
Proof.
  intros Hs. unfold owned; cbn [ep_listen ep_conns].
  rewrite app_comm_cons, list.filter_app, (filter_cons_True _ s []) by done.
  rewrite filter_nil. by rewrite <-Permutation_cons_append.
Qed.

Lemma owned_snoc_invalid open l c :
  owned (MkEndpoints open l (c ++ [invalid_socket])) = owned (MkEndpoints open l c).
Proof.
  unfold owned; cbn [ep_listen ep_conns]. rewrite app_comm_cons, list.filter_app.
  rewrite (filter_cons_False _ invalid_socket []) by naive_solver. by rewrite filter_nil, app_nil_r.
Qed.

(** The outcomes of the two calls that make sockets. *)
Lemma bind_and_listen_cases `{!SocketLaws} l host port open :
  (exists err, bind_and_listen l host port open = (l, open, Some err)) \/
  (exists s, s <> invalid_socket /\ (s ∉ open) /\ bind_and_listen l host port open = (s, {[s]} ∪ open, None)).
Proof.
  unfold bind_and_listen. pose proof (os_socket_fresh open) as Hf.
  destruct (Z.eqb_spec (os_socket open) invalid_socket); [by left; eexists|].
  split_cases; rewrite ?os_close_fresh by done; eauto 6.
Qed.

Lemma connect_tcp_cases `{!SocketLaws} host port open :
  (exists err, connect_tcp invalid_socket host port open = (invalid_socket, open, Some err)) \/
  (exists s, s <> invalid_socket /\ (s ∉ open) /\
     connect_tcp invalid_socket host port open = (s, {[s]} ∪ open, None)).
Proof.
  unfold connect_tcp. pose proof (os_socket_fresh open) as Hf.
  destruct (Z.eqb_spec (os_socket open) invalid_socket); [by left; eexists|].
  destruct (negb (os_connect _ _ _)); [left; eexists; by rewrite os_close_fresh|].
  right. exists (os_socket open). by rewrite (proj2 (sock_ok_false invalid_socket)) || done.
Qed.

Lemma owned_listen open open' l s c : s <> invalid_socket ->
  owned (MkEndpoints open' s c) ++ (if sock_ok l then [l] else []) ≡ₚ s :: owned (MkEndpoints open l c).
Proof.
  intros Hs. unfold owned; cbn [ep_listen ep_conns]. rewrite (filter_cons_True _ s) by done.
  rewrite filter_cons. destruct (sock_ok l) eqn:Hl.
  - apply sock_ok_true in Hl. rewrite decide_True by done. cbn [app]. by rewrite <- Permutation_cons_append.
  - apply sock_ok_false in Hl. rewrite decide_False, app_nil_r by naive_solver. done.
Qed.

Lemma socket_op_wf `{!SocketLaws} gone o p : endpoints_wf gone p ->
  endpoints_wf (lost_by o p ++ gone) (socket_op o p).
Proof.
  intros Hwf. destruct p as [open l c], o as [host port| |host port|i|];
    cbn [socket_op lost_by ep_open ep_listen ep_conns app].
  - destruct (bind_and_listen_cases l host port open) as [[err ->]|(s & Hs & Hf & ->)]; [done|].
    apply (endpoints_add gone _ _ _ s Hwf Hf); [done|].
    rewrite (assoc_L (++)), (owned_listen open) by done. done.
  - unfold tcp_accept. pose proof (os_accept_fresh open l) as Hf.
    destruct (Z.eqb_spec (os_accept open l) invalid_socket) as [|Hs]; [done|].
    apply (endpoints_add gone gone _ _ _ Hwf Hf); [done|]. rewrite app_comm_cons. by apply Permutation_app_tail, owned_snoc.
  - destruct (connect_tcp_cases host port open) as [[err ->]|(s & Hs & Hf & ->)].
    + destruct Hwf as [Hw Hn]. split; [|by rewrite owned_snoc_invalid].
      rewrite owned_snoc_invalid. exact Hw.
    + apply (endpoints_add gone gone _ _ s Hwf Hf); [done|]. rewrite app_comm_cons. by apply Permutation_app_tail, owned_snoc.
  - destruct (c !! i) as [s|] eqn:Hi; [|done]. unfold sock_close. destruct (sock_ok s) eqn:Hs.
    + apply sock_ok_true in Hs. apply (endpoints_remove gone _ _ s Hwf); [done|].
      unfold owned; cbn [ep_listen ep_conns]. pose proof (lookup_lt_Some _ _ _ Hi) as Hlt.
      rewrite insert_take_drop by done. rewrite <-(take_drop_middle c i s Hi) at 1.
      rewrite !app_comm_cons, !list.filter_app, (filter_cons_True _ s) by done.
      rewrite (filter_cons_False _ invalid_socket) by naive_solver. by rewrite Permutation_middle.
    + by rewrite list_insert_id.
  - unfold tcp_close. destruct (Z.eqb_spec l invalid_socket) as [|Hl]; [done|]. cbn [negb].
    apply (endpoints_remove gone _ _ l Hwf); [done|]. unfold owned; cbn [ep_listen ep_conns].
    rewrite filter_cons_True by done. by rewrite (filter_cons_False _ invalid_socket) by naive_solver.
Qed.

Lemma socket_ops_wf `{!SocketLaws} os gone p : endpoints_wf gone p ->
  exists gone', gone' ≡ₚ lost os p ++ gone /\ endpoints_wf gone' (fold_left (fun p o => socket_op o p) os p).
Proof.
  revert gone p. induction os as [|o os IH]; intros gone p Hp; [by exists gone|].
  cbn [lost fold_left]. destruct (IH _ _ (socket_op_wf gone o p Hp)) as (gone' & Hg & Hwf).
  exists gone'. split; [|done]. rewrite Hg, (Permutation_app_swap_app _ (lost_by o p)). by rewrite (assoc_L (++)).
Qed.

(** A server that is closed, or that is not asked to listen again, loses nothing. *)
Lemma lost_nothing os p : (length (filter (fun o => is_listen o = true) os) <= 1)%nat ->
  (sock_ok (ep_listen p) = true -> filter (fun o => is_listen o = true) os = []) -> lost os p = [].
Proof.
  revert p. induction os as [|o os IH]; intros p Hn Hl; [done|]. cbn [lost]. rewrite filter_cons in *.
  destruct o as [host port| |host port|i|]; cbn [is_listen lost_by] in *.
  - rewrite decide_True in * by done. destruct (sock_ok (ep_listen p)) eqn:E; [by specialize (Hl eq_refl)|].
    assert (filter (fun o => is_listen o = true) os = []) as Hnil
      by (destruct (filter _ os); [done|simpl in Hn; lia]).
    rewrite (IH _) by (rewrite Hnil; simpl; auto with lia).
    destruct (bind_and_listen _ _ _ _) as [[? ?] []]; done.
  - rewrite decide_False in * by done. cbn [app]. apply IH; [done|]. intros Hk. apply Hl. revert Hk.
    cbn [socket_op]. destruct (tcp_accept _ _) as [[s|e] open]; [|done]. by destruct (adopt _ _ _).
  - rewrite decide_False in * by done. cbn [app]. apply IH; [done|]. intros Hk. apply Hl. revert Hk.
    cbn [socket_op]. by destruct (connect_tcp _ _ _ _) as [[? ?] ?].
  - rewrite decide_False in * by done. cbn [app]. apply IH; [done|]. intros Hk. apply Hl. revert Hk.
    cbn [socket_op]. destruct (ep_conns p !! i); [|done]. by destruct (sock_close _ _).
  - rewrite decide_False in * by done. cbn [app]. apply IH; [done|]. intros Hk. apply Hl. revert Hk.
    cbn [socket_op]. unfold tcp_close. fold (sock_ok (ep_listen p)).
    destruct (sock_ok (ep_listen p)) eqn:E; [done|]. cbn [ep_listen]. by rewrite E.
Qed.

Lemma close_conn_handles i p :
  ep_listen (socket_op (OpCloseConn i) p) = ep_listen p /\
  ep_conns (socket_op (OpCloseConn i) p) = <[i := invalid_socket]> (ep_conns p).
Proof.
  destruct p as [open l c]. cbn [socket_op ep_conns]. destruct (c !! i) as [s|] eqn:Hi.
  - unfold sock_close. destruct (sock_ok s) eqn:Hs; cbn [ep_listen ep_conns]; [done|].
    apply sock_ok_false in Hs. by subst.
  - by rewrite list_insert_ge by (by apply lookup_ge_None).
Qed.

Lemma close_conns_handles ks p : (forall i, (i < length (ep_conns p))%nat -> i ∈ ks) ->
  let p' := fold_left (fun p i => socket_op (OpCloseConn i) p) ks p in
  ep_listen p' = ep_listen p /\ Forall (fun s => s = invalid_socket) (ep_conns p').
Proof.
  intros His. cut (let p' := fold_left (fun p i => socket_op (OpCloseConn i) p) ks p in
    ep_listen p' = ep_listen p /\ forall j s, ep_conns p' !! j = Some s ->
      s = invalid_socket \/ (ep_conns p !! j = Some s /\ j ∉ ks)).
  { intros [Hl Hc]. split; [done|]. apply Forall_lookup. intros j s Hj.
    destruct (Hc j s Hj) as [|[Hj' Hn]]; [done|]. destruct Hn. by eapply His, lookup_lt_Some. }
  clear His. revert p. induction ks as [|i ks IH]; intros p.
  - split; [done|]. intros j s Hj. right. split; [done|]. apply not_elem_of_nil.
  - cbn [fold_left]. destruct (IH (socket_op (OpCloseConn i) p)) as [Hl Hc].
    destruct (close_conn_handles i p) as [Hl' Hc']. split; [by rewrite Hl|].
    intros j s Hj. destruct (Hc j s Hj) as [|[Hj' Hn]]; [by left|]. rewrite Hc' in Hj'.
    apply list_lookup_insert_Some in Hj' as [(-> & -> & _)|[Hne Hj']]; [by left|].
    right. split; [done|]. set_solver.
Qed.

(** C25: who owns a socket: after any sequence of listens, accepts, connects and
    closes, whichever of them fail and wherever, the open descriptors are exactly
    those held by the server and the connections, each by one of them, and those a
    listen on a server that was still listening has overwritten. Closing the server
    and every connection closes all of the former and none of the latter, and there
    are none of the latter when the server is made to listen at most once. *)
Theorem sockets_owned `{!SocketLaws} os :
  let start := MkEndpoints ∅ invalid_socket [] in
  let p := fold_left (fun p o => socket_op o p) os start in
  ep_open p = list_to_set (owned p ++ lost os start) /\ NoDup (owned p ++ lost os start) /\
  ep_open (close_all p) = list_to_set (lost os start) /\
  ((length (filter (fun o => is_listen o = true) os) <= 1)%nat -> lost os start = []).
Proof.
  intros start p. assert (endpoints_wf [] start) as Hs0 by (split; [done|apply base.NoDup_nil_2]).
  destruct (socket_ops_wf os [] start Hs0) as (gone & Hg & Hp). fold p in Hp. rewrite app_nil_r in Hg.
  assert (endpoints_wf gone (close_all p)) as [Hw _].
  { unfold close_all. generalize (seq 0 (length (ep_conns p))). intros ks.
    pose proof (socket_op_wf gone OpCloseServer p Hp) as Hc. cbn [lost_by app] in Hc. revert Hc.
    generalize (socket_op OpCloseServer p). induction ks as [|i ks IH]; intros q Hq; [done|].
    apply IH. apply (socket_op_wf gone (OpCloseConn i) q Hq). }
  destruct Hp as [Ho Hn]. rewrite Hg in Ho, Hn. split; [done|]. split; [done|]. split.
  - rewrite Hw. assert (owned (close_all p) = []) as ->; [|by rewrite Hg].
    destruct (close_conns_handles (seq 0 (length (ep_conns p))) (socket_op OpCloseServer p)) as [Hl Hc].
    { intros i Hi. apply elem_of_seq. split; [lia|]. simpl in *. by destruct (tcp_close _ _). }
    unfold close_all, owned. rewrite Hl, filter_cons_False.
    + unfold close_all in Hc. induction Hc as [|s c -> _ IH]; [done|].
      by rewrite filter_cons_False by naive_solver.
    + simpl. unfold tcp_close. destruct (Z.eqb_spec (ep_listen p) invalid_socket); simpl; naive_solver.
  - intros Hlen. by apply lost_nothing.
Qed.
End ownership.

(** ** Witness *)

(** A system that never refuses an address in dotted form and hands out the smallest
    unused descriptor. *)
Definition sample_platform : SocketPlatform := {|
  os_startup := true;
  os_socket := fun open => fresh open;
  os_pton := fun host => bool_decide (host = "127.0.0.1"%string);
  os_bind := fun _ _ port => 1024 <=? port;
  os_listen := fun _ => true;
  os_accept := fun open _ => fresh open;
  os_connect := fun _ _ port => port =? 38921
|}.

Lemma sample_platform_laws : @SocketLaws sample_platform.
Proof. split; intros; apply is_fresh. Qed.

(** A refused bind, a listen, two accepts, a connection closed early; and a server
    made to listen twice, whose first descriptor stays open. *)
Definition one_listen : list SocketOp :=
  [OpListen "127.0.0.1" 80; OpListen "127.0.0.1" 38921; OpAccept; OpAccept; OpCloseConn 0].

Definition two_listens : list SocketOp :=
  [OpListen "127.0.0.1" 38921; OpListen "127.0.0.1" 38922; OpAccept].

Lemma sockets_owned_witness :
  let P := sample_platform in
  let start := MkEndpoints ∅ invalid_socket [] in
  let run os := fold_left (fun p o => socket_op o p) os start in
  (size (ep_open (run one_listen)) = 2%nat /\ ep_open (close_all (run one_listen)) = ∅) /\
  (lost two_listens start = [0] /\ ep_open (close_all (run two_listens)) = {[0]}).
Proof.
  intros P start run. split; split; [by vm_compute| |by vm_compute|].
  - pose proof (@sockets_owned P sample_platform_laws one_listen) as (_ & _ & Hc & _).
    assert (lost one_listen start = []) as Hl by (by vm_compute).
    refine (eq_trans Hc _). fold start. by rewrite Hl.
  - pose proof (@sockets_owned P sample_platform_laws two_listens) as (_ & _ & Hc & _).
    assert (lost two_listens start = [0]) as Hl by (by vm_compute).
    refine (eq_trans Hc _). fold start. rewrite Hl. cbn. by rewrite union_empty_r_L.
Defined.
