(* ===== verification/Worker.v ===== *)
(** * The worker process (tools/iledger_worker.cpp)

    The whole of [main]: arguments, connection, registration, and the loop that
    submits the entries of a script file and waits for each acknowledgement. What
    arrives from the coordinator is a [Net] (arbitrary chunks, errors, end of
    stream), what [send] takes and what the socket calls answer are the platform
    interfaces. The model records every line printed and every byte sent. *)

From Stdlib Require Import Strings.Byte.
From stdpp Require Import base gmap sets list strings numbers pretty.
From S2P Require Import Prelude Float64 StdMap Identity Reader Kinds Entry Codec Crc CodecProofs.
From S2P Require Import Ledger Persistence PersistenceProofs Protocol ProtocolProofs Text Sockets.
Open Scope Z_scope.

(** ** How a program ends *)

Inductive Outcome :=
| Exit (code : Z)
| Holding                    (** sleeping until the process is killed *)
| Uncaught                   (** an exception nobody catches: [std::terminate] *)
| Undefined                  (** undefined behaviour *)
| OutOfFuel.

(** What a process has done: standard output and error by lines, bytes sent, what
    is left to receive, and its open sockets. *)
Record Process := MkProcess {
  pr_out : list string;
  pr_err : list string;
  pr_sent : list byte;
  pr_net : Net;
  pr_open : gset Z
}.

#[export] Instance Process_rebuild : Rebuild Process := fun p =>
  MkProcess (pr_out p) (pr_err p) (pr_sent p) (pr_net p) (pr_open p).

Definition print (line : string) (p : Process) : Process := p <| pr_out ::= fun l => l ++ [line] |>.
Definition complain (line : string) (p : Process) : Process := p <| pr_err ::= fun l => l ++ [line] |>.

(** [std::to_string] and stream output of an unsigned integer. *)
Definition num (z : Z) : string := pretty z.

(** ** The messages of the worker *)

Definition reg_line (epoch : CoordinatorEpoch) (ag : AccountingGeneration) : string :=
  "REG " +:+ num (value epoch) +:+ " " +:+ num (value ag).

Definition roll_line (r : RollMsg) : string :=
  "ROLL " +:+ num (value (rl_epoch r)) +:+ " " +:+ num (value (rl_accounting_generation r)).

Definition ack_line (index : nat) (a : EventAckMsg) : string :=
  "ACK " +:+ num (Z.of_nat index) +:+ " " +:+ num (ea_status a) +:+ " " +:+ ea_reason a.

Section worker.
Context `{SendPlatform, SocketPlatform}.

(** [sock.send_message(msg, err)]. *)
Definition worker_send (msg : Message) (p : Process) : Process * option string :=
  let (bytes, err) := send_message msg in (p <| pr_sent ::= fun l => l ++ bytes |>, err).

(** [sock.recv_message(msg, err)]. *)
Definition worker_recv (p : Process) : RecvResult * Process :=
  let (res, net) := recv_message (pr_net p) in (res, p <| pr_net := net |>).

(** The loop that waits for an acknowledgement: [None] when it came. *)
Fixpoint await_ack (fuel : nat) (index : nat) (p : Process) : Process * option Outcome :=
  match fuel with
  | O => (p, Some OutOfFuel)
  | S fuel =>
      match worker_recv p with
      | (RecvOutOfBounds, p) => (p, Some Undefined)
      | (RecvFailed err, p) => (complain ("recv reply: " +:+ err) p, Some (Exit 1))
      | (Received (Roll r), p) => await_ack fuel index (print (roll_line r) p)
      | (Received (EventAck a), p) => (print (ack_line index a) p, None)
      | (Received _, p) => (complain "unexpected message" p, Some (Exit 1))
      end
  end.

(** The loop over the script from [data + pos]; [None] when the script is done. The
    source counts [index] in an [int], which only a script of 2^31 frames overflows. *)
Fixpoint submit_loop (fuel : nat) (data : list byte) (index : nat) (p : Process)
    : Process * option Outcome :=
  match data with
  | [] => (p, None)
  | _ =>
    match fuel with
    | O => (p, Some OutOfFuel)
    | S fuel =>
      match decode_entry data with
      | DecodeOutOfBounds => (p, Some Undefined)
      | DecodeRejected => (complain ("bad script frame " +:+ num (Z.of_nat index)) p, Some (Exit 1))
      | Decoded e consumed =>
          match worker_send (EventSubmit e) p with
          | (p, Some err) => (complain ("send submit: " +:+ err) p, Some (Exit 1))
          | (p, None) =>
              match await_ack fuel index p with
              | (p, Some o) => (p, Some o)
              | (p, None) => submit_loop fuel (drop (Z.to_nat consumed) data) (S index) p
              end
          end
      end
    end
  end.

(** What the next receives can deliver, at most. *)
Definition net_size (net : Net) : nat :=
  sum_list_with (fun ev => match ev with NetData bs => S (length bs) | NetError => 1%nat end) net.

(** [main] from the registration on, with the socket connected. *)
Definition worker_session (files : Files) (worker : WorkerId) (boot : WorkerBootId) (script : string)
    (hold : bool) (p : Process) : Process * Outcome :=
  match worker_send (Register (MkRegisterMsg worker boot)) p with
  | (p, Some err) => (complain ("send reg: " +:+ err) p, Exit 1)
  | (p, None) =>
    match worker_recv p with
    | (RecvOutOfBounds, p) => (p, Undefined)
    | (RecvFailed err, p) => (complain ("recv regack: " +:+ err) p, Exit 1)
    | (Received msg, p) =>
      match msg with
      | RegisterAck (MkRegisterAckMsg true epoch ag _) =>
          let p := print (reg_line epoch ag) p in
          match files !! script with
          | None => (complain "cannot open script" p, Exit 1)
          | Some data =>
              match submit_loop (S (S (net_size (pr_net p)))) data 0 p with
              | (p, Some o) => (p, o)
              | (p, None) =>
                  let p := print ("WORKER_DONE " +:+ to_string worker) p in
                  (p, if hold then Holding else Exit 0)
              end
          end
      | RegisterAck a => (complain ("registration rejected: " +:+ rk_reason a) p, Exit 1)
      | _ => (complain "registration rejected: " p, Exit 1)
      end
    end
  end.

(** [main]. Every return runs the destructor of the socket, which closes it. *)
Definition worker_main (argv : list string) (files : Files) (net : Net) : Process * Outcome :=
  let p := MkProcess [] [] [] net ∅ in
  match argv with
  | [_; host; port_text; worker_hex; boot_hex; script; hold_text] =>
      let hold := bool_decide (hold_text = "1"%string) in
      match stoi port_text with
      | Parsed port_int =>
          let port := wrap 16 port_int in
          match parse worker_hex, parse boot_hex with
          | Some worker, Some boot =>
              match network_init with
              | (false, err) => (complain ("network_init: " +:+ err) p, Exit 1)
              | (true, _) =>
                  match connect_tcp invalid_socket host port (pr_open p) with
                  | (_, open, Some err) => (complain ("connect: " +:+ err) (p <| pr_open := open |>), Exit 1)
                  | (sock, open, None) =>
                      let (p, o) := worker_session files worker boot script hold (p <| pr_open := open |>) in
                      match o with
                      | Exit c => (p <| pr_open ::= fun open => (sock_close sock open).2 |>, o)
                      | _ => (p, o)
                      end
                  end
              end
          | _, _ => (complain "bad identity" p, Exit 2)
          end
      | _ => (p, Uncaught)
      end
  | _ =>
      (complain ("usage: iledger_worker <host> <port> <worker_id_hex> " +:+
                 "<boot_id_hex> <script_file> <hold>") p, Exit 2)
  end.

End worker.
