(* ===== verification/WorkerProofs.v ===== *)
(** * Correctness of the worker process

    Every loop of the worker stops on every input, and only a worker told to hold runs
    on; it has at most one submission outstanding and prints one line per message it
    received, in script order; against a coordinator that answers, it submits the
    whole script; and it leaves no socket open when it returns. *)

From Stdlib Require Import Strings.Byte.
From stdpp Require Import base gmap sets list strings numbers pretty.
From S2P Require Import Prelude Float64 StdMap Identity Reader Kinds Entry Codec Crc CodecProofs.
From S2P Require Import Ledger Persistence PersistenceProofs Protocol ProtocolProofs Text Sockets.
From S2P Require Import Worker.
Open Scope Z_scope.

(** ** Specification *)

(** [send] makes progress on a connection that stays up. *)
Class SendProgress `{SendPlatform} : Prop := send_progress sent rest : 0 < send_result sent rest.

(** The stream delivers these messages, in chunks cut anywhere. *)
Definition delivers (net : Net) (ms : list Message) (tail : Net) : Prop :=
  exists frs, Forall2 (fun m fr => message_ok m /\ encode_message m = Some fr /\
                                   Z.of_nat (length fr) <= 2 ^ 24) ms frs /\
    flows net (mjoin frs) tail.

(** What the coordinator answers to a submission: rolls, then an acknowledgement. *)
Definition Reply : Type := list RollMsg * EventAckMsg.

Definition reply_messages (r : Reply) : list Message := (Roll <$> r.1) ++ [EventAck r.2].

Definition reply_lines (index : nat) (r : Reply) : list string :=
  (roll_line <$> r.1) ++ [ack_line index r.2].

(** The lines of replies to the entries from [index] on. *)
Fixpoint replies_lines (index : nat) (rs : list Reply) : list string :=
  match rs with
  | [] => []
  | r :: rs => reply_lines index r ++ replies_lines (S index) rs
  end.

(** The bytes of the submissions of a script. *)
Definition submissions (es : list LedgerEntry) : option (list byte) :=
  mjoin <$> mapM (fun e => encode_message (EventSubmit e)) es.

(** The worker got to the end of [main]. *)
Definition finished (o : Outcome) : bool :=
  match o with Exit 0 | Holding => true | _ => false end.

(** A loop that stopped the program returned from [main], or read out of bounds. *)
Definition stops (o : option Outcome) : Prop :=
  match o with Some x => x = Exit 1 \/ x = Undefined | None => True end.

(** Successive receives on a stream return these messages. *)
Inductive receives : Net -> list Message -> Net -> Prop :=
| receives_nil net : receives net [] net
| receives_cons net m net1 ms net2 :
    recv_message net = (Received m, net1) -> receives net1 ms net2 -> receives net (m :: ms) net2.

(** What a receive returns when it is neither a roll nor an acknowledgement. *)
Definition no_reply (res : RecvResult) : bool :=
  match res with Received (Roll _) | Received (EventAck _) => false | _ => true end.

(** The entries at the start of a script, and what follows them. *)
Inductive scripted : list byte -> list LedgerEntry -> list byte -> Prop :=
| scripted_nil data : scripted data [] data
| scripted_cons data e n es rest :
    decode_entry data = Decoded e n -> scripted (drop (Z.to_nat n) data) es rest ->
    scripted data (e :: es) rest.

Lemma receives_app net ms1 net1 ms2 net2 : receives net ms1 net1 -> receives net1 ms2 net2 ->
  receives net (ms1 ++ ms2) net2.
Proof. induction 1 as [|net m net' ms net1 Hr _ IH]; intros H2; [done|]. econstructor; eauto. Qed.

(** ** Receiving uses up the stream *)

Lemma recv_size n net bs net' : recv n net = (inr bs, net') ->
  (net_size net' + length bs <= net_size net)%nat.
Proof.
  destruct net as [|[ds|] net]; cbn [recv]; intros Hr; simplify_eq; [done|].
  unfold net_size; cbn [sum_list_with]. rewrite length_take.
  destruct (Nat.ltb_spec n (length ds)); cbn [sum_list_with]; rewrite ?length_drop; lia.
Qed.

Lemma read_all_size n fuel got net bs net' : read_all n fuel got net = (inr bs, net') ->
  (n <= length bs)%nat /\ (net_size net' + length bs <= net_size net + length got)%nat.
Proof.
  revert got net. induction fuel as [|fuel IH]; intros got net; cbn [read_all];
    destruct (Nat.leb_spec n (length got)); intros Hr; simplify_eq; try lia.
  destruct (recv (n - length got) net) as [[[]|[|b ds]] net1] eqn:E; simplify_eq.
  apply recv_size in E. apply IH in Hr. rewrite length_app in Hr. simpl in *. lia.
Qed.

(** A message takes at least its header. *)
Lemma recv_message_size net m net' : recv_message net = (Received m, net') ->
  (net_size net' < net_size net)%nat.
Proof.
  unfold recv_message. destruct (read_all 8 8 [] net) as [[err|hdr] net1] eqn:E1; [done|].
  apply read_all_size in E1 as [H8 E1]. simpl in E1.
  destruct hdr as [|h0 [|h1 [|h2 [|h3 [|h4 [|h5 [|h6 [|h7 hdr]]]]]]]]; try done.
  destruct (_ =? 0); [done|]. destruct (_ <? _); [done|].
  destruct (read_all _ _ [] net1) as [[err|content] net2] eqn:E2; [done|].
  apply read_all_size in E2 as [_ E2]. simpl in E2, E1.
  destruct (negb _); [done|]. destruct (decode_message content); intros [= <- <-]. lia.
Qed.

Section worker.
Context `{SendPlatform}.

Lemma worker_send_process m p p' err : worker_send m p = (p', err) ->
  exists bytes, send_message m = (bytes, err) /\
    p' = p <| pr_sent ::= fun l => l ++ bytes |>.
Proof. unfold worker_send. destruct (send_message m) as [bytes e]. intros [= <- <-]. eauto. Qed.

Lemma send_message_None m bytes : send_message m = (bytes, None) -> encode_message m = Some bytes.
Proof.
  unfold send_message. destruct (encode_message m) as [fr|]; [|done]. intros Hw.
  pose proof (write_all_prefix (length fr) [] fr (le_n _)) as Hp. rewrite Hw in Hp.
  destruct Hp as (_ & Hok & _). by rewrite Hok.
Qed.

Lemma send_message_Some m bytes err : send_message m = (bytes, Some err) ->
  bytes = [] \/ exists fr, encode_message m = Some fr /\ bytes `prefix_of` fr.
Proof.
  unfold send_message. destruct (encode_message m) as [fr|]; [|intros [= <- _]; by left].
  intros Hw. pose proof (write_all_prefix (length fr) [] fr (le_n _)) as Hp. rewrite Hw in Hp.
  destruct Hp as ((k & ->) & _ & _). right. exists fr. split; [done|].
  exists (drop k fr). simpl. by rewrite take_drop.
Qed.

Lemma worker_recv_process p res p' : worker_recv p = (res, p') ->
  exists net, recv_message (pr_net p) = (res, net) /\ p' = p <| pr_net := net |>.
Proof. unfold worker_recv. destruct (recv_message _) as [r net]. intros [= <- <-]. eauto. Qed.

(** ** Waiting for an acknowledgement *)

(** Every way the wait can end. *)
Lemma await_ack_spec fuel index p p' o : await_ack fuel index p = (p', o) ->
  (net_size (pr_net p) < fuel)%nat ->
  pr_sent p' = pr_sent p /\ pr_open p' = pr_open p /\ stops o /\
  exists rolls, match o with
    | None => (net_size (pr_net p') < net_size (pr_net p))%nat /\
              exists a, receives (pr_net p) (reply_messages (rolls, a)) (pr_net p') /\
                        pr_out p' = pr_out p ++ reply_lines index (rolls, a)
    | Some _ => pr_out p' = pr_out p ++ (roll_line <$> rolls) /\
                exists net2 res, receives (pr_net p) (Roll <$> rolls) net2 /\
                  recv_message net2 = (res, pr_net p') /\ no_reply res = true
    end.
Proof.
  revert p. induction fuel as [|fuel IH]; intros p Ha Hf; [lia|]. cbn [await_ack] in Ha.
  destruct (worker_recv p) as [res p1] eqn:Er. apply worker_recv_process in Er as (net & Er & ->).
  assert (no_reply res = true -> exists net2 res', receives (pr_net p) (Roll <$> []) net2 /\
    recv_message net2 = (res', net) /\ no_reply res' = true) as Hend by (intros; eexists _, _; by split; [constructor|]).
  destruct res as [m|err|]; [|simplify_eq..].
  - pose proof (recv_message_size _ _ _ Er) as Hs.
    destruct m as [|reg|e|a|r| |]; simplify_eq; simpl;
      try (split_and!; [done|done|by left|]; exists []; simpl; rewrite app_nil_r; split; [done|by apply Hend]).
    + split_and!; [done..|]. exists []. split; [done|]. exists a. split; [|done].
      by eapply receives_cons, receives_nil.
    + apply IH in Ha as (Hsent & Hopen & Ho & rolls & Hout); [|simpl; lia].
      split_and!; [done..|]. exists (r :: rolls). destruct o; simpl in *.
      * destruct Hout as (Hout & net2 & res & Hre & Hl). split; [by rewrite Hout, <-(assoc_L (++))|].
        exists net2, res. split; [by econstructor|done].
      * destruct Hout as (Hn & a & Hre & Hout). split; [lia|]. exists a. rewrite Hout.
        split; [by econstructor|]. by rewrite <-(assoc_L (++)).
  - split_and!; [done|done|by left|]. exists []. simpl. rewrite app_nil_r. split; [done|by apply Hend].
  - split_and!; [done|done|by right|]. exists []. simpl. rewrite app_nil_r. split; [done|by apply Hend].
Qed.

(** Against a coordinator that answers. *)
Lemma delivers_recv net m ms tail : delivers net (m :: ms) tail ->
  exists net', recv_message net = (Received (received m), net') /\ delivers net' ms tail.
Proof.
  intros (frs & Hf & Hn). apply Forall2_cons_inv_l in Hf as (fr & frs' & (Hok & He & Hl) & Hf & ->).
  cbn [mjoin list_join] in Hn. destruct (recv_sent m fr net (mjoin frs') tail Hok He Hl Hn) as (net' & Hr & Hn').
  exists net'. split; [done|]. by exists frs'.
Qed.

Lemma await_ack_delivers fuel index p r ms tail :
  delivers (pr_net p) (reply_messages r ++ ms) tail -> (length r.1 < fuel)%nat ->
  exists net', delivers net' ms tail /\
    await_ack fuel index p =
      (p <| pr_net := net' |> <| pr_out ::= fun l => l ++ reply_lines index r |>, None).
Proof.
  destruct r as [rolls a]. revert p fuel. induction rolls as [|x rolls IH]; intros p fuel Hd Hf;
    (destruct fuel as [|fuel]; [simpl in *; lia|]);
    apply delivers_recv in Hd as (net1 & Hr & Hd); cbn [await_ack]; unfold worker_recv; rewrite Hr;
    cbn [received].
  - exists net1. done.
  - destruct (IH (print (roll_line x) (p <| pr_net := net1 |>)) fuel) as (net' & Hd' & ->);
      [done|simpl in *; lia|].
    exists net'. split; [done|]. unfold print, update; simpl. do 2 f_equal. by rewrite <-(assoc_L (++)).
Qed.

(** ** The script *)

(** Every way the submissions can end: how far the script was read, what was sent and
    received, and the lines printed. Either every submission was answered, or the last
    one was not, and the receive that waited for it returned something else. *)
Record submitted (data : list byte) (index : nat) (p p' : Process) (o : option Outcome)
    (es : list LedgerEntry) (rest : list byte) (bytes part : list byte) (rs : list Reply)
    (rolls : list RollMsg) (net2 : Net) : Prop := {
  su_script : scripted data es rest;
  su_bytes : submissions es = Some bytes;
  su_sent : pr_sent p' = pr_sent p ++ bytes ++ part;
  su_out : pr_out p' = pr_out p ++ replies_lines index rs ++ (roll_line <$> rolls);
  su_received : receives (pr_net p) (mjoin (reply_messages <$> rs) ++ (Roll <$> rolls)) net2;
  su_answered : (length es = length rs /\ rolls = [] /\ pr_net p' = net2) \/
                (length es = S (length rs) /\ part = [] /\
                 exists res, recv_message net2 = (res, pr_net p') /\ no_reply res = true);
  su_done : o = None -> rest = [] /\ part = [] /\ length es = length rs;
  su_part : part <> [] -> exists e n fr,
    decode_entry rest = Decoded e n /\ encode_message (EventSubmit e) = Some fr /\ part `prefix_of` fr
}.

Lemma submitted_none data index p p' o : pr_sent p' = pr_sent p -> pr_out p' = pr_out p ->
  pr_net p' = pr_net p -> (o = None -> data = []) ->
  submitted data index p p' o [] data [] [] [] [] (pr_net p).
Proof.
  intros Hs Ho Hn Hd. split; try done; simpl; rewrite ?app_nil_r; try done; [constructor|constructor|by left|naive_solver].
Qed.

Lemma submissions_cons e es fr bytes : encode_message (EventSubmit e) = Some fr ->
  submissions es = Some bytes -> submissions (e :: es) = Some (fr ++ bytes).
Proof.
  unfold submissions. intros He Hes. cbn [mapM]. rewrite He. cbn [mbind option_bind].
  apply fmap_Some in Hes as (frs & -> & ->). done.
Qed.

Lemma submit_loop_spec fuel data index p p' o : submit_loop fuel data index p = (p', o) ->
  (S (net_size (pr_net p)) < fuel)%nat ->
  pr_open p' = pr_open p /\ stops o /\
  exists es rest bytes part rs rolls net2, submitted data index p p' o es rest bytes part rs rolls net2.
Proof.
  revert data index p. induction fuel as [|fuel IH]; intros data index p Hl Hf; [lia|].
  destruct data as [|b data]; cbn [submit_loop] in Hl.
  { simplify_eq. split_and!; [done..|]. do 7 eexists. by apply submitted_none. }
  destruct (decode_entry (b :: data)) as [e n| |] eqn:Ed; simplify_eq;
    [|split_and!; [done|first [by left|by right]|]; do 7 eexists; by apply submitted_none..].
  destruct (worker_send (EventSubmit e) p) as [p1 err] eqn:Es.
  apply worker_send_process in Es as (bytes & Es & ->). destruct err as [err|].
  { simplify_eq. split_and!; [done|by left|]. exists [], (b :: data), [], bytes, [], [], (pr_net p).
    split; try done; simpl; rewrite ?app_nil_r; try done; [constructor|constructor|by left|].
    intros Hp. apply send_message_Some in Es as [|(fr & He & Hpre)]; [done|]. eauto 6. }
  apply send_message_None in Es.
  destruct (await_ack fuel index _) as [p2 o2] eqn:Ea.
  apply await_ack_spec in Ea as (Hs & Hopen & Hne & rolls & Ha); [|simpl; lia]. simpl in Hs, Hopen, Ha.
  destruct o2 as [o2|].
  - simplify_eq. destruct Ha as (Ho & net2 & res & Hre & Hres). split_and!; [done..|].
    exists [e], (drop (Z.to_nat n) (b :: data)), bytes, [], [], rolls, net2.
    split; simpl; rewrite ?app_nil_r; try done.
    + by eapply scripted_cons, scripted_nil.
    + by rewrite <-(app_nil_r bytes), (submissions_cons e [] bytes []).
    + right. split_and!; [done..|]. by exists res.
  - destruct Ha as (Hn & a & Hre & Ho). simpl in Hn.
    apply IH in Hl as (Hopen' & Hne' & es & rest & bytes' & part & rs & rolls' & net2 & []); [|lia].
    split_and!; [congruence|done|].
    exists (e :: es), rest, (bytes ++ bytes'), part, ((rolls, a) :: rs), rolls', net2. split.
    + by econstructor.
    + by apply submissions_cons.
    + rewrite su_sent0, Hs. by rewrite !(assoc_L (++)).
    + rewrite su_out0, Ho. cbn [replies_lines]. simpl. by rewrite !(assoc_L (++)).
    + cbn [fmap list_fmap mjoin list_join]. rewrite <- (assoc_L (++)). by eapply receives_app.
    + cbn [length]. destruct su_answered0 as [(-> & ? & ?)|(-> & ? & ?)]; [left|right]; by split_and!.
    + simpl. naive_solver lia.
    + done.
Qed.

Lemma write_all_progress `{!SendProgress} fuel sent rest : (length rest <= fuel)%nat ->
  write_all fuel sent rest = (sent ++ rest, None).
Proof.
  revert sent rest. induction fuel as [|fuel IH]; intros sent rest Hf.
  - destruct rest; [|simpl in Hf; lia]. simpl. by rewrite app_nil_r.
  - destruct rest as [|b rest]; [simpl; by rewrite app_nil_r|]. cbn [write_all].
    pose proof (send_progress sent (b :: rest)).
    rewrite (proj2 (Z.eqb_neq _ _)), (proj2 (Z.ltb_ge _ _)) by lia. rewrite IH.
    + by rewrite <-(assoc_L (++)), take_drop.
    + rewrite length_drop. simpl in *. lia.
Qed.

Lemma worker_send_progress `{!SendProgress} m fr p : encode_message m = Some fr ->
  worker_send m p = (p <| pr_sent ::= fun l => l ++ fr |>, None).
Proof. intros He. unfold worker_send, send_message. by rewrite He, write_all_progress. Qed.

Lemma delivers_size net ms tail : delivers net ms tail -> (length ms <= net_size net)%nat.
Proof.
  revert net. induction ms as [|m ms IH]; intros net Hd; [simpl; lia|].
  apply delivers_recv in Hd as (net' & Hr & Hd). apply recv_message_size in Hr. apply IH in Hd. simpl. lia.
Qed.

Lemma encode_event_canonical e : encode_message (EventSubmit (canonical e)) = encode_message (EventSubmit e).
Proof. unfold encode_message, message_payload. by rewrite encode_entry_canonical. Qed.

Lemma encode_event_storable e : storable e -> exists fr, encode_message (EventSubmit e) = Some fr.
Proof.
  intros He. unfold encode_message, message_payload. rewrite encode_entry_storable by done. eauto.
Qed.

Lemma submissions_storable es : Forall storable es -> exists bytes, submissions es = Some bytes.
Proof.
  induction 1 as [|e es He _ [bytes IH]]; [by exists []|].
  destruct (encode_event_storable e He) as [fr Hfr]. exists (fr ++ bytes). by apply submissions_cons.
Qed.

Lemma submit_loop_delivers `{!SendProgress} fuel es rs index p ms tail bytes :
  Forall storable es -> submissions es = Some bytes -> length rs = length es ->
  delivers (pr_net p) (mjoin (reply_messages <$> rs) ++ ms) tail ->
  (S (net_size (pr_net p)) < fuel)%nat ->
  exists net', delivers net' ms tail /\
    submit_loop fuel (frames es) index p =
      (p <| pr_net := net' |> <| pr_sent ::= fun l => l ++ bytes |>
         <| pr_out ::= fun l => l ++ replies_lines index rs |>, None).
Proof.
  intros Hes. revert fuel rs index p bytes. induction Hes as [|e es He Hes IH];
    intros fuel rs index p bytes Hb Hlen Hd Hf.
  { destruct rs; [|done]. injection Hb as <-. exists (pr_net p). split; [done|].
    destruct fuel; [lia|]. cbn. unfold update; simpl. rewrite !app_nil_r. by destruct p. }
  destruct rs as [|r rs]; [done|]. cbn [fmap list_fmap mjoin list_join] in Hd.
  rewrite <-(assoc_L (++)) in Hd. destruct fuel as [|fuel]; [lia|].
  rewrite frames_cons.
  assert (exists b data, frame (entry_payload e) ++ frames es = b :: data) as (b & data & E)
    by (unfold frame, bytes32; by do 2 eexists).
  rewrite E. cbn [submit_loop]. rewrite <-E.
  pose proof (decode_entry_frame (entry_payload e) (frames es) (proj2 (so_fits _ He))) as Hde.
  rewrite decode_payload_entry_payload in Hde by apply He. rewrite Hde.
  destruct (encode_event_storable e He) as [fr Hfr].
  destruct (submissions_storable es Hes) as [bytes' Hb'].
  rewrite (submissions_cons e es fr bytes') in Hb by done. injection Hb as <-.
  rewrite (worker_send_progress _ fr) by (by rewrite encode_event_canonical).
  pose proof (delivers_size _ _ _ Hd) as Hsz. rewrite length_app in Hsz. unfold reply_messages in Hsz.
  rewrite length_app, length_fmap in Hsz. simpl in Hsz.
  destruct (await_ack_delivers fuel index (p <| pr_sent ::= fun l => l ++ fr |>) r
    (mjoin (reply_messages <$> rs) ++ ms) tail) as (net1 & Hd1 & Ha); [done|simpl; lia|].
  rewrite Ha, Nat2Z.id, drop_app_length.
  apply await_ack_spec in Ha as (_ & _ & _ & _ & Hn & _); [|simpl; lia].
  set (p2 := (_ <| pr_net := net1 |> <| pr_out ::= _ |>)) in *. cbn [length] in Hlen.
  assert (pr_net p2 = net1) as Hn2 by reflexivity. rewrite <-Hn2 in Hd1.
  change (pr_net (p <| pr_sent ::= fun l => l ++ fr |>)) with (pr_net p) in Hn.
  destruct (IH fuel rs (S index) p2 bytes') as (net' & Hd' & Hl'); [exact Hb'|lia|exact Hd1|lia|].
  exists net'. split; [exact Hd'|]. rewrite Hl'. unfold p2, update; simpl.
  by rewrite !(assoc_L (++)).
Qed.

(** ** Sessions *)


End worker.

Section main.
Context `{SendPlatform, SocketPlatform}.


(** C22: stop and wait. Whatever the coordinator sends back and wherever a send
    fails, a registered worker has sent its registration, the submissions of the first
    entries of its script in order, and at most a part of the next one; what it
    received after its registration was a sequence of replies, each of them rolls and
    then an acknowledgement, and at most some more rolls, and it has printed one line
    for each of these messages, the acknowledgements numbered in order; and either
    every submission has its acknowledgement among them, or the last one has not and
    the receive that waited for it returned neither a roll nor an acknowledgement. *)
Theorem worker_stop_and_wait files worker boot script hold p data epoch ag reason p1 net1 p' o :
  files !! script = Some data ->
  worker_send (Register (MkRegisterMsg worker boot)) p = (p1, None) ->
  recv_message (pr_net p1) = (Received (RegisterAck (MkRegisterAckMsg true epoch ag reason)), net1) ->
  worker_session files worker boot script hold p = (p', o) ->
  exists reg es rest bytes part rs rolls net2,
    encode_message (Register (MkRegisterMsg worker boot)) = Some reg /\
    scripted data es rest /\ submissions es = Some bytes /\
    pr_sent p' = pr_sent p ++ reg ++ bytes ++ part /\
    receives net1 (mjoin (reply_messages <$> rs) ++ (Roll <$> rolls)) net2 /\
    pr_out p' = pr_out p ++ [reg_line epoch ag] ++ replies_lines 0 rs ++ (roll_line <$> rolls) ++
      (if finished o then ["WORKER_DONE " +:+ to_string worker] else []) /\
    ((length es = length rs /\ rolls = [] /\ pr_net p' = net2) \/
     (length es = S (length rs) /\ part = [] /\
      exists res, recv_message net2 = (res, pr_net p') /\ no_reply res = true)) /\
    (finished o = true -> rest = [] /\ part = [] /\ length es = length rs) /\
    (part <> [] -> exists e n fr,
       decode_entry rest = Decoded e n /\ encode_message (EventSubmit e) = Some fr /\ part `prefix_of` fr).
Proof.
  intros Hs Hsend Hrecv. unfold worker_session. rewrite Hsend.
  apply worker_send_process in Hsend as (reg & Hreg%send_message_None & ->).
  unfold worker_recv. rewrite Hrecv, Hs. set (p2 := print _ _).
  destruct (submit_loop _ data 0 p2) as [p3 o3] eqn:El.
  apply submit_loop_spec in El as (_ & Hne & es & rest & bytes & part & rs & rolls & net2 & []);
    [|unfold p2; simpl; lia].
  unfold p2 in su_sent0, su_out0, su_received0. simpl in su_sent0, su_out0, su_received0.
  intros Heq. exists reg, es, rest, bytes, part, rs, rolls, net2.
  assert (pr_sent p' = pr_sent p3 /\ pr_net p' = pr_net p3 /\ pr_out p' = pr_out p3 ++
    (if finished o then ["WORKER_DONE " +:+ to_string worker] else []) /\
    (finished o = true -> o3 = None)) as (Hps & Hpn & Hpo & Hfin).
  { destruct o3 as [o3|]; injection Heq as <- <-.
    - destruct Hne as [->| ->]; simpl; by rewrite app_nil_r.
    - by destruct hold. }
  rewrite Hpn. split_and!; try done; [by rewrite Hps, su_sent0, <-!(assoc_L (++))
    |by rewrite Hpo, su_out0, <-!(assoc_L (++))|by intros Hf; apply su_done0, Hfin].
Qed.

(** A session against a coordinator that answers. *)
Lemma worker_session_submits `{!SendProgress} files worker boot script hold p es rs epoch ag reason tail :
  files !! script = Some (frames es) -> Forall storable es -> length rs = length es ->
  delivers (pr_net p) (RegisterAck (MkRegisterAckMsg true epoch ag reason) ::
                       mjoin (reply_messages <$> rs)) tail ->
  exists reg bytes net',
    encode_message (Register (MkRegisterMsg worker boot)) = Some reg /\ submissions es = Some bytes /\
    worker_session files worker boot script hold p =
      (MkProcess (pr_out p ++ [reg_line epoch ag] ++ replies_lines 0 rs ++ ["WORKER_DONE " +:+ to_string worker])
         (pr_err p) (pr_sent p ++ reg ++ bytes) net' (pr_open p),
       if hold then Holding else Exit 0).
Proof.
  intros Hs Hes Hlen Hd. destruct (submissions_storable es Hes) as [bytes Hb].
  destruct (encode_message (Register (MkRegisterMsg worker boot))) as [reg|] eqn:Hreg; [|done].
  unfold worker_session. rewrite (worker_send_progress _ reg _ Hreg). unfold worker_recv.
  set (p1 := p <| pr_sent ::= fun l => l ++ reg |>).
  change (pr_net p) with (pr_net p1) in Hd. apply delivers_recv in Hd as (net1 & -> & Hd).
  cbn [received]. rewrite Hs. set (p2 := print _ _).
  rewrite <-(app_nil_r (mjoin (reply_messages <$> rs))) in Hd.
  destruct (submit_loop_delivers (S (S (net_size (pr_net p2)))) es rs 0 p2 [] tail bytes)
    as (net' & _ & ->); [done..|lia|].
  exists reg, bytes, net'. split; [done|]. split; [done|]. unfold p2, p1, print, update; simpl.
  by rewrite <-!(assoc_L (++)).
Qed.

(** C23: against a coordinator that accepts its registration and answers each
    submission (rolls first, if any), a worker whose script holds storable entries
    submits all of them, one frame each in script order after its registration,
    prints the registration, every roll and one acknowledgement line per entry,
    announces that it is done, and ends normally. *)
Theorem worker_submits_script `{!SendProgress} files worker boot script hold p es rs epoch ag reason tail :
  files !! script = Some (frames es) -> Forall storable es -> length rs = length es ->
  delivers (pr_net p) (RegisterAck (MkRegisterAckMsg true epoch ag reason) ::
                       mjoin (reply_messages <$> rs)) tail ->
  exists reg bytes net',
    encode_message (Register (MkRegisterMsg worker boot)) = Some reg /\ submissions es = Some bytes /\
    worker_session files worker boot script hold p =
      (MkProcess (pr_out p ++ [reg_line epoch ag] ++ replies_lines 0 rs ++ ["WORKER_DONE " +:+ to_string worker])
         (pr_err p) (pr_sent p ++ reg ++ bytes) net' (pr_open p),
       if hold then Holding else Exit 0).
Proof. apply worker_session_submits. Qed.
End main.

(** ** Witnesses *)

(** A coordinator that registers the worker, rolls once and accepts the entry. *)
Definition sample_replies : list Reply :=
  [([MkRollMsg (MkGen 2) (MkGen 2)], MkEventAckMsg 0 "accepted")].

Definition sample_incoming : list Message :=
  RegisterAck (MkRegisterAckMsg true (MkGen 1) (MkGen 1) "registered") ::
  mjoin (reply_messages <$> sample_replies).

Definition message_bytes (ms : list Message) : list byte :=
  mjoin (default [] ∘ encode_message <$> ms).

Definition sample_process : Process := MkProcess [] [] [] (drip (message_bytes sample_incoming)) ∅.

Definition sample_script : Files := {["s"%string := frames [sample_entry]]}.

Lemma sample_delivers : delivers (pr_net sample_process) sample_incoming [].
Proof.
  exists (default [] ∘ encode_message <$> sample_incoming). split; [|apply drip_flows].
  repeat constructor; vm_compute; done.
Qed.

(** One byte per [send]. *)
Definition byte_sender : SendPlatform := fun _ _ => 1.

Lemma byte_sender_progress : @SendProgress byte_sender.
Proof. by intros sent rest. Qed.



Lemma worker_stop_and_wait_witness :
  let S := byte_sender in
  exists p' es bytes rs net1 net2, worker_session sample_script (MkId 1 1) (MkId 2 1) "s" false sample_process = (p', Exit 0) /\
    scripted (frames [sample_entry]) es [] /\ submissions es = Some bytes /\
    length es = length rs /\ receives net1 (mjoin (reply_messages <$> rs)) net2 /\ pr_net p' = net2.
Proof.
  intros S. destruct (worker_session sample_script (MkId 1 1) (MkId 2 1) "s" false sample_process) as [p' o] eqn:E.
  assert (Exit 0 = o) as <- by (transitivity (worker_session sample_script (MkId 1 1) (MkId 2 1) "s" false sample_process).2;
        [by vm_compute|by rewrite E]).
  destruct (worker_send (Register (MkRegisterMsg (MkId 1 1) (MkId 2 1))) sample_process) as [p1 err] eqn:E1.
  assert (None = err) as <- by (transitivity (worker_send (Register (MkRegisterMsg (MkId 1 1) (MkId 2 1))) sample_process).2;
        [by vm_compute|by rewrite E1]).
  assert (pr_net p1 = pr_net sample_process) as Hn by (transitivity (pr_net (worker_send (Register (MkRegisterMsg (MkId 1 1) (MkId 2 1))) sample_process).1);
        [by rewrite E1|by vm_compute]).
  destruct (recv_message (pr_net p1)) as [res net1] eqn:E2.
  assert (Received (RegisterAck (MkRegisterAckMsg true (MkGen 1) (MkGen 1) "registered")) = res) as <-
    by (transitivity (recv_message (pr_net sample_process)).1;
        [by vm_compute|by rewrite <-Hn, E2]).
  destruct (@worker_stop_and_wait S sample_script (MkId 1 1) (MkId 2 1) "s" false sample_process
    (frames [sample_entry]) (MkGen 1) (MkGen 1) "registered" p1 net1 p' (Exit 0))
    as (reg & es & rest & bytes & part & rs & rolls & net2 & _ & Hs & Hb & _ & Hre & _ & Hw & Hf & _).
  - apply lookup_singleton_eq.
  - exact E1.
  - exact E2.
  - exact E.
  - destruct (Hf eq_refl) as (-> & -> & Hlen).
    destruct Hw as [(_ & -> & Hend)|(Hlen' & _)]; [|exfalso; rewrite Hlen in Hlen'; by apply n_Sn in Hlen'].
    rewrite fmap_nil, app_nil_r in Hre. exists p', es, bytes, rs, net1, net2.
    exact (conj eq_refl (conj Hs (conj Hb (conj Hlen (conj Hre Hend))))).
Defined.

Lemma worker_submits_script_witness :
  let S := byte_sender in
  exists reg bytes net', encode_message (Register (MkRegisterMsg (MkId 1 1) (MkId 2 1))) = Some reg /\
    worker_session sample_script (MkId 1 1) (MkId 2 1) "s" false sample_process =
    (MkProcess ["REG 1 1"; "ROLL 2 2"; "ACK 0 0 accepted";
                "WORKER_DONE 00000000000000010000000000000001"]%string [] (reg ++ bytes) net' ∅, Exit 0).
Proof.
  intros S. destruct (@worker_submits_script S byte_sender_progress sample_script (MkId 1 1) (MkId 2 1) "s" false
    sample_process [sample_entry] sample_replies (MkGen 1) (MkGen 1) "registered" [])
    as (reg & bytes & net' & Hr & Hb & Hw).
  - apply lookup_singleton_eq.
  - apply list.Forall_singleton, sample_storable.
  - reflexivity.
  - exact sample_delivers.
  - exists reg, bytes, net'. split; [exact Hr|]. rewrite Hw. by vm_compute.
Defined.
