(* ===== verification/Intake.v ===== *)
(** * What the network can deliver

    Whatever bytes a peer sends, a message that [recv_message] accepts is well
    formed, and an entry it carries can be encoded again: its strings and its payload
    fit the frame format, since re-encoding it takes no more bytes than it came in.
    So every record a coordinator stores can be saved. *)

From Stdlib Require Import Strings.Byte.
From stdpp Require Import base gmap sets list strings numbers.
From S2P Require Import Prelude Float64 StdMap Identity Reader Kinds Entry Codec Crc CodecProofs.
From S2P Require Import Authority Ledger Persistence PersistenceProofs Protocol ProtocolProofs.
Open Scope Z_scope.

(** ** Re-encoding costs no more than was read *)

(** [m] reads at least [f a] bytes to return [a]. *)
Definition costs {A} (m : Rd A) (f : A -> nat) : Prop :=
  forall r a r', m r = (Some a, r') -> (f a + remaining r' <= remaining r)%nat.

Lemma costs_bind {A B} (m : Rd A) (k : A -> Rd B) f g :
  costs m f -> (forall a, costs (k a) (fun b => g b - f a)%nat) -> costs (rd_bind m k) g.
Proof.
  intros Hm Hk r b r'. unfold rd_bind. destruct (m r) as [[a|] r1] eqn:E; [|done].
  intros Hb%Hk. apply Hm in E. lia.
Qed.

(** A field of known size, with [acc] bytes accounted for. *)
Lemma costs_field {A B} n acc (m : Rd A) (k : A -> Rd B) g :
  consumes n m -> (forall a, costs (k a) (fun b => g b - (acc + n))%nat) ->
  costs (rd_bind m k) (fun b => g b - acc)%nat.
Proof.
  intros Hm Hk. apply (costs_bind m k (fun _ => n)); [done|].
  intros a r b r' Hb. apply Hk in Hb. lia.
Qed.

Lemma costs_ret {A} (a : A) f : f a = O -> costs (rd_ret a) f.
Proof. intros Hf r a' r' [= <- <-]. lia. Qed.

Lemma costs_reject {A} (f : A -> nat) : costs rd_reject f.
Proof. by intros r a r'. Qed.

Lemma consumes_u64 : consumes 8 get_u64.
Proof.
  apply consumes_or_fail.
  do 2 (eapply (consumes_bind 4 _); [apply consumes_u32|intros ?]). apply consumes_ret.
Qed.

Lemma consumes_bool8 : consumes 1 get_bool8.
Proof.
  apply consumes_or_fail. eapply (consumes_bind 1 0); [apply consumes_u8|intros ?]. apply consumes_ret.
Qed.

Lemma consumes_check c : consumes 0 (rd_check c).
Proof. intros r [] r'. unfold rd_check. destruct c; [|done]. by intros [= <-]. Qed.

Lemma consumes_id {Tag} : consumes 16 (@get_id Tag).
Proof.
  apply consumes_or_fail, (consumes_bind 16 0); [apply consumes_bytes|].
  intros b. destruct (from_bytes b); [apply consumes_ret|by intros r a r'].
Qed.

Lemma consumes_optional_id {Tag} (f : bool) :
  consumes (if f then 16 else 0) (if f then @get_id Tag else rd_ret id_zero).
Proof. destruct f; [apply consumes_id|apply consumes_ret]. Qed.

(** A string costs its length field and its characters. *)
Lemma costs_string : costs get_string (fun s => 4 + String.length s)%nat.
Proof.
  intros r s r'. unfold get_string, rd_or_fail, rd_bind at 1.
  destruct (get_u32 r) as [[len|] r1] eqn:E1; [|done]. apply consumes_u32 in E1.
  destruct (Z.of_nat (remaining r1) <? len) eqn:El; [done|]. apply Z.ltb_ge in El.
  unfold rd_bind, get_bytes. destruct (remaining r1 <? Z.to_nat len)%nat eqn:En; [done|].
  apply Nat.ltb_ge in En. intros [= <- <-].
  assert (String.length (String.string_of_list_byte
    (take (Z.to_nat len) (drop (rd_pos r1) (rd_data r1)))) <= Z.to_nat len)%nat as Hl.
  { rewrite <-length_list_byte_of_string, String.list_byte_of_string_of_list_byte, length_take. lia. }
  revert En E1. unfold remaining, update; cbn [rd_data rd_pos].
  destruct (Nat.leb_spec (rd_pos r1) (length (rd_data r1))),
    (Nat.leb_spec (Z.to_nat len + rd_pos r1) (length (rd_data r1))); lia.
Qed.

(** *** Metadata *)

Definition meta_size (m : list (string * string)) : nat :=
  sum_list_with (fun kv => 8 + String.length kv.1 + String.length kv.2)%nat m.

Lemma meta_size_emplace k v m :
  (meta_size (StdMap.emplace k v m) <= meta_size m + (8 + String.length k + String.length v))%nat.
Proof.
  unfold StdMap.emplace. induction m as [|[k' v'] m IH]; cbn [StdMap.upsert]; [unfold meta_size; simpl; lia|].
  unfold meta_size in *. destruct (kcmp k k'); simpl in *; lia.
Qed.

Lemma costs_metadata fuel count m :
  costs (read_metadata fuel count m) (fun m' => meta_size m' - meta_size m)%nat.
Proof.
  revert count m. induction fuel as [|fuel IH]; intros count m; cbn [read_metadata];
    (destruct (count <=? 0); [apply costs_ret; lia|]); [apply costs_reject|].
  eapply costs_bind; [apply costs_string|intros k]. eapply costs_bind; [apply costs_string|intros v].
  intros r m' r' Hm. apply IH in Hm. pose proof (meta_size_emplace k v m). lia.
Qed.

(** *** The payload *)

Definition option_size (f : bool) : nat := if f then 16 else 0.

Definition payload_size (e : LedgerEntry) : nat :=
  (353 + option_size (e_has_adapter e) + option_size (e_has_accounting_policy e) +
   option_size (e_has_pricing_policy e) + meta_size (e_metadata e))%nat.

Lemma costs_payload : costs read_payload (fun e => payload_size e - 0)%nat.
Proof.
  unfold read_payload.
  repeat (eapply costs_field;
    [first [apply consumes_u8|apply consumes_u32|apply consumes_u64|apply consumes_id
           |apply consumes_bool8|apply consumes_check|apply consumes_optional_id]|intros ?]).
  match goal with |- costs _ ?G => set (g := G) end. intros r e r' He.
  eapply (costs_bind _ _ meta_size g) in He; [exact He| |].
  - intros r1 m r1' Hm. apply costs_metadata in Hm. change (meta_size []) with O in Hm. lia.
  - intros md. do 4 (case_match; [|apply costs_reject]). apply costs_ret.
    unfold g, payload_size, option_size.
    cbn [e_has_adapter e_has_accounting_policy e_has_pricing_policy e_metadata]. lia.
Qed.

Lemma length_put_id {Tag} (i : Id128 Tag) : length (put_id i) = 16%nat.
Proof. done. Qed.

Lemma length_put_string s : (length (put_string s) <= 4 + String.length s)%nat.
Proof.
  unfold put_string. case_match; [simpl; lia|]. rewrite length_app, length_list_byte_of_string.
  change (length (put_u32 _)) with 4%nat. lia.
Qed.

Lemma length_entry_payload e : (length (entry_payload e) <= payload_size e)%nat.
Proof.
  unfold entry_payload, payload_size, option_size, meta_size.
  assert (length (concat (map (fun kv => put_string kv.1 ++ put_string kv.2) (e_metadata e))) <=
    sum_list_with (fun kv => 8 + String.length kv.1 + String.length kv.2) (e_metadata e))%nat as Hm.
  { induction (e_metadata e) as [|[k v] m IH]; [simpl; lia|]. cbn [map concat fst snd sum_list_with].
    rewrite !length_app. pose proof (length_put_string k). pose proof (length_put_string v). lia. }
  rewrite !length_app. repeat case_match; cbn [length]; rewrite ?length_put_id;
    change (length (put_u32 _)) with 4%nat; repeat change (length (put_u64 _)) with 8%nat;
    repeat change (length (put_u8 _)) with 1%nat; repeat change (length (put_bool8 _)) with 1%nat; lia.
Qed.

Lemma meta_strings_fit m : Z.of_nat (meta_size m) < 2 ^ 32 ->
  Forall (fun kv => Z.of_nat (String.length kv.1) < 2 ^ 32 /\ Z.of_nat (String.length kv.2) < 2 ^ 32) m.
Proof.
  unfold meta_size. induction m as [|[k v] m IH]; [done|]. cbn [sum_list_with fst snd]. intros Hm.
  constructor; [simpl; lia|]. apply IH. lia.
Qed.

(** A decoded entry re-encodes within the length its frame declared. *)
Lemma decode_entry_size d0 d1 d2 d3 d4 d5 d6 d7 rest e n :
  decode_entry (d0 :: d1 :: d2 :: d3 :: d4 :: d5 :: d6 :: d7 :: rest) = Decoded e n ->
  Z.of_nat (payload_size e) <= be32 d0 d1 d2 d3 /\ n = wrap 32 (8 + be32 d0 d1 d2 d3) /\
  be32 d0 d1 d2 d3 <= Z.of_nat (length rest).
Proof.
  cbn [decode_entry]. cbv zeta. intros Hd. destruct (_ <? wrap 32 _); [done|].
  destruct (Z.ltb_spec (Z.of_nat (length rest)) (be32 d0 d1 d2 d3)) as [|Hlen]; [done|].
  destruct (negb _); [done|].
  destruct (decode_payload _) as [e'|] eqn:E; [|done]. injection Hd as -> <-.
  unfold decode_payload in E. destruct (read_payload _) as [[e'|] r] eqn:Er; [|done].
  repeat (case_match; [done|]). injection E as ->. apply costs_payload in Er.
  split; [|done]. unfold remaining, reader_of in Er; cbn [rd_data rd_pos] in Er.
  rewrite length_take in Er. pose proof (be32_range d0 d1 d2 d3). unfold in_width in *. repeat case_match; lia.
Qed.

Lemma payload_size_fits e : Z.of_nat (payload_size e) < 2 ^ 32 - 8 -> fits_frame e.
Proof.
  intros Hp. pose proof (length_entry_payload e). split; [|lia].
  apply meta_strings_fit. unfold payload_size in Hp. lia.
Qed.

(** An entry decoded from a buffer fits a frame no longer than the buffer. *)
Lemma decode_entry_fits data e n : decode_entry data = Decoded e n ->
  Z.of_nat (length data) < 2 ^ 32 -> fits_frame e.
Proof.
  intros Hd Hlen. do 8 (destruct data as [|? data]; [discriminate Hd|]).
  apply decode_entry_size in Hd as (Hp & _ & Hl). apply payload_size_fits. cbn [length] in Hlen. lia.
Qed.

(** The frames of a file fit: their lengths were checked against the file. *)
Lemma load_loop_fits fuel data seen seen' : Forall fits_frame seen ->
  load_loop fuel data seen = Some (seen', None) -> Forall fits_frame seen'.
Proof.
  revert data seen. induction fuel as [|fuel IH]; intros data seen Hf Hl.
  { destruct data; [by simplify_eq/=|done]. }
  destruct data as [|d0 data]; [by simplify_eq/=|].
  do 7 (destruct data as [|? data]; [done|]). rewrite load_loop_S in Hl. cbv zeta in Hl.
  destruct (_ <? _); [done|]. destruct (decode_entry _) as [e n| |] eqn:Hd; [|done|done].
  destruct (n =? _) eqn:Hn; cbn [negb] in Hl; [|done]. destruct (existsb _ _); [done|].
  apply IH in Hl; [done|]. apply Forall_app. split; [done|]. apply list.Forall_singleton.
  apply decode_entry_size in Hd as (Hp & -> & _). apply Z.eqb_eq in Hn. apply payload_size_fits.
  pose proof (wrap_in_width 32 (8 + be32 d0 b b0 b1) ltac:(lia)) as Hw. unfold in_width in Hw. lia.
Qed.

(** Loading always ends with a result. *)
Lemma load_defined path files : exists res, load path files = Some res.
Proof.
  unfold load. destruct (files !! path) as [data|]; [|by eexists]. unfold load_bytes.
  do 12 (destruct data as [|? data]; [by eexists|]).
  destruct (from_bytes data); [|by eexists]. do 2 (destruct (negb _); [by eexists|]).
  match goal with |- context [load_loop ?n ?d ?l] =>
    pose proof (load_loop_total n d l ltac:(rewrite length_drop; cbn [length]; lia)) as [Hn _];
    by destruct (load_loop n d l) as [[seen [reason|]]|]; [eexists|eexists|] end.
Qed.

(** What a load accepts can be saved again, and loads to itself. *)
Lemma load_sound path files res : load path files = Some res -> lr_ok res = true ->
  id_wf (lr_ledger_id res) /\
  Forall (fun e => entry_wf e /\ canonical e = e) (lr_entries res) /\ Forall fits_frame (lr_entries res) /\
  NoDup (e_id <$> lr_entries res) /\ res = loaded (lr_ledger_id res) (lr_entries res).
Proof.
  unfold load. destruct (files !! path) as [data|]; [|by intros [= <-]]. unfold load_bytes.
  do 12 (destruct data as [|? data]; [by intros [= <-]|]).
  destruct (from_bytes data) as [id|] eqn:Hid; [|by intros [= <-]]. apply from_bytes_wf in Hid.
  do 2 (destruct (negb _); [by intros [= <-]|]).
  destruct (load_loop _ _ _) as [[seen [reason|]]|] eqn:Hl; [by intros [= <-]| |done].
  intros [= <-] _. cbn [lr_entries lr_ledger_id update].
  pose proof (load_loop_sound _ _ _ _ (list.Forall_nil_2 _) NoDup_nil_2 Hl) as [Hwf Hnd].
  pose proof (load_loop_fits _ _ _ _ (list.Forall_nil_2 _) Hl) as Hf. done.
Qed.

(** ** Messages *)

(** A message as a reader thread gets it: the members in their C++ types, and an
    entry that can be stored once its content is valid. *)
Definition arrived (m : Message) : Prop :=
  match m with
  | Register r => id_wf (rg_worker r) /\ id_wf (rg_boot r)
  | EventSubmit e => entry_wf e /\ fits_frame e /\ canonical e = e
  | _ => True
  end.

Lemma whole_payload_yields m payload msg (P : Message -> Prop) : yields m P ->
  whole_payload m payload = MsgOk msg -> P msg.
Proof.
  intros Hm. unfold whole_payload. destruct (m (reader_of payload)) as [[x|] r] eqn:E; [|done].
  case_match; [|done]. intros [= <-]. by eapply Hm.
Qed.

Lemma decode_message_arrived data m : decode_message data = MsgOk m ->
  Z.of_nat (length data) < 2 ^ 32 -> arrived m.
Proof.
  destruct data as [|t payload]; [done|]. cbn [decode_message length]. intros Hd Hlen.
  destruct (msg_type_from (byte_to_Z t)).
  1: { eapply whole_payload_yields; [|exact Hd]. unfold read_register.
       do 2 (eapply yields_bind; [apply yields_id|intros ? ?]). by apply yields_ret. }
  2: { unfold decode_event_submit in Hd. destruct (get_u32 _) as [[flen|] r]; [|done].
       case_match; [done|]. destruct (decode_entry _) as [e n| |] eqn:E; [|done..].
       case_match; [|done]. injection Hd as <-.
       pose proof (decode_entry_valid _ _ _ E) as (Hwf & Hcan & _).
       apply decode_entry_fits in E; [exact (conj Hwf (conj E Hcan))|]. rewrite length_drop. lia. }
  all: eapply whole_payload_yields; [|exact Hd];
    unfold read_register_ack, read_event_ack, read_roll;
    repeat (eapply yields_bind; [apply yields_true|intros ? _]); by apply yields_ret.
Qed.

Lemma recv_length n net bs net' : recv n net = (inr bs, net') -> (length bs <= n)%nat.
Proof.
  destruct net as [|[ds|] net]; cbn [recv]; intros Hr; simplify_eq; [simpl; lia|].
  rewrite length_take. lia.
Qed.

Lemma read_all_length n fuel got net bs net' : read_all n fuel got net = (inr bs, net') ->
  (length got <= n)%nat -> length bs = n.
Proof.
  revert got net. induction fuel as [|fuel IH]; intros got net; cbn [read_all];
    destruct (Nat.leb_spec n (length got)); intros Hr Hg; simplify_eq; try lia.
  destruct (recv (n - length got) net) as [[[]|[|b ds]] net1] eqn:E; simplify_eq.
  apply recv_length in E. eapply IH; [exact Hr|]. rewrite length_app. lia.
Qed.

Lemma recv_message_arrived net m net' : recv_message net = (Received m, net') -> arrived m.
Proof.
  unfold recv_message. destruct (read_all 8 8 [] net) as [[err|hdr] net1] eqn:E1; [done|].
  destruct hdr as [|h0 [|h1 [|h2 [|h3 [|h4 [|h5 [|h6 [|h7 hdr]]]]]]]]; try done.
  destruct (_ =? 0); [done|]. destruct (Z.shiftl 16 20 <? be32 h0 h1 h2 h3) eqn:El; [done|].
  apply Z.ltb_ge in El. change (Z.shiftl 16 20) with (2 ^ 24) in El.
  destruct (read_all _ _ [] net1) as [[err|content] net2] eqn:E2; [done|].
  apply read_all_length in E2; [|simpl; lia]. destruct (negb _); [done|].
  destruct (decode_message content) eqn:Ed; intros [= <- <-].
  apply decode_message_arrived in Ed; [done|]. rewrite E2, Z2Nat.id by apply be32_range. lia.
Qed.
