(* ===== verification/Service.v ===== *)
(** * The coordinator process (tools/iledger_coordinator.cpp)

    [main] of the coordinator executable around the coordinator's threads: it starts
    listening, reads lines until [SHUTDOWN] or the end of its input, takes a snapshot
    of the ledger, saves it, reports its size and fingerprint, and stops. The
    coordinator's threads keep running between the steps of [main]; the messages they
    read are what [recv_message] returns on some stream. *)

From Stdlib Require Import Strings.Byte.
From stdpp Require Import base gmap sets list strings numbers pretty.
From S2P Require Import Prelude Float64 StdMap Identity Reader Kinds Entry Codec Crc CodecProofs.
From S2P Require Import Authority Ledger Account Persistence PersistenceProofs Protocol.
From S2P Require Import ProtocolProofs Intake Coordinator CoordinatorProofs Text Sockets Worker.
Open Scope Z_scope.

(** ** State *)

(** Where [main] is. *)
Inductive MainPc :=
| MReading                                   (** in the loop over standard input *)
| MSnapshot                                  (** about to take the snapshot *)
| MSaving (snap : list LedgerEntry)
| MStop (code : Z)                           (** about to call [coord.stop()] *)
| MJoin (code : Z)                           (** in [stop], joining acceptor and accounting thread *)
| MDone (code : Z).

Record Service := MkService {
  sv_coord : Coordinator;
  sv_pc : MainPc;
  sv_stdin : list string;     (** the lines still to come; then the end of input *)
  sv_out : list string;
  sv_err : list string;
  sv_files : Files
}.

#[export] Instance Service_rebuild : Rebuild Service := fun s =>
  MkService (sv_coord s) (sv_pc s) (sv_stdin s) (sv_out s) (sv_err s) (sv_files s).

(** [LedgerId lid]. *)
Definition service_ledger_id : LedgerId := MkId 0x494C4544474552 1.

Definition stopped_line (snap : list LedgerEntry) : string :=
  "COORD_STOPPED " +:+ size_to_string (length snap) +:+ " " +:+
  fingerprint_to_string (ledger_fingerprint snap).

Section service.
Context `{SocketPlatform, FileIO} (path : string).

(** [main] up to the loop: an outcome, or a running service. *)
Definition service_start (argv : list string) (stdin : list string) (files : Files)
    : (Outcome * list string) + Service :=
  match argv with
  | [_; port_text; _] =>
      match stoi port_text with
      | Parsed port_int =>
          let port := wrap 16 port_int in
          match network_init with
          | (false, err) => inl (Exit 1, ["start: " +:+ err])
          | (true, _) =>
              match bind_and_listen invalid_socket "127.0.0.1" port ∅ with
              | (_, _, Some err) => inl (Exit 1, ["start: " +:+ err])
              | (_, _, None) =>
                  inr (MkService (coordinator_new service_ledger_id) MReading stdin
                         ["COORD " +:+ num port] [] files)
              end
          end
      | _ => inl (Uncaught, [])
      end
  | _ => inl (Exit 2, ["usage: iledger_coordinator <port> <ledger_file>"%string])
  end.

(** One step of [main]; [None] when it is blocked or has returned. *)
Definition main_step (s : Service) : option Service :=
  match sv_pc s with
  | MReading =>
      match sv_stdin s with
      | [] => Some (s <| sv_pc := MSnapshot |>)
      | line :: rest =>
          Some (s <| sv_stdin := rest |>
                  <| sv_pc := if bool_decide (line = "SHUTDOWN"%string) then MSnapshot else MReading |>)
      end
  | MSnapshot => Some (s <| sv_pc := MSaving (snapshot (co_ledger (sv_coord s))) |>)
  | MSaving snap =>
      match save_snapshot snap service_ledger_id path (sv_files s) with
      | (files, Some err) =>
          Some (s <| sv_files := files |> <| sv_err ::= fun l => l ++ ["save: " +:+ err] |> <| sv_pc := MStop 1 |>)
      | (files, None) =>
          Some (s <| sv_files := files |> <| sv_out ::= fun l => l ++ [stopped_line snap] |> <| sv_pc := MStop 0 |>)
      end
  | MStop code => Some (s <| sv_coord ::= stop |> <| sv_pc := MJoin code |>)
  | MJoin code =>
      match co_accepting (sv_coord s), co_pc (sv_coord s) with
      | false, Exited => Some (s <| sv_pc := MDone code |>)
      | _, _ => None
      end
  | MDone _ => None
  end.

(** The steps of the coordinator's own threads. *)
Definition thread_action (a : Action) : Prop :=
  match a with
  | AAccept | AAcceptExit | AReadFailed _ | AReadExit _ | AAccount => True
  | ARead _ m => exists net net', recv_message net = (Received m, net')
  | _ => False
  end.

Inductive svc_step : Service -> Service -> Prop :=
| svc_thread a s c : thread_action a -> perform a (sv_coord s) = Some c ->
    svc_step s (s <| sv_coord := c |>)
| svc_main s s' : main_step s = Some s' -> svc_step s s'.

Inductive svc_steps : Service -> Service -> Prop :=
| svc_refl s : svc_steps s s
| svc_next s s1 s2 : svc_steps s s1 -> svc_step s1 s2 -> svc_steps s s2.

(** ** What the threads let in *)

(** A record as it arrives: it can be stored once its content is valid. *)
Definition intake (e : LedgerEntry) : Prop := entry_wf e /\ fits_frame e /\ canonical e = e.

Definition work_intake (w : WorkItem) : Prop :=
  match w with WEvent _ e => intake e | _ => True end.

Record coord_intake (s : Coordinator) : Prop := {
  ci_wf : coordinator_wf s;
  ci_queue : Forall work_intake (co_queue s);
  ci_entries : Forall intake (lg_entries (co_ledger s))
}.

Lemma coordinator_new_intake id : coord_intake (coordinator_new id).
Proof. split; [apply coordinator_new_wf|constructor..]. Qed.

(** What a step does to the queue. *)
Lemma perform_queue a s s' : perform a s = Some s' ->
  co_queue s' = co_queue s \/
  (exists w, co_queue s = w :: co_queue s') \/
  (exists w, co_queue s' = co_queue s ++ [w] /\
     match a, w with
     | ARead _ (EventSubmit e), WEvent _ e' | AEnqueue e, WEvent _ e' => e = e'
     | _, WEvent _ _ => False
     | _, _ => True
     end).
Proof.
  intros Hp. destruct a as [| |c m|c|c| | |e|e|]; cbn [perform] in Hp.
  - left. unfold accept_conn in Hp. destruct (co_accepting s); [|done]. by simplify_eq.
  - left. unfold accept_exit in Hp. destruct (_ && _); [|done]. by simplify_eq.
  - unfold read_message in Hp. destruct (co_conns s !! c) as [conn|]; [|done].
    destruct (cn_reading conn); [|done].
    destruct m; simplify_eq; try (left; reflexivity); right; right; by eexists.
  - unfold read_failed in Hp. destruct (co_conns s !! c) as [conn|]; [|done].
    destruct (cn_reading conn); [|done]. destruct (cn_registered conn); simplify_eq; [|left; reflexivity].
    right; right; by eexists.
  - left. unfold read_exit in Hp. destruct (co_conns s !! c) as [conn|]; [|done].
    destruct (_ && _); [|done]. by simplify_eq.
  - unfold acct_step in Hp. destruct (co_pc s); try (left; by simplify_eq).
    destruct (co_queue s) as [|w q] eqn:Hq; [left; by destruct (co_stop_requested s); simplify_eq|].
    right; left. exists w. destruct w as [[c|] e|c reg|c w]; [|done|..]; simplify_eq; try reflexivity.
    by destruct (account_event_fields c e (s <| co_queue := q |>)) as (_ & _ & _ & _ & -> & _).
  - left. by simplify_eq.
  - left. by simplify_eq.
  - right; right. simplify_eq. by eexists.
  - left. by simplify_eq.
Qed.

Lemma perform_intake a s s' : thread_action a -> perform a s = Some s' -> coord_intake s -> coord_intake s'.
Proof.
  intros Ha Hp [Hwf Hq He]. split; [by eapply perform_wf| |].
  - apply perform_queue in Hp as [->|[[w Hw]|(w & -> & Hw)]]; [done| |].
    + rewrite Hw in Hq. by apply Forall_inv_tail in Hq.
    + apply Forall_app. split; [done|]. apply list.Forall_singleton.
      destruct w as [o e|c r|c w]; [|done..]. destruct a as [| |c m|c|c| | |x|x|]; try done.
      destruct m; try done. subst. destruct Ha as (net & net' & Hr). by apply recv_message_arrived in Hr.
  - apply perform_cases in Hp as [(-> & _)|(c & e & q & _ & _ & Hqe & ->)]; [done|].
    destruct (account_event_fields c e (s <| co_queue := q |>)) as (-> & _).
    destruct (append _ _ e) as [l' ar] eqn:E. apply append_cases in E as [[-> _]|(_ & _ & _ & _ & ->)]; [done|].
    cbn [fst lg_entries]. apply Forall_app. split; [done|]. apply list.Forall_singleton.
    rewrite Hqe in Hq. apply Forall_inv in Hq. done.
Qed.

Lemma stop_intake s : coord_intake s -> coord_intake (stop s).
Proof. intros [Hwf Hq He]. split; [|done..]. by destruct Hwf. Qed.

(** What the snapshot file is known to hold at each point of [main]; [seen] is what
    the ledger held while [main] was still reading its input. *)
Definition reported (seen : list LedgerEntry) (s : Service) : Prop :=
  exists snap, seen `prefix_of` snap /\ snap `prefix_of` lg_entries (co_ledger (sv_coord s)) /\
    load path (sv_files s) = Some (loaded service_ledger_id snap) /\ stopped_line snap ∈ sv_out s.

Record svc_inv (seen : list LedgerEntry) (s : Service) : Prop := {
  si_coord : coord_intake (sv_coord s);
  si_seen : seen `prefix_of` lg_entries (co_ledger (sv_coord s));
  si_main : match sv_pc s with
            | MReading | MSnapshot => True
            | MSaving snap => seen `prefix_of` snap /\ snap `prefix_of` lg_entries (co_ledger (sv_coord s))
            | MStop code | MJoin code | MDone code => code = 0 -> reported seen s
            end
}.

(** A record the ledger accepted from the network can be saved and loaded. *)
Lemma coord_intake_storable s : coord_intake s -> Forall storable (lg_entries (co_ledger s)).
Proof.
  intros [Hwf _ He]. pose proof (lw_valid _ (cw_ledger _ Hwf)) as Hv.
  rewrite list.Forall_forall in He, Hv |- *. intros e Hin. destruct (He e Hin) as (Hw & Hf & _).
  constructor; [done..|]. rewrite <- content_is_valid_encode_checks. by apply Hv.
Qed.

Lemma intake_canonical es : Forall intake es -> canonical <$> es = es.
Proof. induction 1 as [|e es (_ & _ & Hc) _ IH]; [done|]. by rewrite fmap_cons, Hc, IH. Qed.

Lemma saved_loads s snap files files' : coord_intake s -> snap `prefix_of` lg_entries (co_ledger s) ->
  save_snapshot snap service_ledger_id path files = (files', None) ->
  load path files' = Some (loaded service_ledger_id snap).
Proof.
  intros Hs [rest Hp] [-> _]%save_snapshot_ok. pose proof (coord_intake_storable s Hs) as Hst.
  pose proof (ledger_wf_NoDup _ (cw_ledger _ (ci_wf _ Hs))) as Hnd. pose proof (ci_entries _ Hs) as Hin.
  rewrite Hp in Hst, Hnd, Hin. apply Forall_app in Hst as [Hst _], Hin as [Hin _].
  rewrite fmap_app in Hnd. apply list.NoDup_app in Hnd as (Hnd & _).
  unfold load. rewrite lookup_insert_eq, load_bytes_snapshot, intake_canonical; [done..| |done|done].
  unfold id_wf, in_width; simpl; lia.
Qed.

Lemma reported_mono seen s s' : reported seen s ->
  lg_entries (co_ledger (sv_coord s)) `prefix_of` lg_entries (co_ledger (sv_coord s')) ->
  sv_files s' = sv_files s -> sv_out s' = sv_out s -> reported seen s'.
Proof.
  intros (snap & H1 & H2 & H3 & H4) Hp Hf Ho. exists snap. rewrite Hf, Ho. split_and!; try done. by etrans.
Qed.

Lemma thread_inv seen a s c : thread_action a -> perform a (sv_coord s) = Some c ->
  svc_inv seen s -> svc_inv seen (s <| sv_coord := c |>).
Proof.
  intros Ha Hp [Hc Hs Hm]. pose proof (perform_prefix _ _ _ Hp) as Hx.
  split; [by eapply perform_intake|by etrans|]. destruct s as [co pc si so se sf].
  cbn [sv_coord sv_pc update] in *. destruct pc; try done.
  - destruct Hm as [H1 H2]. split; [done|]. by etrans.
  - intros Hz. by eapply (reported_mono seen _ _ (Hm Hz)).
  - intros Hz. by eapply (reported_mono seen _ _ (Hm Hz)).
  - intros Hz. by eapply (reported_mono seen _ _ (Hm Hz)).
Qed.

Lemma main_inv seen s s' : main_step s = Some s' -> svc_inv seen s -> svc_inv seen s'.
Proof.
  intros Hp [Hc Hs Hm]. unfold main_step in Hp. destruct s as [co pc si so se sf].
  cbn [sv_coord sv_pc sv_stdin sv_files sv_out] in *. destruct pc as [| |snap|code|code|code]; simplify_eq.
  - destruct si as [|line rest]; simplify_eq; [done|]. split; [done..|]. cbn [sv_pc]. by case_bool_decide.
  - done.
  - destruct Hm as [H1 H2]. destruct (save_snapshot _ _ _ _) as [files [err|]] eqn:E; simplify_eq.
    + by split.
    + split; [done..|]. intros _. exists snap. split_and!; [done..| |].
      * by eapply saved_loads.
      * cbn [sv_out]. apply elem_of_app. right. by apply list_elem_of_singleton.
  - split; [by apply stop_intake|done|]. intros Hz. by apply (reported_mono seen _ _ (Hm Hz)).
  - destruct (co_accepting co), (co_pc co); simplify_eq. split; [done..|]. intros Hz. by apply (reported_mono seen _ _ (Hm Hz)).
Qed.

Lemma steps_inv seen s s' : svc_steps s s' -> svc_inv seen s -> svc_inv seen s'.
Proof.
  intros Hs Hi. induction Hs as [s|s s1 s2 _ IH Hstep]; [done|].
  destruct Hstep as [a s1 c Ha Hp|s1 s2 Hp]; [exact (thread_inv seen a s1 c Ha Hp (IH Hi))|].
  exact (main_inv seen s1 s2 Hp (IH Hi)).
Qed.

Lemma service_start_inv argv stdin files s : service_start argv stdin files = inr s -> svc_inv [] s.
Proof.
  unfold service_start. destruct argv as [|? [|? [|? []]]]; try done.
  destruct (stoi _); try done. destruct network_init as [[] ?]; [|done].
  destruct (bind_and_listen _ _ _ _) as [[? ?] [|]]; [done|]. intros [= <-].
  split; [apply coordinator_new_intake|apply prefix_nil|done].
Qed.

(** C12: a coordinator process that exits with code 0 has written a file from which
    the ledger loads again: whatever the threads did and whatever bytes peers sent,
    the file holds every record accepted while the process was reading its input and
    nothing but a prefix of the ledger, and the line it printed reports that file's
    record count and fingerprint. *)
Theorem service_saves prog port_text stdin files s0 s1 s2 :
  service_start [prog; port_text; path] stdin files = inr s0 ->
  svc_steps s0 s1 -> sv_pc s1 = MReading ->
  svc_steps s1 s2 -> sv_pc s2 = MDone 0 ->
  exists snap, lg_entries (co_ledger (sv_coord s1)) `prefix_of` snap /\
    snap `prefix_of` lg_entries (co_ledger (sv_coord s2)) /\
    load path (sv_files s2) = Some (loaded service_ledger_id snap) /\
    stopped_line snap ∈ sv_out s2.
Proof.
  intros Hi0%service_start_inv H1 Hpc1 H2 Hpc2. apply (steps_inv _ _ _ H1) in Hi0.
  assert (svc_inv (lg_entries (co_ledger (sv_coord s1))) s1) as Hi.
  { split; [apply Hi0|done|by rewrite Hpc1]. }
  apply (steps_inv _ _ _ H2) in Hi as [_ _ Hm]. rewrite Hpc2 in Hm. by apply Hm.
Qed.
End service.

(** ** Concrete executions *)

(** A schedule as a function: a step of [main], or of a thread. *)
Inductive Move := Main | Thread (a : Action).

Definition move `{FileIO} (path : string) (m : Move) (s : Service) : option Service :=
  match m with
  | Main => main_step path s
  | Thread a => (fun c => s <| sv_coord := c |>) <$> perform a (sv_coord s)
  end.

Fixpoint moves `{FileIO} (path : string) (ms : list Move) (s : Service) : option Service :=
  match ms with
  | [] => Some s
  | m :: ms => match move path m s with Some s => moves path ms s | None => None end
  end.

Lemma moves_steps `{FileIO} path ms s0 s s' : svc_steps path s0 s ->
  Forall (fun m => match m with Main => True | Thread a => thread_action a end) ms ->
  moves path ms s = Some s' -> svc_steps path s0 s'.
Proof.
  intros Hs Hall. revert s Hs. induction Hall as [|m ms Hm _ IH]; intros s Hs Hr; simpl in Hr; [by simplify_eq|].
  destruct (move path m s) as [s1|] eqn:E; [|done]. apply (IH s1); [|done]. econstructor; [exact Hs|].
  destruct m as [|a]; cbn [move] in E; [by constructor|].
  destruct (perform a (sv_coord s)) as [c|] eqn:Ec; [|done]. cbn in E. injection E as <-. by eapply svc_thread.
Qed.

(** What a worker sends, as it arrives. *)
Definition arriving (m : Message) : Net :=
  match encode_message m with Some bytes => [NetData bytes] | None => [] end.

Definition started (stdin : list string) : Service :=
  match service_start (H := sample_platform) ["coordinator"; "38921"; "ledger.db"]%string stdin ∅ with
  | inr s => s
  | inl _ => MkService (coordinator_new id_zero) (MDone 1) [] [] [] ∅
  end.

(** A worker registers and opens a request. *)
Definition opening : list Move := Thread <$> sample_run.

Definition after_moves (ms : list Move) (s : Service) : Service := default s (moves (H := reliable_io) "ledger.db" ms s).

Lemma moves_after ms s :
  match moves (H := reliable_io) "ledger.db" ms s with Some _ => true | None => false end = true ->
  moves (H := reliable_io) "ledger.db" ms s = Some (after_moves ms s).
Proof. unfold after_moves. by destruct (moves _ ms s). Qed.

Lemma register_arrives : thread_action (ARead 0 (Register sample_register)).
Proof. exists (arriving (Register sample_register)). eexists. by vm_compute. Qed.

Lemma start_arrives : thread_action (ARead 0 (EventSubmit sample_start)).
Proof. exists (arriving (EventSubmit sample_start)). eexists. by vm_compute. Qed.

Lemma opening_actions : Forall (fun m => match m with Main => True | Thread a => thread_action a end) opening.
Proof.
  repeat first [exact I|apply register_arrives|apply start_arrives|apply list.Forall_nil|apply list.Forall_cons; split].
Qed.

Lemma mains_actions n :
  Forall (fun m => match m with Main => True | Thread a => thread_action a end) (replicate n Main).
Proof. by apply Forall_replicate. Qed.

Definition closing : list Move := replicate 4 Main ++ [Thread AAcceptExit; Thread AAccount; Main].

Lemma closing_actions : Forall (fun m => match m with Main => True | Thread a => thread_action a end) closing.
Proof. apply Forall_app. split; [apply mains_actions|]. by repeat constructor. Qed.

Lemma service_saves_witness :
  exists snap,
    load "ledger.db" (sv_files (after_moves closing (after_moves opening (started ["SHUTDOWN"%string])))) =
      Some (loaded service_ledger_id snap) /\
    lg_entries (co_ledger (sv_coord (after_moves opening (started ["SHUTDOWN"%string])))) `prefix_of` snap.
Proof.
  destruct (service_saves (H := sample_platform) (H0 := reliable_io) "ledger.db" "coordinator" "38921" ["SHUTDOWN"%string] ∅
    (started ["SHUTDOWN"%string]) (after_moves opening (started ["SHUTDOWN"%string]))
    (after_moves closing (after_moves opening (started ["SHUTDOWN"%string])))) as (snap & H1 & _ & H2 & _).
  - by vm_compute.
  - apply (moves_steps (H := reliable_io) "ledger.db" opening _ (started ["SHUTDOWN"%string]));
      [constructor|exact opening_actions|apply moves_after; by vm_compute].
  - by vm_compute.
  - apply (moves_steps (H := reliable_io) "ledger.db" closing _ (after_moves opening (started ["SHUTDOWN"%string])));
      [constructor|exact closing_actions|apply moves_after; by vm_compute].
  - by vm_compute.
  - exists snap. exact (conj H2 H1).
Defined.

(** The snapshot is taken before [coord.stop()]: a record that a reader delivers in
    between is accepted and acknowledged, and the process exits with code 0, but the
    file does not hold it. *)
Definition late : list Move :=
  replicate 2 Main ++ opening ++ [Main; Main; Thread AAcceptExit; Thread AAccount; Main].

Lemma acked_not_saved :
  let s := after_moves late (started ["SHUTDOWN"%string]) in
  svc_steps (H0 := reliable_io) "ledger.db" (started ["SHUTDOWN"%string]) s /\ sv_pc s = MDone 0 /\
  lg_entries (co_ledger (sv_coord s)) = [sample_start] /\
  (0%nat, event_ack (MkAppendResult Accepted "accepted")) ∈ co_sent (sv_coord s) /\
  load "ledger.db" (sv_files s) = Some (loaded service_ledger_id []).
Proof.
  split_and!.
  - apply (moves_steps (H := reliable_io) "ledger.db" late _ (started ["SHUTDOWN"%string])); [constructor| |].
    + apply Forall_app. split; [apply mains_actions|]. apply Forall_app. split; [exact opening_actions|].
      by repeat constructor.
    + apply moves_after. by vm_compute.
  - by vm_compute.
  - by vm_compute.
  - apply (list_elem_of_lookup_2 _ 1). by vm_compute.
  - by vm_compute.
Qed.
