(* ===== verification/Serial.v ===== *)
(** * The coordinator's threads, serialised

    The accounting thread releases its locks inside a handler, so that acceptor,
    readers and handlers interleave in [Coordinator]. This file states what that
    amounts to. [Atomic] is the coordinator as one indivisible handler per work item,
    without queue, threads or locks; [abs] completes a handler in progress; every run
    of the threads is a run of the atomic machine on the items in the order in which
    they were queued. On top of it: what one worker can observe does not depend on
    what the others submit, as long as they stay off its request. *)

From stdpp Require Import base gmap sets list strings numbers.
From S2P Require Import Prelude Float64 Identity Kinds Entry CodecProofs Authority Ledger Protocol.
From S2P Require Import Coordinator CoordinatorProofs.
Open Scope Z_scope.

(** ** The atomic coordinator *)

Record Atomic := MkAtomic {
  at_ledger : Ledger;
  at_authority : AuthorityState;
  at_in_flight : gset RequestId;
  at_registered : nat -> option WorkerId;   (** by connection *)
  at_outbox : nat -> list Message           (** replies, by connection *)
}.

(** Connections are looked up, never compared as functions. *)
#[export] Instance Atomic_equiv : Equiv Atomic := fun a b =>
  at_ledger a = at_ledger b /\ at_authority a = at_authority b /\ at_in_flight a = at_in_flight b /\
  (forall c, at_registered a c = at_registered b c) /\ (forall c, at_outbox a c = at_outbox b c).

#[export] Instance Atomic_equivalence : Equivalence (≡@{Atomic}).
Proof.
  split.
  - by intros a.
  - intros a b (? & ? & ? & ? & ?). by split_and!.
  - intros a b c (? & ? & ? & H4 & H5) (? & ? & ? & G4 & G5).
    split_and!; [by etrans..| |]; intros x; by rewrite ?H4, ?H5.
Qed.

Definition post (c : nat) (m : Message) (o : nat -> list Message) : nat -> list Message :=
  fun c' => if decide (c' = c) then o c' ++ [m] else o c'.

(** [handle_registration]. *)
Definition atomic_register (c : nat) (reg : RegisterMsg) (a : Atomic) : Atomic :=
  MkAtomic (at_ledger a)
    ((at_authority a) <| as_worker_boot ::= <[rg_worker reg := rg_boot reg]> |>)
    (at_in_flight a)
    (fun c' => if decide (c' = c) then Some (rg_worker reg) else at_registered a c')
    (post c (RegisterAck (MkRegisterAckMsg true (as_epoch (at_authority a))
                            (as_accounting_generation (at_authority a)) "registered")) (at_outbox a)).

(** [handle_event]. *)
Definition atomic_event (c : nat) (e : LedgerEntry) (a : Atomic) : Atomic :=
  let authority := judging_authority e (at_authority a) in
  let (l, ar) := append (Some authority) (at_ledger a) e in
  MkAtomic l authority
    (if bool_decide (ar_status ar = Accepted) then in_flight_step (at_in_flight a) e else at_in_flight a)
    (at_registered a) (post c (event_ack ar) (at_outbox a)).

Definition roll_authority (f : gset RequestId) (s : AuthorityState) : AuthorityState :=
  s <| as_request_rolled ::= fun m => set_fold (fun r m => <[r := true]> m) m f |>.

Definition roll_of (s : AuthorityState) : Message :=
  Roll (MkRollMsg (as_epoch s) (as_accounting_generation s)).

(** [handle_worker_lost]. *)
Definition atomic_lost (w : WorkerId) (a : Atomic) : Atomic :=
  let authority := advance_authority (roll_authority (at_in_flight a) (at_authority a)) in
  MkAtomic (at_ledger a) authority (at_in_flight a) (at_registered a)
    (fun c => match at_registered a c with
              | Some w' => if decide (w' = w) then at_outbox a c else at_outbox a c ++ [roll_of authority]
              | None => at_outbox a c
              end).

Definition atomic (w : WorkItem) (a : Atomic) : Atomic :=
  match w with
  | WRegister c reg => atomic_register c reg a
  | WEvent (Some c) e => atomic_event c e a
  | WEvent None _ => a
  | WWorkerLost _ w => atomic_lost w a
  end.

Definition serve (log : list WorkItem) (a : Atomic) : Atomic := fold_left (fun a w => atomic w a) log a.

Definition atomic_new (id : LedgerId) : Atomic :=
  MkAtomic (ledger_new id) (co_authority (coordinator_new id)) ∅ (fun _ => None) (fun _ => []).

#[export] Instance atomic_proper w : Proper ((≡) ==> (≡)) (atomic w).
Proof.
  intros [l au f r o] [l' au' f' r' o'] (Hl & Ha & Hf & Hr & Ho). simpl in *. subst.
  destruct w as [[c|] e|c reg|c w]; cbn [atomic]; try done.
  - unfold atomic_event; simpl. destruct (append _ l' e). split_and!; try done.
    intros x. simpl. unfold post. by rewrite Ho.
  - split_and!; try done; intros x; simpl; unfold post; by rewrite ?Hr, ?Ho.
  - split_and!; try done; intros x; simpl. by rewrite Hr, Ho.
Qed.

#[export] Instance serve_proper log : Proper ((≡) ==> (≡)) (serve log).
Proof.
  induction log as [|w log IH]; intros a b Hab; [done|]. cbn [serve fold_left]. apply IH. by rewrite Hab.
Qed.

Lemma serve_app l1 l2 a : serve (l1 ++ l2) a = serve l2 (serve l1 a).
Proof. apply fold_left_app. Qed.

(** ** The threads *)

(** The steps the coordinator's own threads take. *)
Definition own_thread (a : Action) : bool :=
  match a with
  | AAccept | AAcceptExit | ARead _ _ | AReadFailed _ | AReadExit _ | AAccount => true
  | _ => false
  end.

(** The work item a step queues. *)
Definition arrives (a : Action) (s : Coordinator) : list WorkItem :=
  match a with
  | ARead c (Register reg) => [WRegister c reg]
  | ARead c (EventSubmit e) => [WEvent (Some c) e]
  | AReadFailed c =>
      match co_conns s !! c with
      | Some conn => if cn_registered conn then [WWorkerLost c (cn_worker conn)] else []
      | None => []
      end
  | _ => []
  end.

(** Runs of the threads, with the items queued, in order. *)
Inductive threads : list WorkItem -> Coordinator -> Coordinator -> Prop :=
| threads_refl s : threads [] s s
| threads_step log a s s1 s2 : threads log s s1 -> own_thread a = true -> perform a s1 = Some s2 ->
    threads (log ++ arrives a s1) s s2.

(** ** Abstraction *)

Definition is_ping (m : Message) : bool := match m with Ping => true | _ => false end.

(** What the accounting thread sent on a connection. *)
Definition replies (s : Coordinator) (c : nat) : list Message :=
  (filter (fun p => p.1 = c /\ is_ping p.2 = false) (co_sent s)).*2.

Definition registered (s : Coordinator) (c : nat) : option WorkerId :=
  match co_conns s !! c with
  | Some conn => if cn_registered conn then Some (cn_worker conn) else None
  | None => None
  end.

Definition post_all (targets : list nat) (m : Message) (o : nat -> list Message) : nat -> list Message :=
  fun c => o c ++ ((fun _ => m) <$> filter (eq c) targets).

(** The state once the handler in progress is done. *)
Definition abs (s : Coordinator) : Atomic :=
  let l := co_ledger s in
  let au := co_authority s in
  let f := co_in_flight s in
  let r := registered s in
  let o := replies s in
  match co_pc s with
  | Ready | Exited => MkAtomic l au f r o
  | RegStored c reg ep ag =>
      MkAtomic l au f (fun c' => if decide (c' = c) then Some (rg_worker reg) else r c')
        (post c (RegisterAck (MkRegisterAckMsg true ep ag "registered")) o)
  | AckDue c m => MkAtomic l au f r (post c m o)
  | LostRolled w =>
      MkAtomic l (advance_authority au) f r (post_all (survivors w (co_conns s)) (roll_of (advance_authority au)) o)
  | LostAdvanced w => MkAtomic l au f r (post_all (survivors w (co_conns s)) (roll_of au) o)
  | LostGathered ts => MkAtomic l au f r (post_all ts (roll_of au) o)
  | RollDue ts roll => MkAtomic l au f r (post_all ts (Roll roll) o)
  end.

(** Connections in the queue exist; an acknowledgement is not a ping. *)
Definition item_ok (n : nat) (w : WorkItem) : Prop :=
  match w with WRegister c _ => (c < n)%nat | _ => True end.

Record conns_ok (s : Coordinator) : Prop := {
  ck_queue : Forall (item_ok (length (co_conns s))) (co_queue s);
  ck_pc : match co_pc s with
          | RegStored c _ _ _ => (c < length (co_conns s))%nat
          | AckDue _ m => is_ping m = false
          | _ => True
          end
}.

(** *** Lemmas on connections and replies *)

Lemma replies_send s c m c' : is_ping m = false ->
  replies (send c m s) c' = post c m (replies s) c'.
Proof.
  intros Hm. unfold replies, send, post. destruct s; cbn.
  rewrite list.filter_app, fmap_app, (filter_cons _ (c, m)), filter_nil; cbn [fst snd].
  destruct (decide (c' = c)), (decide (c = c' /\ is_ping m = false)); try naive_solver.
  cbn. by rewrite app_nil_r.
Qed.

Lemma filter_roll ts roll c :
  (filter (fun p : nat * Message => p.1 = c /\ is_ping p.2 = false) ((fun t => (t, Roll roll)) <$> ts)).*2 =
  (fun _ => Roll roll) <$> filter (eq c) ts.
Proof.
  induction ts as [|t ts IH]; [done|]. rewrite fmap_cons, !filter_cons. cbn [fst snd is_ping].
  destruct (decide (t = c /\ false = false)), (decide (c = t)); try naive_solver.
  rewrite !fmap_cons. by rewrite IH.
Qed.

Lemma survivors_filter w conns c :
  filter (eq c) (survivors w conns) =
  match conns !! c with
  | Some conn => if bool_decide (cn_registered conn = true /\ cn_worker conn <> w) then [c] else []
  | None => []
  end.
Proof.
  assert (NoDup (filter (eq c) (survivors w conns))) as Hnd.
  { apply list.NoDup_filter. unfold survivors. apply (sublist_NoDup _ (imap pair conns).*1).
    - apply NoDup_alt. intros i j x. rewrite !list_lookup_fmap, !list_lookup_imap.
      destruct (conns !! i), (conns !! j); simpl; congruence.
    - apply fmap_sublist, sublist_filter. }
  assert (forall x, x ∈ filter (eq c) (survivors w conns) <->
    x = c /\ exists conn, conns !! c = Some conn /\ cn_registered conn = true /\ cn_worker conn <> w) as Hin.
  { intros x. rewrite list_elem_of_filter, survivors_spec. naive_solver. }
  destruct (filter (eq c) (survivors w conns)) as [|x [|y l]].
  - destruct (conns !! c) as [conn|]; [|done]. case_bool_decide as Hc; [|done].
    exfalso. apply (not_elem_of_nil c). apply Hin. split; [done|]. by exists conn.
  - destruct (proj1 (Hin x)) as (-> & conn & -> & Hc); [by left|]. by rewrite bool_decide_true.
  - exfalso. apply list.NoDup_cons in Hnd as [Hx _]. apply Hx.
    destruct (proj1 (Hin x)) as [-> _]; [by left|].
    destruct (proj1 (Hin y)) as [-> _]; [by right; left|]. by left.
Qed.

(** *** The simulation *)

Lemma filter_ping_snoc l c c' :
  filter (fun p : nat * Message => p.1 = c' /\ is_ping p.2 = false) (l ++ [(c, Ping)]) =
  filter (fun p => p.1 = c' /\ is_ping p.2 = false) l.
Proof.
  rewrite list.filter_app, (filter_cons _ (c, Ping)), filter_nil. cbn [fst snd is_ping].
  rewrite decide_False by naive_solver. apply app_nil_r.
Qed.

(** The fields the abstraction reads. *)
Lemma abs_equiv s s' : co_ledger s' = co_ledger s -> co_authority s' = co_authority s ->
  co_in_flight s' = co_in_flight s -> co_pc s' = co_pc s ->
  (forall c, registered s' c = registered s c) -> (forall c, replies s' c = replies s c) ->
  (forall w c, filter (eq c) (survivors w (co_conns s')) = filter (eq c) (survivors w (co_conns s))) ->
  abs s' ≡ abs s.
Proof.
  intros Hl Ha Hf Hp Hr Ho Hv. unfold abs. rewrite Hl, Ha, Hf, Hp.
  destruct (co_pc s); split_and!; try done; intros x; cbn [at_registered at_outbox];
    unfold post, post_all; rewrite ?Hr, ?Ho, ?Hv; done.
Qed.

Lemma registered_survivors s s' w c : (forall c, registered s' c = registered s c) ->
  filter (eq c) (survivors w (co_conns s')) = filter (eq c) (survivors w (co_conns s)).
Proof.
  intros Hr. specialize (Hr c). rewrite !survivors_filter. unfold registered in Hr.
  destruct (co_conns s' !! c) as [[w1 r1 ?]|], (co_conns s !! c) as [[w2 r2 ?]|]; simpl in *; try done;
    repeat case_bool_decide; try destruct r1; try destruct r2; naive_solver.
Qed.

Lemma abs_quiet s s' : co_ledger s' = co_ledger s -> co_authority s' = co_authority s ->
  co_in_flight s' = co_in_flight s -> co_pc s' = co_pc s ->
  (forall c, registered s' c = registered s c) -> (forall c, replies s' c = replies s c) ->
  abs s' ≡ abs s.
Proof. intros. apply abs_equiv; try done. intros w c. by apply registered_survivors. Qed.

Lemma registered_accept s c b :
  registered (s <| co_conns ::= fun l => l ++ [MkConn id_zero false b] |>) c = registered s c.
Proof.
  unfold registered; destruct s as [l au f conns q pc sent ac rn st]; cbn.
  destruct (conns !! c) as [x|] eqn:E.
  - by rewrite (lookup_app_l_Some _ _ _ _ E).
  - rewrite lookup_app_r by by apply lookup_ge_None. by destruct (_ - _)%nat.
Qed.

Lemma registered_set_reading s c b x : registered (set_reading c b s) x = registered s x.
Proof.
  unfold registered, set_reading. destruct s as [l au f conns q pc sent ac rn st]; cbn.
  destruct (decide (c = x)) as [<-|Hne].
  - rewrite list_lookup_alter_eq. by destruct (conns !! c).
  - by rewrite list_lookup_alter_ne.
Qed.

(** A thread at the test of its loop. *)
Lemma set_reading_sim c b s : abs (set_reading c b s) ≡ abs s.
Proof. apply abs_quiet; try done. intros x. apply registered_set_reading. Qed.

Lemma accept_sim s s' : accept_conn s = Some s' -> abs s' ≡ abs s /\ co_queue s' = co_queue s.
Proof.
  unfold accept_conn. destruct (co_accepting s); [|done]. intros [= <-]. split; [|done].
  apply abs_quiet; try done. intros c. apply (registered_accept s).
Qed.

Lemma accept_exit_sim s s' : accept_exit s = Some s' -> abs s' ≡ abs s /\ co_queue s' = co_queue s.
Proof. unfold accept_exit. destruct (_ && _); [|done]. by intros [= <-]. Qed.

Lemma read_sim c m s s' : read_message c m s = Some s' ->
  abs s' ≡ abs s /\ co_queue s' = co_queue s ++ arrives (ARead c m) s.
Proof.
  unfold read_message. destruct (co_conns s !! c); [|done]. destruct (cn_reading _); [|done]. intros [= <-].
  split; [|destruct m; cbn [arrives]; rewrite ?app_nil_r; done]. rewrite set_reading_sim.
  destruct m; try done. apply abs_quiet; try done. intros c'. unfold replies, send. destruct s; cbn.
  by rewrite filter_ping_snoc.
Qed.

Lemma failed_sim c s s' : read_failed c s = Some s' ->
  abs s' ≡ abs s /\ co_queue s' = co_queue s ++ arrives (AReadFailed c) s.
Proof.
  unfold read_failed. cbn [arrives]. destruct (co_conns s !! c) as [conn|] eqn:E; [|done].
  destruct (cn_reading conn); [|done]. intros [= <-]. rewrite set_reading_sim.
  destruct (cn_registered conn); (split; [done|]); [done|by rewrite app_nil_r].
Qed.

Lemma read_exit_sim c s s' : read_exit c s = Some s' -> abs s' ≡ abs s /\ co_queue s' = co_queue s.
Proof.
  unfold read_exit. destruct (co_conns s !! c) as [conn|]; [|done]. destruct (_ && _); [|done].
  intros [= <-]. split; [apply set_reading_sim|done].
Qed.

(** A handler takes its item: the atomic machine handles it. *)
Lemma take_sim w q s s' : co_pc s = Ready -> co_queue s = w :: q -> acct_step s = Stepped s' ->
  co_queue s' = q /\ abs s' ≡ atomic w (abs s).
Proof.
  intros Hpc Hq Hs. unfold acct_step in Hs. rewrite Hpc, Hq in Hs.
  assert (abs s = MkAtomic (co_ledger s) (co_authority s) (co_in_flight s) (registered s) (replies s)) as Ha
    by (unfold abs; by rewrite Hpc). rewrite Ha.
  destruct w as [[c|] e|c reg|c w]; [|done|..]; injection Hs as <-.
  - destruct (account_event_fields c e (s <| co_queue := q |>)) as (Fl & Fa & Ff & Fc & Fq & Fs & _ & _ & Fp).
    split; [done|]. cbn [atomic]. unfold atomic_event. cbn [at_authority at_ledger at_in_flight at_registered at_outbox].
    unfold abs. rewrite Fp, Fl, Fa, Ff. destruct s as [l au f cs q0 pc sent ac rn st].
    cbn in Fc, Fs |- *. destruct (append _ l e) as [l' ar]. split_and!; try done.
    + intros x. cbn. unfold registered. by rewrite Fc.
    + intros x. cbn. unfold replies, post. by rewrite Fs.
  - split; [done|]. destruct s as [l au f cs q0 pc sent ac rn st]. by split_and!.
  - split; [done|]. destruct s as [l au f cs q0 pc sent ac rn st]. split_and!; try done.
    intros x. cbn [atomic atomic_lost at_outbox at_registered at_authority at_in_flight].
    change (post_all (survivors w cs) (roll_of (advance_authority (roll_authority f au)))
              (replies (MkCoordinator l au f cs q0 pc sent ac rn st)) x = 
            match registered (MkCoordinator l au f cs q0 pc sent ac rn st) x with
            | Some w' => if decide (w' = w) then replies (MkCoordinator l au f cs q0 pc sent ac rn st) x
                else replies (MkCoordinator l au f cs q0 pc sent ac rn st) x ++
                  [roll_of (advance_authority (roll_authority f au))]
            | None => replies (MkCoordinator l au f cs q0 pc sent ac rn st) x
            end).
    unfold post_all. rewrite survivors_filter. unfold registered; cbn [co_conns].
    destruct (cs !! x) as [[w' r ?]|]; cbn; [|by rewrite app_nil_r].
    destruct r; [|rewrite bool_decide_false by naive_solver; by rewrite app_nil_r].
    destruct (decide (w' = w)) as [->|Hw].
    + rewrite bool_decide_false by naive_solver. by rewrite app_nil_r.
    + by rewrite bool_decide_true by done.
Qed.

(** The rest of a handler does not change the completed state. *)
Lemma continue_sim s s' : conns_ok s -> co_pc s <> Ready -> acct_step s = Stepped s' ->
  co_queue s' = co_queue s /\ abs s' ≡ abs s.
Proof.
  intros [_ Hpc] Hr Hs. destruct s as [l au f cs q pc sent ac rn st]. unfold acct_step in Hs.
  cbn [co_pc co_conns] in *. destruct pc as [|c reg ep ag|c m|w|w|ts|ts ro|]; try done;
    injection Hs as <-; (split; [done|]); split_and!; try done; intros x; cbn.
  - unfold registered; cbn. destruct (decide (x = c)) as [->|Hne].
    + destruct (lookup_lt_is_Some_2 _ _ Hpc) as [y Hy]. by rewrite list_lookup_alter_eq, Hy.
    + by rewrite list_lookup_alter_ne.
  - apply (replies_send (MkCoordinator l au f cs q Ready sent ac rn st) c m x Hpc).
  - unfold replies, post_all; cbn. by rewrite list.filter_app, fmap_app, filter_roll.
Qed.

Lemma account_sim s s' : conns_ok s -> perform AAccount s = Some s' ->
  (co_queue s' = co_queue s /\ abs s' ≡ abs s) \/
  (exists w, co_queue s = w :: co_queue s' /\ abs s' ≡ atomic w (abs s)).
Proof.
  intros Hok Hp. cbn [perform] in Hp. destruct (acct_step s) as [s1| |] eqn:E; simplify_eq.
  destruct (co_pc s) eqn:Hr; try (left; apply continue_sim; [done|by rewrite Hr|done]).
  destruct (co_queue s) as [|w q] eqn:Hq.
  - left. unfold acct_step in E. rewrite Hr, Hq in E. destruct (co_stop_requested s); simplify_eq.
    split; [done|]. unfold abs. by rewrite Hr.
  - right. exists w. destruct (take_sim w q s s' Hr Hq E) as [-> Ha]. done.
Qed.

Lemma item_ok_mono n n' w : (n <= n')%nat -> item_ok n w -> item_ok n' w.
Proof. destruct w; simpl; lia. Qed.

(** A step never removes a connection. *)
Lemma perform_conns a s s' : perform a s = Some s' -> (length (co_conns s) <= length (co_conns s'))%nat.
Proof.
  assert (forall c b s, length (co_conns (set_reading c b s)) = length (co_conns s)) as Hset
    by (intros c b []; apply length_alter).
  intros Hp. destruct a as [| |c m|c|c| | |e|e|]; cbn [perform] in Hp.
  - unfold accept_conn in Hp. destruct (co_accepting s); simplify_eq. destruct s; cbn. rewrite length_app. lia.
  - unfold accept_exit in Hp. destruct (_ && _); by simplify_eq.
  - unfold read_message in Hp. destruct (co_conns s !! c); [|done]. destruct (cn_reading _); simplify_eq.
    rewrite Hset. by destruct m.
  - unfold read_failed in Hp. destruct (co_conns s !! c) as [conn|]; [|done].
    destruct (cn_reading conn); simplify_eq. rewrite Hset. by destruct (cn_registered conn).
  - unfold read_exit in Hp. destruct (co_conns s !! c) as [conn|]; [|done].
    destruct (_ && _); simplify_eq. by rewrite Hset.
  - unfold acct_step in Hp. destruct (co_pc s); simplify_eq; try (destruct s; cbn; rewrite ?length_alter; lia).
    destruct (co_queue s) as [|w q]; [destruct (co_stop_requested s); by simplify_eq|].
    destruct w as [[c|] e|c reg|c w]; simplify_eq; try done.
    by destruct (account_event_fields c e (s <| co_queue := q |>)) as (_ & _ & _ & -> & _).
  - by simplify_eq.
  - by simplify_eq.
  - by simplify_eq.
  - by simplify_eq.
Qed.

Lemma account_pc_ok s s' : conns_ok s -> perform AAccount s = Some s' ->
  match co_pc s' with
  | RegStored c _ _ _ => (c < length (co_conns s'))%nat
  | AckDue _ m => is_ping m = false
  | _ => True
  end.
Proof.
  intros [Hq _] Hp. cbn [perform] in Hp. unfold acct_step in Hp.
  destruct (co_pc s); simplify_eq; try done.
  destruct (co_queue s) as [|w q]; [destruct (co_stop_requested s); by simplify_eq|].
  destruct w as [[c|] e|c reg|c w]; simplify_eq; try done.
  - by destruct (account_event_fields c e (s <| co_queue := q |>)) as (_ & _ & _ & _ & _ & _ & _ & _ & ->).
  - by apply Forall_inv in Hq.
Qed.

Lemma account_or_not a : a = AAccount \/ a <> AAccount.
Proof. destruct a; auto. Qed.

(** Acceptor and readers leave the accounting thread where it is, and queue items of
    connections that exist. *)
Lemma intake_conns_ok a s s' : own_thread a = true -> a <> AAccount -> perform a s = Some s' ->
  abs s' ≡ abs s /\ co_pc s' = co_pc s /\ co_queue s' = co_queue s ++ arrives a s /\
  Forall (item_ok (length (co_conns s))) (arrives a s).
Proof.
  intros Ho Hne Hp. destruct a as [| |c m|c|c| | |e|e|]; try done; cbn [perform arrives] in *.
  - destruct (accept_sim _ _ Hp) as [-> ->]. rewrite app_nil_r. split_and!; try done.
    unfold accept_conn in Hp. destruct (co_accepting s); by simplify_eq.
  - destruct (accept_exit_sim _ _ Hp) as [-> ->]. rewrite app_nil_r. split_and!; try done.
    unfold accept_exit in Hp. destruct (_ && _); by simplify_eq.
  - destruct (read_sim _ _ _ _ Hp) as [-> ->]. cbn [arrives]. unfold read_message in Hp.
    destruct (co_conns s !! c) eqn:Ec; [|done]. destruct (cn_reading _); [|done]. injection Hp as <-.
    apply lookup_lt_Some in Ec. split_and!; [done|by destruct m|done|].
    destruct m; repeat constructor; done.
  - destruct (failed_sim _ _ _ Hp) as [-> ->]. cbn [arrives]. unfold read_failed in Hp.
    destruct (co_conns s !! c) as [conn|] eqn:Ec; [|done]. destruct (cn_reading conn); [|done].
    injection Hp as <-. split_and!; [done|by destruct (cn_registered conn)|done|].
    destruct (cn_registered conn); by repeat constructor.
  - destruct (read_exit_sim _ _ _ Hp) as [-> ->]. rewrite app_nil_r. split_and!; try done.
    unfold read_exit in Hp. destruct (co_conns s !! c); [|done]. destruct (_ && _); by simplify_eq.
Qed.

Lemma threads_conns_ok a s s' : own_thread a = true -> perform a s = Some s' -> conns_ok s -> conns_ok s'.
Proof.
  intros Ho Hp Hok. pose proof (perform_conns _ _ _ Hp) as Hn. pose proof (ck_queue _ Hok) as Hq.
  assert (forall q, Forall (item_ok (length (co_conns s))) q -> Forall (item_ok (length (co_conns s'))) q) as Hmono
    by (intros q Hf; eapply list.Forall_impl; [exact Hf|intros w; by apply item_ok_mono]).
  destruct (account_or_not a) as [->|Hne].
  - split; [|by eapply account_pc_ok]. apply Hmono.
    destruct (account_sim _ _ Hok Hp) as [[-> _]|(w & Hw & _)]; [done|].
    rewrite Hw in Hq. by apply Forall_inv_tail in Hq.
  - destruct (intake_conns_ok a s s' Ho Hne Hp) as (_ & Hpc & Hqq & Harr). split.
    + rewrite Hqq. by apply Hmono, Forall_app.
    + rewrite Hpc. pose proof (ck_pc _ Hok) as Hc. destruct (co_pc s); try done. lia.
Qed.

Lemma threads_sim log id s : threads log (coordinator_new id) s ->
  conns_ok s /\ exists served, log = served ++ co_queue s /\ abs s ≡ serve served (atomic_new id).
Proof.
  remember (coordinator_new id) as s0 eqn:H0. induction 1 as [s|log a s s1 s2 Ht IH Ho Hp]; subst.
  { split; [by split|]. by exists []. }
  destruct (IH eq_refl) as (Hok & served & -> & Ha). split; [by eapply threads_conns_ok|].
  destruct (account_or_not a) as [->|Hne].
  - cbn [arrives]. rewrite app_nil_r.
    destruct (account_sim _ _ Hok Hp) as [[-> Hw]|(w & -> & Hw)]; [exists served; by rewrite Hw|].
    exists (served ++ [w]). split; [by rewrite <- (assoc_L (++))|].
    rewrite Hw, serve_app. cbn [serve fold_left]. by rewrite Ha.
  - exists served. destruct (intake_conns_ok a s1 s2 Ho Hne Hp) as (-> & _ & -> & _).
    by rewrite (assoc_L (++)).
Qed.

(** *** Every reachable state *)

Lemma perform_conns_ok a s s' : perform a s = Some s' -> conns_ok s -> conns_ok s'.
Proof.
  destruct (own_thread a) eqn:Ho; [by apply threads_conns_ok|]. intros Hp [Hq Hc].
  destruct a; try done; cbn [perform] in Hp; injection Hp as <-; split; try done.
  apply Forall_app. split; [done|]. by apply list.Forall_singleton.
Qed.

Lemma reachable_conns_ok id s : reachable id s -> conns_ok s.
Proof.
  intros [l Hl]. assert (conns_ok (coordinator_new id)) as H0 by (by split).
  remember (coordinator_new id) as s0 eqn:E. clear E.
  induction Hl as [|a l s0 s1 s2 Hp _ IH]; [done|]. by apply IH, (perform_conns_ok _ _ _ Hp).
Qed.

(** What the accounting thread does on its own is what the atomic machine does to the
    items it takes. *)
Lemma account_run_sim n s s' : conns_ok s -> run (replicate n AAccount) s = Some s' ->
  exists served, co_queue s = served ++ co_queue s' /\ abs s' ≡ serve served (abs s).
Proof.
  revert s. induction n as [|n IH]; intros s Hok Hr; cbn [replicate run] in Hr.
  { injection Hr as <-. by exists []. }
  destruct (perform AAccount s) as [s1|] eqn:E; [|done].
  destruct (IH s1 (perform_conns_ok _ _ _ E Hok) Hr) as (served & Hq & Ha).
  destruct (account_sim s s1 Hok E) as [[Hq1 Ha1]|(w & Hq1 & Ha1)].
  - exists served. rewrite <- Hq1, Hq. split; [done|]. by rewrite Ha, Ha1.
  - exists (w :: served). rewrite Hq1, Hq. split; [done|]. cbn [serve fold_left].
    rewrite Ha, Ha1. done.
Qed.

(** ** Parties

    What the coordinator knows about one worker: its connections, its request and
    the identities of its records. *)

Record Party := MkParty {
  pt_conn : nat -> bool;
  pt_worker : WorkerId;
  pt_request : RequestId;
  pt_id : LedgerEntryId -> bool
}.

(** An item a party depends on: its own messages, and the loss of any worker. *)
Definition own (p : Party) (w : WorkItem) : bool :=
  match w with
  | WRegister c _ | WEvent (Some c) _ => pt_conn p c
  | WEvent None _ => false
  | WWorkerLost _ _ => true
  end.

(** The party stays within its worker, request and identities, the others keep off
    them. *)
Definition separate (p : Party) (w : WorkItem) : Prop :=
  match w with
  | WRegister c reg => pt_conn p c = true \/ rg_worker reg <> pt_worker p
  | WEvent (Some c) e =>
      if pt_conn p c
      then e_worker e = pt_worker p /\ e_request e = pt_request p /\ pt_id p (e_id e) = true
      else e_request e <> pt_request p /\ pt_id p (e_id e) = false
  | WEvent None _ | WWorkerLost _ _ => True
  end.

(** Two states a party cannot tell apart. *)
Record agree (p : Party) (a b : Atomic) : Prop := {
  ag_wf_l : ledger_wf (at_ledger a);
  ag_wf_r : ledger_wf (at_ledger b);
  ag_epoch : as_epoch (at_authority a) = as_epoch (at_authority b);
  ag_generation : as_accounting_generation (at_authority a) = as_accounting_generation (at_authority b);
  ag_scope : as_enforce_request_scope (at_authority a) = as_enforce_request_scope (at_authority b);
  ag_boot : as_worker_boot (at_authority a) !! pt_worker p = as_worker_boot (at_authority b) !! pt_worker p;
  ag_request : as_request_generation (at_authority a) !! pt_request p =
               as_request_generation (at_authority b) !! pt_request p;
  ag_attempt : as_current_attempt (at_authority a) !! pt_request p =
               as_current_attempt (at_authority b) !! pt_request p;
  ag_attempt_generation : as_attempt_generation (at_authority a) !! pt_request p =
                          as_attempt_generation (at_authority b) !! pt_request p;
  ag_rolled : as_request_rolled (at_authority a) !! pt_request p =
              as_request_rolled (at_authority b) !! pt_request p;
  ag_find : forall id, pt_id p id = true -> find (at_ledger a) id = find (at_ledger b) id;
  ag_entries : filter (fun e => e_request e = pt_request p) (lg_entries (at_ledger a)) =
               filter (fun e => e_request e = pt_request p) (lg_entries (at_ledger b));
  ag_in_flight : pt_request p ∈ at_in_flight a <-> pt_request p ∈ at_in_flight b;
  ag_registered : forall c, pt_conn p c = true -> at_registered a c = at_registered b c;
  ag_outbox : forall c, pt_conn p c = true -> at_outbox a c = at_outbox b c
}.

(** *** [append], in terms of what it looks up *)

Lemma append_via_find au l e : ledger_wf l ->
  append au l e =
  if negb (content_is_valid e) then (l, MkAppendResult Invalid "invalid content")
  else
    let v := match au with Some s => validate_authority e s | None => VAccept end in
    if negb (bool_decide (v = VAccept)) then (l, MkAppendResult Stale (authority_verdict_name v))
    else match find l (e_id e) with
    | Some old =>
        if entry_eqb old e then (l, MkAppendResult Duplicate "idempotent duplicate ignored")
        else (l, MkAppendResult DuplicateConflict "same id with differing content rejected")
    | None => (MkLedger (lg_id l) (lg_entries l ++ [e]) (<[e_id e := length (lg_entries l)]> (lg_index l)),
               MkAppendResult Accepted "accepted")
    end.
Proof.
  intros Hwf. unfold append. destruct (content_is_valid e); [|done]. cbn [negb]. cbv zeta.
  destruct (negb _); [done|]. unfold find. destruct (lg_index l !! e_id e) as [i|] eqn:Hi; [|done].
  apply Hwf in Hi as (old & -> & _). done.
Qed.

(** Looking an identity up after an append. *)
Lemma find_append au l e id : ledger_wf l ->
  find (append au l e).1 id =
  if decide (id = e_id e /\ ar_status (append au l e).2 = Accepted) then Some e else find l id.
Proof.
  intros Hwf. destruct (append au l e) as [l' r] eqn:E. cbn [fst snd].
  apply append_cases in E as [[-> Hr]|(Hr & _ & Hn & _ & ->)]; [by rewrite decide_False by naive_solver|].
  unfold find; cbn [lg_index lg_entries]. rewrite lookup_insert.
  destruct (decide (e_id e = id)) as [Hid|Hne].
  - rewrite decide_True by (split; congruence). by rewrite list_lookup_middle.
  - rewrite decide_False by naive_solver. destruct (lg_index l !! id) as [i|] eqn:Hi; [|done].
    apply Hwf in Hi as (x & Hx & _). rewrite Hx. by apply lookup_app_l_Some.
Qed.

Lemma entries_append au l e :
  lg_entries (append au l e).1 =
  lg_entries l ++ if decide (ar_status (append au l e).2 = Accepted) then [e] else [].
Proof.
  destruct (append au l e) as [l' r] eqn:E. cbn [fst snd].
  apply append_cases in E as [[-> Hr]|(Hr & _ & Hn & _ & ->)].
  - rewrite decide_False by done. by rewrite app_nil_r.
  - by rewrite decide_True by done.
Qed.

(** *** The party's own steps *)

Lemma judging_agree p a b e : agree p a b ->
  e_worker e = pt_worker p -> e_request e = pt_request p ->
  validate_authority e (judging_authority e (at_authority a)) =
  validate_authority e (judging_authority e (at_authority b)).
Proof.
  intros [] Hw Hr. unfold judging_authority, validate_authority.
  destruct (at_authority a) as [ep ag wb rg ca atg rr sc], (at_authority b) as [ep' ag' wb' rg' ca' atg' rr' sc'].
  cbn in *. subst. case_bool_decide; cbn; rewrite Hw, Hr; [|by rewrite ag_boot0, ag_request0, ag_attempt0,
    ag_attempt_generation0, ag_rolled0].
  by rewrite ag_boot0, !lookup_insert_eq.
Qed.

Lemma append_agree p a b e : agree p a b ->
  e_worker e = pt_worker p -> e_request e = pt_request p -> pt_id p (e_id e) = true ->
  (append (Some (judging_authority e (at_authority a))) (at_ledger a) e).2 =
  (append (Some (judging_authority e (at_authority b))) (at_ledger b) e).2.
Proof.
  intros Hab Hw Hr Hi. rewrite !append_via_find by apply Hab. cbv zeta.
  rewrite (judging_agree p a b e Hab Hw Hr), (ag_find _ _ _ Hab _ Hi).
  destruct (content_is_valid e); [|done]. cbn [negb]. destruct (bool_decide _); [|done]. cbn [negb].
  destruct (find _ _); [|done]. by destruct (entry_eqb _ _).
Qed.

Lemma event_own p a b c e : agree p a b ->
  e_worker e = pt_worker p -> e_request e = pt_request p -> pt_id p (e_id e) = true ->
  agree p (atomic_event c e a) (atomic_event c e b).
Proof.
  intros Hab Hw Hr Hi. pose proof (append_agree p a b e Hab Hw Hr Hi) as Har.
  pose proof (append_wf (Some (judging_authority e (at_authority a))) _ e (ag_wf_l _ _ _ Hab)) as Wa.
  pose proof (append_wf (Some (judging_authority e (at_authority b))) _ e (ag_wf_r _ _ _ Hab)) as Wb.
  pose proof (find_append (Some (judging_authority e (at_authority a))) (at_ledger a) e) as Fa.
  pose proof (find_append (Some (judging_authority e (at_authority b))) (at_ledger b) e) as Fb.
  pose proof (entries_append (Some (judging_authority e (at_authority a))) (at_ledger a) e) as Ea.
  pose proof (entries_append (Some (judging_authority e (at_authority b))) (at_ledger b) e) as Eb.
  unfold atomic_event. destruct Hab.
  destruct (append (Some (judging_authority e (at_authority a))) (at_ledger a) e) as [la ra].
  destruct (append (Some (judging_authority e (at_authority b))) (at_ledger b) e) as [lb rb].
  cbn [fst snd] in *. subst rb.
  split; cbn [at_ledger at_authority at_in_flight at_registered at_outbox]; try done.
  all: try (unfold judging_authority; case_bool_decide; destruct (at_authority a), (at_authority b); cbn in *;
            rewrite ?Hr, ?lookup_insert_eq; done).
  - intros id Hid. rewrite Fa, Fb by done.
    destruct (decide (id = e_id e /\ ar_status ra = Accepted)); [done|]. by apply ag_find0.
  - by rewrite Ea, Eb, !list.filter_app, ag_entries0.
  - case_bool_decide; [|done]. unfold in_flight_step. rewrite Hr. destruct (e_event_kind e); set_solver.
  - intros x Hx. unfold post. by rewrite (ag_outbox0 x Hx).
Qed.

Lemma register_own p a b c reg : agree p a b -> agree p (atomic_register c reg a) (atomic_register c reg b).
Proof.
  intros []. unfold atomic_register.
  split; cbn [at_ledger at_authority at_in_flight at_registered at_outbox]; try done.
  all: try (destruct (at_authority a), (at_authority b); cbn in *; done).
  - destruct (at_authority a), (at_authority b); cbn in *. rewrite !lookup_insert. by case_decide.
  - intros x Hx. by rewrite (ag_registered0 x Hx).
  - intros x Hx. unfold post. rewrite (ag_outbox0 x Hx).
    destruct (at_authority a), (at_authority b); cbn in *. by rewrite ag_epoch0, ag_generation0.
Qed.

Lemma lost_own p a b w : agree p a b -> agree p (atomic_lost w a) (atomic_lost w b).
Proof.
  intros []. unfold atomic_lost.
  assert (roll_of (advance_authority (roll_authority (at_in_flight a) (at_authority a))) =
          roll_of (advance_authority (roll_authority (at_in_flight b) (at_authority b)))) as Hroll.
  { destruct (at_authority a), (at_authority b); cbn in *. unfold roll_of; cbn. by rewrite ag_epoch0, ag_generation0. }
  split; cbn [at_ledger at_authority at_in_flight at_registered at_outbox]; try done.
  all: try (destruct (at_authority a), (at_authority b); cbn in *; congruence).
  - destruct (at_authority a), (at_authority b); cbn in *. rewrite !roll_lookup, ag_rolled0. repeat case_decide; naive_solver.
  - intros x Hx. rewrite (ag_registered0 x Hx), (ag_outbox0 x Hx), Hroll. done.
Qed.

(** *** The others' steps *)

Lemma event_foreign p a b c e : agree p a b -> pt_conn p c = false ->
  e_request e <> pt_request p -> pt_id p (e_id e) = false -> agree p (atomic_event c e a) b.
Proof.
  intros Hab Hc Hr Hi.
  pose proof (append_wf (Some (judging_authority e (at_authority a))) _ e (ag_wf_l _ _ _ Hab)) as Wa.
  pose proof (fun id => find_append (Some (judging_authority e (at_authority a))) (at_ledger a) e id
                          (ag_wf_l _ _ _ Hab)) as Fa.
  pose proof (entries_append (Some (judging_authority e (at_authority a))) (at_ledger a) e) as Ea.
  unfold atomic_event. destruct Hab.
  destruct (append (Some (judging_authority e (at_authority a))) (at_ledger a) e) as [la ra].
  cbn [fst snd] in *.
  split; cbn [at_ledger at_authority at_in_flight at_registered at_outbox]; try done.
  all: try (unfold judging_authority; case_bool_decide; destruct (at_authority a); cbn in *;
            rewrite ?lookup_insert_ne by done; done).
  - intros id Hid. rewrite Fa, decide_False by (intros [-> _]; congruence). by apply ag_find0.
  - rewrite Ea, list.filter_app, ag_entries0. destruct (decide _); [|by rewrite app_nil_r].
    rewrite filter_cons, decide_False, filter_nil by done. by rewrite app_nil_r.
  - case_bool_decide; [|done]. unfold in_flight_step. destruct (e_event_kind e); set_solver.
  - intros x Hx. unfold post. rewrite decide_False by congruence. by apply ag_outbox0.
Qed.

Lemma register_foreign p a b c reg : agree p a b -> pt_conn p c = false -> rg_worker reg <> pt_worker p ->
  agree p (atomic_register c reg a) b.
Proof.
  intros [] Hc Hw. unfold atomic_register.
  split; cbn [at_ledger at_authority at_in_flight at_registered at_outbox]; try done.
  all: try (destruct (at_authority a); cbn in *; rewrite ?lookup_insert_ne by done; done).
  - intros x Hx. rewrite decide_False by congruence. by apply ag_registered0.
  - intros x Hx. unfold post. rewrite decide_False by congruence. by apply ag_outbox0.
Qed.

Lemma own_step p w a b : separate p w -> own p w = true -> agree p a b -> agree p (atomic w a) (atomic w b).
Proof.
  destruct w as [[c|] e|c reg|c w]; cbn [own separate atomic]; intros Hs Ho Hab; [|done|..].
  - rewrite Ho in Hs. destruct Hs as (? & ? & ?). by apply event_own.
  - by apply register_own.
  - by apply lost_own.
Qed.

Lemma foreign_step p w a b : separate p w -> own p w = false -> agree p a b -> agree p (atomic w a) b.
Proof.
  destruct w as [[c|] e|c reg|c w]; cbn [own separate atomic]; intros Hs Ho Hab; [|done| |done].
  - rewrite Ho in Hs. destruct Hs. by apply event_foreign.
  - destruct Hs as [?|Hs]; [congruence|]. by apply register_foreign.
Qed.

Lemma serve_agree p log a b : Forall (separate p) log -> agree p a b ->
  agree p (serve log a) (serve (filter (fun w => own p w = true) log) b).
Proof.
  intros Hall. revert a b. induction Hall as [|w log Hw _ IH]; intros a b Hab; [done|].
  cbn [serve fold_left]. rewrite filter_cons. destruct (own p w) eqn:Ho.
  - rewrite decide_True by done. cbn [serve fold_left]. apply IH. by apply own_step.
  - rewrite decide_False by done. apply IH. by apply foreign_step.
Qed.

Lemma agree_refl p a : ledger_wf (at_ledger a) -> agree p a a.
Proof. done. Qed.

Lemma atomic_new_agree p id : agree p (atomic_new id) (atomic_new id).
Proof. apply agree_refl, ledger_new_wf. Qed.

(** A party after a run of the threads. *)
Lemma threads_party p log id s : threads log (coordinator_new id) s ->
  co_queue s = [] -> co_pc s = Ready -> Forall (separate p) log ->
  let alone := serve (filter (fun w => own p w = true) log) (atomic_new id) in
  (forall c, pt_conn p c = true -> replies s c = at_outbox alone c) /\
  filter (fun e => e_request e = pt_request p) (lg_entries (co_ledger s)) =
    filter (fun e => e_request e = pt_request p) (lg_entries (at_ledger alone)).
Proof.
  intros Ht Hq Hpc. destruct (threads_sim _ _ _ Ht) as (_ & served & -> & Ha).
  rewrite Hq, app_nil_r. intros Hsep alone. unfold abs in Ha. rewrite Hpc in Ha.
  destruct Ha as (Hl & _ & _ & _ & Ho). cbn in Hl, Ho.
  pose proof (serve_agree p served _ _ Hsep (atomic_new_agree p id)) as Hab. fold alone in Hab.
  split; [|by rewrite Hl; apply Hab]. intros c Hc. rewrite Ho. by apply Hab.
Qed.

(** ** Properties *)

(** C3: the coordinator's threads are serialisable: after any interleaving of
    acceptor, readers and accounting thread, with handlers that release their locks
    half way, the ledger, the authority, the in-flight set, the registrations and the
    replies on every connection are those of handling the queued items one at a time,
    indivisibly, in the order in which they were queued. *)
Theorem threads_serializable log id s : threads log (coordinator_new id) s ->
  co_queue s = [] -> co_pc s = Ready ->
  let a := serve log (atomic_new id) in
  co_ledger s = at_ledger a /\ co_authority s = at_authority a /\ co_in_flight s = at_in_flight a /\
  (forall c, registered s c = at_registered a c) /\ (forall c, replies s c = at_outbox a c).
Proof.
  intros Ht Hq Hpc. destruct (threads_sim _ _ _ Ht) as (_ & served & -> & Ha).
  rewrite Hq, app_nil_r. unfold abs in Ha. rewrite Hpc in Ha. exact Ha.
Qed.

(** C33: the accounting thread drains its queue: from any reachable state in which it
    has not exited and every queued event came from a connection, it is back at the
    top of its loop with an empty queue after at most five steps per item, plus four
    for the handler it was in; and ledger, authority, open requests, registrations
    and replies are then those of completing that handler and handling every item of
    the queue once, in order. *)
Theorem accounting_drains id s : reachable id s -> Forall attributed (co_queue s) -> co_pc s <> Exited ->
  exists n s', (n <= 5 * length (co_queue s) + 4)%nat /\
    run (replicate n AAccount) s = Some s' /\ co_pc s' = Ready /\ co_queue s' = [] /\
    let a := serve (co_queue s) (abs s) in
    co_ledger s' = at_ledger a /\ co_authority s' = at_authority a /\ co_in_flight s' = at_in_flight a /\
    (forall c, registered s' c = at_registered a c) /\ (forall c, replies s' c = at_outbox a c).
Proof.
  intros Hs Hq Hpc. destruct (drain s Hq Hpc) as (n & s' & Hn & Hr & Hp' & Hq').
  exists n, s'. split_and!; [done..|]. intros a.
  destruct (account_run_sim n s s' (reachable_conns_ok _ _ Hs) Hr) as (served & Hserved & Ha).
  rewrite Hq', app_nil_r in Hserved. subst served. fold a in Ha.
  unfold abs in Ha at 1. rewrite Hp' in Ha. exact Ha.
Qed.

(** C5: workers do not interfere as long as they keep apart: the others send events
    for other requests and with other record identities, and never register under
    this worker's identity, while this worker's own events carry its identity, its
    request and its record identities. Then what the worker is answered, and the
    records the ledger holds for its request, are the same as if the others had sent
    nothing, however the threads interleaved. Only the loss of a worker is felt by
    all. *)
Theorem workers_do_not_interfere p log id s : threads log (coordinator_new id) s ->
  co_queue s = [] -> co_pc s = Ready -> Forall (separate p) log ->
  let alone := serve (filter (fun w => own p w = true) log) (atomic_new id) in
  (forall c, pt_conn p c = true -> replies s c = at_outbox alone c) /\
  filter (fun e => e_request e = pt_request p) (lg_entries (co_ledger s)) =
    filter (fun e => e_request e = pt_request p) (lg_entries (at_ledger alone)).
Proof. apply threads_party. Qed.

(** ** Witnesses *)

(** The items queued by a run given as a function. *)
Fixpoint inbox (l : list Action) (s : Coordinator) : list WorkItem :=
  match l with
  | [] => []
  | a :: l => arrives a s ++ match perform a s with Some s => inbox l s | None => [] end
  end.

Lemma threads_run l s0 log s s' : threads log s0 s -> forallb own_thread l = true -> run l s = Some s' ->
  threads (log ++ inbox l s) s0 s'.
Proof.
  revert log s. induction l as [|a l IH]; intros log s Ht Ho Hr; cbn [run inbox forallb] in *.
  { rewrite app_nil_r. by simplify_eq. }
  apply andb_true_iff in Ho as [Ha Ho]. destruct (perform a s) as [s1|] eqn:E; [|done].
  rewrite (assoc_L (++)). apply IH; [|done|done]. by eapply threads_step.
Qed.

(** Two workers register and submit; the reader of the second runs inside the first
    one's handlers. *)
Definition other_start : LedgerEntry :=
  sample_start <| e_id := MkId 0xB 1 |> <| e_request := MkId 0x1234 2 |> <| e_worker := MkId 0xBB 1 |>
    <| e_authority := MkAuthorityEnvelope (MkGen 1) (MkId 0x2001 1) (MkGen 1) (MkGen 1)
                        (MkId 0x4001 1) (MkGen 1) (MkId 0x5002 1) |>.

Definition two_workers : list Action :=
  [AAccept; AAccept; ARead 0 (Register sample_register); AAccount;
   ARead 1 (Register (MkRegisterMsg (MkId 0xBB 1) (MkId 0x2001 1))); AAccount; AAccount; AAccount;
   AAccount; AAccount; ARead 1 (EventSubmit other_start); AAccount;
   ARead 0 (EventSubmit sample_start); AAccount; AAccount; AAccount].

Definition two_workers_state : Coordinator := after two_workers (coordinator_new (MkId 1 2)).

Lemma two_workers_threads :
  threads (inbox two_workers (coordinator_new (MkId 1 2))) (coordinator_new (MkId 1 2)) two_workers_state.
Proof.
  apply (threads_run two_workers _ [] (coordinator_new (MkId 1 2))); [constructor|reflexivity|].
  apply run_after. by vm_compute.
Qed.

Lemma threads_serializable_witness :
  co_ledger two_workers_state =
    at_ledger (serve (inbox two_workers (coordinator_new (MkId 1 2))) (atomic_new (MkId 1 2))) /\
  length (lg_entries (co_ledger two_workers_state)) = 2%nat.
Proof.
  split; [|by vm_compute].
  refine (proj1 (threads_serializable _ (MkId 1 2) two_workers_state two_workers_threads _ _)); by vm_compute.
Defined.

(** A coordinator half way through a registration, with an event queued behind it. *)
Definition busy_run : list Action :=
  [AAccept; ARead 0 (Register sample_register); ARead 0 (EventSubmit sample_start); AAccount].

Definition busy_state : Coordinator := after busy_run (coordinator_new (MkId 1 2)).

Lemma accounting_drains_witness :
  exists n s', run (replicate n AAccount) busy_state = Some s' /\ co_queue s' = [] /\
    co_ledger s' = at_ledger (serve [WEvent (Some 0%nat) sample_start] (abs busy_state)).
Proof.
  assert (co_queue busy_state = [WEvent (Some 0%nat) sample_start]) as Hq by (by vm_compute).
  destruct (accounting_drains (MkId 1 2) busy_state) as (n & s' & _ & Hr & _ & He & Hl & _).
  - exists busy_run. apply run_steps, run_after. by vm_compute.
  - rewrite Hq. by apply list.Forall_singleton.
  - by vm_compute.
  - rewrite Hq in Hl. exists n, s'. split; [exact Hr|]. split; [exact He|exact Hl].
Defined.

Definition first_party : Party :=
  MkParty (Nat.eqb 0) (MkId 0xAA 1) (MkId 0x1234 1) (fun id => hi_ id =? 0xA).

Definition two_workers_log : list WorkItem :=
  [WRegister 0 sample_register; WRegister 1 (MkRegisterMsg (MkId 0xBB 1) (MkId 0x2001 1));
   WEvent (Some 1%nat) other_start; WEvent (Some 0%nat) sample_start].

Lemma two_workers_inbox : inbox two_workers (coordinator_new (MkId 1 2)) = two_workers_log.
Proof. by vm_compute. Qed.

Lemma two_workers_separate : Forall (separate first_party) two_workers_log.
Proof.
  repeat (apply list.Forall_cons; split); [left; reflexivity|right; discriminate| | |by apply list.Forall_nil].
  - split; [discriminate|reflexivity].
  - by split_and!.
Qed.

Lemma workers_do_not_interfere_witness :
  replies two_workers_state 0 =
  at_outbox (serve (filter (fun w => own first_party w = true) two_workers_log) (atomic_new (MkId 1 2))) 0.
Proof.
  pose proof two_workers_threads as Ht. rewrite two_workers_inbox in Ht.
  assert (co_queue two_workers_state = []) as Hq by (by vm_compute).
  assert (co_pc two_workers_state = Ready) as Hpc by (by vm_compute).
  exact (proj1 (workers_do_not_interfere first_party two_workers_log (MkId 1 2) two_workers_state
    Ht Hq Hpc two_workers_separate) 0%nat eq_refl).
Defined.
