(* ===== verification/Driver.v ===== *)
(** * Child processes of the scenario driver (tools/iledger_multiprocess.cpp)

    The helpers the driver is built from: starting and killing a child process with
    its pipes, the thread that cuts a child's output into lines, waiting for a marker
    in those lines, and writing a script file. Handles are numbers, zero is null; the
    operating system hands out handles ([ProcessPlatform]) and decides how a child's
    output is cut into reads. *)

From Stdlib Require Import Ascii Strings.Byte.
From stdpp Require Import base gmap sets list strings numbers.
From S2P Require Import Prelude Float64 StdMap Identity Kinds Entry Codec CodecProofs Persistence.
From S2P Require Import PersistenceProofs.
Open Scope Z_scope.

(** ** Child *)

Record Child := MkChild {
  ch_proc : Z;
  ch_hRead : Z;
  ch_hWrite : Z;
  ch_reader : bool;            (** the reader thread is joinable *)
  ch_lines : list string;
  ch_done : bool
}.

#[export] Instance Child_rebuild : Rebuild Child := fun c =>
  MkChild (ch_proc c) (ch_hRead c) (ch_hWrite c) (ch_reader c) (ch_lines c) (ch_done c).

Definition child_new : Child := MkChild 0 0 0 false [] false.

(** *** Starting and killing *)

(** What the system calls answer, given the handles that are open. *)
Class ProcessPlatform := {
  create_pipe : gset Z -> option (Z * Z);                     (** read end, write end *)
  create_process : string -> gset Z -> option (Z * Z)         (** process, main thread *)
}.

(** A call returns two distinct handles that are neither null nor open. *)
Class ProcessLaws `{ProcessPlatform} : Prop := {
  create_pipe_fresh open r w : create_pipe open = Some (r, w) ->
    r <> 0 /\ w <> 0 /\ r <> w /\ (r ∉ open) /\ (w ∉ open);
  create_process_fresh cmd open p t : create_process cmd open = Some (p, t) ->
    p <> 0 /\ t <> 0 /\ p <> t /\ (p ∉ open) /\ (t ∉ open)
}.

Definition close_handle (h : Z) (open : gset Z) : gset Z := open ∖ {[h]}.

(** [spawn]. *)
Definition spawn `{ProcessPlatform} (cmdline : string) (c : Child) (open : gset Z)
    : bool * Child * gset Z :=
  match create_pipe open with
  | None => (false, c, open)
  | Some (outR, outW) =>
      let open := {[outR; outW]} ∪ open in
      match create_pipe open with
      | None => (false, c, open)
      | Some (inR, inW) =>
          let open := {[inR; inW]} ∪ open in
          match create_process cmdline open with
          | None =>
              (false, c, close_handle inW (close_handle inR (close_handle outW (close_handle outR open))))
          | Some (proc, thread) =>
              let open := {[proc; thread]} ∪ open in
              (true,
               c <| ch_proc := proc |> <| ch_hRead := outR |> <| ch_hWrite := inW |> <| ch_reader := true |>,
               close_handle thread (close_handle inR (close_handle outW open)))
          end
      end
  end.

(** [kill_child]. *)
Definition kill_child (c : Child) (open : gset Z) : Child * gset Z :=
  let '(c, open) := if negb (ch_proc c =? 0) then (c <| ch_proc := 0 |>, close_handle (ch_proc c) open)
                    else (c, open) in
  let '(c, open) := if negb (ch_hRead c =? 0) then (c <| ch_hRead := 0 |>, close_handle (ch_hRead c) open)
                    else (c, open) in
  let '(c, open) := if negb (ch_hWrite c =? 0) then (c <| ch_hWrite := 0 |>, close_handle (ch_hWrite c) open)
                    else (c, open) in
  (if ch_reader c then c <| ch_reader := false |> else c, open).

(** ** The reader thread *)

Definition newline : ascii := "010"%char.
Definition carriage_return : ascii := "013"%char.

(** [accum.find('\n')], and the text before and after it. *)
Fixpoint cut_line (accum : string) : option (string * string) :=
  match accum with
  | EmptyString => None
  | String ch rest =>
      if bool_decide (ch = newline) then Some (EmptyString, rest)
      else (fun '(line, rest) => (String ch line, rest)) <$> cut_line rest
  end.

(** [if (!line.empty() && line.back() == '\r') line.pop_back()]. *)
Fixpoint strip_return (line : string) : string :=
  match line with
  | EmptyString => EmptyString
  | String ch EmptyString => if bool_decide (ch = carriage_return) then EmptyString else line
  | String ch rest => String ch (strip_return rest)
  end.

(** The inner loop: complete lines leave the accumulator. *)
Fixpoint take_lines (fuel : nat) (accum : string) : list string * string :=
  match fuel with
  | O => ([], accum)
  | S fuel =>
      match cut_line accum with
      | None => ([], accum)
      | Some (line, rest) =>
          let (lines, accum) := take_lines fuel rest in (strip_return line :: lines, accum)
      end
  end.

(** The reader thread on what [ReadFile] returns until it fails or returns nothing;
    every round of the inner loop shortens the accumulator. *)
Fixpoint read_output (accum : string) (chunks : list string) (c : Child) : Child :=
  match chunks with
  | [] => c <| ch_lines ::= fun l => l ++ [accum] |> <| ch_done := true |>
  | chunk :: chunks =>
      if bool_decide (chunk = EmptyString)
      then c <| ch_lines ::= fun l => l ++ [accum] |> <| ch_done := true |>
      else
        let accum := accum +:+ chunk in
        let (lines, accum) := take_lines (String.length accum) accum in
        read_output accum chunks (c <| ch_lines ::= fun l => l ++ lines |>)
  end.

(** ** Waiting for output *)

(** [l.find(marker) != npos]. *)
Definition has_marker (marker line : string) : bool :=
  match String.index 0 marker line with Some _ => true | None => false end.

(** [contains]: some line holds the marker. *)
Definition contains (lines : list string) (marker : string) : bool := existsb (has_marker marker) lines.

(** [wait_for]: [seen i] is the lines at the [i]-th look, 20 ms apart. *)
Fixpoint wait_loop (seen : nat -> list string) (marker : string) (looks i : nat) : bool :=
  match looks with
  | O => false
  | S looks => if contains (seen i) marker then true else wait_loop seen marker looks (S i)
  end.

Definition wait_for (seen : nat -> list string) (marker : string) (timeout_ms : Z) : bool :=
  wait_loop seen marker (Z.to_nat ((timeout_ms + 19) / 20)) 0.

(** ** Script files *)

Section script.
Context `{FileIO}.

Fixpoint script_frames (entries : list LedgerEntry) (s : Stream) : Stream * bool :=
  match entries with
  | [] => (s, true)
  | e :: entries =>
      match encode_entry e with
      | None => (s, false)
      | Some frame => script_frames entries (stream_write s frame)
      end
  end.

(** [write_script]: the files afterwards and the result, which the caller ignores. *)
Definition write_script (entries : list LedgerEntry) (path : string) (files : Files) : Files * bool :=
  if negb (open_trunc_ok path) then (files, false)
  else let (s, ok) := script_frames entries (MkStream [] true) in (<[path := st_content s]> files, ok).
End script.

(** ** Lemmas *)

Lemma cut_line_shorter accum line rest : cut_line accum = Some (line, rest) ->
  (String.length rest < String.length accum)%nat.
Proof.
  revert line. induction accum as [|ch s IH]; intros line; [done|]. cbn [cut_line].
  case_bool_decide; [intros [= _ <-]; simpl; lia|].
  destruct (cut_line s) as [[l r]|]; [|done]. intros [= _ <-]. specialize (IH l eq_refl). simpl. lia.
Qed.

Lemma take_lines_fuel n m accum : (String.length accum <= n)%nat -> (String.length accum <= m)%nat ->
  take_lines n accum = take_lines m accum.
Proof.
  revert m accum. induction n as [|n IH]; intros [|m] accum Hn Hm; try done;
    try (destruct accum; simpl in *; [done|lia]).
  cbn [take_lines]. destruct (cut_line accum) as [[line rest]|] eqn:E; [|done].
  apply cut_line_shorter in E. rewrite (IH m rest) by lia. done.
Qed.

(** The lines of a text and what follows the last newline. *)
Definition split_text (text : string) : list string * string := take_lines (String.length text) text.

Lemma split_text_cut text :
  split_text text = match cut_line text with
                    | None => ([], text)
                    | Some (line, rest) => let (lines, acc) := split_text rest in (strip_return line :: lines, acc)
                    end.
Proof.
  unfold split_text. destruct text as [|ch s]; [done|]. cbn [String.length take_lines].
  destruct (cut_line (String ch s)) as [[line rest]|] eqn:E; [|done]. apply cut_line_shorter in E. simpl in E.
  by rewrite (take_lines_fuel _ (String.length rest)) by lia.
Qed.

Lemma cut_line_app text more :
  cut_line (text +:+ more) = match cut_line text with
                             | Some (line, rest) => Some (line, rest +:+ more)
                             | None => (fun '(line, rest) => (text +:+ line, rest)) <$> cut_line more
                             end.
Proof.
  induction text as [|ch s IH].
  - change (EmptyString +:+ more) with more. cbn [cut_line]. destruct (cut_line more) as [[]|]; reflexivity.
  - change (String ch s +:+ more) with (String ch (s +:+ more)). cbn [cut_line].
    case_bool_decide; [done|]. rewrite IH. destruct (cut_line s) as [[]|]; [done|].
    by destruct (cut_line more) as [[]|].
Qed.

(** Reading in two steps: the rest of the first is the start of the second. *)
Lemma split_text_app text more :
  split_text (text +:+ more) =
  let (lines, acc) := split_text text in
  let (lines', acc') := split_text (acc +:+ more) in (lines ++ lines', acc').
Proof.
  remember (String.length text) as n eqn:Hn. revert text Hn.
  induction (lt_wf n) as [n _ IH]. intros text ->.
  rewrite (split_text_cut text). destruct (cut_line text) as [[line rest]|] eqn:E.
  - rewrite split_text_cut, cut_line_app, E.
    rewrite (IH (String.length rest) ltac:(by eapply cut_line_shorter) rest eq_refl).
    destruct (split_text rest) as [lines acc]. by destruct (split_text (acc +:+ more)).
  - by destruct (split_text (text +:+ more)).
Qed.

Lemma string_app_assoc (a b c : string) : (a +:+ b) +:+ c = a +:+ (b +:+ c).
Proof. unfold String.append. induction a as [|ch a IH]; [done|]. by rewrite IH. Qed.

Lemma string_app_nil_r (a : string) : a +:+ EmptyString = a.
Proof. unfold String.append. induction a as [|ch a IH]; [done|]. by rewrite IH. Qed.

Lemma split_text_rest text lines acc : split_text text = (lines, acc) -> split_text acc = ([], acc).
Proof.
  remember (String.length text) as n eqn:Hn. revert text Hn lines acc.
  induction (lt_wf n) as [n _ IH]. intros text -> lines acc. rewrite split_text_cut.
  destruct (cut_line text) as [[line rest]|] eqn:E.
  - destruct (split_text rest) as [l a] eqn:Er. intros [= <- <-].
    apply (IH (String.length rest) ltac:(by eapply cut_line_shorter) rest eq_refl l a Er).
  - intros [= <- <-]. by rewrite split_text_cut, E.
Qed.

(** The text of some chunks. *)
Definition concat_text (chunks : list string) : string := foldr String.app EmptyString chunks.

Lemma read_output_split accum chunks c : Forall (fun s => s <> EmptyString) chunks ->
  split_text accum = ([], accum) ->
  read_output accum chunks c =
  let (lines, acc) := split_text (accum +:+ concat_text chunks) in
  c <| ch_lines ::= fun l => l ++ lines ++ [acc] |> <| ch_done := true |>.
Proof.
  intros Hall. revert accum c. induction Hall as [|chunk chunks Hne _ IH]; intros accum c Ha;
    cbn [read_output concat_text foldr].
  - rewrite string_app_nil_r, Ha. by destruct c.
  - rewrite bool_decide_false by done. fold (split_text (accum +:+ chunk)).
    fold (concat_text chunks). rewrite <- string_app_assoc, (split_text_app (accum +:+ chunk)).
    destruct (split_text (accum +:+ chunk)) as [lines acc] eqn:E.
    rewrite (IH acc) by by eapply split_text_rest.
    destruct (split_text (acc +:+ concat_text chunks)) as [lines' acc']. destruct c. unfold update; cbn.
    by rewrite <- !(assoc_L (++)).
Qed.

(** *** Printed lines *)

(** A line without a newline that does not end in a carriage return. *)
Fixpoint plain (s : string) : bool :=
  match s with
  | EmptyString => true
  | String ch rest =>
      negb (bool_decide (ch = newline)) &&
      (match rest with EmptyString => negb (bool_decide (ch = carriage_return)) | _ => true end) && plain rest
  end.

(** What a child prints, with the end of line of a text stream. *)
Definition printed (eol : string) (lines : list string) : string :=
  concat_text ((fun l => l +:+ eol) <$> lines).

Lemma cut_plain s eol more : plain s = true -> eol = String newline EmptyString \/
    eol = String carriage_return (String newline EmptyString) ->
  exists line, cut_line ((s +:+ eol) +:+ more) = Some (line, more) /\ strip_return line = s.
Proof.
  intros Hp He. rewrite string_app_assoc. revert Hp. induction s as [|ch s IH]; intros Hp.
  - destruct He as [-> | ->]; by eexists.
  - cbn [plain] in Hp. apply andb_true_iff in Hp as [Hp Hs]. apply andb_true_iff in Hp as [Hn Hc].
    apply negb_true_iff in Hn. destruct (IH Hs) as (line & Hl & Hstrip).
    exists (String ch line). change (String ch s +:+ ?x) with (String ch (s +:+ x)). cbn [cut_line].
    rewrite Hn, Hl. split; [done|]. cbn [strip_return]. rewrite Hstrip.
    destruct line as [|ch' line]; [|done]. simpl in Hstrip. subst s. apply negb_true_iff in Hc. by rewrite Hc.
Qed.

Lemma split_printed lines eol : Forall (fun l => plain l = true) lines ->
  eol = String newline EmptyString \/ eol = String carriage_return (String newline EmptyString) ->
  split_text (printed eol lines) = (lines, EmptyString).
Proof.
  intros Hall He. induction Hall as [|l lines Hl _ IH]; [done|].
  unfold printed. rewrite fmap_cons. cbn [concat_text foldr]. fold (concat_text ((fun l => l +:+ eol) <$> lines)).
  fold (printed eol lines). destruct (cut_plain l eol (printed eol lines) Hl He) as (line & Hc & Hs).
  by rewrite split_text_cut, Hc, IH, Hs.
Qed.

(** *** Scripts *)

Lemma script_frames_reliable es content : Forall storable es ->
  script_frames (H := reliable_io) es (MkStream content true) = (MkStream (content ++ frames es) true, true).
Proof.
  intros Hall. revert content. induction Hall as [|e es He _ IH]; intros content.
  - by rewrite app_nil_r.
  - cbn [script_frames]. rewrite encode_entry_storable by done. unfold stream_write; cbn [st_good st_content].
    change (write_count content (frame (entry_payload e))) with (length (frame (entry_payload e))).
    rewrite firstn_all, Nat.leb_refl, IH, frames_cons. by rewrite (assoc_L (++)).
Qed.

Lemma write_script_reliable es path files : Forall storable es ->
  write_script (H := reliable_io) es path files = (<[path := frames es]> files, true).
Proof. intros He. unfold write_script. cbn [open_trunc_ok]. simpl. by rewrite script_frames_reliable. Qed.

(** *** Waiting *)

Lemma wait_loop_true seen marker looks i j : (i <= j < i + looks)%nat -> contains (seen j) marker = true ->
  wait_loop seen marker looks i = true.
Proof.
  revert i. induction looks as [|looks IH]; intros i Hj Hm; [lia|]. cbn [wait_loop].
  destruct (contains (seen i) marker) eqn:E; [done|]. apply IH; [|done].
  destruct (decide (i = j)) as [->|]; [congruence|lia].
Qed.

Lemma wait_for_true seen marker timeout j : Z.of_nat j < (timeout + 19) / 20 ->
  contains (seen j) marker = true -> wait_for seen marker timeout = true.
Proof. intros Hj Hm. unfold wait_for. apply (wait_loop_true _ _ _ _ j); [lia|done]. Qed.

Lemma contains_elem lines marker line : line ∈ lines -> has_marker marker line = true ->
  contains lines marker = true.
Proof.
  intros Hl Hm. unfold contains. apply existsb_exists. exists line. split; [|done].
  by apply list_elem_of_In.
Qed.

(** A line that starts with the marker. *)
Lemma has_marker_prefix marker rest : has_marker marker (marker +:+ rest) = true.
Proof.
  unfold has_marker. assert (String.prefix marker (marker +:+ rest) = true) as Hp.
  { induction marker as [|ch m IH]; [by destruct rest|]. change (String ch m +:+ rest) with (String ch (m +:+ rest)).
    cbn [String.prefix]. by destruct (ascii_dec ch ch). }
  destruct (marker +:+ rest) as [|ch s]; destruct marker; try done. cbn [String.index]. by rewrite Hp.
Qed.

(** *** Handles *)

(** The handles a child owns. *)
Definition child_handles (c : Child) : gset Z := {[ch_proc c; ch_hRead c; ch_hWrite c]}.

Lemma spawn_handles `{ProcessLaws} cmd open c open' : spawn cmd child_new open = (true, c, open') ->
  open' = child_handles c ∪ open /\ (child_handles c ## open) /\ 0 ∉ child_handles c.
Proof.
  unfold spawn. destruct (create_pipe open) as [[outR outW]|] eqn:E1; [|done].
  destruct (create_pipe_fresh _ _ _ E1) as (? & ? & ? & ? & ?).
  destruct (create_pipe ({[outR; outW]} ∪ open)) as [[inR inW]|] eqn:E2; [|done].
  destruct (create_pipe_fresh _ _ _ E2) as (? & ? & ? & ? & ?).
  destruct (create_process _ _) as [[proc thread]|] eqn:E3; [|done].
  destruct (create_process_fresh _ _ _ _ E3) as (? & ? & ? & ? & ?).
  intros [= <- <-]. unfold child_handles, close_handle, update, child_new; cbn.
  split_and!; set_solver.
Qed.

Lemma kill_child_handles c open : 0 ∉ child_handles c -> (kill_child c open).2 = open ∖ child_handles c.
Proof.
  destruct c as [p r w rd ls d]. unfold child_handles; cbn. intros H0.
  assert (p <> 0 /\ r <> 0 /\ w <> 0) as (Hp & Hr & Hw) by set_solver.
  unfold kill_child; cbn. rewrite (proj2 (Z.eqb_neq p 0) Hp). cbn. rewrite (proj2 (Z.eqb_neq r 0) Hr). cbn.
  rewrite (proj2 (Z.eqb_neq w 0) Hw). cbn. unfold close_handle. set_solver.
Qed.

(** ** Properties *)

(** the reader thread recovers a child's lines: however the operating system cuts
    the output into reads, and with either end of line, the lines collected are the
    lines printed, followed by the empty remainder at the end of the stream. *)
Theorem reader_collects lines eol chunks c :
  Forall (fun l => plain l = true) lines ->
  eol = String newline EmptyString \/ eol = String carriage_return (String newline EmptyString) ->
  Forall (fun s => s <> EmptyString) chunks -> concat_text chunks = printed eol lines ->
  read_output EmptyString chunks c = c <| ch_lines ::= fun l => l ++ lines ++ [EmptyString] |> <| ch_done := true |>.
Proof.
  intros Hl He Hc Ht. rewrite read_output_split by done.
  change (EmptyString +:+ concat_text chunks) with (concat_text chunks). by rewrite Ht, split_printed.
Qed.

(** a child's handles are accounted for: starting a child and killing it leaves
    exactly the handles open that were open before, and no thread to join; a start
    that fails leaves none behind either, unless it is the second pipe that could not
    be created, and then exactly the two ends of the first pipe stay open. *)
Theorem child_handles_balanced `{ProcessLaws} cmd open :
  let '(ok, c, open') := spawn cmd child_new open in
  if ok then kill_child c open' = (child_new, open)
  else c = child_new /\
       (open' = open \/
        exists outR outW, create_pipe open = Some (outR, outW) /\
          create_pipe ({[outR; outW]} ∪ open) = None /\ open' = {[outR; outW]} ∪ open).
Proof.
  unfold spawn. destruct (create_pipe open) as [[outR outW]|] eqn:E1; [|cbv beta iota; split; [done|by left]].
  destruct (create_pipe_fresh _ _ _ E1) as (? & ? & ? & ? & ?).
  destruct (create_pipe ({[outR; outW]} ∪ open)) as [[inR inW]|] eqn:E2;
    [|cbv beta iota; split; [done|right; by exists outR, outW]].
  destruct (create_pipe_fresh _ _ _ E2) as (? & ? & ? & ? & ?).
  destruct (create_process _ _) as [[proc thread]|] eqn:E3.
  - destruct (create_process_fresh _ _ _ _ E3) as (? & ? & ? & ? & ?).
    assert (close_handle inW (close_handle outR (close_handle proc
      (close_handle thread (close_handle inR (close_handle outW
        ({[proc; thread]} ∪ ({[inR; inW]} ∪ ({[outR; outW]} ∪ open)))))))) = open) as Hopen
      by (unfold close_handle; set_solver).
    assert (kill_child (MkChild proc outR inW true [] false)
      (close_handle thread (close_handle inR (close_handle outW
        ({[proc; thread]} ∪ ({[inR; inW]} ∪ ({[outR; outW]} ∪ open)))))) = (child_new, open)) as Hk.
    { unfold kill_child; cbn. rewrite !(proj2 (Z.eqb_neq _ _)) by done. cbn.
      rewrite !(proj2 (Z.eqb_neq _ _)) by done. cbn. rewrite !(proj2 (Z.eqb_neq _ _)) by done. cbn. by rewrite Hopen. }
    unfold update, child_new; cbn. unfold child_new in Hk. by rewrite Hk.
  - cbv beta iota zeta. split; [done|left]. unfold close_handle. set_solver.
Qed.

(** ** Witnesses *)

Lemma reader_collects_witness :
  ch_lines (read_output EmptyString
    ["REG 1"; " 1" +:+ String carriage_return EmptyString; String newline "ACK 0 0 accepted" +:+
     String carriage_return (String newline EmptyString)]%string child_new) =
  ["REG 1 1"; "ACK 0 0 accepted"; ""]%string.
Proof.
  rewrite (reader_collects ["REG 1 1"; "ACK 0 0 accepted"]%string
    (String carriage_return (String newline EmptyString))).
  - reflexivity.
  - repeat constructor.
  - by right.
  - by repeat constructor.
  - reflexivity.
Defined.

(** Fresh handles from the number of open ones up. *)
Definition next_handle (open : gset Z) : Z := 1 + foldr Z.max 0 (elements open).

Definition sample_processes : ProcessPlatform := {|
  create_pipe open := Some (next_handle open, next_handle open + 1);
  create_process _ open := Some (next_handle open, next_handle open + 1)
|}.

Lemma next_handle_fresh open k : 0 <= k -> next_handle open + k <> 0 /\ (next_handle open + k ∉ open).
Proof.
  intros Hk. unfold next_handle.
  assert (forall l, 0 <= foldr Z.max 0 l /\ forall x, x ∈ l -> x <= foldr Z.max 0 l) as Hmax.
  { induction l as [|y l [IH1 IH2]]; simpl; [split; [lia|intros x Hx; by apply elem_of_nil in Hx]|].
    split; [lia|]. intros x [->|Hx]%elem_of_cons; [lia|]. specialize (IH2 x Hx). lia. }
  destruct (Hmax (elements open)) as [H1 H2]. split; [lia|]. rewrite <- elem_of_elements. intros Hx%H2. lia.
Qed.

Lemma sample_processes_laws : @ProcessLaws sample_processes.
Proof.
  split; [intros open r w Heq|intros cmd open r w Heq]; injection Heq as <- <-; pose proof (next_handle_fresh open 0 ltac:(lia)) as [Ha Hb];
    pose proof (next_handle_fresh open 1 ltac:(lia)) as [Hc Hd]; rewrite Z.add_0_r in *; split_and!; try done; lia.
Qed.

Lemma child_handles_balanced_witness :
  let P := sample_processes in
  let '(ok, c, open) := spawn "iledger_worker.exe" child_new {[1; 2; 3]} in
  ok = true /\ (kill_child c open).2 = {[1; 2; 3]}.
Proof.
  intros P. pose proof (@child_handles_balanced P sample_processes_laws "iledger_worker.exe" {[1; 2; 3]}) as Hb.
  assert ((spawn "iledger_worker.exe" child_new {[1; 2; 3]}).1.1 = true) as Ho by (by vm_compute).
  destruct (spawn _ _ _) as [[ok c] open]. simpl in Ho. subst ok. split; [reflexivity|]. by rewrite Hb.
Defined.
