(* ===== verification/Multiprocess.v ===== *)
(** * The multi-process scenario (tools/iledger_multiprocess.cpp)

    The driver that starts a coordinator and two workers, kills one of them, restarts
    it, and checks that everything stale is refused and everything fresh accepted.
    [multiprocess_main] is its [main]; what it sees of the children (their lines at
    each look, the files they leave) is its environment. The theorems put the parts
    together: threads, coordinator, workers, files and driver. *)

From Stdlib Require Import Strings.Byte.
From stdpp Require Import base gmap sets list strings numbers pretty.
From S2P Require Import Prelude Float64 StdMap Identity Reader Kinds Entry Codec Crc CodecProofs.
From S2P Require Import Authority Ledger Account Query Persistence PersistenceProofs Protocol.
From S2P Require Import ProtocolProofs Coordinator CoordinatorProofs Serial Text Sockets Worker.
From S2P Require Import WorkerProofs Intake Service Driver.
Open Scope Z_scope.

(** ** The scenario's identities *)

Definition mp_port : Z := 38921.
Definition R : RequestId := MkId 0x1234 1.
Definition R2 : RequestId := MkId 0x1234 2.
Definition T : TenantId := MkId 0x99 1.
Definition W : WorkloadId := MkId 0x88 1.
Definition M : ModelId := MkId 0x77 1.
Definition MR : ModelRevisionId := MkId 0x77 2.
Definition WA : WorkerId := MkId 0xAA 1.
Definition WB : WorkerId := MkId 0xBB 1.
Definition bootA1 : WorkerBootId := MkId 0x1001 1.
Definition bootA2 : WorkerBootId := MkId 0x1002 1.
Definition bootB : WorkerBootId := MkId 0x2001 1.
Definition A1 : AttemptId := MkId 0x3001 1.
Definition A2 : AttemptId := MkId 0x3002 1.
Definition B1 : AttemptId := MkId 0x4001 1.
Definition D1 : DispatchId := MkId 0x5001 1.
Definition D2 : DispatchId := MkId 0x5002 1.
Definition DEV : DeviceId := MkId 0x6001 1.
Definition NODE : NodeId := MkId 0x6002 1.

Definition envelope (epoch : CoordinatorEpoch) (boot : WorkerBootId) (rg : RequestGeneration)
    (attempt : AttemptId) (atg : AttemptGeneration) (ag : AccountingGeneration) (disp : DispatchId)
    : AuthorityEnvelope :=
  MkAuthorityEnvelope epoch boot rg ag attempt atg disp.

Definition mk (id : LedgerEntryId) (kind : EventKind) (rk : ResourceKind) (v : double) (unit : Unit)
    (prov : Provenance) (has_end : bool) (s end_ns : Z) (req : RequestId) (worker : WorkerId)
    (attempt : AttemptId) (epoch : CoordinatorEpoch) (boot : WorkerBootId) (rg : RequestGeneration)
    (atg : AttemptGeneration) (ag2 : AccountingGeneration) (disp : DispatchId) (model : ModelId)
    (has_adapter : bool) (ad : AdapterId) (batch : string) : LedgerEntry :=
  let e := entry_default
    <| e_id := id |> <| e_ledger := MkId 0x494C4544474552 1 |> <| e_tenant := T |> <| e_workload := W |>
    <| e_request := req |> <| e_model := model |> <| e_model_revision := MR |>
    <| e_has_adapter := has_adapter |> <| e_adapter := ad |> <| e_attempt := attempt |>
    <| e_dispatch := disp |> <| e_worker := worker |> <| e_node := NODE |> <| e_device := DEV |>
    <| e_event_kind := kind |> <| e_resource_kind := rk |>
    <| e_quantity := MkQuantity v unit prov |>
    <| e_start_ts_ns := s |> <| e_end_ts_ns := end_ns |> <| e_has_end := has_end |>
    <| e_source := MkSourceIdentity worker boot ag2 |>
    <| e_authority := envelope epoch boot rg attempt atg ag2 disp |> in
  if bool_decide (batch = EmptyString) then e else e <| e_metadata := [("batch"%string, batch)] |>.

(** ** The scripts *)

Definition half : double := (d1 / d_of_Z 2)%D.
Definition quarter : double := (d1 / d_of_Z 4)%D.

Definition E1 : CoordinatorEpoch := MkGen 1.
Definition RG1 : RequestGeneration := MkGen 1.
Definition G1 : AttemptGeneration := MkGen 1.
Definition AG1 : AccountingGeneration := MkGen 1.

(** Worker A, first boot. *)
Definition a1 : list LedgerEntry :=
  [ mk (MkId 0xA 1) RequestStart RGeneric d0 Count Measured false 1000 0 R WA A1
       E1 bootA1 RG1 G1 AG1 D1 M false id_zero "";
    mk (MkId 0xA 2) Reserve RMemory (d_of_Z 1) Count Measured false 1100 0 R WA A1
       E1 bootA1 RG1 G1 AG1 D1 M false id_zero "";
    mk (MkId 0xA 3) KvAllocate RKv (d_of_Z 4096) Bytes Measured false 1200 0 R WA A1
       E1 bootA1 RG1 G1 AG1 D1 M false id_zero "";
    mk (MkId 0xA 4) TransferH2D RTransfer (d_of_Z 1024) Bytes Measured true 1300 1350 R WA A1
       E1 bootA1 RG1 G1 AG1 D1 M false id_zero "";
    mk (MkId 0xA 5) Prefill RCompute half Seconds Measured true 1400 1900 R WA A1
       E1 bootA1 RG1 G1 AG1 D1 M false id_zero "";
    mk (MkId 0xA 6) Decode RCompute (d_of_Z 32) Count Measured true 2000 2400 R WA A1
       E1 bootA1 RG1 G1 AG1 D1 M false id_zero "";
    mk (MkId 0xA 7) GpuExecution RCompute half Seconds Measured true 1400 2400 R WA A1
       E1 bootA1 RG1 G1 AG1 D1 M false id_zero "";
    mk (MkId 0xA 8) ModelResidency RResidency (d_of_Z 1048576) Bytes Measured true 1400 2400 R WA A1
       E1 bootA1 RG1 G1 AG1 D1 M false id_zero "" ]%string.

Definition BRG : RequestGeneration := MkGen 1.
Definition BG : AttemptGeneration := MkGen 1.

(** Worker B. *)
Definition b1 : list LedgerEntry :=
  [ mk (MkId 0xB 1) RequestStart RGeneric d0 Count Measured false 1000 0 R2 WB B1
       E1 bootB BRG BG AG1 D2 M false id_zero "";
    mk (MkId 0xB 2) GpuExecution RCompute quarter Seconds Measured true 1500 1750 R2 WB B1
       E1 bootB BRG BG AG1 D2 M false id_zero "";
    mk (MkId 0xB 1) RequestStart RGeneric d0 Count Measured false 1000 0 R2 WB B1
       E1 bootB BRG BG AG1 D2 M false id_zero "";
    mk (MkId 0xB 3) RequestEnd RGeneric d0 Count Measured false 1800 0 R2 WB B1
       E1 bootB BRG BG AG1 D2 M false id_zero "" ]%string.

Definition E2 : CoordinatorEpoch := MkGen 2.
Definition AG2 : AccountingGeneration := MkGen 2.
Definition RG2 : RequestGeneration := MkGen 2.
Definition G2 : AttemptGeneration := MkGen 2.

(** Worker A, second boot: stale replays, then fresh accounting. *)
Definition a2 : list LedgerEntry :=
  [ mk (MkId 0xA 20) Reserve RMemory (d_of_Z 1) Count Measured false 1100 0 R WA A1
       (MkGen 1) bootA2 RG1 G1 AG1 D1 M false id_zero "";
    mk (MkId 0xA 21) Reserve RMemory (d_of_Z 1) Count Measured false 1100 0 R WA A1
       E2 bootA1 RG1 G1 AG1 D1 M false id_zero "";
    mk (MkId 0xA 22) RequestEnd RGeneric d0 Count Measured false 2500 0 R WA A1
       E2 bootA2 RG1 G1 AG1 D1 M false id_zero "";
    mk (MkId 0xA 23) Decode RCompute (d_of_Z 8) Count Measured true 2500 2600 R WA A1
       E2 bootA2 RG1 G1 (MkGen 1) D1 M false id_zero "";
    mk (MkId 0xA 2) Reserve RMemory (d_of_Z 1) Count Measured false 1100 0 R WA A1
       (MkGen 1) bootA1 RG1 G1 AG1 D1 M false id_zero "";
    mk (MkId 0xA 30) RequestStart RGeneric d0 Count Measured false 3000 0 R WA A2
       E2 bootA2 RG2 G2 AG2 D2 M false id_zero "";
    mk (MkId 0xA 31) Reserve RMemory (d_of_Z 1) Count Measured false 3100 0 R WA A2
       E2 bootA2 RG2 G2 AG2 D2 M false id_zero "";
    mk (MkId 0xA 32) GpuExecution RCompute half Seconds Measured true 3200 3800 R WA A2
       E2 bootA2 RG2 G2 AG2 D2 M false id_zero "";
    mk (MkId 0xA 33) Decode RCompute (d_of_Z 64) Count Measured true 3800 4200 R WA A2
       E2 bootA2 RG2 G2 AG2 D2 M false id_zero "";
    mk (MkId 0xA 34) Release RMemory (d_of_Z 1) Count Measured false 4300 0 R WA A2
       E2 bootA2 RG2 G2 AG2 D2 M false id_zero "";
    mk (MkId 0xA 35) RequestEnd RGeneric d0 Count Measured false 4400 0 R WA A2
       E2 bootA2 RG2 G2 AG2 D2 M false id_zero "" ]%string.

(** ** The checks *)

(** [pass] and [reasons]. *)
Record Verdict := MkVerdict { vd_pass : bool; vd_reasons : list string }.

Definition fail (reason : string) (v : Verdict) : Verdict := MkVerdict false (vd_reasons v ++ [reason]).
Definition remark (reason : string) (v : Verdict) : Verdict := MkVerdict (vd_pass v) (vd_reasons v ++ [reason]).
Definition expect (ok : bool) (reason : string) (v : Verdict) : Verdict := if ok then v else fail reason v.

(** The duplicate of worker B. *)
Definition check_duplicate (lines : list string) (v : Verdict) : Verdict :=
  fold_left (fun v line =>
    if has_marker "ACK 2 " line
    then if negb (has_marker "ACK 2 1" line) then fail ("workerB duplicate not idempotent: " +:+ line) v else v
    else v) lines v.

(** One line of the loop over the second boot's acknowledgements. *)
Definition check_ack (index expected what : string) (line : string) (v : Verdict) : Verdict :=
  if has_marker ("ACK " +:+ index +:+ " ") line && negb (has_marker ("ACK " +:+ index +:+ " " +:+ expected) line)
  then fail (what +:+ line) v else v.

Definition check_acks (lines : list string) (v : Verdict) : Verdict :=
  fold_left (fun v line =>
    let v := check_ack "0" "3" "stale epoch not rejected: " line v in
    let v := check_ack "1" "3" "stale boot not rejected: " line v in
    let v := check_ack "2" "3" "stale attempt not rejected: " line v in
    let v := check_ack "3" "3" "stale accounting gen not rejected: " line v in
    let v := check_ack "4" "3" "stale duplicate not rejected: " line v in
    let v := check_ack "5" "0" "fresh RequestStart not accepted: " line v in
    check_ack "10" "0" "fresh RequestEnd not accepted: " line v) lines v.

#[export] Instance byte_eq_decision : EqDecision byte := Byte.byte_eq_dec.

Section checks.
Context `{LlroundPlatform}.

(** The persisted ledger. *)
Definition verify_ledger (lr : LoadResult) (v : Verdict) : Verdict :=
  if negb (lr_ok lr) then fail ("ledger load failed: " +:+ lr_reason lr) v
  else
    let v := remark ("loaded " +:+ size_to_string (length (lr_entries lr)) +:+ " frames") v in
    match lr_entries lr with
    | [] => v
    | _ =>
        let accR := reconcile_request (query_ledger (lr_entries lr) (query_default <| lq_request := Some R |>)) R in
        let accR2 := reconcile_request (query_ledger (lr_entries lr) (query_default <| lq_request := Some R2 |>)) R2 in
        let v := expect (ra_completed accR) "R not completed" v in
        let v := expect (negb (ra_attempt_count accR <? 2)%nat) "R attempts not reconstructed" v in
        let v := expect (ra_attempt_count accR =? 2)%nat "R attempts != 2" v in
        expect (ra_completed accR2) "R2 not completed" v
    end.

(** Replay into a fresh ledger. *)
Definition verify_replay (replayed : Ledger * option string) (lr : LoadResult) (v : Verdict) : Verdict :=
  match replayed with
  | (_, Some rerr) => fail ("replay failed: " +:+ rerr) v
  | (fresh, None) =>
      let fp2 := ledger_fingerprint (snapshot fresh) in
      if bool_decide (fp2 = lr_fingerprint lr)
      then remark ("replay digest stable: " +:+ fingerprint_to_string fp2) v
      else fail "replay fingerprint mismatch" v
  end.

Definition report (v : Verdict) : list string :=
  if vd_pass v then "MULTIPROCESS_PROOF PASS"%string :: (String.append "  + " <$> vd_reasons v)
  else "MULTIPROCESS_PROOF FAIL"%string :: (String.append "  - " <$> vd_reasons v).
End checks.

(** ** [main] *)

(** What the driver observes: the lines of a child at each look and at the moment of a
    snapshot, and the files when it loads the ledger. *)
Record Env := MkEnv {
  en_coord : nat -> list string;
  en_wa : nat -> list string;
  en_wb : nat -> list string;
  en_wb_lines : list string;
  en_wa2 : nat -> list string;
  en_wa2_lines : list string;
  en_stop : nat -> list string;
  en_final : Files
}.

(** What it did: the script files, the handles it left open, its output and code. *)
Record Run := MkRun {
  ru_files : Files;
  ru_open : gset Z;
  ru_out : list string;
  ru_err : list string;
  ru_outcome : Outcome
}.

Section main.
Context `{LlroundPlatform, FileIO, ProcessPlatform}.

Definition coordinator_command (ledger_path : string) : string :=
  "iledger_coordinator.exe " +:+ num mp_port +:+ " " +:+ ledger_path.

Definition worker_command (worker : WorkerId) (boot : WorkerBootId) (script : string) : string :=
  "iledger_worker.exe 127.0.0.1 " +:+ num mp_port +:+ " " +:+ to_string worker +:+ " " +:+ to_string boot +:+
  " " +:+ script +:+ " 1".

Definition script_path (dir name : string) : string := dir +:+ "\" +:+ name.

(** From the shutdown of the coordinator on. *)
Definition finish_main (env : Env) (ledger_path : string) (files : Files) (coord wb wa2 : Child)
    (open : gset Z) (v : Verdict) : Run :=
  let v := expect (wait_for (en_stop env) "COORD_STOPPED" 5000) "coordinator did not save/shutdown" v in
  let (_, open) := kill_child coord open in
  let (_, open) := kill_child wb open in
  let (_, open) := kill_child wa2 open in
  match load ledger_path (en_final env), replay_into None (ledger_new id_zero) ledger_path (en_final env) with
  | Some lr, Some replayed =>
      let v := verify_ledger lr v in
      let v := verify_replay replayed lr v in
      MkRun files open (report v) [] (Exit (if vd_pass v then 0 else 1))
  | _, _ => MkRun files open [] [] Undefined
  end.

Definition multiprocess_main (argv : list string) (files : Files) (open : gset Z) (env : Env) : Run :=
  let dir := match argv with _ :: dir :: _ => dir | _ => "."%string end in
  let ledger_path := script_path dir "ledger.db" in
  match spawn (coordinator_command ledger_path) child_new open with
  | (false, _, open) => MkRun files open [] ["failed to spawn coordinator"%string] (Exit 1)
  | (true, coord, open) =>
      if negb (wait_for (en_coord env) "COORD " 8000) then
        let (_, open) := kill_child coord open in
        MkRun files open [] ["coordinator did not start"%string] (Exit 1)
      else
        let v := MkVerdict true [] in
        let sA1 := script_path dir "wA1.script" in
        let (files, _) := write_script a1 sA1 files in
        let sB := script_path dir "wB.script" in
        let (files, _) := write_script b1 sB files in
        let '(ok, wa, open) := spawn (worker_command WA bootA1 sA1) child_new open in
        let v := expect ok "spawn workerA failed" v in
        let '(ok, wb, open) := spawn (worker_command WB bootB sB) child_new open in
        let v := expect ok "spawn workerB failed" v in
        let v := expect (wait_for (en_wa env) "WORKER_DONE" 15000) "workerA boot1 did not finish" v in
        let v := expect (wait_for (en_wb env) "WORKER_DONE" 15000) "workerB did not finish" v in
        let v := check_duplicate (en_wb_lines env) v in
        let (_, open) := kill_child wa open in
        let sA2 := script_path dir "wA2.script" in
        let (files, _) := write_script a2 sA2 files in
        let '(ok, wa2, open) := spawn (worker_command WA bootA2 sA2) child_new open in
        let v := expect ok "spawn workerA boot2 failed" v in
        let v := expect (wait_for (en_wa2 env) "WORKER_DONE" 15000) "workerA boot2 did not finish" v in
        let v := check_acks (en_wa2_lines env) v in
        finish_main env ledger_path files coord wb wa2 open v
  end.
End main.

(** ** The scenario at the coordinator *)

Definition worker_items (c : nat) (worker : WorkerId) (boot : WorkerBootId) (es : list LedgerEntry) : list WorkItem :=
  WRegister c (MkRegisterMsg worker boot) :: (WEvent (Some c) <$> es).

(** What worker A sends on its two connections, around its loss. *)
Definition log_A (cA : nat) : list WorkItem :=
  worker_items cA WA bootA1 a1 ++ [WWorkerLost cA WA] ++ worker_items 2 WA bootA2 a2.

(** What worker B sends, before that loss. *)
Definition log_B (cA cB : nat) : list WorkItem := worker_items cB WB bootB b1 ++ [WWorkerLost cA WA].

Definition party_A (cA : nat) : Party :=
  MkParty (fun c => (c =? cA)%nat || (c =? 2)%nat) WA R (fun id => hi_ id =? 0xA).
Definition party_B (cB : nat) : Party := MkParty (Nat.eqb cB) WB R2 (fun id => hi_ id =? 0xB).

(** A run of the coordinator's threads in the scenario: the first two connections are
    the workers', in either order; each worker's items were queued in its own order,
    interleaved in any way; worker B is done when worker A is lost; and everything
    queued has been handled. *)
Record scenario_run (cA cB : nat) (s : Coordinator) : Prop := {
  sr_conns : (cA = 0 /\ cB = 1 \/ cA = 1 /\ cB = 0)%nat;
  sr_log : exists log, threads log (coordinator_new service_ledger_id) s /\
    filter (fun w => own (party_A cA) w = true) log = log_A cA /\
    filter (fun w => own (party_B cB) w = true) log = log_B cA cB /\
    Forall (fun w => w ∈ log_A cA \/ w ∈ log_B cA cB) log;
  sr_drained : co_queue s = [] /\ co_pc s = Ready
}.

Definition ack (status : AppendStatus) (reason : string) : Message := event_ack (MkAppendResult status reason).

(** The replies the scenario expects. *)
Definition acks_B : list Message :=
  [ack Accepted "accepted"; ack Accepted "accepted"; ack Duplicate "idempotent duplicate ignored";
   ack Accepted "accepted"].

Definition acks_A2 : list Message :=
  [ack Stale "stale_epoch"; ack Stale "stale_generation"; ack Stale "stale_generation";
   ack Stale "stale_generation"; ack Stale "stale_epoch"] ++ replicate 6 (ack Accepted "accepted").

Definition registered_ack (g : Z) : Message :=
  RegisterAck (MkRegisterAckMsg true (MkGen g) (MkGen g) "registered").

Definition fresh_a2 : list LedgerEntry := drop 5 a2.
Definition stored_b1 : list LedgerEntry := take 2 b1 ++ drop 3 b1.

(** *** Each worker alone *)

Definition acks_A1 : list Message := replicate 8 (ack Accepted "accepted").

Lemma alone_A cA : (cA = 0 \/ cA = 1)%nat ->
  at_outbox (serve (log_A cA) (atomic_new service_ledger_id)) cA = registered_ack 1 :: acks_A1 /\
  at_outbox (serve (log_A cA) (atomic_new service_ledger_id)) 2 = registered_ack 2 :: acks_A2 /\
  filter (fun e => e_request e = R)
    (lg_entries (at_ledger (serve (log_A cA) (atomic_new service_ledger_id)))) = a1 ++ fresh_a2.
Proof. intros [-> | ->]; by vm_compute. Qed.

Lemma alone_B cA cB : (cA = 0 /\ cB = 1 \/ cA = 1 /\ cB = 0)%nat ->
  at_outbox (serve (log_B cA cB) (atomic_new service_ledger_id)) cB =
    registered_ack 1 :: acks_B ++ [Roll (MkRollMsg (MkGen 2) (MkGen 2))] /\
  filter (fun e => e_request e = R2)
    (lg_entries (at_ledger (serve (log_B cA cB) (atomic_new service_ledger_id)))) = stored_b1.
Proof. intros [[-> ->]|[-> ->]]; by vm_compute. Qed.

(** *** The workers keep apart *)

Lemma worker_items_elem w c worker boot es : w ∈ worker_items c worker boot es ->
  w = WRegister c (MkRegisterMsg worker boot) \/ exists e, e ∈ es /\ w = WEvent (Some c) e.
Proof.
  unfold worker_items. intros [->|Hw]%elem_of_cons; [by left|]. right.
  apply list_elem_of_fmap in Hw as (e & -> & He). by exists e.
Qed.

Definition of_A (e : LedgerEntry) : Prop := e_worker e = WA /\ e_request e = R /\ hi_ (e_id e) = 0xA.
Definition of_B (e : LedgerEntry) : Prop := e_worker e = WB /\ e_request e = R2 /\ hi_ (e_id e) = 0xB.

Lemma a1_of_A : Forall of_A a1.
Proof. repeat constructor. Qed.
Lemma a2_of_A : Forall of_A a2.
Proof. repeat constructor. Qed.
Lemma b1_of_B : Forall of_B b1.
Proof. repeat constructor. Qed.

Lemma scenario_items cA cB w : w ∈ log_A cA \/ w ∈ log_B cA cB ->
  (exists c boot, (c = cA \/ c = 2%nat) /\ w = WRegister c (MkRegisterMsg WA boot)) \/
  (exists c e, (c = cA \/ c = 2%nat) /\ of_A e /\ w = WEvent (Some c) e) \/
  w = WRegister cB (MkRegisterMsg WB bootB) \/ (exists e, of_B e /\ w = WEvent (Some cB) e) \/
  w = WWorkerLost cA WA.
Proof.
  pose proof a1_of_A as H1. pose proof a2_of_A as H2. pose proof b1_of_B as H3.
  rewrite list.Forall_forall in H1, H2, H3. unfold log_A, log_B. rewrite !elem_of_app, !list_elem_of_singleton.
  intros [[[->|(e & He & ->)]%worker_items_elem|[->|[->|(e & He & ->)]%worker_items_elem]]
         |[[->|(e & He & ->)]%worker_items_elem| ->]]; eauto 10.
Qed.

Lemma scenario_separate cA cB log : (cA = 0 /\ cB = 1 \/ cA = 1 /\ cB = 0)%nat ->
  Forall (fun w => w ∈ log_A cA \/ w ∈ log_B cA cB) log ->
  Forall (separate (party_A cA)) log /\ Forall (separate (party_B cB)) log.
Proof.
  intros Hc Hall. split; eapply list.Forall_impl; [exact Hall| |exact Hall|]; intros w Hw%scenario_items;
    destruct Hw as [(c & boot & Hx & ->)|[(c & e & Hx & (He1 & He2 & He3) & ->)|[->|[(e & (He1 & He2 & He3) & ->)| ->]]]];
    cbn [separate party_A party_B pt_conn pt_worker pt_request pt_id rg_worker]; try done;
    rewrite ?He1, ?He2, ?He3.
  - left. destruct Hx as [-> | ->]; by rewrite ?Nat.eqb_refl, ?orb_true_r.
  - destruct Hx as [-> | ->]; by rewrite ?Nat.eqb_refl, ?orb_true_r.
  - by right.
  - by destruct Hc as [[-> ->]|[-> ->]].
  - by right.
  - destruct Hc as [[-> ->]|[-> ->]], Hx as [-> | ->]; done.
  - left. by rewrite Nat.eqb_refl.
  - by rewrite Nat.eqb_refl.
Qed.

(** ** The driver *)

(** A worker started on a script file, whose connection delivers these messages: the
    lines it has printed when it holds. *)
Definition worker_prints `{SendPlatform} (files : Files) (script : string) (worker : WorkerId)
    (boot : WorkerBootId) (incoming : list Message) (lines : list string) : Prop :=
  exists p tail p', pr_out p = [] /\ delivers (pr_net p) incoming tail /\
    worker_session files worker boot script true p = (p', Holding) /\ lines = pr_out p'.

(** What the driver sees when the children do their work and are seen in time: each
    worker's lines are what it prints when the coordinator answers it, and the file
    holds the coordinator's ledger. *)
Record observes `{SendPlatform} (dir : string) (files : Files) (cA cB : nat) (s : Coordinator) (env : Env) : Prop := {
  ob_start : exists i, Z.of_nat i < 400 /\ ("COORD " +:+ num mp_port) ∈ en_coord env i;
  ob_wa : exists i, Z.of_nat i < 750 /\
    worker_prints files (script_path dir "wA1.script") WA bootA1 (replies s cA) (en_wa env i);
  ob_wb : exists i, Z.of_nat i < 750 /\ en_wb env i = en_wb_lines env;
  ob_wb_lines : worker_prints files (script_path dir "wB.script") WB bootB (take 5 (replies s cB)) (en_wb_lines env);
  ob_wa2 : exists i, Z.of_nat i < 750 /\ en_wa2 env i = en_wa2_lines env;
  ob_wa2_lines : worker_prints files (script_path dir "wA2.script") WA bootA2 (replies s 2) (en_wa2_lines env);
  ob_stop : exists i, Z.of_nat i < 250 /\ stopped_line (lg_entries (co_ledger s)) ∈ en_stop env i;
  ob_final : load (script_path dir "ledger.db") (en_final env) =
             Some (loaded service_ledger_id (lg_entries (co_ledger s)))
}.

Lemma scenario_facts cA cB s : scenario_run cA cB s ->
  replies s cA = registered_ack 1 :: acks_A1 /\
  replies s cB = registered_ack 1 :: acks_B ++ [Roll (MkRollMsg (MkGen 2) (MkGen 2))] /\
  replies s 2 = registered_ack 2 :: acks_A2 /\
  filter (fun e => e_request e = R) (lg_entries (co_ledger s)) = a1 ++ fresh_a2 /\
  filter (fun e => e_request e = R2) (lg_entries (co_ledger s)) = stored_b1 /\
  ledger_wf (co_ledger s).
Proof.
  intros [Hc (log & Ht & HA & HB & Hall) [Hq Hpc]].
  destruct (scenario_separate cA cB log Hc Hall) as [SA SB].
  destruct (threads_party (party_A cA) log _ s Ht Hq Hpc SA) as [OA EA].
  destruct (threads_party (party_B cB) log _ s Ht Hq Hpc SB) as [OB EB].
  rewrite HA in OA, EA. rewrite HB in OB, EB.
  destruct (alone_A cA) as (A1' & A2' & A3'); [lia|]. destruct (alone_B cA cB Hc) as (B1' & B2').
  split_and!.
  - rewrite OA, A1'; [done|]. simpl. by rewrite Nat.eqb_refl.
  - rewrite OB, B1'; [done|]. simpl. by rewrite Nat.eqb_refl.
  - rewrite OA, A2'; [done|]. simpl. by rewrite orb_true_r.
  - exact (eq_trans EA A3').
  - exact (eq_trans EB B2').
  - clear -Ht. apply cw_ledger. remember (coordinator_new _) as s0. induction Ht as [|log a s s1 s2 _ IH _ Hp];
      subst; [apply coordinator_new_wf|]. eapply perform_wf; [by apply IH|done].
Qed.

(** C9: the authority proof of the scenario. Whatever way the threads interleave the
    three worker processes' messages, and whichever worker connects first: worker B's
    repeated [RequestStart] is acknowledged as a duplicate and the rest of its script
    accepted; after the loss of worker A and its restart, every replay from its first
    life is refused as stale and the fresh accounting accepted; and the ledger holds,
    for each request, exactly the accepted records in order. *)
Theorem scenario_fenced cA cB s : scenario_run cA cB s ->
  replies s cA = registered_ack 1 :: acks_A1 /\
  replies s cB = registered_ack 1 :: acks_B ++ [Roll (MkRollMsg (MkGen 2) (MkGen 2))] /\
  replies s 2 = registered_ack 2 :: acks_A2 /\
  filter (fun e => e_request e = R) (lg_entries (co_ledger s)) = a1 ++ fresh_a2 /\
  filter (fun e => e_request e = R2) (lg_entries (co_ledger s)) = stored_b1.
Proof. intros (? & ? & ? & ? & ? & _)%scenario_facts. done. Qed.

(** *** What the workers print *)

Definition acked (m : Message) : EventAckMsg := match m with EventAck a => a | _ => MkEventAckMsg 0 "" end.

(** The lines of a worker that registers in generation [g] and gets these replies. *)
Definition worker_lines (worker : WorkerId) (g : Z) (acks : list Message) : list string :=
  [reg_line (MkGen g) (MkGen g)] ++ replies_lines 0 ((fun m => ([], acked m)) <$> acks) ++
  ["WORKER_DONE " +:+ to_string worker].

Lemma worker_prints_lines `{SendProgress} files script worker boot es g acks lines :
  files !! script = Some (frames es) -> Forall storable es -> length acks = length es ->
  mjoin (reply_messages <$> ((fun m => ([], acked m)) <$> acks)) = acks ->
  worker_prints files script worker boot (registered_ack g :: acks) lines ->
  lines = worker_lines worker g acks.
Proof.
  intros Hf Hs Hl Ha (p & tail & p' & Hp & Hd & Hw & ->). rewrite <- Ha in Hd.
  destruct (worker_session_submits files worker boot script true p es _ _ _ _ tail Hf Hs
    (eq_trans (length_fmap _ _) Hl) Hd) as (reg & bytes & net' & _ & _ & Hw').
  rewrite Hw in Hw'. injection Hw' as ->. cbn [pr_out]. by rewrite Hp.
Qed.

(** *** The scripts can be written *)

Ltac solve_storable :=
  repeat (apply list.Forall_cons; split; [constructor; [solve_entry_wf|split; [by apply list.Forall_nil|by vm_compute]|by vm_compute]|]);
  by apply list.Forall_nil.

Lemma a1_storable : Forall storable a1.
Proof. solve_storable. Qed.
Lemma b1_storable : Forall storable b1.
Proof. solve_storable. Qed.
Lemma a2_storable : Forall storable a2.
Proof. solve_storable. Qed.

(** *** The checks succeed *)

Lemma accounts_complete `{LlroundPlatform} :
  ra_completed (reconcile_request (a1 ++ fresh_a2) R) = true /\
  ra_attempt_count (reconcile_request (a1 ++ fresh_a2) R) = 2%nat /\
  ra_completed (reconcile_request stored_b1 R2) = true.
Proof. by vm_compute. Qed.

Lemma verify_ledger_ok `{LlroundPlatform} es v :
  filter (fun e => e_request e = R) es = a1 ++ fresh_a2 ->
  filter (fun e => e_request e = R2) es = stored_b1 ->
  verify_ledger (loaded service_ledger_id es) v =
  remark ("loaded " +:+ size_to_string (length es) +:+ " frames") v.
Proof.
  intros HR HR2. unfold verify_ledger. cbn [loaded lr_ok lr_entries negb].
  destruct es as [|e es]; [done|]. rewrite !query_request, HR, HR2.
  destruct accounts_complete as (-> & -> & ->). done.
Qed.

Lemma verify_replay_ok path files l v : ledger_wf l ->
  load path files = Some (loaded service_ledger_id (lg_entries l)) ->
  exists replayed, replay_into None (ledger_new id_zero) path files = Some replayed /\
    verify_replay replayed (loaded service_ledger_id (lg_entries l)) v =
    remark ("replay digest stable: " +:+ fingerprint_to_string (ledger_fingerprint (lg_entries l))) v.
Proof.
  intros Hwf Hl. unfold replay_into. rewrite Hl. cbn [loaded lr_ok lr_entries negb].
  destruct (replay_entries_append (ledger_new id_zero) (lg_entries l)) as (l' & Hr & Hes & _).
  - apply Hwf.
  - simpl. by apply ledger_wf_NoDup.
  - apply ledger_new_wf.
  - eexists. split; [reflexivity|]. rewrite Hr. unfold verify_replay, snapshot. rewrite Hes.
    cbn [ledger_new lg_entries app lr_fingerprint]. by rewrite bool_decide_true.
Qed.

Lemma done_line worker g acks : contains (worker_lines worker g acks) "WORKER_DONE" = true.
Proof.
  apply (contains_elem _ _ ("WORKER_DONE " +:+ to_string worker)).
  - unfold worker_lines. rewrite !elem_of_app. right. right. by apply list_elem_of_singleton.
  - apply (has_marker_prefix "WORKER_DONE" (" " +:+ to_string worker)).
Qed.

Lemma checks_pass :
  check_duplicate (worker_lines WB 1 acks_B) (MkVerdict true []) = MkVerdict true [] /\
  check_acks (worker_lines WA 2 acks_A2) (MkVerdict true []) = MkVerdict true [].
Proof. by vm_compute. Qed.

Lemma script_path_ne dir n m : n <> m -> script_path dir n <> script_path dir m.
Proof. unfold script_path. intros Hne Heq. apply Hne. do 2 apply (inj (String.append _)) in Heq. done. Qed.

Definition script_files (dir : string) (files : Files) : Files :=
  <[script_path dir "wA2.script" := frames a2]>
    (<[script_path dir "wB.script" := frames b1]>
      (<[script_path dir "wA1.script" := frames a1]> files)).

Lemma script_files_lookup dir files :
  script_files dir files !! script_path dir "wA1.script" = Some (frames a1) /\
  script_files dir files !! script_path dir "wB.script" = Some (frames b1) /\
  script_files dir files !! script_path dir "wA2.script" = Some (frames a2).
Proof.
  unfold script_files. split_and!.
  - rewrite !lookup_insert_ne by (by apply script_path_ne). apply lookup_insert_eq.
  - rewrite lookup_insert_ne by (by apply script_path_ne). apply lookup_insert_eq.
  - apply lookup_insert_eq.
Qed.

Lemma close_middle (A B C : gset Z) : A ## C -> B ## A ∪ C -> (B ∪ (A ∪ C)) ∖ A = B ∪ C.
Proof. set_solver. Qed.

Lemma close_all_children (A B C X : gset Z) : A ## X -> B ## A ∪ X -> C ## B ∪ (A ∪ X) ->
  (C ∪ (B ∪ (A ∪ X))) ∖ A ∖ B ∖ C = X.
Proof. set_solver. Qed.

#[local] Opaque coordinator_command worker_command a1 a2 b1 frames.

Section driver.
Context `{LlroundPlatform, SendProgress, ProcessLaws}.
Context (Hpipe : forall open, is_Some (create_pipe open))
        (Hproc : forall cmd open, is_Some (create_process cmd open)).

Lemma spawn_ok cmd open : exists c, spawn cmd child_new open = (true, c, child_handles c ∪ open) /\
  (child_handles c ## open) /\ 0 ∉ child_handles c.
Proof.
  destruct (spawn cmd child_new open) as [[ok c] open'] eqn:E. assert (ok = true) as ->.
  { unfold spawn in E. destruct (Hpipe open) as [[outR outW] E1]. rewrite E1 in E.
    destruct (Hpipe ({[outR; outW]} ∪ open)) as [[inR inW] E2]. rewrite E2 in E.
    destruct (Hproc cmd ({[inR; inW]} ∪ ({[outR; outW]} ∪ open))) as [[proc thread] E3].
    cbv zeta in E. rewrite E3 in E. by injection E. }
  exists c. by apply spawn_handles in E as [-> ?].
Qed.

(** The part of [main] before the shutdown, when everything starts and is seen. *)
Lemma main_reaches_shutdown prog dir files open env :
  wait_for (en_coord env) "COORD " 8000 = true ->
  wait_for (en_wa env) "WORKER_DONE" 15000 = true -> wait_for (en_wb env) "WORKER_DONE" 15000 = true ->
  wait_for (en_wa2 env) "WORKER_DONE" 15000 = true ->
  check_duplicate (en_wb_lines env) (MkVerdict true []) = MkVerdict true [] ->
  check_acks (en_wa2_lines env) (MkVerdict true []) = MkVerdict true [] ->
  exists coord wb wa2,
    multiprocess_main (H0 := reliable_io) [prog; dir] files open env =
      finish_main env (script_path dir "ledger.db") (script_files dir files) coord wb wa2
        (child_handles wa2 ∪ (child_handles wb ∪ (child_handles coord ∪ open))) (MkVerdict true []) /\
    (child_handles coord ## open) /\ (child_handles wb ## child_handles coord ∪ open) /\
    (child_handles wa2 ## child_handles wb ∪ (child_handles coord ∪ open)) /\
    (0 ∉ child_handles coord) /\ (0 ∉ child_handles wb) /\ (0 ∉ child_handles wa2).
Proof.
  intros W1 W2 W3 W4 C1 C2. unfold multiprocess_main. cbv zeta.
  destruct (spawn_ok (coordinator_command (script_path dir "ledger.db")) open) as (coord & -> & D1' & Z1).
  rewrite W1. cbn [negb]. rewrite !write_script_reliable by (apply a1_storable || apply b1_storable).
  destruct (spawn_ok (worker_command WA bootA1 (script_path dir "wA1.script")) (child_handles coord ∪ open))
    as (wa & -> & D2' & Z2).
  destruct (spawn_ok (worker_command WB bootB (script_path dir "wB.script"))
    (child_handles wa ∪ (child_handles coord ∪ open))) as (wb & -> & D3' & Z3).
  rewrite W2, W3. cbn [expect]. rewrite C1.
  pose proof (kill_child_handles wa (child_handles wb ∪ (child_handles wa ∪ (child_handles coord ∪ open))) Z2) as Hk.
  destruct (kill_child wa _) as [wa' open1]. cbn [snd] in Hk.
  assert (open1 = child_handles wb ∪ (child_handles coord ∪ open)) as -> by (rewrite Hk; by apply close_middle).
  rewrite write_script_reliable by apply a2_storable.
  destruct (spawn_ok (worker_command WA bootA2 (script_path dir "wA2.script"))
    (child_handles wb ∪ (child_handles coord ∪ open))) as (wa2 & -> & D4' & Z4).
  rewrite W4. cbn [expect]. rewrite C2.
  exists coord, wb, wa2. split_and!; try done. by apply disjoint_union_r in D3' as [_ ?].
Qed.

(** The rest of it, on a file that holds the scenario's ledger. *)
Lemma finish_passes env path files coord wb wa2 open l :
  wait_for (en_stop env) "COORD_STOPPED" 5000 = true -> ledger_wf l ->
  load path (en_final env) = Some (loaded service_ledger_id (lg_entries l)) ->
  filter (fun e => e_request e = R) (lg_entries l) = a1 ++ fresh_a2 ->
  filter (fun e => e_request e = R2) (lg_entries l) = stored_b1 ->
  0 ∉ child_handles coord -> 0 ∉ child_handles wb -> 0 ∉ child_handles wa2 ->
  finish_main env path files coord wb wa2 open (MkVerdict true []) =
  MkRun files (open ∖ child_handles coord ∖ child_handles wb ∖ child_handles wa2)
    ["MULTIPROCESS_PROOF PASS"%string;
     "  + loaded " +:+ size_to_string (length (lg_entries l)) +:+ " frames";
     "  + replay digest stable: " +:+ fingerprint_to_string (ledger_fingerprint (lg_entries l))] [] (Exit 0).
Proof.
  intros Hw Hwf Hl HR HR2 Z1 Z2 Z3. unfold finish_main. rewrite Hw. cbn [expect].
  pose proof (kill_child_handles coord open Z1) as K1. destruct (kill_child coord open) as [? o1].
  cbn [snd] in K1. subst o1. pose proof (kill_child_handles wb (open ∖ child_handles coord) Z2) as K2.
  destruct (kill_child wb _) as [? o2]. cbn [snd] in K2. subst o2.
  pose proof (kill_child_handles wa2 (open ∖ child_handles coord ∖ child_handles wb) Z3) as K3.
  destruct (kill_child wa2 _) as [? o3]. cbn [snd] in K3. subst o3.
  destruct (verify_replay_ok path (en_final env) l (remark ("loaded " +:+ size_to_string (length (lg_entries l)) +:+ " frames")
    (MkVerdict true [])) Hwf Hl) as (rp & Hrp & Hv).
  rewrite Hl, Hrp, (verify_ledger_ok _ _ HR HR2), Hv. done.
Qed.

(** The acknowledgement lists are one acknowledgement per entry of the scripts. *)
Lemma acks_shape :
  (length acks_A1 = length a1 /\ mjoin (reply_messages <$> ((fun m => ([], acked m)) <$> acks_A1)) = acks_A1) /\
  (length acks_B = length b1 /\ mjoin (reply_messages <$> ((fun m => ([], acked m)) <$> acks_B)) = acks_B) /\
  (length acks_A2 = length a2 /\ mjoin (reply_messages <$> ((fun m => ([], acked m)) <$> acks_A2)) = acks_A2).
Proof. done. Qed.

Lemma observed_lines dir files cA cB s env : scenario_run cA cB s ->
  observes dir (script_files dir files) cA cB s env ->
  (exists i, Z.of_nat i < 750 /\ en_wa env i = worker_lines WA 1 acks_A1) /\
  en_wb_lines env = worker_lines WB 1 acks_B /\ en_wa2_lines env = worker_lines WA 2 acks_A2.
Proof.
  intros (HA & HB & HA2 & _)%scenario_facts []. destruct (script_files_lookup dir files) as (F1 & F2 & F3).
  destruct acks_shape as ((L1 & S1) & (L2 & S2) & (L3 & S3)).
  rewrite HA in ob_wa0. rewrite HB in ob_wb_lines0. rewrite HA2 in ob_wa2_lines0.
  split; [|split].
  - destruct ob_wa0 as (i & Hi & Hp). exists i. split; [done|].
    exact (worker_prints_lines _ _ _ _ a1 1 acks_A1 _ F1 a1_storable L1 S1 Hp).
  - exact (worker_prints_lines _ _ _ _ b1 1 acks_B _ F2 b1_storable L2 S2 ob_wb_lines0).
  - exact (worker_prints_lines _ _ _ _ a2 2 acks_A2 _ F3 a2_storable L3 S3 ob_wa2_lines0).
Qed.

(** C10: the whole scenario, end to end: when the processes start, the workers run
    their scripts against a coordinator whose threads interleave in any way, and the
    coordinator's file holds its ledger, the driver's own checks all pass: it exits
    with code 0, reports the number of records and the digest of the ledger, has
    written the three scripts, and has closed every handle it opened. *)
Theorem multiprocess_passes prog dir files open env cA cB s :
  scenario_run cA cB s -> observes dir (script_files dir files) cA cB s env ->
  multiprocess_main (H0 := reliable_io) [prog; dir] files open env =
  MkRun (script_files dir files) open
    ["MULTIPROCESS_PROOF PASS"%string;
     "  + loaded " +:+ size_to_string (length (lg_entries (co_ledger s))) +:+ " frames";
     "  + replay digest stable: " +:+ fingerprint_to_string (ledger_fingerprint (lg_entries (co_ledger s)))]
    [] (Exit 0).
Proof.
  intros Hs Hob. destruct (observed_lines _ _ _ _ _ _ Hs Hob) as ((i & Hi & Hwa) & Hwb & Hwa2).
  destruct (scenario_facts _ _ _ Hs) as (_ & _ & _ & HR & HR2 & Hwf). destruct checks_pass as [C1 C2]. destruct Hob.
  destruct ob_start0 as (i0 & Hi0 & H0'). destruct ob_wb0 as (i1 & Hi1 & H1').
  destruct ob_wa3 as (i2 & Hi2 & H2'). destruct ob_stop0 as (i3 & Hi3 & H3').
  destruct (main_reaches_shutdown prog dir files open env) as (coord & wb & wa2 & -> & D1' & D2' & D3' & Z1 & Z2 & Z3).
  - apply (wait_for_true _ _ _ i0); [done|]. eapply contains_elem; [exact H0'|]. apply has_marker_prefix.
  - apply (wait_for_true _ _ _ i); [done|]. rewrite Hwa. apply done_line.
  - apply (wait_for_true _ _ _ i1); [done|]. rewrite H1', Hwb. apply done_line.
  - apply (wait_for_true _ _ _ i2); [done|]. rewrite H2', Hwa2. apply done_line.
  - by rewrite Hwb.
  - by rewrite Hwa2.
  - rewrite (finish_passes env _ _ coord wb wa2 _ (co_ledger s)); try done.
    + by rewrite close_all_children.
    + apply (wait_for_true _ _ _ i3); [done|]. eapply contains_elem; [exact H3'|].
      apply (has_marker_prefix "COORD_STOPPED").
Qed.
End driver.

(** ** Witnesses *)

Definition submit_actions (c : nat) (es : list LedgerEntry) : list Action :=
  mjoin ((fun e => [ARead c (EventSubmit e); AAccount; AAccount]) <$> es).

(** Both workers connect, the second one first to register; their scripts, the loss of
    worker A, and its second life. *)
Definition scenario_actions : list Action :=
  [AAccept; AAccept; ARead 1 (Register (MkRegisterMsg WB bootB)); ARead 0 (Register (MkRegisterMsg WA bootA1))] ++
  replicate 6 AAccount ++ submit_actions 0 a1 ++ submit_actions 1 b1 ++
  AReadFailed 0 :: replicate 5 AAccount ++
  [AAccept; ARead 2 (Register (MkRegisterMsg WA bootA2))] ++ replicate 3 AAccount ++ submit_actions 2 a2.

Definition scenario_state : Coordinator := after scenario_actions (coordinator_new service_ledger_id).

Definition scenario_entries : list LedgerEntry := a1 ++ stored_b1 ++ fresh_a2.

Definition scenario_log : list WorkItem := inbox scenario_actions (coordinator_new service_ledger_id).

Lemma scenario_state_threads : threads scenario_log (coordinator_new service_ledger_id) scenario_state.
Proof.
  apply (threads_run scenario_actions _ [] (coordinator_new service_ledger_id)); [constructor|by vm_compute|].
  apply run_after. by vm_compute.
Qed.

(** An item of one of the parties is one of its items. *)
Lemma own_members pA pB lA lB log : forallb (fun w => own pA w || own pB w) log = true ->
  filter (fun w => own pA w = true) log = lA -> filter (fun w => own pB w = true) log = lB ->
  Forall (fun w => w ∈ lA \/ w ∈ lB) log.
Proof.
  intros Hall <- <-. apply list.Forall_forall. intros w Hw. rewrite !list_elem_of_filter.
  apply forallb_forall with (x := w) in Hall; [|by apply list_elem_of_In].
  apply orb_true_iff in Hall as [?|?]; naive_solver.
Qed.

Lemma scenario_log_A : filter (fun w => own (party_A 0) w = true) scenario_log = log_A 0.
Proof. by vm_compute. Qed.

Lemma scenario_log_B : filter (fun w => own (party_B 1) w = true) scenario_log = log_B 0 1.
Proof. by vm_compute. Qed.

Lemma scenario_state_run : scenario_run 0 1 scenario_state.
Proof.
  split; [by left| |by vm_compute]. exists scenario_log. split_and!;
    [exact scenario_state_threads|exact scenario_log_A|exact scenario_log_B|].
  apply (own_members (party_A 0) (party_B 1)); [by vm_compute|exact scenario_log_A|exact scenario_log_B].
Qed.

Lemma scenario_fenced_witness :
  replies scenario_state 2 = registered_ack 2 :: acks_A2.
Proof. exact (proj1 (proj2 (proj2 (scenario_fenced 0 1 scenario_state scenario_state_run)))). Defined.

Lemma scenario_state_entries : lg_entries (co_ledger scenario_state) = scenario_entries.
Proof. by vm_compute. Qed.

Lemma scenario_entries_storable : Forall storable scenario_entries.
Proof.
  unfold scenario_entries, stored_b1, fresh_a2. repeat (apply Forall_app; split).
  - exact a1_storable.
  - apply Forall_take, b1_storable.
  - apply Forall_drop, b1_storable.
  - apply Forall_drop, a2_storable.
Qed.

Lemma scenario_entries_canonical : canonical <$> scenario_entries = scenario_entries.
Proof. by vm_compute. Qed.

Lemma scenario_entries_NoDup : NoDup (e_id <$> scenario_entries).
Proof. refine (bool_decide_unpack _ _). by vm_compute. Qed.

Definition scenario_final (dir : string) : Files :=
  {[script_path dir "ledger.db" := header_bytes service_ledger_id ++ frames scenario_entries]}.

Lemma scenario_final_loads dir :
  load (script_path dir "ledger.db") (scenario_final dir) =
  Some (loaded service_ledger_id (lg_entries (co_ledger scenario_state))).
Proof.
  rewrite scenario_state_entries. unfold load, scenario_final.
  rewrite lookup_singleton_eq, load_bytes_snapshot, scenario_entries_canonical.
  - reflexivity.
  - unfold id_wf, in_width; simpl; lia.
  - exact scenario_entries_storable.
  - exact scenario_entries_NoDup.
Qed.

Definition incoming_process (ms : list Message) : Process := MkProcess [] [] [] (drip (message_bytes ms)) ∅.

Lemma worker_prints_intro `{SendProgress} files script worker boot es g acks :
  files !! script = Some (frames es) -> Forall storable es -> length acks = length es ->
  mjoin (reply_messages <$> ((fun m => ([], acked m)) <$> acks)) = acks ->
  delivers (pr_net (incoming_process (registered_ack g :: acks))) (registered_ack g :: acks) [] ->
  worker_prints files script worker boot (registered_ack g :: acks) (worker_lines worker g acks).
Proof.
  intros Hf Hs Hl Ha Hd. exists (incoming_process (registered_ack g :: acks)), []. rewrite <- Ha in Hd at 2.
  destruct (worker_session_submits files worker boot script true (incoming_process (registered_ack g :: acks)) es _ _ _ _ []
    Hf Hs (eq_trans (length_fmap _ _) Hl) Hd) as (reg & bytes & net' & _ & _ & Hw).
  eexists. split; [done|]. rewrite Ha in Hd. split; [exact Hd|]. split; [exact Hw|]. done.
Qed.

Lemma incoming_delivers ms :
  Forall2 (fun m fr => message_ok m /\ encode_message m = Some fr /\ Z.of_nat (length fr) <= 2 ^ 24)
    ms (default [] ∘ encode_message <$> ms) ->
  delivers (pr_net (incoming_process ms)) ms [].
Proof. intros Hm. eexists. split; [exact Hm|]. apply drip_flows. Qed.

Definition scenario_env (dir : string) : Env :=
  MkEnv (fun _ => ["COORD " +:+ num mp_port]) (fun _ => worker_lines WA 1 acks_A1)
    (fun _ => worker_lines WB 1 acks_B) (worker_lines WB 1 acks_B)
    (fun _ => worker_lines WA 2 acks_A2) (worker_lines WA 2 acks_A2)
    (fun _ => [stopped_line scenario_entries]) (scenario_final dir).

Lemma scenario_observed dir files :
  @observes byte_sender dir (script_files dir files) 0 1 scenario_state (scenario_env dir).
Proof.
  destruct (script_files_lookup dir files) as (F1 & F2 & F3). destruct acks_shape as ((L1 & S1) & (L2 & S2) & (L3 & S3)).
  destruct (scenario_facts 0 1 scenario_state scenario_state_run) as (HA & HB & HA2 & _).
  pose proof byte_sender_progress as Hp. pose proof scenario_state_entries as He.
  split; cbn [scenario_env en_coord en_wa en_wb en_wb_lines en_wa2 en_wa2_lines en_stop en_final].
  - exists 0%nat. split; [done|]. by apply list_elem_of_singleton.
  - exists 0%nat. split; [done|]. rewrite HA.
    apply (@worker_prints_intro byte_sender Hp _ _ _ _ a1 1 acks_A1 F1 a1_storable L1 S1).
    apply incoming_delivers. repeat constructor; by vm_compute.
  - exists 0%nat. by split.
  - rewrite HB. apply (@worker_prints_intro byte_sender Hp _ _ _ _ b1 1 acks_B F2 b1_storable L2 S2).
    apply incoming_delivers. repeat constructor; by vm_compute.
  - exists 0%nat. by split.
  - rewrite HA2. apply (@worker_prints_intro byte_sender Hp _ _ _ _ a2 2 acks_A2 F3 a2_storable L3 S3).
    apply incoming_delivers. repeat constructor; by vm_compute.
  - exists 0%nat. split; [done|]. rewrite He. by apply list_elem_of_singleton.
  - apply scenario_final_loads.
Qed.

Definition sample_run_of_driver : Run :=
  @multiprocess_main (fun _ => 0) reliable_io sample_processes ["multiprocess"; "d"]%string ∅ {[1; 2]} (scenario_env "d").

Lemma sample_pipes open : is_Some (@create_pipe sample_processes open).
Proof. by eexists. Qed.

Lemma sample_starts cmd open : is_Some (@create_process sample_processes cmd open).
Proof. by eexists. Qed.

Lemma multiprocess_passes_witness :
  ru_outcome sample_run_of_driver = Exit 0 /\ ru_open sample_run_of_driver = {[1; 2]}.
Proof.
  pose proof (@multiprocess_passes (fun _ => 0) byte_sender byte_sender_progress sample_processes
    sample_processes_laws sample_pipes sample_starts "multiprocess" "d" ∅ {[1; 2]} (scenario_env "d") 0 1
    scenario_state scenario_state_run (scenario_observed "d" ∅)) as Hm.
  exact (conj (f_equal ru_outcome Hm) (f_equal ru_open Hm)).
Defined.
