(* ===== verification/Cli.v ===== *)
(** * The command-line tool (tools/iledger_cli.cpp)

    [main] with every command, its output by lines, the files it writes and how it
    ends. An empty [std::optional] that is dereferenced and an exception that nobody
    catches are outcomes of their own. [std::system] is a parameter: what the program
    of a command line prints, the files it leaves and the code it returns. *)

From Stdlib Require Import Ascii Strings.Byte.
From stdpp Require Import base gmap sets list strings numbers pretty.
From S2P Require Import Prelude Float64 StdMap Identity Reader Kinds Entry Codec Crc CodecProofs.
From S2P Require Import Authority Ledger Account AccountProofs Pricing Batch Query Persistence.
From S2P Require Import PersistenceProofs Protocol ProtocolProofs Intake Text Sockets Worker.
Open Scope Z_scope.

(** What a launched program did: it shares the tool's output and its files. *)
Record Launched := MkLaunched {
  ln_out : list string; ln_err : list string; ln_files : Files; ln_rc : Z
}.

Class SystemPlatform := system_run : string -> Files -> Launched.

(** ** Accounts *)

Definition dquote : string := String "034"%char EmptyString.

(** ["key":text]. *)
Definition json_field (key text : string) : string := "  " +:+ dquote +:+ key +:+ dquote +:+ ":" +:+ text.

(** [json_escape]. *)
Fixpoint json_escape (s : string) : string :=
  match s with
  | EmptyString => EmptyString
  | String c s =>
      if bool_decide (c = "034"%char) || bool_decide (c = "\"%char)
      then String "\"%char (String c (json_escape s)) else String c (json_escape s)
  end.

(** The map [bykind] is ordered by the enumerators' values. *)
#[export] Program Instance ResourceKind_order : KeyOrder ResourceKind :=
  {| kcmp a b := resource_kind_val a ?= resource_kind_val b |}.
Next Obligation. intros a b. rewrite Z.compare_eq_iff. by destruct a, b. Qed.
Next Obligation. intros a b. apply Z.compare_antisym. Qed.
Next Obligation. intros a b c. rewrite !Z.compare_lt_iff. lia. Qed.

Section cli.
Context `{TextPlatform, LlroundPlatform}.

Definition f2q (q : Quantity) : string := f2 (q_value q).

(** [print_account_text]. *)
Definition account_text (a : RequestAccount) : list string :=
  [ "request " +:+ to_string (ra_request a);
    "  outcome      " +:+ ra_terminal_outcome a;
    "  wall_latency_s " +:+ f2q (ra_wall_latency_s a) +:+ " [" +:+
      provenance_name (q_provenance (ra_wall_latency_s a)) +:+ "]";
    "  queue_s      " +:+ f2q (ra_queue_time_s a);
    "  execution_s  " +:+ f2q (ra_execution_s a);
    "  prefill_s    " +:+ f2q (ra_prefill_s a);
    "  decode_s     " +:+ f2q (ra_decode_s a);
    "  gpu_active_s " +:+ f2q (ra_gpu_active_s a);
    "  cpu_active_s " +:+ f2q (ra_cpu_active_s a);
    "  h2d_bytes    " +:+ f2q (ra_h2d_bytes a);
    "  d2h_bytes    " +:+ f2q (ra_d2h_bytes a);
    "  inter_node_bytes " +:+ f2q (ra_inter_node_bytes a);
    "  kv_allocated " +:+ f2q (ra_kv_allocated a);
    "  kv_peak      " +:+ f2q (ra_kv_peak a);
    "  kv_reuse     " +:+ f2q (ra_kv_reuse a);
    "  tensor_allocated " +:+ f2q (ra_tensor_allocated a);
    "  model_byte_seconds " +:+ f2q (ra_model_byte_seconds a);
    "  adapter_byte_seconds " +:+ f2q (ra_adapter_byte_seconds a);
    "  reservations acquired/released " +:+ num (ra_reservations_acquired a) +:+ "/" +:+
      num (ra_reservations_released a);
    "  allocation_peak " +:+ f2q (ra_allocation_peak a);
    "  spec proposed/accepted/rejected " +:+ num (ra_spec_proposed a) +:+ "/" +:+
      num (ra_spec_accepted a) +:+ "/" +:+ num (ra_spec_rejected a);
    "  generated_tokens " +:+ num (ra_generated_tokens a);
    "  retries      " +:+ num (ra_retries a);
    "  attempt_count " +:+ size_to_string (ra_attempt_count a);
    "  failed_work_s " +:+ f2q (ra_failed_attempt_work a);
    "  cancelled_work_s " +:+ f2q (ra_cancelled_work a);
    "  recompute_s  " +:+ f2q (ra_recomputed_work a);
    "  reuse_avoided_s " +:+ f2q (ra_reuse_avoided_work a);
    "  reused_s     " +:+ f2q (ra_reused_work a);
    "  energy_j     " +:+ f2q (ra_energy_joules a);
    "  kernel_hits/misses " +:+ num (ra_kernel_hits a) +:+ "/" +:+ num (ra_kernel_misses a);
    "  graph_hits/misses " +:+ num (ra_graph_hits a) +:+ "/" +:+ num (ra_graph_misses a);
    "  waste_ratio  " +:+ f2 (waste_ratio a);
    "  reuse_credit " +:+ f2 (reuse_credit a) ].

(** [print_account_json]. *)
Definition account_json (a : RequestAccount) : list string :=
  [ "{"%string;
    json_field "request" (dquote +:+ to_string (ra_request a) +:+ dquote +:+ ",");
    json_field "outcome" (dquote +:+ ra_terminal_outcome a +:+ dquote +:+ ",");
    json_field "wall_latency_s" (f2q (ra_wall_latency_s a) +:+ ",");
    json_field "execution_s" (f2q (ra_execution_s a) +:+ ",");
    json_field "prefill_s" (f2q (ra_prefill_s a) +:+ ",");
    json_field "decode_s" (f2q (ra_decode_s a) +:+ ",");
    json_field "gpu_active_s" (f2q (ra_gpu_active_s a) +:+ ",");
    json_field "kv_allocated" (f2q (ra_kv_allocated a) +:+ ",");
    json_field "kv_reuse" (f2q (ra_kv_reuse a) +:+ ",");
    json_field "generated_tokens" (num (ra_generated_tokens a) +:+ ",");
    json_field "retries" (num (ra_retries a) +:+ ",");
    json_field "attempts" (size_to_string (ra_attempt_count a) +:+ ",");
    json_field "waste_ratio" (f2 (waste_ratio a) +:+ ",");
    json_field "reuse_credit" (f2 (reuse_credit a));
    "}"%string ].

(** [reconcile_request(query_ledger(snap, {.request = r}), r)]. *)
Definition account_of (snap : list LedgerEntry) (r : RequestId) : RequestAccount :=
  reconcile_request (query_ledger snap (query_default <| lq_request := Some r |>)) r.

(** ** Pricing policies *)

(** [std::getline] until the end of the stream: a last line without a newline counts
    when it is not empty. *)
Fixpoint getlines (line : string) (text : string) : list string :=
  match text with
  | EmptyString => match line with EmptyString => [] | _ => [line] end
  | String c rest =>
      if bool_decide (c = "010"%char) then line :: getlines EmptyString rest
      else getlines (line +:+ String c EmptyString) rest
  end.

(** [line.find('=')]: what is before it and after it. *)
Fixpoint cut_equals (line : string) : option (string * string) :=
  match line with
  | EmptyString => None
  | String c rest =>
      if bool_decide (c = "="%char) then Some (EmptyString, rest)
      else (fun '(k, v) => (String c k, v)) <$> cut_equals rest
  end.

(** One line of the file; [None] when [std::stod] throws. *)
Definition policy_line (p : PricingPolicy) (line : string) : option PricingPolicy :=
  match line with
  | EmptyString => Some p
  | String c _ =>
      if bool_decide (c = "#"%char) then Some p
      else match cut_equals line with
      | None => Some p
      | Some (k, text) =>
          match stod text with
          | Parsed v =>
              Some
               (if bool_decide (k = "gpu_per_second"%string) then p <| pp_rates ::= fun r => r <| gpu_per_second := v |> |>
                else if bool_decide (k = "cpu_per_second"%string) then p <| pp_rates ::= fun r => r <| cpu_per_second := v |> |>
                else if bool_decide (k = "memory_per_gib_second"%string)
                then p <| pp_rates ::= fun r => r <| memory_per_gib_second := v |> |>
                else if bool_decide (k = "transfer_per_gib"%string) then p <| pp_rates ::= fun r => r <| transfer_per_gib := v |> |>
                else if bool_decide (k = "energy_per_kwh"%string) then p <| pp_rates ::= fun r => r <| energy_per_kwh := v |> |>
                else if bool_decide (k = "persistent_cache_cost"%string)
                then p <| pp_rates ::= fun r => r <| persistent_cache_cost := v |> |>
                else if bool_decide (k = "currency"%string) then p <| pp_currency := text |>
                else p)
          | _ => None
          end
      end
  end.

Fixpoint policy_lines (p : PricingPolicy) (lines : list string) : option PricingPolicy :=
  match lines with
  | [] => Some p
  | line :: lines => match policy_line p line with Some p => policy_lines p lines | None => None end
  end.

(** [load_policy]; a file that cannot be opened has no lines. *)
Definition load_policy (path : string) (files : Files) : option PricingPolicy :=
  let text := match files !! path with Some bytes => String.string_of_list_byte bytes | None => EmptyString end in
  (fun p => p <| pp_id := MkId 0xCAFE 1 |>) <$>
    policy_lines (MkPricingPolicy id_zero 1 "usd" EmptyString rates_default) (getlines EmptyString text).

(** [cmd_cost]: lines on standard output and on standard error. *)
Definition cmd_cost (snap : list LedgerEntry) (reqhex : string) (policy : PricingPolicy)
    : list string * list string :=
  match parse reqhex with
  | None => ([], ["bad request id"%string])
  | Some req =>
      let c := apply_pricing (account_of snap req) policy in
      ([ "cost for request " +:+ reqhex +:+ " (" +:+ cr_currency c +:+ ")";
         "  useful_work    " +:+ f2 (cr_useful_work_cost c);
         "  wasted_work    " +:+ f2 (cr_wasted_work_cost c);
         "  retry_cost     " +:+ f2 (cr_retry_cost c);
         "  cancelled_cost " +:+ f2 (cr_cancelled_cost c);
         "  rejected_spec  " +:+ f2 (cr_rejected_spec_cost c);
         "  residency_cost " +:+ f2 (cr_residency_cost c);
         "  transfer_cost  " +:+ f2 (cr_transfer_cost c);
         "  energy_cost    " +:+ f2 (cr_energy_cost c);
         "  reuse_credit   " +:+ f2 (cr_reuse_credit c);
         "  total          " +:+ f2 (cost_total c);
         "  reconciles     " +:+ (if cost_reconciles c then "yes" else "no") ], [])
  end.

(** ** Commands on a loaded ledger *)

(** How a command ends, what it printed, and the files. *)
Record Cli := MkCli { cl_out : list string; cl_err : list string; cl_files : Files; cl_outcome : Outcome }.

Definition success (out : list string) (files : Files) : Cli := MkCli out [] files (Exit 0).
Definition refuse (err : string) (code : Z) (files : Files) : Cli := MkCli [] [err] files (Exit code).
Definition undefined (files : Files) : Cli := MkCli [] [] files Undefined.

Definition csv_line (e : LedgerEntry) : string :=
  to_string (e_id e) +:+ "," +:+ event_kind_name (e_event_kind e) +:+ "," +:+
  resource_kind_name (e_resource_kind e) +:+ "," +:+ f2q (e_quantity e) +:+ "," +:+
  unit_name (q_unit (e_quantity e)) +:+ "," +:+ provenance_name (q_provenance (e_quantity e)) +:+ "," +:+
  to_string (e_request e) +:+ "," +:+ to_string (e_attempt e) +:+ "," +:+
  num (value (au_epoch (e_authority e))) +:+ "," +:+ num (value (au_accounting_generation (e_authority e))).

Definition list_line (e : LedgerEntry) : string :=
  to_string (e_id e) +:+ " " +:+ event_kind_name (e_event_kind e) +:+ " " +:+
  resource_kind_name (e_resource_kind e) +:+ " " +:+ f2q (e_quantity e) +:+ " " +:+
  unit_name (q_unit (e_quantity e)) +:+ " req=" +:+ to_string (e_request e).

Definition cmd_list (snap : list LedgerEntry) (args : list string) : list string :=
  match args with
  | flag :: _ =>
      if bool_decide (flag = "--csv"%string)
      then "id,event,resource,value,unit,provenance,request,attempt,epoch,accounting_gen"%string :: (csv_line <$> snap)
      else list_line <$> snap
  | [] => list_line <$> snap
  end.

Definition explain_lines (snap : list LedgerEntry) (req : RequestId) : list string :=
  let acc := account_of snap req in
  [ "EXPLAIN request " +:+ to_string req;
    "  consumed:  gpu_active_s=" +:+ f2q (ra_gpu_active_s acc) +:+ " kv_alloc=" +:+ f2q (ra_kv_allocated acc) +:+
      " transfer=" +:+ f2 (q_value (ra_h2d_bytes acc) + q_value (ra_d2h_bytes acc))%D +:+ "B";
    "  time:      wall=" +:+ f2q (ra_wall_latency_s acc) +:+ "s prefill=" +:+ f2q (ra_prefill_s acc) +:+
      "s decode=" +:+ f2q (ra_decode_s acc) +:+ "s";
    "  useful:    generated_tokens=" +:+ num (ra_generated_tokens acc) +:+ " accepted_spec=" +:+
      num (ra_spec_accepted acc);
    "  wasted:    rejected_spec=" +:+ num (ra_spec_rejected acc) +:+ " failed_work_s=" +:+
      f2q (ra_failed_attempt_work acc) +:+ " cancelled_s=" +:+ f2q (ra_cancelled_work acc);
    "  reused:    kv_reuse=" +:+ f2q (ra_kv_reuse acc) +:+ "B reuse_credit=" +:+ f2 (reuse_credit acc);
    "  avoided:   reuse_avoided_s=" +:+ f2q (ra_reuse_avoided_work acc) +:+ " (derived/estimated)";
    "  provenance: aggregate=derived from " +:+ size_to_string (rr_entries (ra_reconcile acc)) +:+
      " entries across " +:+ size_to_string (ra_attempt_count acc) +:+ " attempt(s) via worker " +:+
      (match snap with [] => "?"%string | e :: _ => to_string (e_worker e) end);
    "  shared-cost policy: not applied at the request level (see batch)"%string ].

(** The loop over [snap] that fills [bykind]. *)
Definition countable (e : LedgerEntry) : Prop := q_unit (e_quantity e) = Bytes \/ q_unit (e_quantity e) = Count.

#[export] Instance countable_dec e : Decision (countable e) := _.

Definition resource_totals (snap : list LedgerEntry) : list (ResourceKind * double) :=
  fold_left (fun m e =>
    if decide (countable e)
    then StdMap.modify d0 (e_resource_kind e) (fun v => (v + q_value (e_quantity e))%D) m else m) snap [].

Definition cmd_resources (snap : list LedgerEntry) : list string :=
  (fun kv => resource_kind_name kv.1 +:+ " " +:+ f2 kv.2) <$> resource_totals snap.

(** [for (e : snap) if (e.x == *id) es.push_back(e)]: [*id] is evaluated per entry. *)
Definition entries_of {Tag} (member : LedgerEntry -> Id128 Tag) (id : option (Id128 Tag))
    (snap : list LedgerEntry) : option (list LedgerEntry) :=
  match snap, id with
  | [], _ => Some []
  | _, None => None
  | _, Some id => Some (filter (fun e => id_eqb (member e) id = true) snap)
  end.

Definition cmd_entity (cmd hex : string) (snap : list LedgerEntry) (files : Files) : Cli :=
  let es :=
    if bool_decide (cmd = "tenant"%string) then entries_of e_tenant (parse hex) snap
    else if bool_decide (cmd = "model"%string) then entries_of e_model (parse hex) snap
    else entries_of e_device (parse hex) snap in
  match es with
  | None => undefined files
  | Some es =>
      success ((cmd +:+ " " +:+ hex +:+ ": " +:+ size_to_string (length es) +:+ " entries") ::
            ((fun req =>
                let acc := account_of es req in
                "  req " +:+ to_string req +:+ " gpu_s=" +:+ f2q (ra_gpu_active_s acc) +:+ " tokens=" +:+
                num (ra_generated_tokens acc)) <$> distinct_requests es)) files
  end.

Definition batch_lines (hex : string) (ba : BatchAccount) : list string :=
  [ "batch " +:+ hex +:+ ": " +:+ size_to_string (length (ba_members ba)) +:+ " members";
    "  exec_s " +:+ f2 (ba_total_execution_s ba) +:+ " tokens " +:+ f2 (ba_total_generated_tokens ba) +:+
      " partial " +:+ (if ba_partial_completion ba then "1" else "0") ].

Definition waste_lines (hex : string) (acc : RequestAccount) : list string :=
  [ "waste for " +:+ hex;
    "  failed_work_s     " +:+ f2q (ra_failed_attempt_work acc);
    "  cancelled_work_s  " +:+ f2q (ra_cancelled_work acc);
    "  spec_rejected     " +:+ num (ra_spec_rejected acc);
    "  spec_wasted_s     " +:+ f2q (ra_spec_wasted_work_s acc);
    "  waste_ratio       " +:+ f2 (waste_ratio acc) ].

Definition reuse_lines (hex : string) (acc : RequestAccount) : list string :=
  [ "reuse for " +:+ hex;
    "  kv_reuse_bytes    " +:+ f2q (ra_kv_reuse acc);
    "  tensor_reuse      " +:+ f2q (ra_tensor_reuse acc);
    "  reuse_avoided_s   " +:+ f2q (ra_reuse_avoided_work acc);
    "  reused_s          " +:+ f2q (ra_reused_work acc);
    "  reuse_credit      " +:+ f2 (reuse_credit acc);
    "  reuse_rate        " +:+ f2 (reuse_rate acc) ].

Definition compare_lines (hexA hexB : string) (a b : RequestAccount) : list string :=
  [ "compare " +:+ hexA +:+ " vs " +:+ hexB;
    "  gpu_s        " +:+ f2q (ra_gpu_active_s a) +:+ " vs " +:+ f2q (ra_gpu_active_s b);
    "  tokens       " +:+ num (ra_generated_tokens a) +:+ " vs " +:+ num (ra_generated_tokens b);
    "  kv_allocated " +:+ f2q (ra_kv_allocated a) +:+ " vs " +:+ f2q (ra_kv_allocated b);
    "  kv_reuse     " +:+ f2q (ra_kv_reuse a) +:+ " vs " +:+ f2q (ra_kv_reuse b);
    "  retries      " +:+ num (ra_retries a) +:+ " vs " +:+ num (ra_retries b);
    "  waste_ratio  " +:+ f2 (waste_ratio a) +:+ " vs " +:+ f2 (waste_ratio b);
    "  reuse_credit " +:+ f2 (reuse_credit a) +:+ " vs " +:+ f2 (reuse_credit b) ].

(** The [replay] command. *)
Definition cmd_replay (path : string) (files : Files) : Cli :=
  match replay_into None (ledger_new (MkId 0x494C4544474552 1)) path files with
  | None => undefined files
  | Some (fresh, None) =>
      success ["replayed " +:+ size_to_string (ledger_size fresh) +:+ " entries; fingerprint " +:+
            fingerprint_to_string (ledger_fingerprint (snapshot fresh))] files
  | Some (_, Some err) => refuse ("replay: " +:+ err) 1 files
  end.

(** The [recover] command. *)
Definition cmd_recover (path : string) (files : Files) : Cli :=
  match recover path files with
  | None => undefined files
  | Some rec =>
      MkCli ["recover: " +:+ (if lr_ok rec then "ok" else lr_reason rec)] [] files
        (Exit (if lr_ok rec then 0 else 1))
  end.

Context `{FileIO, SystemPlatform}.

(** The [snapshot] command. *)
Definition cmd_snapshot (lr : LoadResult) (out : string) (files : Files) : Cli :=
  match save_snapshot (lr_entries lr) (lr_ledger_id lr) out files with
  | (files, None) => success ["saved " +:+ size_to_string (length (lr_entries lr)) +:+ " entries to " +:+ out] files
  | (files, Some err) => refuse ("save: " +:+ err) 1 files
  end.

(** [return std::system(command)]. *)
Definition launch (command : string) (files : Files) : Cli :=
  let l := system_run command files in MkCli (ln_out l) (ln_err l) (ln_files l) (Exit (ln_rc l)).

Definition one_of (cmd : string) (names : list string) : bool := bool_decide (cmd ∈ names).

(** The commands on a request that dereference [RequestId::parse] unchecked. *)
Definition with_request (hex : string) (files : Files) (k : RequestId -> Cli) : Cli :=
  match parse hex with Some req => k req | None => undefined files end.

(** The dispatch after the ledger is loaded; [args] is [argv] from index 3. *)
Definition dispatch (cmd path : string) (args : list string) (lr : LoadResult) (files : Files) : Cli :=
  let snap := lr_entries lr in
  if one_of cmd ["list"] then success (cmd_list snap args) files
  else if one_of cmd ["explain"] then
    match args with
    | [] => refuse "need request id" 2 files
    | hex :: _ => with_request hex files (fun req => success (explain_lines snap req) files)
    end
  else if one_of cmd ["request"] then
    match args with
    | [] => refuse "need request id" 2 files
    | hex :: more =>
        match parse hex with
        | None => refuse "bad request id" 2 files
        | Some req =>
            let acc := account_of snap req in
            let json := match more with flag :: _ => bool_decide (flag = "--json"%string) | [] => false end in
            success (if json then account_json acc else account_text acc) files
        end
    end
  else if one_of cmd ["resources"] then success (cmd_resources snap) files
  else if one_of cmd ["tenant"; "model"; "device"] then
    match args with
    | [] => refuse "need id" 2 files
    | hex :: _ => cmd_entity cmd hex snap files
    end
  else if one_of cmd ["batch"] then
    match args with
    | [] => refuse "need batch id" 2 files
    | hex :: _ =>
        match parse hex with
        | Some b => success (batch_lines hex (reconcile_batch snap b)) files
        | None => undefined files
        end
    end
  else if one_of cmd ["cost"; "pricing"] then
    match args with
    | hex :: flag :: file :: _ =>
        if bool_decide (flag = "--policy"%string) then
          match load_policy file files with
          | None => MkCli [] [] files Uncaught
          | Some p => let (out, err) := cmd_cost snap hex p in MkCli out err files (Exit 0)
          end
        else refuse "need --policy <file>" 2 files
    | _ => refuse "need --policy <file>" 2 files
    end
  else if one_of cmd ["waste"; "reuse"] then
    match args with
    | [] => refuse "need request id" 2 files
    | hex :: _ =>
        with_request hex files (fun req =>
          let acc := account_of snap req in
          success (if one_of cmd ["waste"] then waste_lines hex acc else reuse_lines hex acc) files)
    end
  else if one_of cmd ["compare"] then
    match args with
    | hexA :: hexB :: _ =>
        with_request hexA files (fun ra => with_request hexB files (fun rb =>
          success (compare_lines hexA hexB (account_of snap ra) (account_of snap rb)) files))
    | _ => refuse "need reqA reqB" 2 files
    end
  else if one_of cmd ["snapshot"; "save"] then
    match args with
    | [] => refuse "need output path" 2 files
    | out :: _ => cmd_snapshot lr out files
    end
  else if one_of cmd ["replay"] then cmd_replay path files
  else if one_of cmd ["recover"] then cmd_recover path files
  else if one_of cmd ["benchmark"] then launch ("iledger_benchmark.exe " +:+ path) files
  else refuse ("unknown command " +:+ cmd) 2 files.

Definition usage : list string :=
  [ "usage: iledger <subcommand> ...";
    "  list <ledger> [--csv]"; "  request <ledger> <request_id_hex> [--json]";
    "  explain <ledger> <request_id_hex>"; "  attempt <ledger> <attempt_id_hex>";
    "  tenant <ledger> <tenant_id_hex>"; "  model <ledger> <model_id_hex>";
    "  batch <ledger> <batch_id_hex>"; "  device <ledger> <device_id_hex>";
    "  resources <ledger> [--resource <kind>]"; "  cost <ledger> <request_id_hex> --policy <file>";
    "  pricing <ledger> <request_id_hex> --policy <file>"; "  waste <ledger> <request_id_hex>";
    "  reuse <ledger> <request_id_hex>"; "  compare <ledger> <reqA> <reqB> [--policy <file>]";
    "  snapshot <ledger> <out>"; "  replay <ledger>"; "  recover <ledger>"; "  multiprocess <dir>";
    "  cuda"; "  benchmark <ledger>" ]%string.

(** [main]. *)
Definition cli_main (argv : list string) (files : Files) : Cli :=
  match argv with
  | _ :: cmd :: rest =>
      if one_of cmd ["multiprocess"] then
        let dir := match rest with dir :: _ => dir | [] => "."%string end in
        launch ("iledger_multiprocess.exe " +:+ dir) files
      else if one_of cmd ["cuda"] then launch "iledger_cuda_proof.exe" files
      else if one_of cmd ["serve"; "worker"]
      then refuse "use the iledger_coordinator / iledger_worker executables" 2 files
      else match rest with
      | [] => refuse "missing ledger path" 2 files
      | path :: args =>
          match load path files with
          | None => undefined files
          | Some lr =>
              if negb (lr_ok lr) then refuse ("load: " +:+ lr_reason lr) 1 files
              else dispatch cmd path args lr files
          end
      end
  | _ => MkCli [] usage files (Exit 2)
  end.
End cli.
