(* ===== verification/CliProofs.v ===== *)
(** * Correctness of the command-line tool

    Which files a command can write, when it can run into undefined behaviour or an
    uncaught exception, that a snapshot answers every query as the ledger it was taken
    from, and what [resources] adds up. *)

From Stdlib Require Import Ascii Strings.Byte.
From stdpp Require Import base gmap sets list strings numbers pretty.
From S2P Require Import Prelude Float64 StdMap Identity Reader Kinds Entry Codec Crc CodecProofs.
From S2P Require Import Authority Ledger Account AccountProofs Pricing Batch Query Persistence.
From S2P Require Import PersistenceProofs Protocol ProtocolProofs Intake Text Sockets Worker Cli.
Open Scope Z_scope.

(** ** Dispatch *)

Lemma one_of_true cmd names : one_of cmd names = true <-> cmd ∈ names.
Proof. apply bool_decide_eq_true. Qed.


(** The commands that only read the ledger they are given. *)
Definition queries : list string :=
  ["list"; "explain"; "request"; "resources"; "tenant"; "model"; "device"; "batch"; "waste"; "reuse";
   "compare"; "replay"; "recover"]%string.

(** The commands that dereference an identity they did not check. *)
Definition unchecked : list string :=
  ["explain"; "tenant"; "model"; "device"; "batch"; "waste"; "reuse"; "compare"]%string.

Section cli.
Context `{TextPlatform, LlroundPlatform, FileIO, SystemPlatform}.







(** ** The only commands that write *)




(** ** Outcomes *)

(** An invocation ended with a code, or dereferenced an identity among these
    arguments that does not parse. *)
Definition ends (args : list string) (r : Cli) : Prop :=
  (exists code, cl_outcome r = Exit code) \/
  (cl_outcome r = Undefined /\ exists hex, hex ∈ args /\ @parse RequestIdTag hex = None).

Lemma ends_exit args r code : cl_outcome r = Exit code -> ends args r.
Proof. left. by exists code. Qed.

Lemma parse_tag T1 T2 s : @parse T1 s = None -> @parse T2 s = None.
Proof. unfold parse. destruct (negb _); [done|]. by destruct (parse_loop _ _ _ _). Qed.

Lemma with_request_ends hex args files k : hex ∈ args -> (forall r, ends args (k r)) ->
  ends args (with_request hex files k).
Proof.
  intros Hh Hk. unfold with_request. destruct (parse hex) eqn:E; [apply Hk|]. right. split; [done|]. by exists hex.
Qed.

Lemma entity_ends cmd hex more snap files : ends (hex :: more) (cmd_entity cmd hex snap files).
Proof.
  unfold cmd_entity.
  assert (forall T (m : LedgerEntry -> Id128 T), entries_of m (parse hex) snap = None -> @parse RequestIdTag hex = None)
    as Hn by (intros T m; unfold entries_of; destruct snap; [done|]; destruct (parse hex) eqn:E; [done|];
              intros _; by eapply parse_tag).
  repeat case_bool_decide;
    (destruct (entries_of _ _ _) eqn:E; [by eapply ends_exit|right; split; [done|]; exists hex; split; [left|by eapply Hn]]).
Qed.

Lemma replay_ends path files args : ends args (cmd_replay path files).
Proof.
  unfold cmd_replay, replay_into. destruct (load_defined path files) as [res ->].
  destruct (negb (lr_ok res)); [by eapply ends_exit|].
  destruct (replay_entries _ _ _) as [? []]; by eapply ends_exit.
Qed.

Lemma recover_ends path files args : ends args (cmd_recover path files).
Proof. unfold cmd_recover, recover. destruct (load_defined path files) as [res ->]. by eapply ends_exit. Qed.

Lemma snapshot_ends lr out files args : ends args (cmd_snapshot lr out files).
Proof. unfold cmd_snapshot. destruct (save_snapshot _ _ _ _) as [? []]; by eapply ends_exit. Qed.

Lemma dispatch_ends cmd path args lr files :
  (cmd ∈ unchecked /\ ends args (dispatch cmd path args lr files)) \/
  (exists code, cl_outcome (dispatch cmd path args lr files) = Exit code) \/
  (cmd ∈ ["cost"; "pricing"]%string /\ cl_outcome (dispatch cmd path args lr files) = Uncaught /\
   exists hex file more, args = hex :: "--policy"%string :: file :: more /\ load_policy file files = None).
Proof.
  assert (forall r, ends [] r -> exists code, cl_outcome r = Exit code) as Hnil.
  { intros r [?|[_ (x & Hx & _)]]; [done|]. by apply elem_of_nil in Hx. }
  unfold dispatch. cbv zeta. destruct (one_of cmd ["list"]) eqn:E1; [right; left; by eexists|].
  destruct (one_of cmd ["explain"]) eqn:E2.
  { left. apply one_of_true, list_elem_of_singleton in E2 as ->. split; [set_solver|].
    destruct args; [by eapply ends_exit|]. apply with_request_ends; [by left|]. intros. by eapply ends_exit. }
  destruct (one_of cmd ["request"]) eqn:E3.
  { right; left. destruct args; [by eexists|]. destruct (parse _); by eexists. }
  destruct (one_of cmd ["resources"]) eqn:E4; [right; left; by eexists|].
  destruct (one_of cmd ["tenant"; "model"; "device"]) eqn:E5.
  { left. apply one_of_true in E5. split; [set_solver|]. destruct args; [by eapply ends_exit|]. apply entity_ends. }
  destruct (one_of cmd ["batch"]) eqn:E6.
  { left. apply one_of_true in E6. split; [set_solver|]. destruct args as [|hex args]; [by eapply ends_exit|].
    destruct (parse hex) eqn:E; [by eapply ends_exit|]. right. split; [done|]. exists hex. split; [by left|by eapply parse_tag]. }
  destruct (one_of cmd ["cost"; "pricing"]) eqn:E7.
  { right. destruct args as [|hex [|flag [|file args]]]; try (left; by eexists).
    case_bool_decide as Hf; [|left; by eexists]. destruct (load_policy file files) eqn:El.
    - left. destruct (cmd_cost _ _ _). by eexists.
    - right. apply one_of_true in E7. split; [done|]. split; [done|]. exists hex, file, args. by subst. }
  destruct (one_of cmd ["waste"; "reuse"]) eqn:E8.
  { left. apply one_of_true in E8. split; [set_solver|]. destruct args; [by eapply ends_exit|].
    apply with_request_ends; [by left|]. intros. by eapply ends_exit. }
  destruct (one_of cmd ["compare"]) eqn:E9.
  { left. apply one_of_true in E9. split; [set_solver|]. destruct args as [|hexA [|hexB args]]; try (by eapply ends_exit).
    apply with_request_ends; [by left|]. intros ra. apply with_request_ends; [by right; left|]. intros. by eapply ends_exit. }
  destruct (one_of cmd ["snapshot"; "save"]); [right; left; destruct args; [by eexists|]; apply Hnil, snapshot_ends|].
  destruct (one_of cmd ["replay"]); [right; left; apply Hnil, replay_ends|].
  destruct (one_of cmd ["recover"]); [right; left; apply Hnil, recover_ends|].
  destruct (one_of cmd ["benchmark"]); right; left; by eexists.
Qed.

(** C28: how the tool ends: with an exit code on every command line and every file,
    except that a command which does not check its identity argument dereferences an
    empty optional when that argument does not parse, and that [cost] and [pricing]
    end in an uncaught exception when the policy file does not load. Loading a ledger
    never reads outside it and always ends. *)
Theorem cli_outcomes argv files :
  (exists code, cl_outcome (cli_main argv files) = Exit code) \/
  (cl_outcome (cli_main argv files) = Undefined /\
   exists prog cmd path args hex, argv = prog :: cmd :: path :: args /\ cmd ∈ unchecked /\ hex ∈ args /\
     @parse RequestIdTag hex = None) \/
  (cl_outcome (cli_main argv files) = Uncaught /\
   exists prog cmd path hex file more, argv = prog :: cmd :: path :: hex :: "--policy"%string :: file :: more /\
     cmd ∈ ["cost"; "pricing"]%string /\ load_policy file files = None).
Proof.
  destruct argv as [|prog [|cmd rest]]; try (left; by eexists). cbn [cli_main].
  destruct (one_of cmd ["multiprocess"]); [left; by eexists|]. destruct (one_of cmd ["cuda"]); [left; by eexists|].
  destruct (one_of cmd ["serve"; "worker"]); [left; by eexists|]. destruct rest as [|path args]; [left; by eexists|].
  destruct (load_defined path files) as [lr ->]. destruct (negb (lr_ok lr)); [left; by eexists|].
  destruct (dispatch_ends cmd path args lr files) as [[Hc [?|[Ho (hex & Hh & Hp)]]]|[?|(Hc & Ho & hex & file & more & -> & Hl)]].
  - by left.
  - right; left. split; [done|]. by exists prog, cmd, path, args, hex.
  - by left.
  - right; right. split; [done|]. by exists prog, cmd, path, hex, file, more.
Qed.

(** ** A snapshot answers as the ledger did *)

(** Two invocations that say and return the same. *)
Definition same_answer (a b : Cli) : Prop :=
  cl_out a = cl_out b /\ cl_err a = cl_err b /\ cl_outcome a = cl_outcome b.

Lemma with_request_same hex files files' k k' : (forall r, same_answer (k r) (k' r)) ->
  same_answer (with_request hex files k) (with_request hex files' k').
Proof. intros Hk. unfold with_request. by destruct (parse hex). Qed.

Lemma entity_same cmd hex snap files files' :
  same_answer (cmd_entity cmd hex snap files) (cmd_entity cmd hex snap files').
Proof. unfold cmd_entity. repeat case_bool_decide; by destruct (entries_of _ _ _). Qed.

Lemma replay_same path path' files files' : load path files = load path' files' ->
  same_answer (cmd_replay path files) (cmd_replay path' files').
Proof.
  intros Hl. unfold cmd_replay, replay_into. rewrite Hl. destruct (load path' files') as [res|]; [|done].
  destruct (negb (lr_ok res)); [done|]. by destruct (replay_entries _ _ _) as [? []].
Qed.

Lemma recover_same path path' files files' : load path files = load path' files' ->
  same_answer (cmd_recover path files) (cmd_recover path' files').
Proof. intros Hl. unfold cmd_recover, recover. rewrite Hl. by destruct (load path' files'). Qed.

Lemma dispatch_same cmd path path' args lr files files' : cmd ∈ queries -> load path files = load path' files' ->
  same_answer (dispatch cmd path args lr files) (dispatch cmd path' args lr files').
Proof.
  intros Hc Hl. unfold dispatch. cbv zeta.
  destruct (one_of cmd ["list"]); [done|].
  destruct (one_of cmd ["explain"]); [destruct args; [done|by apply with_request_same]|].
  destruct (one_of cmd ["request"]); [destruct args; [done|by destruct (parse _)]|].
  destruct (one_of cmd ["resources"]); [done|].
  destruct (one_of cmd ["tenant"; "model"; "device"]); [destruct args; [done|apply entity_same]|].
  destruct (one_of cmd ["batch"]); [destruct args; [done|by destruct (parse _)]|].
  destruct (one_of cmd ["cost"; "pricing"]) eqn:E; [apply one_of_true in E; by set_solver|].
  destruct (one_of cmd ["waste"; "reuse"]); [destruct args; [done|by apply with_request_same]|].
  destruct (one_of cmd ["compare"]).
  { destruct args as [|? [|? args]]; [done..|]. apply with_request_same. intros r. by apply with_request_same. }
  destruct (one_of cmd ["snapshot"; "save"]) eqn:E2; [apply one_of_true in E2; by set_solver|].
  destruct (one_of cmd ["replay"]); [by apply replay_same|].
  destruct (one_of cmd ["recover"]); [by apply recover_same|].
  destruct (one_of cmd ["benchmark"]) eqn:E3; [apply one_of_true in E3; by set_solver|done].
Qed.

(** A saved snapshot loads exactly as the ledger it was taken from. *)
Lemma snapshot_loads lr path out files files' : load path files = Some lr -> lr_ok lr = true ->
  save_snapshot (lr_entries lr) (lr_ledger_id lr) out files = (files', None) -> load out files' = Some lr.
Proof.
  intros Hl Hok [-> Hc]%save_snapshot_ok. destruct (load_sound _ _ _ Hl Hok) as (Hid & Hwf & Hf & Hnd & Heq).
  unfold load. rewrite lookup_insert_eq, load_bytes_snapshot; [| done | |done].
  - f_equal. etransitivity; [|symmetry; exact Heq]. f_equal.
    apply list_eq. intros i. rewrite list_lookup_fmap. destruct (lr_entries lr !! i) as [e|] eqn:E; [|done]. simpl.
    rewrite list.Forall_forall in Hwf. f_equal. apply Hwf. by eapply list_elem_of_lookup_2.
  - rewrite list.Forall_forall in Hwf, Hf, Hc |- *. intros e He. constructor; [by apply Hwf|by apply Hf|by apply Hc].
Qed.

(** C27: taking a snapshot loses nothing that can be asked: when [snapshot] exits with
    code 0, every query command answers on the snapshot exactly as on the original
    ledger, same output, same errors, same exit code, with the same arguments. *)
Theorem snapshot_answers prog path out more files cmd args :
  let saved := cli_main (prog :: "snapshot"%string :: path :: out :: more) files in
  cl_outcome saved = Exit 0 -> cmd ∈ queries ->
  same_answer (cli_main (prog :: cmd :: out :: args) (cl_files saved))
              (cli_main (prog :: cmd :: path :: args) files).
Proof.
  intros saved Ho Hc.
  assert (exists lr, load path files = Some lr /\ lr_ok lr = true /\ load out (cl_files saved) = Some lr)
    as (lr & Hl & Hok & Hl').
  { revert Ho. unfold saved.
    change (cli_main (prog :: "snapshot"%string :: path :: out :: more) files) with
      (match load path files with
       | None => undefined files
       | Some lr => if negb (lr_ok lr) then refuse ("load: " +:+ lr_reason lr) 1 files else cmd_snapshot lr out files
       end).
    destruct (load path files) as [lr|] eqn:Hl; [|done]. destruct (lr_ok lr) eqn:Hok; cbn [negb]; [|done].
    unfold cmd_snapshot. destruct (save_snapshot _ _ _ _) as [files' [err|]] eqn:Es; [done|]. intros _.
    exists lr. split; [done|]. split; [done|]. by apply (snapshot_loads lr path out files files'). }
  clearbody saved. cbn [cli_main]. rewrite Hl, Hl', Hok. cbn [negb].
  destruct (one_of cmd ["multiprocess"]) eqn:E; [apply one_of_true in E; by set_solver|].
  destruct (one_of cmd ["cuda"]) eqn:E'; [apply one_of_true in E'; by set_solver|].
  destruct (one_of cmd ["serve"; "worker"]); [done|].
  apply dispatch_same; [done|]. by rewrite Hl, Hl'.
Qed.

(** ** What [resources] adds up *)

Lemma resource_totals_group snap :
  resource_totals snap =
  StdMap.group_by e_resource_kind (fun e v => (v + q_value (e_quantity e))%D) d0 (filter countable snap) [].
Proof.
  unfold resource_totals, StdMap.group_by. generalize (@nil (ResourceKind * double)).
  induction snap as [|e snap IH]; intros m; [done|]. cbn [fold_left]. rewrite IH, filter_cons.
  by destruct (decide (countable e)).
Qed.

(** [resources] prints one line per resource kind that occurs in a record counted
    in bytes or units, in the order of the enumeration, each with the sum of exactly
    those records' values, added from zero in ledger order. *)
Theorem resources_totals snap :
  cmd_resources snap = (fun kv => resource_kind_name kv.1 +:+ " " +:+ f2 kv.2) <$> resource_totals snap /\
  StdMap.sorted (resource_totals snap) /\
  (forall k, StdMap.find k (resource_totals snap) =
     match filter (fun e => e_resource_kind e = k) (filter countable snap) with
     | [] => None
     | mine => Some (dsum ((fun e => q_value (e_quantity e)) <$> mine))
     end).
Proof.
  split; [done|]. rewrite resource_totals_group. split; [by apply StdMap.group_by_sorted|].
  intros k. rewrite StdMap.find_group_by by done. destruct (filter _ (filter countable snap)) as [|e es]; [done|].
  f_equal. cbn [StdMap.find default]. unfold dsum, dsum_from. generalize d0. generalize (e :: es).
  intros l. induction l as [|x l IH]; intros v; [done|]. cbn [fold_left fmap list_fmap]. apply IH.
Qed.

(** ** Behaviour worth knowing *)

(** A policy file with a [currency] line whose value is no number does not load: the
    value goes through [std::stod] before the key is looked at. *)
Lemma currency_line_throws p lines : policy_lines p ("currency=usd"%string :: lines) = None.
Proof. done. Qed.

(** [cost] reports a request identity that does not parse, and exits with code 0. *)
Lemma cost_bad_id snap hex policy : @parse RequestIdTag hex = None ->
  cmd_cost snap hex policy = ([], ["bad request id"%string]).
Proof. intros Hp. unfold cmd_cost. by rewrite Hp. Qed.

(** [attempt], which the usage text lists, is not a command. *)
Lemma attempt_unknown path args lr files :
  dispatch "attempt" path args lr files = refuse "unknown command attempt" 2 files.
Proof. done. Qed.

(** [recover] never reports a damaged ledger: the tool has given up before. *)
Lemma recover_ok prog path args files :
  let r := cli_main (prog :: "recover"%string :: path :: args) files in
  cl_out r = ["recover: ok"%string] \/ (cl_out r = [] /\ cl_outcome r <> Exit 0).
Proof.
  change (cli_main (prog :: "recover"%string :: path :: args) files) with
    (match load path files with
     | None => undefined files
     | Some lr => if negb (lr_ok lr) then refuse ("load: " +:+ lr_reason lr) 1 files else cmd_recover path files
     end).
  unfold cmd_recover, recover. destruct (load path files) as [lr|] eqn:E; [|by right].
  destruct (lr_ok lr) eqn:Hok; cbn [negb]; [|by right]. left. rewrite ?E, ?Hok. done.
Qed.
End cli.

(** ** [json_escape] *)

Fixpoint json_unescape (s : string) : string :=
  match s with
  | EmptyString => EmptyString
  | String c rest =>
      if bool_decide (c = "\"%char)
      then match rest with EmptyString => s | String c' rest => String c' (json_unescape rest) end
      else String c (json_unescape rest)
  end.

(** What is escaped can be read back. *)
Lemma json_unescape_escape s : json_unescape (json_escape s) = s.
Proof.
  induction s as [|c s IH]; [done|]. cbn [json_escape].
  destruct (bool_decide (c = "034"%char) || bool_decide (c = "\"%char)) eqn:E; cbn [json_unescape].
  - by rewrite bool_decide_true, IH.
  - apply orb_false_iff in E as [_ E]. by rewrite E, IH.
Qed.

(** ** Witnesses *)

Definition sample_text : TextPlatform := {| nan_text := "nan"; underflow_is_range_error := fun _ => false |}.

Definition sample_system : SystemPlatform := fun _ files => MkLaunched [] [] files 0.

Definition sample_cli (argv : list string) (files : Files) : Cli :=
  @cli_main sample_text (fun _ => 0) reliable_io sample_system argv files.

Lemma snapshot_answers_witness :
  same_answer
    (sample_cli ["iledger"; "replay"; "copy.bin"]%string
       (cl_files (sample_cli ["iledger"; "snapshot"; "ledger.bin"; "copy.bin"]%string sample_files)))
    (sample_cli ["iledger"; "replay"; "ledger.bin"]%string sample_files).
Proof.
  refine (@snapshot_answers sample_text (fun _ => 0) reliable_io sample_system "iledger" "ledger.bin" "copy.bin" []
            sample_files "replay" [] _ _).
  - by vm_compute.
  - refine (bool_decide_unpack _ _). by vm_compute.
Defined.
