(* ===== verification/Benchmark.v ===== *)
(** * The benchmark (tools/iledger_benchmark.cpp)

    [main] of the benchmark: the synthetic data set, the stages it times, and what it
    prints. The clock is a parameter, and so is the order in which the eight ingesting
    threads get the ledger's mutex: any order that is made of their stripes. *)

From Stdlib Require Import Strings.Byte Permutation.
From stdpp Require Import base gmap sets list strings numbers pretty.
From S2P Require Import Prelude Float64 StdMap Identity Reader Kinds Entry Codec Crc CodecProofs.
From S2P Require Import Authority Ledger Account AccountProofs Pricing Batch Query Persistence.
From S2P Require Import PersistenceProofs Protocol ProtocolProofs Intake Text Sockets Worker.
Open Scope Z_scope.

(** ** Building entries (tests/support.hpp) *)

Definition make (id : LedgerEntryId) (req : RequestId) (attempt : AttemptId) (kind : EventKind)
    (rk : ResourceKind) (v : double) (unit : Unit) (prov : Provenance) (has_end : bool) (s e : Z)
    (ledger : LedgerId) (tenant : TenantId) (worker : WorkerId) (boot : WorkerBootId)
    (epoch : CoordinatorEpoch) (rg : RequestGeneration) (atg : AttemptGeneration)
    (ag : AccountingGeneration) (disp : DispatchId) : LedgerEntry :=
  entry_default
    <| e_id := id |> <| e_ledger := ledger |> <| e_tenant := tenant |> <| e_workload := MkId 0x88 1 |>
    <| e_request := req |> <| e_model := MkId 0x77 1 |> <| e_model_revision := MkId 0x77 2 |>
    <| e_attempt := attempt |> <| e_dispatch := disp |> <| e_worker := worker |>
    <| e_node := MkId 0x6002 1 |> <| e_device := MkId 0x6001 1 |>
    <| e_event_kind := kind |> <| e_resource_kind := rk |> <| e_quantity := MkQuantity v unit prov |>
    <| e_start_ts_ns := s |> <| e_end_ts_ns := e |> <| e_has_end := has_end |>
    <| e_source := MkSourceIdentity worker boot ag |>
    <| e_authority := MkAuthorityEnvelope epoch boot rg ag attempt atg disp |>.

(** ** The data set *)

Definition LID : LedgerId := MkId 0x494C4544474552 1.
Definition kRequests : nat := 2000.
Definition perReq : nat := 50.

(** The entry of request [r] and position [i], the [seq]-th to be made. *)
Definition bench_entry (seq : nat) (ri : nat * nat) : LedgerEntry :=
  let r := Z.of_nat ri.1 in
  let i := Z.of_nat ri.2 in
  let odd := negb (i mod 2 =? 0) in
  (make (MkId (Z.of_nat seq) 1) (MkId (wrap 64 (r + 1)) 1) (MkId (wrap 64 (r + 1)) 1)
    (if odd then GpuExecution else Decode) RCompute
    (if odd then (d1 / d_of_Z 100)%D else d_of_Z 8) (if odd then Seconds else Count)
    Measured true (1000 + i * 10) (1200 + i * 10) LID (MkId 0x99 1) (MkId 0xAA 1) (MkId 0xB007 1)
    (MkGen 1) (MkGen 1) (MkGen 1) (MkGen 1) (MkId 0x3001 1))
  <| e_metadata := [("batch"%string,
       if r mod 10 =? 0 then to_string (MkId 0xB 1 : BatchId) else to_string (MkId 0xA 1 : BatchId))] |>.

(** The two loops: requests, and their entries; [seq] counts up from one. *)
Definition bench_pairs (requests per : nat) : list (nat * nat) :=
  mjoin ((fun r => (fun i => (r, i)) <$> seq 0 per) <$> seq 0 requests).

Definition synthetic (requests per : nat) : list LedgerEntry :=
  imap (fun k ri => bench_entry (S k) ri) (bench_pairs requests per).

(** ** The stages *)

(** [for (e : entries) ledger.append(e)] on a detached ledger. *)
Definition ingest (entries : list LedgerEntry) : Ledger := (append_all None (ledger_new LID) entries).1.

Definition bench_found (l : Ledger) (entries : list LedgerEntry) : Z :=
  fold_left (fun found e => match find l (e_id e) with Some _ => wrap 64 (found + 1) | None => found end) entries 0.

(** The indices of one ingesting thread: [for (i = th; i < n; i += 8)]. *)
Fixpoint stripe (fuel i n : nat) : list nat :=
  match fuel with
  | O => []
  | S fuel => if (i <? n)%nat then i :: stripe fuel (i + 8) n else []
  end.

Definition stripes (n : nat) : list (list nat) := (fun th => stripe n th n) <$> seq 0 8.

(** The appends of the threads in the order in which they get the mutex. *)
Definition ingest_in_order (entries : list LedgerEntry) (order : list nat) : Ledger :=
  ingest (omap (fun i => entries !! i) order).

Section bench.
Context `{LlroundPlatform}.

Definition bench_account (snap : list LedgerEntry) (req : RequestId) : RequestAccount :=
  reconcile_request (query_ledger snap (query_default <| lq_request := Some req |>)) req.

Definition bench_recon (snap : list LedgerEntry) : nat :=
  fold_left (fun recon req => (recon + rr_entries (ra_reconcile (bench_account snap req)))%nat)
    (distinct_requests snap) 0%nat.

Definition bench_accounts (snap : list LedgerEntry) : list RequestAccount :=
  bench_account snap <$> distinct_requests snap.

Definition bench_bytes (entries : list LedgerEntry) : Z :=
  fold_left (fun bytes e => match encode_entry e with
                            | Some fr => wrap 64 (bytes + Z.of_nat (length fr))
                            | None => bytes end) entries 0.

Definition bench_decoded (entries : list LedgerEntry) : nat :=
  fold_left (fun decoded e => match encode_entry e with
                              | Some fr => match decode_entry fr with Decoded _ _ => S decoded | _ => decoded end
                              | None => decoded end) entries 0%nat.

Definition bench_policy : PricingPolicy :=
  MkPricingPolicy (MkId 0xCAFE 1) 1 "usd" EmptyString
    (rates_default <| gpu_per_second := d1 |> <| transfer_per_gib := (d1 / d_of_Z 10)%D |>).

Definition bench_cost (accounts : list RequestAccount) : double :=
  fold_left (fun cost a => (cost + cost_total (apply_pricing a bench_policy))%D) accounts d0.

(** ** [main] *)

Context `{TextPlatform, FileIO}.

(** From the data set on; [elapsed i] is the time of the [i]-th stage in ms. *)
Definition bench_run (entries : list LedgerEntry) (elapsed : nat -> double) (order : list nat) (files : Files)
    : list string * Files :=
  let n := size_to_string (length entries) in
  let ms i := f2 (elapsed i) in
  let ledger := ingest entries in
  let snap := snapshot ledger in
  let accounts := bench_accounts snap in
  let agg := aggregate_accounts accounts in
  let ba := reconcile_batch snap (MkId 0xB 1) in
  let tmp := "bench_ledger.db"%string in
  let '(files, _) := save_snapshot snap LID tmp files in
  let ok := match load tmp files with Some rl => lr_ok rl | None => false end in
  let files := delete tmp files in
  let fresh := ingest snap in
  let conc := ingest_in_order entries order in
  ([ "append: " +:+ n +:+ " in " +:+ ms 0%nat +:+ " ms (" +:+
       f2 (d_of_Z (Z.of_nat (length entries)) / (elapsed 0%nat / d_of_Z 1000))%D +:+ " entries/s)";
     "indexed lookup: " +:+ num (bench_found ledger entries) +:+ "/" +:+ n +:+ " in " +:+ ms 1%nat +:+ " ms";
     "request reconstruction: " +:+ size_to_string (bench_recon snap) +:+ " entries accounted in " +:+
       ms 2%nat +:+ " ms";
     "aggregate: " +:+ size_to_string (length accounts) +:+ " accounts in " +:+ ms 3%nat +:+
       " ms; cost/token=" +:+ f2 (ag_cost_per_token agg) +:+ " gpu_s/token=" +:+ f2 (ag_gpu_seconds_per_token agg);
     "batch reconcile (batch_id b1): " +:+ size_to_string (length (ba_members ba)) +:+ " members in " +:+
       ms 4%nat +:+ " ms";
     "binary encode: " +:+ n +:+ " entries -> " +:+ num (Z.shiftr (bench_bytes entries) 10) +:+ " KiB in " +:+
       ms 5%nat +:+ " ms";
     "binary encode+decode: " +:+ size_to_string (bench_decoded entries) +:+ " round-trips in " +:+ ms 6%nat +:+ " ms";
     "persistence save: " +:+ ms 7%nat +:+ " ms; reload: " +:+ ms 8%nat +:+ " ms; ok=" +:+ (if ok then "1" else "0");
     "pricing recompute: " +:+ size_to_string (length accounts) +:+ " in " +:+ ms 9%nat +:+ " ms; total=" +:+
       f2 (bench_cost accounts);
     "replay (fresh append): " +:+ size_to_string (ledger_size fresh) +:+ " in " +:+ ms 10%nat +:+ " ms";
     "concurrent ingestion (8 threads): " +:+ size_to_string (ledger_size conc) +:+ " in " +:+ ms 11%nat +:+ " ms";
     "BENCHMARK_DONE"%string ], files).

Definition bench_main (argv : list string) (elapsed : nat -> double) (order : list nat) (files : Files)
    : list string * list string * Files * Outcome :=
  let path := match argv with _ :: path :: _ => path | _ => EmptyString end in
  if bool_decide (path = EmptyString) then
    let entries := synthetic kRequests perReq in
    let '(lines, files) := bench_run entries elapsed order files in
    (("synthetic dataset: " +:+ size_to_string (length entries) +:+ " entries, " +:+ num (Z.of_nat kRequests) +:+
      " requests (" +:+ num (Z.of_nat perReq) +:+ " each)") :: lines, [], files, Exit 0)
  else match load path files with
  | None => ([], [], files, Undefined)
  | Some lr =>
      if negb (lr_ok lr) then ([], ["load: " +:+ lr_reason lr], files, Exit 1)
      else
        let '(lines, files) := bench_run (lr_entries lr) elapsed order files in
        (("using loaded ledger '" +:+ path +:+ "' with " +:+ size_to_string (length (lr_entries lr)) +:+ " entries")
           :: lines, [], files, Exit 0)
  end.
End bench.

(** ** The stripes *)

Lemma stripe_elem fuel i n x : (n <= i + 8 * fuel)%nat ->
  x ∈ stripe fuel i n <-> (i <= x < n /\ (x - i) mod 8 = 0)%nat.
Proof.
  revert i. induction fuel as [|fuel IH]; intros i Hf; cbn [stripe].
  - rewrite elem_of_nil. lia.
  - destruct (Nat.ltb_spec i n); [|rewrite elem_of_nil; lia].
    rewrite elem_of_cons, IH by lia. split.
    + intros [->|[Hx Hm]]; [rewrite Nat.sub_diag; simpl; lia|]. split; [lia|].
      replace (x - i)%nat with (x - (i + 8) + 1 * 8)%nat by lia. by rewrite Nat.Div0.mod_add.
    + intros [Hx Hm]. destruct (decide (x = i)) as [->|Hne]; [by left|right].
      pose proof (Nat.div_mod (x - i) 8 ltac:(lia)) as Hd. rewrite Hm in Hd.
      assert (1 <= (x - i) / 8)%nat by lia. split; [lia|].
      replace (x - i)%nat with (x - (i + 8) + 1 * 8)%nat in Hm by lia. by rewrite Nat.Div0.mod_add in Hm.
Qed.

Lemma stripe_NoDup fuel i n : (n <= i + 8 * fuel)%nat -> NoDup (stripe fuel i n).
Proof.
  revert i. induction fuel as [|fuel IH]; intros i Hf; cbn [stripe]; [constructor|].
  destruct (Nat.ltb_spec i n); [|constructor]. constructor; [|apply IH; lia].
  rewrite stripe_elem by lia. lia.
Qed.

(** Every index is ingested by exactly one thread. *)
Lemma stripes_partition n : mjoin (stripes n) ≡ₚ seq 0 n.
Proof.
  assert (forall th x, (th < 8)%nat -> x ∈ stripe n th n <-> (x < n /\ x mod 8 = th)%nat) as Hs.
  { intros th x Ht. rewrite stripe_elem by lia.
    pose proof (Nat.div_mod x 8 ltac:(lia)). pose proof (Nat.mod_upper_bound x 8 ltac:(lia)).
    split; intros [Hx Hm].
    - split; [lia|]. pose proof (Nat.div_mod (x - th) 8 ltac:(lia)) as Hd. rewrite Hm in Hd.
      replace x with (th + ((x - th) / 8) * 8)%nat by lia. rewrite Nat.Div0.mod_add. by apply Nat.mod_small.
    - subst th. split; [lia|]. replace (x - x mod 8)%nat with (0 + (x / 8) * 8)%nat by lia. by rewrite Nat.Div0.mod_add. }
  apply NoDup_Permutation; [|apply NoDup_seq|].
  - unfold stripes. assert (forall l, NoDup l -> Forall (fun th => (th < 8)%nat) l ->
      NoDup (mjoin ((fun th => stripe n th n) <$> l))) as Hl.
    { induction 1 as [|th l Hth _ IH]; intros Hall; [constructor|]. apply list.Forall_cons in Hall as [Ht Hall].
      cbn [fmap list_fmap mjoin list_join]. apply list.NoDup_app. split; [apply stripe_NoDup; lia|].
      split; [|by apply IH]. intros x Hx Hx'. apply Hs in Hx as [_ Hm]; [|done].
      apply list_elem_of_join in Hx' as (l' & Hxl & (th' & -> & Hin)%list_elem_of_fmap).
      rewrite list.Forall_forall in Hall. apply Hs in Hxl as [_ Hm']; [|by apply Hall]. congruence. }
    apply Hl; [apply NoDup_seq|]. apply list.Forall_forall. intros th Ht%elem_of_seq. lia.
  - intros x. rewrite elem_of_seq, list_elem_of_join. split.
    + intros (l & Hx & (th & -> & Ht%elem_of_seq)%list_elem_of_fmap). apply Hs in Hx; lia.
    + intros Hx. exists (stripe n (x mod 8) n). pose proof (Nat.mod_upper_bound x 8 ltac:(lia)).
      split; [apply Hs; lia|]. apply list_elem_of_fmap. exists (x mod 8)%nat. split; [done|]. apply elem_of_seq. lia.
Qed.

(** ** What the stages count *)

(** Distinct records that can be stored: what the synthetic set is made of, and what a
    ledger holds. *)
Definition measurable (entries : list LedgerEntry) : Prop :=
  Forall storable entries /\ NoDup (e_id <$> entries).

Lemma measurable_perm es es' : es ≡ₚ es' -> measurable es -> measurable es'.
Proof. intros Hp [Hs Hn]. split; [by rewrite <- Hp|]. by rewrite <- Hp. Qed.

Lemma ingest_all es : measurable es -> lg_entries (ingest es) = es /\ ledger_wf (ingest es).
Proof.
  intros [Hs Hn]. unfold ingest. split; [|apply append_all_wf, ledger_new_wf].
  apply (append_all_fresh (ledger_new LID) es); [apply ledger_new_wf| |done].
  eapply list.Forall_impl; [exact Hs|]. intros e [_ _ Hc]. by rewrite content_is_valid_encode_checks.
Qed.

Lemma bench_found_all es : measurable es -> bench_found (ingest es) es = wrap 64 (Z.of_nat (length es)).
Proof.
  intros Hm. destruct (ingest_all es Hm) as [He Hwf]. unfold bench_found.
  assert (forall l found, Forall (fun e => e ∈ es) l -> 
    fold_left (fun found e => match find (ingest es) (e_id e) with Some _ => wrap 64 (found + 1) | None => found end) l found =
    fold_left (fun x (_ : LedgerEntry) => wrap 64 (x + 1)) l found) as Hl.
  { induction l as [|e l IH]; intros found Hall; [done|]. apply list.Forall_cons in Hall as [Hin Hall]. cbn [fold_left].
    assert (find (ingest es) (e_id e) = Some e) as -> by (apply find_Some_iff; [done|by rewrite He]). by apply IH. }
  rewrite Hl by by apply list.Forall_forall. rewrite (fold_left_wrap (fun _ => 1)) by done. f_equal.
  clear. induction es as [|e es IH]; [done|]. cbn [fmap list_fmap zsum foldr length] in *. unfold zsum in IH. lia.
Qed.

Lemma bench_decoded_all es : Forall storable es -> bench_decoded es = length es.
Proof.
  intros Hall. unfold bench_decoded. enough (forall n, fold_left (fun decoded e => match encode_entry e with
    | Some fr => match decode_entry fr with Decoded _ _ => S decoded | _ => decoded end
    | None => decoded end) es n = (n + length es)%nat) as -> by done.
  induction Hall as [|e es He _ IH]; intros n; [simpl; lia|]. cbn [fold_left length].
  rewrite encode_entry_storable by done. destruct He as [Hw Hf Hc].
  rewrite <- (app_nil_r (frame (entry_payload e))), decode_entry_frame by apply Hf.
  rewrite decode_payload_entry_payload by done. rewrite IH. lia.
Qed.

Lemma omap_lookup_seq {A} (l k : list A) : omap (fun i => (k ++ l) !! i) (seq (length k) (length l)) = l.
Proof.
  revert k. induction l as [|x l IH]; intros k; [done|]. cbn [length seq omap list_omap].
  rewrite list_lookup_middle by done. f_equal.
  specialize (IH (k ++ [x])). rewrite length_app in IH. cbn [length] in IH.
  rewrite <- (assoc_L (++)), Nat.add_1_r in IH. exact IH.
Qed.

Lemma ingest_in_order_all es order : measurable es -> order ≡ₚ mjoin (stripes (length es)) ->
  lg_entries (ingest_in_order es order) ≡ₚ es.
Proof.
  intros Hm Ho. unfold ingest_in_order.
  assert (omap (fun i => es !! i) order ≡ₚ es) as Hp.
  { rewrite Ho, stripes_partition. pose proof (omap_lookup_seq es []) as Hx. cbn [length app] in Hx. by rewrite Hx. }
  rewrite (proj1 (ingest_all _ (measurable_perm _ _ (symmetry Hp) Hm))). exact Hp.
Qed.

(** *** Encoding, saving and pricing *)

Lemma bench_bytes_all es : Forall storable es ->
  bench_bytes es = wrap 64 (zsum ((fun e => Z.of_nat (length (frame (entry_payload e)))) <$> es)).
Proof.
  intros Hall. rewrite <- (Z.add_0_l (zsum _)), <- (fold_left_wrap _ es 0) by done.
  unfold bench_bytes. generalize 0. induction Hall as [|e es He _ IH]; intros z; [done|].
  cbn [fold_left]. rewrite encode_entry_storable by done. apply IH.
Qed.

Lemma bench_saved_loads `{FileIO} es path files : measurable es ->
  (save_snapshot es LID path files).2 = None ->
  load path (save_snapshot es LID path files).1 = Some (loaded LID (canonical <$> es)).
Proof.
  intros [Hs Hn]. destruct (save_snapshot es LID path files) as [files' err] eqn:E. cbn [fst snd]. intros ->.
  apply save_snapshot_ok in E as [-> _]. unfold load. rewrite lookup_insert_eq.
  apply load_bytes_snapshot; [|done|done]. unfold id_wf, in_width, LID; simpl; lia.
Qed.

Lemma bench_cost_sum accounts :
  bench_cost accounts = dsum ((fun a => cost_total (apply_pricing a bench_policy)) <$> accounts).
Proof.
  unfold bench_cost, dsum, dsum_from. generalize d0.
  induction accounts as [|a accounts IH]; intros c; [done|]. cbn [fold_left fmap list_fmap]. apply IH.
Qed.

Lemma bench_accounts_spec `{LlroundPlatform} es :
  bench_accounts es =
  (fun r => reconcile_request (filter (fun e => e_request e = r) es) r) <$> distinct_requests es.
Proof. apply list_fmap_ext. intros i r _. unfold bench_account. by rewrite query_request. Qed.

Lemma bench_members `{LlroundPlatform} es batch r :
  r ∈ ba_members (reconcile_batch es batch) <-> exists e, e ∈ es /\ e_request e = r /\
    StdMap.find "batch" (e_metadata e) ∈ [None; Some (to_string batch)].
Proof.
  destruct (reconcile_batch_fields es batch) as (_ & -> & _). rewrite batch_grouping, in_batch_filter.
  destruct (group_requests (filter (fun e => StdMap.find "batch" (e_metadata e) ∈
    [None; Some (to_string batch)]) es)) as (_ & Hk & _).
  unfold StdMap.keys in Hk.
  rewrite Hk, list_elem_of_fmap. setoid_rewrite list_elem_of_filter. naive_solver.
Qed.

(** *** Request reconstruction *)

Lemma filter_ext_in {A} (P Q : A -> Prop) `{!forall x, Decision (P x), !forall x, Decision (Q x)} (l : list A) :
  (forall x, x ∈ l -> P x <-> Q x) -> filter P l = filter Q l.
Proof.
  induction l as [|x l IH]; intros Hl; [done|]. rewrite !filter_cons, IH by (intros; apply Hl; by right).
  destruct (decide (P x)) as [HP|HP], (decide (Q x)) as [HQ|HQ]; try done; exfalso; pose proof (Hl x ltac:(by left)); tauto.
Qed.

(** Counting by request counts every entry once. *)
Lemma sum_by_request rs es : NoDup rs ->
  sum_list_with (fun r => length (filter (fun e => e_request e = r) es)) rs =
  length (filter (fun e => e_request e ∈ rs) es).
Proof.
  intros Hn. induction es as [|e es IH].
  { transitivity 0%nat; [|done]. clear Hn. induction rs as [|r rs IH]; [done|]. cbn [sum_list_with].
    rewrite IH. done. }
  rewrite filter_cons. assert (sum_list_with (fun r => length (filter (fun e => e_request e = r) (e :: es))) rs =
    (if decide (e_request e ∈ rs) then 1 else 0) + sum_list_with (fun r => length (filter (fun e => e_request e = r) es)) rs)%nat as ->.
  { clear IH. induction Hn as [|r rs Hr _ IH]; [done|]. cbn [sum_list_with]. rewrite IH, filter_cons.
    destruct (decide (e_request e = r)) as [<-|Hne].
    - rewrite (decide_False (P := e_request e ∈ rs)), decide_True by (done || by left). simpl. lia.
    - destruct (decide (e_request e ∈ rs)), (decide (e_request e ∈ r :: rs)) as [Hd|Hd]; try lia.
      + exfalso. apply Hd. by right.
      + exfalso. apply elem_of_cons in Hd as [?|?]; done. }
  rewrite IH. by destruct (decide (e_request e ∈ rs)).
Qed.

Lemma bench_recon_all `{LlroundPlatform} es :
  bench_recon es = length (filter (fun e => is_zero (e_request e) = false) es).
Proof.
  unfold bench_recon. destruct (distinct_invariant es) as (_ & Hnd & _ & Hin). fold (distinct_requests es) in Hnd, Hin.
  assert (forall l n, fold_left (fun recon req => (recon + rr_entries (ra_reconcile (bench_account es req)))%nat) l n =
    (n + sum_list_with (fun r => length (filter (fun e => e_request e = r) es)) l)%nat) as ->.
  { induction l as [|r l IH]; intros n; [simpl; lia|]. cbn [fold_left sum_list_with]. rewrite IH.
    assert (rr_entries (ra_reconcile (bench_account es r)) = length (filter (fun e => e_request e = r) es)) as ->; [|lia].
    unfold bench_account. rewrite query_request. done. }
  cbn [Nat.add]. rewrite sum_by_request by done. f_equal. apply filter_ext_in.
  intros e He. rewrite Hin. split; [by intros [? _]|]. intros Hz. split; [done|]. apply list_elem_of_fmap. by exists e.
Qed.

(** *** The synthetic set *)

Lemma bench_pairs_bound requests per ri : ri ∈ bench_pairs requests per -> (ri.1 < requests)%nat /\ (ri.2 < per)%nat.
Proof.
  unfold bench_pairs. rewrite list_elem_of_join.
  intros (l & Hri & (r & -> & Hr%elem_of_seq)%list_elem_of_fmap).
  apply list_elem_of_fmap in Hri as (i & -> & Hi%elem_of_seq). simpl. lia.
Qed.

Lemma bench_entry_storable k ri : Z.of_nat k < 2 ^ 32 -> Z.of_nat ri.1 < 2 ^ 32 -> Z.of_nat ri.2 < 2 ^ 32 ->
  storable (bench_entry k ri).
Proof.
  intros Hk Hr Hi. destruct ri as [r i]. cbn [fst snd] in *.
  pose proof (wrap_in_width 64 (Z.of_nat r + 1) ltac:(lia)) as Hw. unfold in_width in Hw.
  unfold bench_entry. cbn [fst snd]. cbv zeta.
  destruct (negb (Z.of_nat i mod 2 =? 0)), (Z.of_nat r mod 10 =? 0).
  all: constructor; [|apply payload_size_fits; by vm_compute|by vm_compute].
  all: constructor; unfold source_wf, envelope_wf, id_wf, gen_wf, in_width; cbn; try lia; try done.
  all: try (apply StdMap.sortedb_sorted; by vm_compute).
Qed.

Lemma synthetic_measurable requests per : Z.of_nat (requests * per) < 2 ^ 32 ->
  Z.of_nat requests < 2 ^ 32 -> Z.of_nat per < 2 ^ 32 -> measurable (synthetic requests per).
Proof.
  intros Hn Hr Hp. assert (length (bench_pairs requests per) = (requests * per)%nat) as Hlen.
  { unfold bench_pairs. generalize 0%nat at 2. clear. induction requests as [|n IH]; intros k; [done|].
    cbn [seq fmap list_fmap mjoin list_join]. rewrite length_app, length_fmap, length_seq, IH. done. }
  unfold synthetic. split.
  - apply list.Forall_forall. intros e (k & He)%list_elem_of_lookup.
    rewrite list_lookup_imap in He. destruct (bench_pairs requests per !! k) as [ri|] eqn:E; [|done].
    injection He as <-. pose proof (lookup_lt_Some _ _ _ E) as Hk.
    apply list_elem_of_lookup_2, bench_pairs_bound in E. apply bench_entry_storable; lia.
  - apply NoDup_alt. intros i j x. rewrite !list_lookup_fmap, !list_lookup_imap.
    destruct (bench_pairs requests per !! i), (bench_pairs requests per !! j); try done.
    cbn. unfold bench_entry, make; cbn. intros Hx Hy. rewrite <- Hy in Hx. injection Hx as Hx. lia.
Qed.

(** ** Properties *)

(** C39: the benchmark times work that is really done. On distinct records that can be
    stored, whatever the clock says and in whatever order the eight threads get the
    mutex: every record is appended in order and found again; reconstruction accounts
    every record of an identified request once, and makes one account per such request
    from exactly its records, which aggregation counts and pricing adds up; the batch
    stage covers the requests with a record that names batch b1 or none; encoding
    yields one frame per record and every frame decodes; what was saved without an
    error loads again, complete; replay and the eight threads store all the records; and
    the report says so, and leaves no file behind. *)
Theorem bench_counts `{LlroundPlatform, TextPlatform, FileIO} entries elapsed order files :
  measurable entries -> order ≡ₚ mjoin (stripes (length entries)) ->
  let n := size_to_string (length entries) in
  let tmp := "bench_ledger.db"%string in
  let requests := distinct_requests entries in
  let accounts := bench_accounts entries in
  let members := ba_members (reconcile_batch entries (MkId 0xB 1)) in
  let accounted := length (filter (fun e => is_zero (e_request e) = false) entries) in
  let bytes := wrap 64 (zsum ((fun e => Z.of_nat (length (frame (entry_payload e)))) <$> entries)) in
  let total := dsum ((fun a => cost_total (apply_pricing a bench_policy)) <$> accounts) in
  let saved := save_snapshot entries LID tmp files in
  let ms i := f2 (elapsed i) in
  snapshot (ingest entries) = entries /\
  snapshot (ingest_in_order entries order) ≡ₚ entries /\
  (NoDup requests /\ forall r, r ∈ requests <-> is_zero r = false /\ r ∈ e_request <$> entries) /\
  accounts = (fun r => reconcile_request (filter (fun e => e_request e = r) entries) r) <$> requests /\
  (forall r, r ∈ members <-> exists e, e ∈ entries /\ e_request e = r /\
     StdMap.find "batch" (e_metadata e) ∈ [None; Some (to_string (MkId 0xB 1 : BatchId))]) /\
  (saved.2 = None -> load tmp saved.1 = Some (loaded LID (canonical <$> entries))) /\
  exists ok, (saved.2 = None -> ok = "1"%string) /\
  bench_run entries elapsed order files =
  ([ "append: " +:+ n +:+ " in " +:+ ms 0%nat +:+ " ms (" +:+
       f2 (d_of_Z (Z.of_nat (length entries)) / (elapsed 0%nat / d_of_Z 1000))%D +:+ " entries/s)";
     "indexed lookup: " +:+ num (wrap 64 (Z.of_nat (length entries))) +:+ "/" +:+ n +:+ " in " +:+ ms 1%nat +:+ " ms";
     "request reconstruction: " +:+ size_to_string accounted +:+ " entries accounted in " +:+ ms 2%nat +:+ " ms";
     "aggregate: " +:+ size_to_string (length requests) +:+ " accounts in " +:+ ms 3%nat +:+
       " ms; cost/token=" +:+ f2 (ag_cost_per_token (aggregate_accounts accounts)) +:+
       " gpu_s/token=" +:+ f2 (ag_gpu_seconds_per_token (aggregate_accounts accounts));
     "batch reconcile (batch_id b1): " +:+ size_to_string (length members) +:+ " members in " +:+ ms 4%nat +:+ " ms";
     "binary encode: " +:+ n +:+ " entries -> " +:+ num (Z.shiftr bytes 10) +:+ " KiB in " +:+ ms 5%nat +:+ " ms";
     "binary encode+decode: " +:+ n +:+ " round-trips in " +:+ ms 6%nat +:+ " ms";
     "persistence save: " +:+ ms 7%nat +:+ " ms; reload: " +:+ ms 8%nat +:+ " ms; ok=" +:+ ok;
     "pricing recompute: " +:+ size_to_string (length requests) +:+ " in " +:+ ms 9%nat +:+ " ms; total=" +:+ f2 total;
     "replay (fresh append): " +:+ n +:+ " in " +:+ ms 10%nat +:+ " ms";
     "concurrent ingestion (8 threads): " +:+ n +:+ " in " +:+ ms 11%nat +:+ " ms";
     "BENCHMARK_DONE"%string ], delete tmp saved.1).
Proof.
  intros Hm Ho n tmp requests accounts members accounted bytes total saved ms.
  destruct (ingest_all entries Hm) as [He _]. pose proof (ingest_in_order_all entries order Hm Ho) as Hc.
  destruct (distinct_invariant entries) as (_ & Hnd & _ & Hin). fold (distinct_requests entries) in Hnd, Hin.
  assert (saved.2 = None -> load tmp saved.1 = Some (loaded LID (canonical <$> entries))) as Hload
    by (apply bench_saved_loads, Hm).
  assert (length accounts = length requests) as Hla by apply length_fmap.
  split_and!; [done..|by apply bench_accounts_spec|apply bench_members| |]; [done|].
  exists (if match load tmp saved.1 with Some rl => lr_ok rl | None => false end then "1" else "0")%string.
  split; [intros Hs; by rewrite (Hload Hs)|].
  unfold bench_run, snapshot, ledger_size. rewrite !He, (Permutation_length Hc).
  rewrite bench_found_all, bench_recon_all, bench_bytes_all, bench_decoded_all, bench_cost_sum by (done || apply Hm).
  fold tmp. fold saved. destruct saved as [files' err]. fold accounts. rewrite !Hla. done.
Qed.

(** ** Witnesses *)

(** The clock stands still. *)
Lemma bench_counts_witness :
  let _ : LlroundPlatform := fun _ => 0 in
  let _ : TextPlatform := {| nan_text := "nan"; underflow_is_range_error := fun _ => false |} in
  let entries := synthetic 2 10 in
  snapshot (ingest_in_order entries (reverse (mjoin (stripes 20)))) ≡ₚ entries /\
  (bench_run (H1 := reliable_io) entries (fun _ => d1) (reverse (mjoin (stripes 20))) ∅).1 !! 6%nat =
    Some ("binary encode+decode: 20 round-trips in 1 ms")%string /\
  (bench_run (H1 := reliable_io) entries (fun _ => d1) (reverse (mjoin (stripes 20))) ∅).2 = ∅.
Proof.
  intros L T entries. assert (measurable entries) as Hm by (by apply synthetic_measurable).
  destruct (bench_counts (H1 := reliable_io) entries (fun _ => d1) (reverse (mjoin (stripes 20))) ∅ Hm)
    as (_ & Ho & _ & _ & _ & _ & ok & _ & Hr).
  - change (length entries) with 20%nat. apply reverse_Permutation.
  - rewrite Hr. cbn [fst snd]. split; [exact Ho|]. split; [by vm_compute|]. by vm_compute.
Defined.
