(* ===== verification/Cuda.v ===== *)
(** * The CUDA accounting proof (cuda/inference_cuda_proof.cu)

    The host program and its two kernels. The program allocates device buffers, runs a
    matrix-vector kernel and a decode kernel, records what it did as ledger entries for
    a cold, a warm and a retried request, frees the buffers, reconstructs the accounts
    and prints a verdict. A program is a function on the host's state that ends with a
    value or with an outcome ([std::exit] in [check], undefined behaviour).

    What the CUDA runtime answers is [CudaPlatform]: which calls fail, where a buffer is
    placed and what fresh memory holds, how long a kernel took, in which order the
    threads of a grid run, and whether a compiler fuses [a * b + c]. Threads write
    disjoint cells and read buffers no thread writes, so that a grid is a sequence of
    whole threads in some order. *)

From Stdlib Require Import SpecFloat.
From stdpp Require Import base gmap sets list strings numbers pretty.
From S2P Require Import Prelude Float64 StdMap Identity Kinds Entry Ledger Account Batch Query Text Sockets Worker.
Open Scope Z_scope.

(** ** Single precision *)

Abbreviation float32 := spec_float.

Definition fadd : float32 -> float32 -> float32 := SFadd 24 128.
Definition fsub : float32 -> float32 -> float32 := SFsub 24 128.
Definition fmul : float32 -> float32 -> float32 := SFmul 24 128.
Definition fdiv : float32 -> float32 -> float32 := SFdiv 24 128.

Definition f0 : float32 := S754_zero false.

(** [static_cast<float>(z)]. *)
Definition f_of_Z (z : Z) : float32 := binary_normalize 24 128 z 0 false.

(** The literals [0.0001f], [0.0005f] and [1e-2f], each the float nearest to its
    decimal: a quotient of two integers that are floats. *)
Definition f0001 : float32 := fdiv (f_of_Z 1) (f_of_Z 10000).
Definition f0005 : float32 := fdiv (f_of_Z 5) (f_of_Z 10000).
Definition f1e_2 : float32 := fdiv (f_of_Z 1) (f_of_Z 100).

(** [a * b + c] with a single rounding. *)
Definition ffma (a b c : float32) : float32 :=
  match a, b, c with
  | S754_finite sa ma ea, S754_finite sb mb eb, S754_finite sc mc ec =>
      let ep := ea + eb in
      let e := Z.min ep ec in
      binary_normalize 24 128
        (cond_Zopp (xorb sa sb) (Zpos ma * Zpos mb) * 2 ^ (ep - e) + cond_Zopp sc (Zpos mc) * 2 ^ (ec - e))
        e false
  | S754_finite _ _ _, S754_finite _ _ _, S754_zero _ => fmul a b
  | _, _, _ => fadd (fmul a b) c
  end.

(** [acc += a * b], fused or not. *)
Definition muladd (contract : bool) (acc a b : float32) : float32 :=
  if contract then ffma a b acc else fadd acc (fmul a b).

(** [static_cast<std::uint64_t>(x)]: truncation, undefined out of range. *)
Definition f_to_u64 (x : float32) : option Z :=
  match x with
  | S754_zero _ => Some 0
  | S754_finite s m e =>
      let t := if 0 <=? e then Zpos m * 2 ^ e else Zpos m / 2 ^ (- e) in
      let z := if s then - t else t in
      if (0 <=? z) && (z <? 2 ^ 64) then Some z else None
  | _ => None
  end.

(** ** The runtime *)

Class CudaPlatform := {
  cuda_error : string -> option string;      (** the call with this label fails, with this text *)
  device_name : string;
  device_major : Z;
  device_minor : Z;
  device_free : string -> Z;                 (** free bytes [cudaMemGetInfo] reports *)
  device_pointer : gset Z -> Z;              (** where the next buffer is placed *)
  device_garbage : Z -> list float32;        (** what fresh memory of so many floats holds *)
  elapsed_ms : string -> float32;            (** between the two events of this label *)
  thread_order : string -> Z -> list Z;      (** the order in which a grid's threads run *)
  device_contracts : bool;
  host_contracts : bool
}.

Class CudaLaws `{CudaPlatform} : Prop := {
  device_pointer_fresh live : device_pointer live ∉ live;
  device_garbage_length n : length (device_garbage n) = Z.to_nat n;
  thread_order_grid what n : thread_order what n ≡ₚ seqZ 0 n
}.

(** ** Kernels *)

(** [for (; j < cols; j += step) acc += w[base + j] * x[j]]; [None] is a read outside
    a buffer. *)
Fixpoint mac_loop (contract : bool) (w x : list float32) (base step cols : Z) (fuel : nat) (j : Z)
    (acc : float32) : option float32 :=
  if cols <=? j then Some acc
  else match fuel with
  | O => None
  | S fuel =>
      match w !! Z.to_nat (base + j), x !! Z.to_nat j with
      | Some a, Some b => mac_loop contract w x base step cols fuel (j + step) (muladd contract acc a b)
      | _, _ => None
      end
  end.

(** [out[i] = v]; [None] is a write outside the buffer. *)
Definition store (i : Z) (v : float32) (out : list float32) : option (list float32) :=
  if (Z.to_nat i <? length out)%nat then Some (<[Z.to_nat i := v]> out) else None.

(** Thread [r] of the two kernels. *)
Definition prefill_kernel (contract : bool) (w x : list float32) (rows cols r : Z) (out : list float32)
    : option (list float32) :=
  if rows <=? r then Some out
  else acc ← mac_loop contract w x (r * cols) 1 cols (Z.to_nat cols) 0 f0; store r acc out.

Definition decode_kernel (contract : bool) (w kv : list float32) (threads cols r : Z) (out : list float32)
    : option (list float32) :=
  acc ← mac_loop contract w kv 0 threads cols (Z.to_nat cols) r f0;
  if r =? 0 then store 0 acc out else Some out.

(** A grid: its threads in the order they run. *)
Fixpoint launch (thread : Z -> list float32 -> option (list float32)) (order : list Z) (out : list float32)
    : option (list float32) :=
  match order with
  | [] => Some out
  | r :: order => out ← thread r out; launch thread order out
  end.

(** [host_reference]: every row is computed, the last one is returned. *)
Definition host_reference (contract : bool) (w x : list float32) (rows cols : Z) : option float32 :=
  fold_left (fun acc r => acc ← acc; mac_loop contract w x (r * cols) 1 cols (Z.to_nat cols) 0 f0)
    (seqZ 0 rows) (Some f0).

(** ** The host program's state *)

Record Host := MkHost {
  h_mem : gmap Z (list float32);     (** live device buffers *)
  h_events : Z;                      (** live CUDA events *)
  h_net : Z;                         (** [net_allocs] *)
  h_seq : Z;
  h_now : Z;
  h_ledger : Ledger;
  h_out : list string;
  h_err : list string
}.

#[export] Instance Host_rebuild : Rebuild Host := fun h =>
  MkHost (h_mem h) (h_events h) (h_net h) (h_seq h) (h_now h) (h_ledger h) (h_out h) (h_err h).

(** A computation that may end the program. *)
Definition Gpu (A : Type) : Type := Host -> (A + Outcome) * Host.

#[export] Instance Gpu_ret : MRet Gpu := fun A a h => (inl a, h).
#[export] Instance Gpu_bind : MBind Gpu := fun A B k m h =>
  match m h with (inl a, h) => k a h | (inr o, h) => (inr o, h) end.

Definition undefined_behaviour {A} : Gpu A := fun h => (inr Undefined, h).
Definition defined {A} (o : option A) : Gpu A :=
  match o with Some a => mret a | None => undefined_behaviour end.
Definition modify_host (f : Host -> Host) : Gpu () := fun h => (inl (), f h).
Definition say (line : string) : Gpu () := modify_host (fun h => h <| h_out ::= fun l => l ++ [line] |>).
Definition print_lines (lines : list string) : Gpu () := modify_host (fun h => h <| h_out ::= fun l => l ++ lines |>).

Section program.
Context `{CudaPlatform} `{LlroundPlatform} `{TextPlatform}.

(** ** Runtime calls *)

(** [check(call, what)]: [std::exit(1)] when the call failed. *)
Definition check (what : string) : Gpu () := fun h =>
  match cuda_error what with
  | None => (inl (), h)
  | Some text => (inr (Exit 1), h <| h_err ::= fun l => l ++ ["CUDA error " +:+ what +:+ ": " +:+ text] |>)
  end.

(** [check(cudaMalloc(&p, n * sizeof(float)), what); net_allocs++]. *)
Definition place_buffer (n : Z) : Gpu Z := fun h =>
  let p := device_pointer (dom (h_mem h)) in
  (inl p, h <| h_mem ::= <[p := device_garbage n]> |> <| h_net ::= fun k => k + 1 |>).
Definition cuda_malloc (what : string) (n : Z) : Gpu Z := check what;; place_buffer n.

(** [check(cudaFree(p), what); net_allocs--]. *)
Definition cuda_free (what : string) (p : Z) : Gpu () :=
  check what;; modify_host (fun h => h <| h_mem ::= delete p |> <| h_net ::= fun k => k - 1 |>).

(** The contents of a live buffer, and what replaces them. *)
Definition buffer (p : Z) : Gpu (list float32) := fun h =>
  match h_mem h !! p with Some b => (inl b, h) | None => (inr Undefined, h) end.
Definition set_buffer (p : Z) (b : list float32) : Gpu () := modify_host (fun h => h <| h_mem ::= <[p := b]> |>).

(** [cudaMemcpy] to the device, from it, and [cudaMemset(p, 0, ...)]. *)
Definition copy_to_device (what : string) (p : Z) (data : list float32) : Gpu () :=
  check what;; set_buffer p data.
Definition copy_from_device (what : string) (p : Z) : Gpu (list float32) := check what;; buffer p.
Definition zero_buffer (what : string) (p n : Z) : Gpu () :=
  check what;; set_buffer p (replicate (Z.to_nat n) f0).

Definition event_create (what : string) : Gpu () :=
  check what;; modify_host (fun h => h <| h_events ::= fun k => k + 1 |>).
Definition event_destroy (what : string) : Gpu () :=
  check what;; modify_host (fun h => h <| h_events ::= fun k => k - 1 |>).

(** ** Constants and the entry builder *)

Definition kVec : Z := 4096.
Definition kMat : Z := 256.

Definition cuda_ledger_id : LedgerId := MkId 0x43554441 1.

Definition make_entry (seq : Z) (req : RequestId) (attempt : AttemptId) (rg : RequestGeneration)
    (atg : AttemptGeneration) (kind : EventKind) (rk : ResourceKind) (v : double) (unit : Unit)
    (prov : Provenance) (has_end : bool) (s e : Z) (disp : DispatchId) : LedgerEntry :=
  entry_default
    <| e_id := MkId (0xC000 + seq) 1 |> <| e_ledger := cuda_ledger_id |> <| e_tenant := MkId 0x99 1 |>
    <| e_workload := MkId 0x88 1 |> <| e_request := req |> <| e_model := MkId 0x77 1 |>
    <| e_model_revision := MkId 0x77 2 |> <| e_attempt := attempt |> <| e_dispatch := disp |>
    <| e_worker := MkId 0xAA 1 |> <| e_node := MkId 0x6002 1 |> <| e_device := MkId 0x6001 1 |>
    <| e_event_kind := kind |> <| e_resource_kind := rk |> <| e_quantity := MkQuantity v unit prov |>
    <| e_start_ts_ns := s |> <| e_end_ts_ns := e |> <| e_has_end := has_end |>
    <| e_source := MkSourceIdentity (MkId 0xAA 1) (MkId 0xB007 1) (MkGen 1) |>
    <| e_authority := MkAuthorityEnvelope (MkGen 1) (MkId 0xB007 1) rg (MkGen 1) attempt atg disp |>.

(** [ledger.append(make_entry(++seq, ...))]: the result is not looked at. *)
Definition emit (entry : Z -> LedgerEntry) : Gpu () :=
  modify_host (fun h => let seq := h_seq h + 1 in
    h <| h_seq := seq |> <| h_ledger := (append None (h_ledger h) (entry seq)).1 |>).

Definition now : Gpu Z := fun h => (inl (h_now h), h).
Definition net : Gpu Z := fun h => (inl (h_net h), h).
Definition ledger : Gpu Ledger := fun h => (inl (h_ledger h), h).

(** [tick]. *)
Definition tick (d : Z) : Gpu Z := fun h =>
  let t := wrap 64 (h_now h + d) in (inl t, h <| h_now := t |>).

(** ** [main], phase by phase *)

(** The host vectors. *)
Definition weight (i : Z) : float32 := fmul f0001 (f_of_Z (i mod 17)).
Definition input (i : Z) : float32 := fmul f0005 (f_of_Z i).
Definition hw : list float32 := weight <$> seqZ 0 (kMat * kVec).
Definition hx : list float32 := input <$> seqZ 0 kVec.

Record Buffers := MkBuffers { b_w : Z; b_kv : Z; b_x : Z; b_out : Z }.

Definition cuda_setup : Gpu Buffers :=
  check "getDeviceProperties";;
  say ("GPU: " +:+ device_name +:+ " compute_cap=" +:+ num device_major +:+ "." +:+ num device_minor +:+
       " sm_120=" +:+ (if device_major =? 12 then "1" else "0"));;
  check "MemGetInfo-before";;
  w ← cuda_malloc "cudaMalloc w" (kMat * kVec);
  kv ← cuda_malloc "cudaMalloc kv" kVec;
  copy_to_device "H2D w" w hw;;
  zero_buffer "memset kv" kv kVec;;
  x ← cuda_malloc "cudaMalloc x" kVec;
  out ← cuda_malloc "cudaMalloc out" kMat;
  mret (MkBuffers w kv x out).

Definition RA : RequestId := MkId 0x1001 1.
Definition AA : AttemptId := MkId 0x2001 1.
Definition DA : DispatchId := MkId 0x3001 1.

(** An entry of request A. *)
Definition entry_a (kind : EventKind) (rk : ResourceKind) (v : double) (unit : Unit) (has_end : bool)
    (s e : Z) (seq : Z) : LedgerEntry :=
  make_entry seq RA AA (MkGen 1) (MkGen 1) kind rk v unit Measured has_end s e DA.

(** Run a kernel over a grid, timed by two events. *)
Definition timed_kernel (record0 launched record1 sync elapsed : string) (threads : Z)
    (thread : list float32 -> list float32 -> Z -> list float32 -> option (list float32))
    (p q out : Z) : Gpu Z :=
  check record0;;
  a ← buffer p;
  b ← buffer q;
  o ← buffer out;
  o ← defined (launch (thread a b) (thread_order launched threads) o);
  set_buffer out o;;
  check launched;;
  check record1;;
  check sync;;
  check elapsed;;
  defined (f_to_u64 (fmul (elapsed_ms elapsed) (f_of_Z 1000000))).

Definition bytes_of (floats : Z) : double := d_of_Z (floats * 4).
Definition ns_seconds (ns : Z) : double := (d_of_Z ns / d_of_Z 1000000000)%D.

Definition verdict (ok : bool) : string := if ok then "PASS" else "FAIL".

Definition cuda_cold (b : Buffers) : Gpu bool :=
  t ← now;
  emit (entry_a RequestStart RGeneric d0 Count false t 0);;
  t ← tick 0;
  emit (entry_a Reserve RMemory d1 Count false t 0);;
  tick 100;;
  copy_to_device "H2D x" (b_x b) hx;;
  t ← now;
  emit (entry_a TransferH2D RTransfer (bytes_of kVec) Bytes false t 0);;
  event_create "event0";;
  event_create "event1";;
  prefill_ns ← timed_kernel "record0" "prefill launch" "record1" "sync e1" "elapsed prefill"
    ((kMat + 127) / 128 * 128) (fun w x => prefill_kernel device_contracts w x kMat kVec)
    (b_w b) (b_x b) (b_out b);
  t ← tick prefill_ns;
  emit (entry_a Prefill RCompute (ns_seconds prefill_ns) Seconds true (wrap 64 (t - prefill_ns)) t);;
  decode_ns ← timed_kernel "record0b" "decode launch" "record1b" "sync e1b" "elapsed decode"
    128 (fun w kv => decode_kernel device_contracts w kv 128 kVec) (b_w b) (b_kv b) (b_out b);
  t ← tick decode_ns;
  emit (entry_a Decode RCompute (ns_seconds decode_ns) Seconds true (wrap 64 (t - decode_ns)) t);;
  emit (entry_a Decode RCompute (d_of_Z 32) Count true (wrap 64 (t - decode_ns)) t);;
  emit (entry_a ModelResidency RResidency (bytes_of (kMat * kVec)) Bytes true
          (wrap 64 (wrap 64 (t - prefill_ns) - decode_ns)) t);;
  outv ← copy_from_device "D2H out" (b_out b);
  emit (entry_a TransferD2H RTransfer (bytes_of kMat) Bytes false t 0);;
  ref ← defined (host_reference host_contracts hw hx kMat kVec);
  last ← defined (outv !! Z.to_nat (kMat - 1));
  let verified := SFltb (SFabs (fsub last ref)) f1e_2 in
  say ("A cpu-ref " +:+ verdict verified +:+ " (" +:+ f2 last +:+ " vs " +:+ f2 ref +:+ ")");;
  t ← tick 0;
  emit (entry_a Release RMemory d1 Count false t 0);;
  emit (entry_a RequestEnd RGeneric d0 Count false t 0);;
  event_destroy "destroy0";;
  event_destroy "destroy1";;
  mret verified.

Definition RB : RequestId := MkId 0x1002 1.
Definition AB : AttemptId := MkId 0x2002 1.
Definition DB : DispatchId := MkId 0x3002 1.

Definition entry_b (kind : EventKind) (rk : ResourceKind) (v : double) (unit : Unit) (prov : Provenance)
    (has_end : bool) (s e : Z) (seq : Z) : LedgerEntry :=
  make_entry seq RB AB (MkGen 1) (MkGen 1) kind rk v unit prov has_end s e DB.

Definition cuda_warm : Gpu () :=
  t ← now;
  emit (entry_b RequestStart RGeneric d0 Count Measured false t 0);;
  emit (entry_b KvReuse RKv (bytes_of kVec) Bytes Measured false t 0);;
  emit (entry_b ReuseAvoided RCompute (d_of_Z 8 / d_of_Z 100)%D Seconds Estimated false t 0);;
  emit (entry_b KernelHit RCache d1 Count Measured false t 0);;
  bde ← tick 100000;
  emit (entry_b Decode RCompute (d_of_Z 32) Count Measured true t bde);;
  emit (entry_b RequestEnd RGeneric d0 Count Measured false bde 0).

Definition RC : RequestId := MkId 0x1003 1.
Definition AC1 : AttemptId := MkId 0x3001 1.
Definition AC2 : AttemptId := MkId 0x3002 1.
Definition DC : DispatchId := MkId 0x3003 1.

Definition entry_c (attempt : AttemptId) (atg : AttemptGeneration) (kind : EventKind) (rk : ResourceKind)
    (v : double) (unit : Unit) (has_end : bool) (s e : Z) (seq : Z) : LedgerEntry :=
  make_entry seq RC attempt (MkGen 1) atg kind rk v unit Measured has_end s e DC.

Definition cuda_retry : Gpu () :=
  t ← now;
  emit (entry_c AC1 (MkGen 1) RequestStart RGeneric d0 Count false t 0);;
  a1e ← tick 50000000;
  emit (entry_c AC1 (MkGen 1) Prefill RCompute (d_of_Z 5 / d_of_Z 100)%D Seconds true t a1e);;
  emit (entry_c AC1 (MkGen 1) Failure RGeneric d0 Count false a1e 0);;
  emit (entry_c AC1 (MkGen 1) Retry RGeneric d1 Count false a1e 0);;
  emit (entry_c AC2 (MkGen 2) RequestStart RGeneric d0 Count false a1e 0);;
  a2e ← tick 50000000;
  emit (entry_c AC2 (MkGen 2) Prefill RCompute (d_of_Z 5 / d_of_Z 100)%D Seconds true a1e a2e);;
  a2de ← tick 40000;
  emit (entry_c AC2 (MkGen 2) Decode RCompute (d_of_Z 16) Count true a2e a2de);;
  emit (entry_c AC2 (MkGen 2) RequestEnd RGeneric d0 Count false a2de 0).

(** Free everything and compare with the memory that was free at the start. *)
Definition cuda_cleanup (b : Buffers) : Gpu bool :=
  cuda_free "cudaFree x" (b_x b);;
  cuda_free "cudaFree out" (b_out b);;
  cuda_free "cudaFree kv" (b_kv b);;
  cuda_free "cudaFree w" (b_w b);;
  check "MemGetInfo-after";;
  net_allocs ← net;
  let free0 := device_free "MemGetInfo-before" in
  let free1 := device_free "MemGetInfo-after" in
  let baseline := (net_allocs =? 0) &&
    SFltb (SFabs (d_of_Z free0 - d_of_Z free1)%D) (d_of_Z (16 * 1024 * 1024)) in
  say ("baseline: net_allocs=" +:+ num net_allocs +:+ " free(mib) before=" +:+ num (Z.shiftr free0 20) +:+
       " after=" +:+ num (Z.shiftr free1 20) +:+ " -> " +:+ verdict baseline);;
  mret baseline.

(** [reconcile_request(query_ledger(snap, {.request = r}), r)]. *)
Definition cuda_account (snap : list LedgerEntry) (r : RequestId) : RequestAccount :=
  reconcile_request (query_ledger snap (query_default <| lq_request := Some r |>)) r.

Definition a_ok (a : RequestAccount) : bool :=
  ra_completed a && (d0 <? q_value (ra_gpu_active_s a))%D && (ra_generated_tokens a =? 32).

Definition b_ok (a : RequestAccount) : bool :=
  ra_completed a && (d0 <? q_value (ra_kv_reuse a))%D && (d0 <? q_value (ra_reuse_avoided_work a))%D &&
  (q_value (ra_prefill_s a) =? d0)%D.

Definition c_ok (a : RequestAccount) : bool :=
  ra_completed a && (ra_retries a =? 1) && (q_value (ra_failed_attempt_work a) =? d_of_Z 5 / d_of_Z 100)%D &&
  (ra_attempt_count a =? 2)%nat && (ra_generated_tokens a =? 16).

Definition flag (b : bool) : string := if b then "1" else "0".

(** The three lines about the accounts. *)
Definition account_lines (a b c : RequestAccount) : list string :=
  [ "A cold: completed=" +:+ flag (ra_completed a) +:+ " gpu_s=" +:+ f2 (q_value (ra_gpu_active_s a)) +:+
    " tokens=" +:+ num (ra_generated_tokens a) +:+ " -> " +:+ verdict (a_ok a);
    "B warm: completed=" +:+ flag (ra_completed b) +:+ " kv_reuse=" +:+ f2 (q_value (ra_kv_reuse b)) +:+
    " prefill_s=" +:+ f2 (q_value (ra_prefill_s b)) +:+ " reuse_credit=" +:+ f2 (reuse_credit b) +:+
    " -> " +:+ verdict (b_ok b);
    "C retry: completed=" +:+ flag (ra_completed c) +:+ " retries=" +:+ num (ra_retries c) +:+
    " attempts=" +:+ size_to_string (ra_attempt_count c) +:+
    " wasted_s=" +:+ f2 (q_value (ra_failed_attempt_work c)) +:+
    " tokens=" +:+ num (ra_generated_tokens c) +:+ " -> " +:+ verdict (c_ok c) ].

(** Reconstruction and the verdict; the value is [all_ok]. *)
Definition cuda_verdict (baseline verified : bool) : Gpu bool :=
  l ← ledger;
  let accA := cuda_account (snapshot l) RA in
  let accB := cuda_account (snapshot l) RB in
  let accC := cuda_account (snapshot l) RC in
  print_lines (account_lines accA accB accC);;
  let all_ok := baseline && a_ok accA && b_ok accB && c_ok accC && verified in
  say ("CUDA_PROOF " +:+ verdict all_ok);;
  check "deviceReset";;
  mret all_ok.

Definition cuda_program : Gpu bool :=
  b ← cuda_setup;
  verified ← cuda_cold b;
  cuda_warm;;
  cuda_retry;;
  baseline ← cuda_cleanup b;
  cuda_verdict baseline verified.

Definition host_start : Host := MkHost ∅ 0 0 0 1000000 (ledger_new cuda_ledger_id) [] [].

Definition cuda_main : Outcome * Host :=
  match cuda_program host_start with
  | (inl all_ok, h) => (Exit (if all_ok then 0 else 1), h)
  | (inr o, h) => (o, h)
  end.

End program.
