(* ===== verification/CudaKernels.v ===== *)
(** * The CUDA kernels

    The matrix-vector kernel leaves every row's sum in its cell whatever the order of
    the grid's threads, the decode kernel touches its first cell alone, and the host
    reference is the last row. *)

From Stdlib Require Import SpecFloat.
From stdpp Require Import base gmap sets list strings numbers pretty.
From S2P Require Import Prelude Float64 StdMap Identity Kinds Entry CodecProofs Ledger Account AccountProofs Batch Query.
From S2P Require Import Text Sockets Worker Cuda.
Open Scope Z_scope.

(** ** Kernels *)

(** Row [base / cols] of the matrix times the vector, summed from left to right. *)
Definition row (contract : bool) (w x : list float32) (base cols : Z) : float32 :=
  fold_left (fun acc j => muladd contract acc (default f0 (w !! Z.to_nat (base + j))) (default f0 (x !! Z.to_nat j)))
    (seqZ 0 cols) f0.

Lemma mac_loop_contiguous contract w x base n : forall j acc, 0 <= base -> 0 <= j ->
  base + (j + Z.of_nat n) <= Z.of_nat (length w) -> j + Z.of_nat n <= Z.of_nat (length x) ->
  mac_loop contract w x base 1 (j + Z.of_nat n) n j acc =
  Some (fold_left (fun acc j => muladd contract acc (default f0 (w !! Z.to_nat (base + j)))
                                  (default f0 (x !! Z.to_nat j))) (seqZ j (Z.of_nat n)) acc).
Proof.
  induction n as [|n IH]; intros j acc Hb Hj Hw Hx.
  { cbn [mac_loop]. destruct (Z.leb_spec (j + Z.of_nat 0) j); [done|lia]. }
  cbn [mac_loop]. destruct (Z.leb_spec (j + Z.of_nat (S n)) j); [lia|].
  destruct (lookup_lt_is_Some_2 w (Z.to_nat (base + j))) as [a Ha]; [lia|].
  destruct (lookup_lt_is_Some_2 x (Z.to_nat j)) as [b Hb']; [lia|].
  rewrite seqZ_cons by lia. cbn [fold_left]. rewrite Ha, Hb'. cbn [default from_option].
  replace (j + Z.of_nat (S n)) with ((j + 1) + Z.of_nat n) by lia.
  rewrite IH by lia. do 3 f_equal. lia.
Qed.

Lemma mac_loop_row contract w x base cols : 0 <= base -> 0 <= cols ->
  base + cols <= Z.of_nat (length w) -> cols <= Z.of_nat (length x) ->
  mac_loop contract w x base 1 cols (Z.to_nat cols) 0 f0 = Some (row contract w x base cols).
Proof.
  intros Hb Hc Hw Hx. pose proof (mac_loop_contiguous contract w x base (Z.to_nat cols) 0 f0) as Hl.
  rewrite Z.add_0_l, Z2Nat.id in Hl by lia. by apply Hl; lia.
Qed.

Lemma mac_loop_defined contract w x base step cols fuel : forall j acc, 0 <= base -> 0 <= j -> 1 <= step ->
  base + cols <= Z.of_nat (length w) -> cols <= Z.of_nat (length x) -> cols - j <= Z.of_nat fuel ->
  is_Some (mac_loop contract w x base step cols fuel j acc).
Proof.
  induction fuel as [|fuel IH]; intros j acc Hb Hj Hs Hw Hx Hf; cbn [mac_loop];
    destruct (Z.leb_spec cols j); [eauto|lia|eauto|].
  destruct (lookup_lt_is_Some_2 w (Z.to_nat (base + j))) as [a ->]; [lia|].
  destruct (lookup_lt_is_Some_2 x (Z.to_nat j)) as [b ->]; [lia|]. apply IH; lia.
Qed.

Lemma store_in i v out : 0 <= i < Z.of_nat (length out) -> store i v out = Some (<[Z.to_nat i := v]> out).
Proof. intros Hi. unfold store. destruct (Nat.ltb_spec (Z.to_nat i) (length out)); [done|lia]. Qed.

(** What a run over the threads [order] leaves in cell [k]. *)
Lemma launch_prefill contract w x rows cols order : forall out,
  0 <= cols -> rows * cols <= Z.of_nat (length w) -> cols <= Z.of_nat (length x) ->
  rows <= Z.of_nat (length out) -> Forall (fun r => 0 <= r) order ->
  exists out', launch (prefill_kernel contract w x rows cols) order out = Some out' /\
    length out' = length out /\
    (forall k, 0 <= k -> k ∈ order -> k < rows -> out' !! Z.to_nat k = Some (row contract w x (k * cols) cols)) /\
    (forall k, 0 <= k -> k ∉ order \/ rows <= k -> out' !! Z.to_nat k = out !! Z.to_nat k).
Proof.
  induction order as [|r order IH]; intros out Hc Hw Hx Ho Hall.
  { exists out. split_and!; try done. intros k _ []%not_elem_of_nil. }
  apply list.Forall_cons in Hall as [Hr Hall]. cbn [launch].
  change (prefill_kernel contract w x rows cols r out) with (if rows <=? r then Some out else
    acc ← mac_loop contract w x (r * cols) 1 cols (Z.to_nat cols) 0 f0; store r acc out).
  destruct (Z.leb_spec rows r) as [Hge|Hlt].
  { destruct (IH out) as (out' & Hl & Hlen & Hin & Hout); try done. exists out'. split_and!; [exact Hl|done| |].
    - intros k Hk [->|Hin']%elem_of_cons Hkr; [lia|]. by apply Hin.
    - intros k Hk Hor. apply Hout; [done|]. rewrite not_elem_of_cons in Hor. tauto. }
  rewrite mac_loop_row by nia. cbn [mbind option_bind]. rewrite store_in by lia.
  destruct (IH (<[Z.to_nat r := row contract w x (r * cols) cols]> out)) as (out' & Hl & Hlen & Hin & Hout);
    [done..|by rewrite length_insert|done|].
  exists out'. split_and!; [exact Hl|by rewrite Hlen, length_insert| |].
  - intros k Hk Hkin Hkr. destruct (decide (k ∈ order)) as [Hk'|Hk']; [by apply Hin|].
    apply elem_of_cons in Hkin as [->|?]; [|done].
    rewrite Hout by (done || by left). apply list_lookup_insert_eq. lia.
  - intros k Hk Hor. rewrite not_elem_of_cons in Hor. rewrite Hout by (done || tauto).
    apply list_lookup_insert_ne. destruct Hor as [[Hne _]|?]; lia.
Qed.

(** The grid covers the rows: every cell holds its row, in any order of the threads. *)
Lemma prefill_rows contract w x rows cols threads order out :
  0 <= cols -> rows * cols <= Z.of_nat (length w) -> cols <= Z.of_nat (length x) ->
  rows = Z.of_nat (length out) -> rows <= threads -> order ≡ₚ seqZ 0 threads ->
  launch (prefill_kernel contract w x rows cols) order out =
  Some ((fun r => row contract w x (r * cols) cols) <$> seqZ 0 rows).
Proof.
  intros Hc Hw Hx Ho Ht Hp.
  destruct (launch_prefill contract w x rows cols order out) as (out' & -> & Hlen & Hin & _); try (done || lia).
  { rewrite Hp. apply list.Forall_forall. intros r Hr%elem_of_seqZ. lia. }
  f_equal. apply list_eq. intros k. rewrite list_lookup_fmap.
  destruct (decide (Z.of_nat k < rows)) as [Hk|Hk].
  - specialize (Hin (Z.of_nat k)). rewrite Nat2Z.id in Hin. rewrite Hin; try lia.
    + rewrite lookup_seqZ_lt by lia. done.
    + rewrite Hp. apply elem_of_seqZ. lia.
  - rewrite (lookup_ge_None_2 out') by lia. by rewrite lookup_seqZ_ge by lia.
Qed.

(** The decode kernel writes cell 0 and nothing else. *)
Lemma launch_decode contract w kv threads cols order : forall out,
  1 <= threads -> 0 <= cols -> cols <= Z.of_nat (length w) -> cols <= Z.of_nat (length kv) ->
  (0 < length out)%nat -> Forall (fun r => 0 <= r) order ->
  exists out', launch (decode_kernel contract w kv threads cols) order out = Some out' /\
    length out' = length out /\ (forall k, (0 < k)%nat -> out' !! k = out !! k).
Proof.
  induction order as [|r order IH]; intros out Ht Hc Hw Hk Ho Hall; [by exists out|].
  apply list.Forall_cons in Hall as [Hr Hall]. cbn [launch].
  change (decode_kernel contract w kv threads cols r out) with
    (acc ← mac_loop contract w kv 0 threads cols (Z.to_nat cols) r f0; if r =? 0 then store 0 acc out else Some out).
  destruct (mac_loop_defined contract w kv 0 threads cols (Z.to_nat cols) r f0) as [acc ->]; try lia.
  cbn [mbind option_bind]. destruct (Z.eqb_spec r 0) as [->|Hr0]; [|by apply IH].
  rewrite store_in by lia. destruct (IH (<[Z.to_nat 0 := acc]> out)) as (out' & Hl & Hlen & Hrest); try done.
  { by rewrite length_insert. }
  exists out'. split_and!; [exact Hl|by rewrite Hlen, length_insert|].
  intros k Hk0. rewrite Hrest by done. apply list_lookup_insert_ne. lia.
Qed.

(** The reference is the last row. *)
Lemma host_reference_last contract w x rows cols : 0 < rows -> 0 <= cols ->
  rows * cols <= Z.of_nat (length w) -> cols <= Z.of_nat (length x) ->
  host_reference contract w x rows cols = Some (row contract w x ((rows - 1) * cols) cols).
Proof.
  intros Hr Hc Hw Hx. unfold host_reference.
  assert (forall l acc, Forall (fun r => 0 <= r < rows) l ->
    fold_left (fun acc r => acc ← acc; mac_loop contract w x (r * cols) 1 cols (Z.to_nat cols) 0 f0) l (Some acc) =
    Some (default acc ((fun r => row contract w x (r * cols) cols) <$> last l))) as Hfold.
  { induction l as [|r l IH]; intros acc Hall; [done|]. apply list.Forall_cons in Hall as [Hrr Hall].
    cbn [fold_left mbind option_bind]. rewrite mac_loop_row by nia. rewrite IH by done.
    f_equal. destruct l as [|r' l]; [done|]. rewrite last_cons_cons.
    destruct (last (r' :: l)) eqn:E; [done|]. by apply last_None in E. }
  rewrite Hfold.
  - assert (seqZ 0 rows = seqZ 0 (rows - 1) ++ [rows - 1]) as ->; [|by rewrite last_snoc].
    replace rows with ((rows - 1) + 1) at 1 by lia. by rewrite seqZ_app by lia.
  - apply list.Forall_forall. intros r H%elem_of_seqZ. lia.
Qed.
