(* ===== verification/CudaMemory.v ===== *)
(** * Device memory of the CUDA program

    A small program logic for the host program ([wp]), and the invariant that
    [net_allocs] is the number of live buffers, kept by every call whether or not the
    runtime fails it. *)

From Stdlib Require Import SpecFloat.
From stdpp Require Import base gmap sets list strings numbers pretty.
From S2P Require Import Prelude Float64 StdMap Identity Kinds Entry CodecProofs Ledger Account AccountProofs Batch Query.
From S2P Require Import Text Sockets Worker Cuda.
Open Scope Z_scope.

(** ** Reasoning about the host program

    [wp m Q E h]: run from [h], [m] ends with a value and a state in [Q], or stops the
    program with an outcome and a state in [E]. *)
Definition wp {A} (m : Gpu A) (Q : A -> Host -> Prop) (E : Outcome -> Host -> Prop) (h : Host) : Prop :=
  match m h with (inl a, h') => Q a h' | (inr o, h') => E o h' end.

Lemma wp_bind {A B} (m : Gpu A) (k : A -> Gpu B) Q E h :
  wp m (fun a => wp (k a) Q E) E h -> wp (m ≫= k) Q E h.
Proof. unfold wp, mbind, Gpu_bind. by destruct (m h) as [[a|o] h']. Qed.

Lemma wp_mono {A} (m : Gpu A) (Q Q' : A -> Host -> Prop) E h :
  wp m Q E h -> (forall a h', Q a h' -> Q' a h') -> wp m Q' E h.
Proof. unfold wp. destruct (m h) as [[a|o] h']; auto. Qed.

(** One step of a sequence: the rule for its first call, then the rest. *)
Lemma wp_step {A B} (m : Gpu A) (k : A -> Gpu B) P Q E h :
  wp m P E h -> (forall a h', P a h' -> wp (k a) Q E h') -> wp (m ≫= k) Q E h.
Proof. intros Hm Hk. apply wp_bind. by eapply wp_mono. Qed.

(** Go on after a call, from the state [h] it leaves. *)
Ltac go_on h Hh := clear Hh h; intros ? h Hh; cbv beta in Hh.

#[local] Opaque hw hx host_reference launch f_to_u64 weight input.

Create HintDb gpu.

Section device_memory.
Context `{CudaPlatform} `{LlroundPlatform} `{TextPlatform} `{!CudaLaws}.

(** The live buffers are [live], counted by [net_allocs], with [ev] live events and
    nothing reported on the error stream. *)
Record held (live : gset Z) (ev : Z) (h : Host) : Prop := {
  held_mem : dom (h_mem h) = live;
  held_net : h_net h = Z.of_nat (size live);
  held_events : h_events h = ev;
  held_err : h_err h = []
}.

(** How the program stops early: undefined behaviour, or a failed call that [check]
    reports; the count of buffers is right in both cases. *)
Definition stopped (o : Outcome) (h : Host) : Prop :=
  h_net h = Z.of_nat (size (h_mem h)) /\ (o = Undefined \/ h_err h <> []).

Definition keeps {A} (m : Gpu A) : Prop := forall live ev h,
  held live ev h -> wp m (fun _ => held live ev) stopped h.

Lemma held_stopped live ev h o : held live ev h -> o = Undefined -> stopped o h.
Proof. intros [Hm Hn _ _] Ho. split; [|by left]. rewrite Hn, <- Hm. by rewrite size_dom. Qed.

Lemma keeps_check what : keeps (check what).
Proof.
  intros live ev h Hh. unfold wp, check. destruct (cuda_error what); [|done].
  destruct Hh as [Hm Hn _ He]. split; [|right; cbn; by rewrite He]. cbn. rewrite Hn, <- Hm. by rewrite size_dom.
Qed.

Lemma keeps_bind {A B} (m : Gpu A) (k : A -> Gpu B) : keeps m -> (forall a, keeps (k a)) -> keeps (m ≫= k).
Proof. intros Hm Hk live ev h Hh. eapply wp_step; [by apply Hm|]. intros a h' Hh'. by apply Hk. Qed.

Lemma keeps_ret {A} (a : A) : keeps (mret a).
Proof. by intros live ev h Hh. Qed.

Lemma keeps_defined {A} (o : option A) : keeps (defined o).
Proof. intros live ev h Hh. destruct o; [exact Hh|]. by eapply held_stopped. Qed.

Lemma keeps_buffer p : keeps (buffer p).
Proof. intros live ev h Hh. unfold wp, buffer. destruct (h_mem h !! p); [done|]. by eapply held_stopped. Qed.

Lemma keeps_update (f : Host -> Host) :
  (forall h, h_mem (f h) = h_mem h /\ h_net (f h) = h_net h /\ h_events (f h) = h_events h /\ h_err (f h) = h_err h) ->
  keeps (modify_host f).
Proof.
  intros Hf live ev h [Hm Hn Hev He]. destruct (Hf h) as (E1 & E2 & E3 & E4).
  split; cbn; congruence.
Qed.

Lemma keeps_say line : keeps (say line).
Proof. by apply keeps_update. Qed.
Lemma keeps_print_lines lines : keeps (print_lines lines).
Proof. by apply keeps_update. Qed.
Lemma keeps_emit entry : keeps (emit entry).
Proof. by apply keeps_update. Qed.
Lemma keeps_now : keeps now.
Proof. by intros live ev h Hh. Qed.
Lemma keeps_net : keeps net.
Proof. by intros live ev h Hh. Qed.
Lemma keeps_ledger : keeps ledger.
Proof. by intros live ev h Hh. Qed.
Lemma keeps_tick d : keeps (tick d).
Proof. intros live ev h [Hm Hn Hev He]. by split. Qed.

#[local] Hint Resolve keeps_check keeps_bind keeps_ret keeps_defined keeps_buffer keeps_say keeps_print_lines
  keeps_emit keeps_now keeps_net keeps_ledger keeps_tick : gpu.

(** Writing to a live buffer. *)
Lemma held_set_buffer live ev h p b : p ∈ live -> held live ev h ->
  wp (set_buffer p b) (fun _ => held live ev) stopped h.
Proof.
  intros Hp [Hm Hn Hev He]. split; cbn; [|done..]. rewrite dom_insert_L, Hm. set_solver.
Qed.

Lemma held_copy_to_device live ev h what p b : p ∈ live -> held live ev h ->
  wp (copy_to_device what p b) (fun _ => held live ev) stopped h.
Proof.
  intros Hp Hh. eapply wp_step; [by apply keeps_check|]. intros ? h' Hh'. by apply held_set_buffer.
Qed.

Lemma held_zero_buffer live ev h what p n : p ∈ live -> held live ev h ->
  wp (zero_buffer what p n) (fun _ => held live ev) stopped h.
Proof.
  intros Hp Hh. eapply wp_step; [by apply keeps_check|]. intros ? h' Hh'. by apply held_set_buffer.
Qed.

Lemma held_timed live ev h r0 la r1 sy el threads thread p q out : out ∈ live -> held live ev h ->
  wp (timed_kernel r0 la r1 sy el threads thread p q out) (fun _ => held live ev) stopped h.
Proof.
  intros Hp Hh. unfold timed_kernel.
  do 5 (eapply wp_step; [first [by apply keeps_check | by apply keeps_buffer | by apply keeps_defined]|go_on h Hh]).
  eapply wp_step; [by apply held_set_buffer|go_on h Hh].
  assert (keeps (check la;; check r1;; check sy;; check el;;
    defined (f_to_u64 (fmul (elapsed_ms el) (f_of_Z 1000000))))) as Hk by eauto 10 with gpu.
  by apply Hk.
Qed.

Lemma held_malloc live ev h what n : held live ev h ->
  wp (cuda_malloc what n) (fun p h' => (p ∉ live) /\ held ({[p]} ∪ live) ev h') stopped h.
Proof.
  intros Hh. eapply wp_step; [by apply keeps_check|]. intros ? h' [Hm Hn Hev He].
  pose proof (device_pointer_fresh (dom (h_mem h'))) as Hf. rewrite Hm in Hf.
  unfold wp, place_buffer. rewrite Hm. split; [done|]. split; cbn; [|rewrite Hn|done|done].
  - rewrite dom_insert_L, Hm. done.
  - rewrite size_union by set_solver. rewrite size_singleton. lia.
Qed.

Lemma held_free live ev h what p : p ∈ live -> held live ev h ->
  wp (cuda_free what p) (fun _ => held (live ∖ {[p]}) ev) stopped h.
Proof.
  intros Hp Hh. eapply wp_step; [by apply keeps_check|]. intros ? h' [Hm Hn Hev He].
  split; cbn; [|rewrite Hn|done|done].
  - rewrite dom_delete_L, Hm. done.
  - rewrite size_difference by set_solver. rewrite size_singleton.
    assert (size live <> 0)%nat; [|lia]. intros Hz%size_empty_inv. set_solver.
Qed.

Lemma held_event_create live ev h what : held live ev h ->
  wp (event_create what) (fun _ => held live (ev + 1)) stopped h.
Proof.
  intros Hh. eapply wp_step; [by apply keeps_check|]. intros ? h' [Hm Hn Hev He].
  split; cbn; [done..|by rewrite Hev|done].
Qed.

Lemma held_event_destroy live ev h what : held live ev h ->
  wp (event_destroy what) (fun _ => held live (ev - 1)) stopped h.
Proof.
  intros Hh. eapply wp_step; [by apply keeps_check|]. intros ? h' [Hm Hn Hev He].
  split; cbn; [done..|by rewrite Hev|done].
Qed.

Definition buffers (b : Buffers) : gset Z := {[b_w b; b_kv b; b_x b; b_out b]}.

Lemma held_setup h : held ∅ 0 h -> wp cuda_setup (fun b h' => NoDup [b_w b; b_kv b; b_x b; b_out b] /\ held (buffers b) 0 h') stopped h.
Proof.
  intros Hh. unfold cuda_setup.
  do 3 (eapply wp_step; [first [by apply keeps_check | by apply keeps_say]|go_on h Hh]).
  eapply wp_step; [by apply held_malloc|]. clear Hh h. intros w h [Hw Hh].
  eapply wp_step; [by apply held_malloc|]. clear Hh h. intros kv h [Hkv Hh].
  eapply wp_step; [eapply held_copy_to_device; [|exact Hh]; set_solver|go_on h Hh].
  eapply wp_step; [eapply held_zero_buffer; [|exact Hh]; set_solver|go_on h Hh].
  eapply wp_step; [by apply held_malloc|]. clear Hh h. intros x h [Hx Hh].
  eapply wp_step; [by apply held_malloc|]. clear Hh h. intros out h [Hout Hh].
  unfold wp, mret, Gpu_ret, buffers. cbn [b_w b_kv b_x b_out]. split.
  - rewrite !NoDup_cons. split_and!; [set_solver..|constructor].
  - replace ({[w; kv; x; out]} : gset Z) with ({[out]} ∪ ({[x]} ∪ ({[kv]} ∪ ({[w]} ∪ ∅))) : gset Z); [done|set_solver].
Qed.

(** A call that keeps the buffers, by the rules above. *)
Ltac keep h Hh :=
  match goal with |- wp (?m ≫= _) _ _ _ =>
    match m with
    | check _ => refine (wp_step _ _ _ _ _ _ (keeps_check _ _ _ _ Hh) _)
    | say _ => refine (wp_step _ _ _ _ _ _ (keeps_say _ _ _ _ Hh) _)
    | print_lines _ => refine (wp_step _ _ _ _ _ _ (keeps_print_lines _ _ _ _ Hh) _)
    | emit _ => refine (wp_step _ _ _ _ _ _ (keeps_emit _ _ _ _ Hh) _)
    | now => refine (wp_step _ _ _ _ _ _ (keeps_now _ _ _ Hh) _)
    | net => refine (wp_step _ _ _ _ _ _ (keeps_net _ _ _ Hh) _)
    | ledger => refine (wp_step _ _ _ _ _ _ (keeps_ledger _ _ _ Hh) _)
    | tick _ => refine (wp_step _ _ _ _ _ _ (keeps_tick _ _ _ _ Hh) _)
    | buffer _ => refine (wp_step _ _ _ _ _ _ (keeps_buffer _ _ _ _ Hh) _)
    | defined _ => refine (wp_step _ _ _ _ _ _ (keeps_defined _ _ _ _ Hh) _)
    end; go_on h Hh
  end.

Lemma held_cold b ev h : held (buffers b) ev h -> wp (cuda_cold b) (fun _ => held (buffers b) ev) stopped h.
Proof.
  intros Hh. assert (b_x b ∈ buffers b /\ b_out b ∈ buffers b) as [Hx Ho] by (unfold buffers; set_solver).
  unfold cuda_cold; cbv zeta. repeat keep h Hh.
  eapply wp_step; [by apply held_copy_to_device|go_on h Hh]. repeat keep h Hh.
  do 2 (eapply wp_step; [by apply held_event_create|go_on h Hh]).
  eapply wp_step; [by apply held_timed|go_on h Hh]. repeat keep h Hh.
  eapply wp_step; [by apply held_timed|go_on h Hh]. repeat keep h Hh.
  eapply wp_step; [eapply (keeps_bind (check "D2H out")); eauto with gpu|go_on h Hh]. repeat keep h Hh.
  do 2 (eapply wp_step; [by apply held_event_destroy|go_on h Hh]).
  unfold wp, mret, Gpu_ret. by replace ev with (ev + 1 + 1 - 1 - 1) by lia.
Qed.

Lemma keeps_warm : keeps cuda_warm.
Proof. unfold cuda_warm. eauto 20 with gpu. Qed.

Lemma keeps_retry : keeps cuda_retry.
Proof. unfold cuda_retry. eauto 30 with gpu. Qed.

Lemma held_cleanup b ev h : NoDup [b_w b; b_kv b; b_x b; b_out b] -> held (buffers b) ev h ->
  wp (cuda_cleanup b) (fun _ => held ∅ ev) stopped h.
Proof.
  intros Hnd Hh. unfold cuda_cleanup, buffers in *. rewrite !NoDup_cons in Hnd.
  destruct Hnd as (Hw & Hkv & Hx & _).
  do 4 (eapply wp_step; [eapply held_free; [|exact Hh]; set_solver|go_on h Hh]).
  match type of Hh with held ?live _ _ => assert (live = ∅) as El by set_solver; rewrite El in Hh; clear El end.
  repeat keep h Hh. done.
Qed.

Lemma keeps_verdict baseline verified : keeps (cuda_verdict baseline verified).
Proof. unfold cuda_verdict. eauto 20 with gpu. Qed.

Lemma cuda_program_memory : wp cuda_program (fun _ => held ∅ 0) stopped host_start.
Proof.
  unfold cuda_program. eapply wp_step; [apply held_setup; by split|]. intros b h [Hnd Hh].
  eapply wp_step; [by apply held_cold|go_on h Hh]. eapply wp_step; [by apply keeps_warm|go_on h Hh].
  eapply wp_step; [by apply keeps_retry|go_on h Hh]. eapply wp_step; [by apply held_cleanup|go_on h Hh].
  by apply keeps_verdict.
Qed.

End device_memory.
