(* ===== verification/CudaProofs.v ===== *)
(** * Correctness of the CUDA accounting proof

    Whole runs of the program: on every path the count of buffers is the number of live
    buffers, and none is left when it returns; when the runtime works, the ledger holds
    exactly the entries of the three requests, the accounts satisfy the program's checks
    and it exits with code 0. *)

From Stdlib Require Import SpecFloat.
From stdpp Require Import base gmap sets list strings numbers pretty.
From S2P Require Import Prelude Float64 StdMap Identity Kinds Entry CodecProofs Ledger Account AccountProofs Batch Query.
From S2P Require Import Text Sockets Worker Cuda CudaKernels CudaMemory.
Open Scope Z_scope.

#[local] Opaque hw hx host_reference launch f_to_u64 weight input.

(** ** A run without failures *)

Lemma run_bind {A B} (m : Gpu A) (k : A -> Gpu B) h a h' r :
  m h = (inl a, h') -> k a h' = r -> (m ≫= k) h = r.
Proof. intros Hm Hk. unfold mbind, Gpu_bind. by rewrite Hm. Qed.

(** [ledger.append] of several entries, one after the other. *)
Definition append_list (l : Ledger) (es : list LedgerEntry) : Ledger :=
  fold_left (fun l e => (append None l e).1) es l.

Lemma append_list_all l es : append_list l es = (append_all None l es).1.
Proof.
  revert l. induction es as [|e es IH]; intros l; [done|]. cbn [append_list fold_left append_all].
  fold (append_list (append None l e).1 es). rewrite IH. destruct (append None l e) as [l' r]. cbn [fst].
  by destruct (append_all None l' es).
Qed.

(** The entries of the three requests, for a prefill of [p] and a decode of [d]
    nanoseconds. *)
Definition cold_entries (p d : Z) : list LedgerEntry :=
  let t := 1000100 in
  [ entry_a RequestStart RGeneric d0 Count false 1000000 0 1;
    entry_a Reserve RMemory d1 Count false 1000000 0 2;
    entry_a TransferH2D RTransfer (bytes_of kVec) Bytes false t 0 3;
    entry_a Prefill RCompute (ns_seconds p) Seconds true t (t + p) 4;
    entry_a Decode RCompute (ns_seconds d) Seconds true (t + p) (t + p + d) 5;
    entry_a Decode RCompute (d_of_Z 32) Count true (t + p) (t + p + d) 6;
    entry_a ModelResidency RResidency (bytes_of (kMat * kVec)) Bytes true t (t + p + d) 7;
    entry_a TransferD2H RTransfer (bytes_of kMat) Bytes false (t + p + d) 0 8;
    entry_a Release RMemory d1 Count false (t + p + d) 0 9;
    entry_a RequestEnd RGeneric d0 Count false (t + p + d) 0 10 ].

Definition warm_entries (t : Z) : list LedgerEntry :=
  [ entry_b RequestStart RGeneric d0 Count Measured false t 0 11;
    entry_b KvReuse RKv (bytes_of kVec) Bytes Measured false t 0 12;
    entry_b ReuseAvoided RCompute (d_of_Z 8 / d_of_Z 100)%D Seconds Estimated false t 0 13;
    entry_b KernelHit RCache d1 Count Measured false t 0 14;
    entry_b Decode RCompute (d_of_Z 32) Count Measured true t (t + 100000) 15;
    entry_b RequestEnd RGeneric d0 Count Measured false (t + 100000) 0 16 ].

Definition retry_entries (t : Z) : list LedgerEntry :=
  let t1 := t + 50000000 in
  let t2 := t1 + 50000000 in
  let t3 := t2 + 40000 in
  [ entry_c AC1 (MkGen 1) RequestStart RGeneric d0 Count false t 0 17;
    entry_c AC1 (MkGen 1) Prefill RCompute (d_of_Z 5 / d_of_Z 100)%D Seconds true t t1 18;
    entry_c AC1 (MkGen 1) Failure RGeneric d0 Count false t1 0 19;
    entry_c AC1 (MkGen 1) Retry RGeneric d1 Count false t1 0 20;
    entry_c AC2 (MkGen 2) RequestStart RGeneric d0 Count false t1 0 21;
    entry_c AC2 (MkGen 2) Prefill RCompute (d_of_Z 5 / d_of_Z 100)%D Seconds true t1 t2 22;
    entry_c AC2 (MkGen 2) Decode RCompute (d_of_Z 16) Count true t2 t3 23;
    entry_c AC2 (MkGen 2) RequestEnd RGeneric d0 Count false t3 0 24 ].

Definition cuda_entries (p d : Z) : list LedgerEntry :=
  cold_entries p d ++ warm_entries (1000100 + p + d) ++ retry_entries (1100100 + p + d).

(** *** The last row, evaluated *)

Fixpoint fold_count {A} (f : A -> Z -> A) (n : nat) (j : Z) (acc : A) : A :=
  match n with O => acc | S n => fold_count f n (Z.succ j) (f acc j) end.

Lemma fold_left_seqZ {A} (f : A -> Z -> A) n : forall j acc,
  fold_left f (seqZ j (Z.of_nat n)) acc = fold_count f n j acc.
Proof.
  induction n as [|n IH]; intros j acc; [done|]. rewrite seqZ_cons by lia. cbn [fold_left fold_count].
  rewrite <- IH. do 2 f_equal. lia.
Qed.

Lemma fold_left_ext_in {A B} (f g : A -> B -> A) (l : list B) acc :
  (forall a x, x ∈ l -> f a x = g a x) -> fold_left f l acc = fold_left g l acc.
Proof.
  revert acc. induction l as [|x l IH]; intros acc Hfg; [done|]. cbn [fold_left].
  rewrite Hfg by by left. apply IH. intros. apply Hfg. by right.
Qed.

Lemma sizes : kMat = 256 /\ kVec = 4096.
Proof. done. Qed.

#[local] Transparent hw hx.

Lemma hw_lookup i : 0 <= i < kMat * kVec -> hw !! Z.to_nat i = Some (weight i).
Proof.
  intros Hi. unfold hw. rewrite list_lookup_fmap, lookup_seqZ_lt by lia. cbn [fmap option_fmap option_map].
  do 2 f_equal. lia.
Qed.

Lemma hx_lookup i : 0 <= i < kVec -> hx !! Z.to_nat i = Some (input i).
Proof.
  intros Hi. unfold hx. rewrite list_lookup_fmap, lookup_seqZ_lt by lia. cbn [fmap option_fmap option_map].
  do 2 f_equal. lia.
Qed.

Lemma hw_length : Z.of_nat (length hw) = kMat * kVec.
Proof. unfold hw. rewrite length_fmap, length_seqZ. unfold kMat, kVec. lia. Qed.

Lemma hx_length : Z.of_nat (length hx) = kVec.
Proof. unfold hx. rewrite length_fmap, length_seqZ. unfold kVec. lia. Qed.

#[local] Opaque hw hx.

(** Fused or not, the last row is the same float. *)
Lemma last_row contract : row contract hw hx ((kMat - 1) * kVec) kVec = S754_finite false 14084063 (-22).
Proof.
  unfold row. rewrite (fold_left_ext_in _
    (fun acc j => muladd contract acc (weight ((kMat - 1) * kVec + j)) (input j))).
  - change (seqZ 0 kVec) with (seqZ 0 (Z.of_nat 4096)). rewrite fold_left_seqZ.
    destruct contract; by vm_compute.
  - intros acc j Hj%elem_of_seqZ. unfold kVec, kMat in *.
    rewrite hw_lookup, hx_lookup by (unfold kVec, kMat; lia). done.
Qed.

(** *** The phases *)

Section run.
Context `{CudaPlatform} `{LlroundPlatform} `{TextPlatform} `{!CudaLaws}.
Hypothesis no_error : forall what, cuda_error what = None.

Lemma run_check what h : check what h = (inl (), h).
Proof using no_error. unfold check. by rewrite no_error. Qed.

Lemma run_timed r0 la r1 sy el threads thread p q out mem ev net seq t l lines err a b o o' ns :
  mem !! p = Some a -> mem !! q = Some b -> mem !! out = Some o ->
  launch (thread a b) (thread_order la threads) o = Some o' ->
  f_to_u64 (fmul (elapsed_ms el) (f_of_Z 1000000)) = Some ns ->
  timed_kernel r0 la r1 sy el threads thread p q out (MkHost mem ev net seq t l lines err) =
  (inl ns, MkHost (<[out := o']> mem) ev net seq t l lines err).
Proof using no_error.
  intros Ha Hb Ho Hl Hns. unfold timed_kernel.
  refine (run_bind _ _ _ _ _ _ (run_check _ _) _).
  refine (run_bind _ _ _ a (MkHost mem ev net seq t l lines err) _ _ _); [unfold buffer; cbn [h_mem]; by rewrite Ha|].
  refine (run_bind _ _ _ b (MkHost mem ev net seq t l lines err) _ _ _); [unfold buffer; cbn [h_mem]; by rewrite Hb|].
  refine (run_bind _ _ _ o (MkHost mem ev net seq t l lines err) _ _ _); [unfold buffer; cbn [h_mem]; by rewrite Ho|].
  refine (run_bind _ _ _ o' (MkHost mem ev net seq t l lines err) _ _ _); [by rewrite Hl|].
  eapply (run_bind _ _ _ () (MkHost (<[out := o']> mem) ev net seq t l lines err)); [reflexivity|].
  do 4 refine (run_bind _ _ _ _ _ _ (run_check _ _) _). by rewrite Hns.
Qed.

Lemma run_event_create what mem ev net seq t l lines err :
  event_create what (MkHost mem ev net seq t l lines err) = (inl (), MkHost mem (ev + 1) net seq t l lines err).
Proof using no_error. by refine (run_bind _ _ _ _ _ _ (run_check _ _) _). Qed.

Lemma run_event_destroy what mem ev net seq t l lines err :
  event_destroy what (MkHost mem ev net seq t l lines err) = (inl (), MkHost mem (ev - 1) net seq t l lines err).
Proof using no_error. by refine (run_bind _ _ _ _ _ _ (run_check _ _) _). Qed.

Lemma run_copy_to_device what p data mem ev net seq t l lines err :
  copy_to_device what p data (MkHost mem ev net seq t l lines err) =
  (inl (), MkHost (<[p := data]> mem) ev net seq t l lines err).
Proof using no_error. by refine (run_bind _ _ _ _ _ _ (run_check _ _) _). Qed.

Lemma run_copy_from_device what p mem ev net seq t l lines err b : mem !! p = Some b ->
  copy_from_device what p (MkHost mem ev net seq t l lines err) = (inl b, MkHost mem ev net seq t l lines err).
Proof using no_error.
  intros Hb. refine (run_bind _ _ _ _ _ _ (run_check _ _) _). unfold buffer. cbn [h_mem]. by rewrite Hb.
Qed.

Lemma run_zero_buffer what p n mem ev net seq t l lines err :
  zero_buffer what p n (MkHost mem ev net seq t l lines err) =
  (inl (), MkHost (<[p := replicate (Z.to_nat n) f0]> mem) ev net seq t l lines err).
Proof using no_error. by refine (run_bind _ _ _ _ _ _ (run_check _ _) _). Qed.

Lemma run_malloc what n mem ev net seq t l lines err :
  cuda_malloc what n (MkHost mem ev net seq t l lines err) =
  (inl (device_pointer (dom mem)),
   MkHost (<[device_pointer (dom mem) := device_garbage n]> mem) ev (net + 1) seq t l lines err).
Proof using no_error. by refine (run_bind _ _ _ _ _ _ (run_check _ _) _). Qed.

Lemma run_free what p mem ev net seq t l lines err :
  cuda_free what p (MkHost mem ev net seq t l lines err) =
  (inl (), MkHost (delete p mem) ev (net - 1) seq t l lines err).
Proof using no_error. by refine (run_bind _ _ _ _ _ _ (run_check _ _) _). Qed.

Lemma run_emit entry mem ev net seq t l lines err :
  emit entry (MkHost mem ev net seq t l lines err) =
  (inl (), MkHost mem ev net (seq + 1) t (append None l (entry (seq + 1))).1 lines err).
Proof. done. Qed.

Lemma run_now mem ev net seq t l lines err :
  now (MkHost mem ev net seq t l lines err) = (inl t, MkHost mem ev net seq t l lines err).
Proof. done. Qed.

Lemma run_tick d mem ev net seq t l lines err : 0 <= t + d < 2 ^ 64 ->
  tick d (MkHost mem ev net seq t l lines err) = (inl (t + d), MkHost mem ev net seq (t + d) l lines err).
Proof. intros Hd. unfold tick. cbn [h_now]. by rewrite wrap_small by done. Qed.

Lemma run_say line mem ev net seq t l lines err :
  say line (MkHost mem ev net seq t l lines err) = (inl (), MkHost mem ev net seq t l (lines ++ [line]) err).
Proof. done. Qed.

(** The call the sequence starts with, by the rule for it. *)
Ltac call :=
  match goal with |- (?m ≫= _) _ = _ =>
    match m with
    | check _ => refine (run_bind _ _ _ _ _ _ (run_check _ _) _)
    | emit _ => refine (run_bind _ _ _ _ _ _ (run_emit _ _ _ _ _ _ _ _ _) _)
    | now => refine (run_bind _ _ _ _ _ _ (run_now _ _ _ _ _ _ _ _) _)
    | say _ => refine (run_bind _ _ _ _ _ _ (run_say _ _ _ _ _ _ _ _ _) _)
    | cuda_malloc _ _ => refine (run_bind _ _ _ _ _ _ (run_malloc _ _ _ _ _ _ _ _ _ _) _)
    | cuda_free _ _ => refine (run_bind _ _ _ _ _ _ (run_free _ _ _ _ _ _ _ _ _ _) _)
    | copy_to_device _ _ _ => refine (run_bind _ _ _ _ _ _ (run_copy_to_device _ _ _ _ _ _ _ _ _ _ _) _)
    | zero_buffer _ _ _ => refine (run_bind _ _ _ _ _ _ (run_zero_buffer _ _ _ _ _ _ _ _ _ _ _) _)
    | event_create _ => refine (run_bind _ _ _ _ _ _ (run_event_create _ _ _ _ _ _ _ _ _) _)
    | event_destroy _ => refine (run_bind _ _ _ _ _ _ (run_event_destroy _ _ _ _ _ _ _ _ _) _)
    | tick _ => refine (run_bind _ _ _ _ _ _ (run_tick _ _ _ _ _ _ _ _ _ _) _); [lia|]
    end
  end.

#[local] Opaque append.

Lemma warm_runs mem ev net t l lines err : 0 <= t -> t + 100000 < 2 ^ 64 ->
  cuda_warm (MkHost mem ev net 10 t l lines err) =
  (inl (), MkHost mem ev net 16 (t + 100000) (append_list l (warm_entries t)) lines err).
Proof. intros Ht Hm. unfold cuda_warm. repeat call. reflexivity. Qed.

Lemma retry_runs mem ev net t l lines err : 0 <= t -> t + 100040000 < 2 ^ 64 ->
  cuda_retry (MkHost mem ev net 16 t l lines err) =
  (inl (), MkHost mem ev net 24 (t + 50000000 + 50000000 + 40000) (append_list l (retry_entries t)) lines err).
Proof. intros Ht Hm. unfold cuda_retry. repeat call. reflexivity. Qed.


Section timed_run.
Context (p d : Z).
Hypothesis prefill_time : f_to_u64 (fmul (elapsed_ms "elapsed prefill") (f_of_Z 1000000)) = Some p.
Hypothesis decode_time : f_to_u64 (fmul (elapsed_ms "elapsed decode") (f_of_Z 1000000)) = Some d.
Hypothesis times_fit : 0 <= p /\ 0 <= d /\ p + d < 2 ^ 63.

Definition cpu_ref_line : string :=
  let v := f2 (S754_finite false 14084063 (-22)) in
  "A cpu-ref " +:+ verdict true +:+ " (" +:+ v +:+ " vs " +:+ v +:+ ")".

(** What the two kernels leave in the output buffer: its last cell is the last row. *)
Lemma kernels_run o kvs : length o = Z.to_nat kMat -> length kvs = Z.to_nat kVec ->
  exists o1 o2,
    launch (prefill_kernel device_contracts hw hx kMat kVec)
      (thread_order "prefill launch" ((kMat + 127) / 128 * 128)) o = Some o1 /\
    launch (decode_kernel device_contracts hw kvs 128 kVec) (thread_order "decode launch" 128) o1 = Some o2 /\
    o2 !! Z.to_nat (kMat - 1) = Some (S754_finite false 14084063 (-22)).
Proof using H2.
  intros Ho Hk. destruct sizes as [HM HV]. pose proof hw_length as Hhw. pose proof hx_length as Hhx.
  assert (kMat <= (kMat + 127) / 128 * 128) as Hgrid by (rewrite HM; vm_compute; discriminate).
  rewrite (prefill_rows _ _ _ _ _ ((kMat + 127) / 128 * 128)); try lia; [|apply thread_order_grid].
  eexists. set (o1 := _ <$> seqZ 0 kMat).
  assert (length o1 = Z.to_nat kMat) as Hl1 by (unfold o1; rewrite length_fmap, length_seqZ; reflexivity).
  destruct (launch_decode device_contracts hw kvs 128 kVec (thread_order "decode launch" 128) o1)
    as (o2 & Ho2 & _ & Hrest); try lia.
  { rewrite thread_order_grid. apply list.Forall_forall. intros r Hr%elem_of_seqZ. lia. }
  clear Hhw Hhx. exists o2. split_and!; [reflexivity|exact Ho2|]. rewrite Hrest by lia. unfold o1.
  rewrite list_lookup_fmap, lookup_seqZ_lt by lia. cbn [fmap option_fmap option_map].
  f_equal. exact (last_row device_contracts).
Qed.

Lemma reference_runs : host_reference host_contracts hw hx kMat kVec = Some (S754_finite false 14084063 (-22)).
Proof.
  destruct sizes as [HM HV]. pose proof hw_length as Hhw. pose proof hx_length as Hhx.
  rewrite host_reference_last by lia. f_equal. apply last_row.
Qed.

Lemma cold_runs b mem net l lines err o kvs :
  NoDup [b_w b; b_kv b; b_x b; b_out b] ->
  mem !! b_w b = Some hw -> mem !! b_kv b = Some kvs -> length kvs = Z.to_nat kVec ->
  mem !! b_out b = Some o -> length o = Z.to_nat kMat ->
  exists mem', dom mem' = dom mem ∪ {[b_x b; b_out b]} /\
    cuda_cold b (MkHost mem 0 net 0 1000000 l lines err) =
    (inl true, MkHost mem' 0 net 10 (1000100 + p + d) (append_list l (cold_entries p d)) (lines ++ [cpu_ref_line]) err).
Proof using All.
  intros Hnd Hw Hkv Hkl Ho Hol. rewrite !NoDup_cons in Hnd.
  assert (b_w b <> b_x b /\ b_w b <> b_out b /\ b_kv b <> b_x b /\ b_kv b <> b_out b /\ b_x b <> b_out b)
    as (N1 & N2 & N3 & N4 & N5) by set_solver. clear Hnd.
  destruct (kernels_run o kvs Hol Hkl) as (o1 & o2 & Hp1 & Hd1 & Hlast).
  exists (<[b_out b := o2]> (<[b_out b := o1]> (<[b_x b := hx]> mem))).
  split; [rewrite !dom_insert_L; set_solver|].
  unfold cuda_cold. repeat call. change (1000000 + 0 + 100) with 1000100.
  refine (run_bind _ _ _ _ _ _ (run_timed _ _ _ _ _ ((kMat + 127) / 128 * 128)
    (fun w x => prefill_kernel device_contracts w x kMat kVec) _ _ _ _ _ _ _ _ _ _ _ hw hx o o1 p _ _ _ Hp1 prefill_time) _).
  1-3: by simplify_map_eq.
  call. replace (wrap 64 (1000100 + p - p)) with 1000100 by (rewrite wrap_small by (unfold in_width; lia); lia). repeat call.
  refine (run_bind _ _ _ _ _ _ (run_timed _ _ _ _ _ 128
    (fun w kv => decode_kernel device_contracts w kv 128 kVec) _ _ _ _ _ _ _ _ _ _ _ hw kvs o1 o2 d _ _ _ Hd1 decode_time) _).
  1-3: by simplify_map_eq.
  call. replace (wrap 64 (1000100 + p + d - d)) with (1000100 + p) by (rewrite wrap_small by (unfold in_width; lia); lia).
  replace (wrap 64 (wrap 64 (1000100 + p + d - p) - d)) with 1000100 by (rewrite !wrap_small by (unfold in_width; rewrite ?wrap_small by (unfold in_width; lia); lia); lia). repeat call.
  refine (run_bind _ _ _ _ _ _ (run_copy_from_device _ _ _ _ _ _ _ _ _ _ o2 _) _); [by simplify_map_eq|].
  call. rewrite reference_runs. eapply run_bind; [reflexivity|].
  rewrite Hlast. eapply run_bind; [reflexivity|]. cbv zeta.
  replace (SFltb _ f1e_2) with true by (by vm_compute).
  call. call. rewrite Z.add_0_r. repeat call. reflexivity.
Qed.

Definition gpu_line : string :=
  "GPU: " +:+ device_name +:+ " compute_cap=" +:+ num device_major +:+ "." +:+ num device_minor +:+
  " sm_120=" +:+ (if device_major =? 12 then "1" else "0").

Lemma setup_runs l : exists b mem o,
  NoDup [b_w b; b_kv b; b_x b; b_out b] /\ mem !! b_w b = Some hw /\
  mem !! b_kv b = Some (replicate (Z.to_nat kVec) f0) /\
  mem !! b_out b = Some o /\ length o = Z.to_nat kMat /\
  cuda_setup (MkHost ∅ 0 0 0 1000000 l [] []) = (inl b, MkHost mem 0 4 0 1000000 l [gpu_line] []).
Proof using no_error H2.
  pose (w := device_pointer (dom (∅ : gmap Z (list float32)))).
  pose (m1 := <[w := device_garbage (kMat * kVec)]> (∅ : gmap Z (list float32))).
  pose (kv := device_pointer (dom m1)).
  pose (m4 := <[kv := replicate (Z.to_nat kVec) f0]> (<[w := hw]> (<[kv := device_garbage kVec]> m1))).
  pose (x := device_pointer (dom m4)). pose (m5 := <[x := device_garbage kVec]> m4).
  pose (out := device_pointer (dom m5)). pose (m6 := <[out := device_garbage kMat]> m5).
  pose proof (device_pointer_fresh (dom m1)) as F1. fold kv in F1.
  pose proof (device_pointer_fresh (dom m4)) as F2. fold x in F2.
  pose proof (device_pointer_fresh (dom m5)) as F3. fold out in F3.
  unfold m5, m4, m1 in F1, F2, F3.
  rewrite !dom_insert_L, !not_elem_of_union, !not_elem_of_singleton in F1.
  rewrite !dom_insert_L, !not_elem_of_union, !not_elem_of_singleton in F2.
  rewrite !dom_insert_L, !not_elem_of_union, !not_elem_of_singleton in F3.
  destruct F1 as [N1 _], F2 as (N2 & N3 & _), F3 as (N4 & N5 & N6 & _).
  assert (NoDup [w; kv; x; out]) as Hnd.
  { rewrite !NoDup_cons, !not_elem_of_cons. split_and!; try (apply not_elem_of_nil || apply not_eq_sym; assumption).
    constructor. }
  exists (MkBuffers w kv x out), m6, (device_garbage kMat). cbn [b_w b_kv b_x b_out].
  split; [exact Hnd|]. unfold m6, m5, m4.
  split; [by simplify_map_eq|].
  split; [do 2 (rewrite lookup_insert_ne; [|assumption]); apply lookup_insert_eq|].
  split; [apply lookup_insert_eq|].
  split; [apply device_garbage_length|]. unfold cuda_setup. repeat call. reflexivity.
Qed.

End timed_run.

(** The device reports as much free memory after the run as before it, to within
    16 MiB, as the program computes it. *)
Definition memory_back : bool :=
  SFltb (SFabs (d_of_Z (device_free "MemGetInfo-before") - d_of_Z (device_free "MemGetInfo-after"))%D)
    (d_of_Z (16 * 1024 * 1024)).

Lemma run_net mem ev k seq t l lines err :
  net (MkHost mem ev k seq t l lines err) = (inl k, MkHost mem ev k seq t l lines err).
Proof. done. Qed.

Lemma run_ledger mem ev k seq t l lines err :
  ledger (MkHost mem ev k seq t l lines err) = (inl l, MkHost mem ev k seq t l lines err).
Proof. done. Qed.

Definition baseline_line : string :=
  "baseline: net_allocs=" +:+ num 0 +:+ " free(mib) before=" +:+
  num (Z.shiftr (device_free "MemGetInfo-before") 20) +:+ " after=" +:+
  num (Z.shiftr (device_free "MemGetInfo-after") 20) +:+ " -> " +:+ verdict true.

Lemma cleanup_runs b mem seq t l lines err : memory_back = true -> exists mem',
  cuda_cleanup b (MkHost mem 0 4 seq t l lines err) =
  (inl true, MkHost mem' 0 0 seq t l (lines ++ [baseline_line]) err).
Proof using no_error.
  intros Hm. eexists. unfold cuda_cleanup. repeat call.
  refine (run_bind _ _ _ _ _ _ (run_net _ _ _ _ _ _ _ _) _). cbv zeta. fold memory_back. rewrite Hm.
  refine (run_bind _ _ _ _ _ _ (run_say _ _ _ _ _ _ _ _ _) _). reflexivity.
Qed.

End run.

(** ** The accounts *)

Section accounts.
Context `{LlroundPlatform}.

(** The account of a request of which one attempt alone succeeded. *)
Lemma sole_winner es a : successful es a -> (forall b, successful es b -> b = a) ->
  wn_has (winner es) = true /\ wn_winning (winner es) = a.
Proof.
  intros Ha Hb. assert (wins es a) as Hw.
  { split; [done|]. intros b ->%Hb. right. split; [done|]. by rewrite id_compare_refl. }
  by apply wins_winner in Hw as [? ->].
Qed.

Lemma winner_account es r a : successful es a -> (forall b, successful es b -> b = a) ->
  let acc := reconcile_request es r in
  ra_completed acc = true /\ q_value (ra_prefill_s acc) = total dur_sec [Prefill] (of_attempt a es) /\
  q_value (ra_gpu_active_s acc) = total dur_sec gpu_kinds (of_attempt a es) /\
  ra_generated_tokens acc = tokens (of_attempt a es).
Proof.
  intros Ha Hb acc. destruct (sole_winner es a Ha Hb) as [Hhas Hwin].
  pose proof (reconcile_outcome_fields es r) as Hf. cbv zeta in Hf. fold acc in Hf.
  rewrite Hhas, Hwin in Hf. destruct_and! Hf.
  rewrite <- attempt_tokens, <- (attempt_total aa_prefill_s dur_sec [Prefill]),
    <- (attempt_total aa_gpu_s dur_sec gpu_kinds) by (done || attempt_step).
  done.
Qed.

Lemma failed_work es r : q_value (ra_failed_attempt_work (reconcile_request es r)) =
  dsum (exec_work es <$> filter (fun a => attempt_has Failure a es) (losers es)).
Proof. exact (proj1 (waste_sums_spec es)). Qed.

Lemma attempt_count es r :
  ra_attempt_count (reconcile_request es r) = length (StdMap.keys (t_attempts (fold_entries es))).
Proof. unfold StdMap.keys. by rewrite length_fmap. Qed.

Lemma attempt_among es b (s : list AttemptId) : of_attempt b es <> [] -> Forall (fun e => e_attempt e ∈ s) es -> b ∈ s.
Proof.
  intros Hb Hall. destruct (of_attempt b es) as [|e rest] eqn:E; [done|].
  assert (e ∈ of_attempt b es) as [<- He]%list_elem_of_filter by (rewrite E; by left).
  rewrite list.Forall_forall in Hall. by apply Hall.
Qed.

Lemma dur_sec_known e s n : e_has_end e = true -> e_start_ts_ns e = s -> e_end_ts_ns e = s + n -> 0 <= n ->
  dur_sec e = sec n.
Proof.
  intros Hh Hs He Hn. unfold dur_sec, duration_ns. rewrite Hh, Hs, He. cbn [negb].
  destruct (Z.leb_spec s (s + n)); [|lia]. f_equal. lia.
Qed.

(** A filter over a list of known length, from what the test says of each element. *)
Fixpoint mask {A} (bs : list bool) (l : list A) : list A :=
  match bs, l with
  | b :: bs, x :: l => if b then x :: mask bs l else mask bs l
  | _, _ => []
  end.

Lemma filter_mask {A} (P : A -> Prop) `{!forall x, Decision (P x)} l bs :
  Forall2 (fun x (b : bool) => if b then P x else ~ P x) l bs -> filter P l = mask bs l.
Proof.
  induction 1 as [|x b l bs Hx _ IH]; [done|]. cbn [mask]. rewrite filter_cons, IH.
  destruct b; [by rewrite decide_True|by rewrite decide_False].
Qed.

(** Decide a test on each element of a list of entries. *)
Ltac masked := repeat first [apply Forall2_nil_2 | apply Forall2_cons_2];
  apply (bool_decide_unpack _); vm_compute; exact I.

Ltac by_mask bs := rewrite (filter_mask _ _ bs); [reflexivity|masked].

(** *** Request A *)

Section cold.
Context (p d : Z) (Hp : 0 <= p) (Hd : 0 <= d).

Lemma cold_of_attempt : of_attempt AA (cold_entries p d) = cold_entries p d.
Proof. unfold of_attempt. by_mask (replicate 10 true). Qed.

Lemma cold_successful b : successful (cold_entries p d) b <-> b = AA.
Proof.
  split.
  - intros [Hb _]. apply attempt_has_nonempty, (attempt_among _ _ [AA]) in Hb; [set_solver|]. repeat constructor.
  - intros ->. unfold successful, attempt_has, of_kinds. rewrite cold_of_attempt. split_and!.
    + rewrite (filter_mask _ _ (replicate 9 false ++ [true])); [done|].
      masked.
    + intros Hn. apply Hn. by_mask (replicate 10 false).
    + intros Hn. apply Hn. by_mask (replicate 10 false).
Qed.

Lemma cold_gpu_entries : of_kinds gpu_kinds (cold_entries p d) =
  [ entry_a Prefill RCompute (ns_seconds p) Seconds true 1000100 (1000100 + p) 4;
    entry_a Decode RCompute (ns_seconds d) Seconds true (1000100 + p) (1000100 + p + d) 5;
    entry_a Decode RCompute (d_of_Z 32) Count true (1000100 + p) (1000100 + p + d) 6 ].
Proof. unfold of_kinds. by_mask [false; false; false; true; true; true; false; false; false; false]. Qed.

Lemma cold_tokens : tokens (cold_entries p d) = 32.
Proof.
  unfold tokens. rewrite (filter_mask _ _ [false; false; false; false; false; true; false; false; false; false]).
  - by vm_compute.
  - masked.
Qed.

Lemma cold_account :
  let acc := reconcile_request (cold_entries p d) RA in
  ra_completed acc = true /\ q_value (ra_gpu_active_s acc) = dsum [sec p; sec d; sec d] /\
  ra_generated_tokens acc = 32.
Proof using Hp Hd.
  destruct (winner_account (cold_entries p d) RA AA) as (Hc & _ & Hg & Ht).
  - by apply cold_successful.
  - intros b. apply cold_successful.
  - rewrite cold_of_attempt in Hg, Ht. split; [exact Hc|]. split.
    + rewrite Hg. unfold total. rewrite cold_gpu_entries. cbn [fmap list_fmap].
      rewrite (dur_sec_known _ 1000100 p) by done. by rewrite !(dur_sec_known _ (1000100 + p) d) by done.
    + rewrite Ht. apply cold_tokens.
Qed.

End cold.

(** *** Request B *)

Section warm.
Context (t : Z).

Lemma warm_of_attempt : of_attempt AB (warm_entries t) = warm_entries t.
Proof. unfold of_attempt. by_mask (replicate 6 true). Qed.

Lemma warm_successful b : successful (warm_entries t) b <-> b = AB.
Proof.
  split.
  - intros [Hb _]. apply attempt_has_nonempty, (attempt_among _ _ [AB]) in Hb; [set_solver|]. repeat constructor.
  - intros ->. unfold successful, attempt_has, of_kinds. rewrite warm_of_attempt. split_and!.
    + rewrite (filter_mask _ _ (replicate 5 false ++ [true])); [done|masked].
    + intros Hn. apply Hn. by_mask (replicate 6 false).
    + intros Hn. apply Hn. by_mask (replicate 6 false).
Qed.

Lemma warm_account : b_ok (reconcile_request (warm_entries t) RB) = true.
Proof.
  destruct (winner_account (warm_entries t) RB AB) as (Hc & Hpre & _);
    [by apply warm_successful|intros b; apply warm_successful|].
  rewrite warm_of_attempt in Hpre. destruct (reconcile_totals_sums (warm_entries t) RB)
    as (_&_&_&_&_&_&_&Hkv&_&_&_&_&_&Hra&_).
  unfold b_ok. rewrite Hc, Hkv, Hra, Hpre. unfold total, of_kinds.
  rewrite (filter_mask (fun e => e_event_kind e ∈ [KvReuse]) _ [false; true; false; false; false; false]) by masked.
  rewrite (filter_mask (fun e => e_event_kind e ∈ [ReuseAvoided]) _ [false; false; true; false; false; false]) by masked.
  rewrite (filter_mask (fun e => e_event_kind e ∈ [Prefill]) _ (replicate 6 false)) by masked.
  by vm_compute.
Qed.

End warm.

(** *** Request C *)

Section retry.
Context (t : Z).

Lemma retry_first : of_attempt AC1 (retry_entries t) = take 4 (retry_entries t).
Proof. unfold of_attempt. by_mask [true; true; true; true; false; false; false; false]. Qed.

Lemma retry_second : of_attempt AC2 (retry_entries t) = drop 4 (retry_entries t).
Proof. unfold of_attempt. by_mask [false; false; false; false; true; true; true; true]. Qed.

Lemma retry_failed : attempt_has Failure AC1 (retry_entries t).
Proof.
  unfold attempt_has, of_kinds. rewrite retry_first. cbn [take retry_entries].
  rewrite (filter_mask _ _ [false; false; true; false]); [done|masked].
Qed.

Lemma retry_successful b : successful (retry_entries t) b <-> b = AC2.
Proof.
  split.
  - intros [Hb [Hf _]]. apply attempt_has_nonempty, (attempt_among _ _ [AC1; AC2]) in Hb.
    + apply elem_of_cons in Hb as [->|Hb]; [|set_solver]. by destruct Hf; apply retry_failed.
    + apply (bool_decide_unpack _). by vm_compute.
  - intros ->. unfold successful, attempt_has, of_kinds. rewrite retry_second. cbn [drop retry_entries]. split_and!.
    + rewrite (filter_mask _ _ [false; false; false; true]); [done|masked].
    + intros Hn. apply Hn. by_mask (replicate 4 false).
    + intros Hn. apply Hn. by_mask (replicate 4 false).
Qed.

Lemma retry_keys : StdMap.keys (t_attempts (fold_entries (retry_entries t))) = [AC1; AC2].
Proof. by vm_compute. Qed.

Lemma retry_wasted : q_value (ra_failed_attempt_work (reconcile_request (retry_entries t) RC)) = dsum [dsum [sec 50000000]].
Proof.
  rewrite failed_work. unfold losers. rewrite retry_keys.
  destruct (sole_winner (retry_entries t) AC2) as [-> ->];
    [by apply retry_successful|intros b; apply retry_successful|].
  rewrite (filter_mask _ [AC1; AC2] [true; false]) by masked. cbn [mask].
  rewrite (filter_mask _ [AC1] [true]) by (apply Forall2_cons_2; [apply retry_failed|apply Forall2_nil_2]).
  cbn [mask fmap list_fmap]. do 2 f_equal. unfold exec_work, total, of_kinds. rewrite retry_first.
  cbn [take retry_entries]. rewrite (filter_mask _ _ [false; true; false; false]) by masked.
  cbn [mask fmap list_fmap]. by rewrite (dur_sec_known _ t 50000000) by done.
Qed.

Lemma retry_account : c_ok (reconcile_request (retry_entries t) RC) = true.
Proof.
  destruct (winner_account (retry_entries t) RC AC2) as (Hc & _ & _ & Ht);
    [by apply retry_successful|intros b; apply retry_successful|].
  destruct (reconcile_totals_counters (retry_entries t) RC) as (_&_&_&_&_&Hr&_).
  assert (ra_attempt_count (reconcile_request (retry_entries t) RC) = 2%nat) as Hn.
  { rewrite attempt_count. by rewrite retry_keys. }
  unfold c_ok. rewrite Hc, Hr, Hn, Ht, retry_wasted, retry_second. unfold tally, tokens, of_kinds.
  cbn [drop retry_entries].
  rewrite (filter_mask (fun e => e_event_kind e ∈ [Retry]) _ [false; false; false; true; false; false; false; false]) by masked.
  rewrite (filter_mask emits_tokens _ [false; false; true; false]) by masked.
  by vm_compute.
Qed.

End retry.

End accounts.

(** *** Device time is positive *)

Lemma sec_positive n : 0 < n -> dpositive (-200) (sec n).
Proof.
  intros Hn. unfold sec.
  assert (kNsPerSecond = S754_finite false 8388608000000000 (-23)) as -> by (by vm_compute).
  apply ddiv_positive; [by apply d_of_Z_positive|lia..].
Qed.

Lemma gpu_time_positive p d : 0 <= p -> 0 <= d -> 0 < p + d -> (d0 <? dsum [sec p; sec d; sec d])%D = true.
Proof.
  intros Hp Hd Hpd. unfold dsum, dsum_from. cbn [fold_left].
  assert (forall n, 0 <= n -> n = 0 /\ sec n = d0 \/ 0 < n /\ dpositive (-200) (sec n)) as Hcase.
  { intros n Hn. destruct (decide (n = 0)) as [->|]; [left; by vm_compute|right].
    split; [lia|]. apply sec_positive. lia. }
  assert (forall x, dpositive (-200) x -> (d0 + x)%D = x) as Hzero.
  { intros x Hx. apply dadd_d0_l. by intros ->. }
  assert (forall x y, dpositive (-252) x -> y = d0 \/ dpositive (-200) y -> (d0 <? x + y)%D = true) as Hadd.
  { intros x y Hx Hy. apply (positive_gt0 (-304)), (dadd_positive (-252)); [lia|done|].
    destruct Hy as [?|Hy]; [by left|right; by eapply dpositive_mono]. }
  destruct (Hcase p Hp) as [[? Hsp]|[_ Hsp]], (Hcase d Hd) as [[? Hsd]|[_ Hsd]]; [lia|..].
  - rewrite Hsp. change (d0 + d0)%D with d0. rewrite Hzero by done. apply Hadd; [by eapply dpositive_mono|by right].
  - rewrite Hsd, (Hzero _ Hsp). apply Hadd; [|by left]. apply (dadd_positive (-200)); [lia|done|by left].
  - rewrite (Hzero _ Hsp). apply Hadd; [|by right]. apply (dadd_positive (-200)); [lia|done|by right].
Qed.

(** ** What the ledger holds *)

Section outcome.
Context `{CudaPlatform} `{LlroundPlatform} `{TextPlatform}.

Lemma ns_seconds_valid n : in_width 64 n ->
  isfinite (ns_seconds n) = true /\ (ns_seconds n <? d0)%D = false.
Proof.
  intros Hn. destruct (sec_finite n Hn) as [Hf Hp]. unfold ns_seconds.
  change (d_of_Z n / d_of_Z 1000000000)%D with (sec n). split; [done|].
  by destruct (sec n) as [[]|[]| |[]].
Qed.

Lemma cuda_entries_valid p d : in_width 64 p -> in_width 64 d ->
  Forall (fun e => content_is_valid e = true) (cuda_entries p d).
Proof.
  intros Hp Hd. destruct (ns_seconds_valid p Hp) as [Fp Lp], (ns_seconds_valid d Hd) as [Fd Ld].
  repeat (apply list.Forall_cons; split); try (apply list.Forall_nil; done).
  4: { change (content_is_valid _) with (if negb (isfinite (ns_seconds p)) then false else
         if true && (ns_seconds p <? d0)%D then false else true). by rewrite Fp, Lp. }
  4: { change (content_is_valid _) with (if negb (isfinite (ns_seconds d)) then false else
         if true && (ns_seconds d <? d0)%D then false else true). by rewrite Fd, Ld. }
  all: by vm_compute.
Qed.

Lemma cuda_entries_distinct p d : NoDup (e_id <$> cuda_entries p d).
Proof. apply (bool_decide_unpack _). by vm_compute. Qed.

Lemma append_list_app l es es' : append_list l (es ++ es') = append_list (append_list l es) es'.
Proof. apply fold_left_app. Qed.

Lemma cuda_ledger_holds p d : in_width 64 p -> in_width 64 d ->
  lg_entries (append_list (ledger_new cuda_ledger_id) (cuda_entries p d)) = cuda_entries p d.
Proof.
  intros Hp Hd. rewrite append_list_all.
  apply (append_all_fresh (ledger_new cuda_ledger_id)); [apply ledger_new_wf|by apply cuda_entries_valid|].
  apply cuda_entries_distinct.
Qed.

(** Each request's entries are found by its query. *)
Lemma filter_segment (P : LedgerEntry -> Prop) `{!forall e, Decision (P e)} pre es post :
  Forall (fun e => ~ P e) pre -> Forall P es -> Forall (fun e => ~ P e) post ->
  filter P (pre ++ es ++ post) = es.
Proof.
  intros H1' H2' H3'. rewrite !list.filter_app.
  assert (forall l, Forall (fun e => ~ P e) l -> filter P l = []) as Hnone.
  { induction 1; [done|]. by rewrite filter_cons_False. }
  rewrite (Hnone pre), (Hnone post) by done. rewrite app_nil_r. cbn [app].
  clear - H2'. induction H2'; [done|]. rewrite filter_cons_True by done. by f_equal.
Qed.

End outcome.

Lemma cuda_requests p d :
  filter (fun e => e_request e = RA) (cuda_entries p d) = cold_entries p d /\
  filter (fun e => e_request e = RB) (cuda_entries p d) = warm_entries (1000100 + p + d) /\
  filter (fun e => e_request e = RC) (cuda_entries p d) = retry_entries (1100100 + p + d).
Proof.
  unfold cuda_entries. split_and!.
  - apply (filter_segment _ []); [constructor|repeat constructor|].
    apply (bool_decide_unpack _). by vm_compute.
  - apply filter_segment; [|repeat constructor|]; apply (bool_decide_unpack _); by vm_compute.
  - pose proof (filter_segment (fun e => e_request e = RC) (cold_entries p d ++ warm_entries (1000100 + p + d))
      (retry_entries (1100100 + p + d)) []) as Hs. rewrite app_nil_r, <- app_assoc in Hs.
    apply Hs; [|repeat constructor|constructor]. apply (bool_decide_unpack _). by vm_compute.
Qed.

(** The three checks of the program hold on these entries. *)
Lemma cuda_accounts `{LlroundPlatform} p d : 0 <= p -> 0 <= d -> 0 < p + d ->
  a_ok (cuda_account (cuda_entries p d) RA) = true /\
  b_ok (cuda_account (cuda_entries p d) RB) = true /\
  c_ok (cuda_account (cuda_entries p d) RC) = true /\
  q_value (ra_gpu_active_s (cuda_account (cuda_entries p d) RA)) = dsum [sec p; sec d; sec d].
Proof.
  intros Hp Hd Hpd. unfold cuda_account. rewrite !query_request.
  destruct (cuda_requests p d) as (-> & -> & ->).
  destruct (cold_account p d Hp Hd) as (Hc & Hg & Ht). split_and!; [|apply warm_account|apply retry_account|exact Hg].
  unfold a_ok. by rewrite Hc, Hg, Ht, gpu_time_positive.
Qed.

Section properties.
Context `{CudaPlatform} `{LlroundPlatform} `{TextPlatform} `{!CudaLaws}.

(** C38: device memory is balanced: whatever call of the runtime fails and wherever the
    program stops, [net_allocs] is the number of live device buffers; and when it ends
    by returning from [main], no buffer and no event is left. *)
Theorem cuda_memory_balanced :
  h_net cuda_main.2 = Z.of_nat (size (h_mem cuda_main.2)) /\
  (cuda_main.1 <> Undefined -> h_err cuda_main.2 = [] -> h_mem cuda_main.2 = ∅ /\ h_events cuda_main.2 = 0).
Proof.
  pose proof cuda_program_memory as Hw. unfold wp in Hw. unfold cuda_main.
  destruct (cuda_program host_start) as [[ok|o] h]; cbn [fst snd].
  - destruct Hw as [Hm Hn Hev He]. apply dom_empty_inv_L in Hm. by rewrite Hm, Hn.
  - destruct Hw as [Hn Ho]. split; [done|]. tauto.
Qed.

(** The whole program, when the runtime works: its result and the state it leaves. *)
Lemma cuda_program_runs p d :
  (forall what, cuda_error what = None) ->
  f_to_u64 (fmul (elapsed_ms "elapsed prefill") (f_of_Z 1000000)) = Some p ->
  f_to_u64 (fmul (elapsed_ms "elapsed decode") (f_of_Z 1000000)) = Some d ->
  0 <= p -> 0 <= d -> 0 < p + d -> p + d < 2 ^ 63 -> memory_back = true ->
  exists mem, let es := cuda_entries p d in
  cuda_program host_start =
  (inl true, MkHost mem 0 0 24 (1000100 + p + d + 100000 + 50000000 + 50000000 + 40000)
     (append_list (ledger_new cuda_ledger_id) es)
     ([gpu_line; cpu_ref_line; baseline_line] ++
      account_lines (cuda_account es RA) (cuda_account es RB) (cuda_account es RC) ++ ["CUDA_PROOF PASS"%string]) []).
Proof.
  intros Hok Htp Htd Hp Hd Hpd Hb Hm.
  assert (in_width 64 p /\ in_width 64 d) as [Wp Wd] by (unfold in_width; lia).
  destruct (setup_runs Hok (ledger_new cuda_ledger_id)) as (b & mem & o & Hnd & Hw & Hkv & Ho & Hol & Hsetup).
  destruct (cold_runs Hok p d Htp Htd ltac:(lia) b mem 4 (ledger_new cuda_ledger_id) [gpu_line] [] o _ Hnd Hw Hkv
    (length_replicate _ _) Ho Hol) as (mem1 & _ & Hcold).
  pose (l := append_list (ledger_new cuda_ledger_id) (cuda_entries p d)).
  destruct (cleanup_runs Hok b mem1 24 (1000100 + p + d + 100000 + 50000000 + 50000000 + 40000) l
    [gpu_line; cpu_ref_line] [] Hm) as (mem2 & Hclean).
  exists mem2. cbv zeta. unfold cuda_program.
  refine (run_bind _ _ _ _ _ _ Hsetup _). refine (run_bind _ _ _ _ _ _ Hcold _).
  refine (run_bind _ _ _ _ _ _ (warm_runs _ _ _ _ _ _ _ _ _) _); [lia..|].
  refine (run_bind _ _ _ _ _ _ (retry_runs _ _ _ _ _ _ _ _ _) _); [lia..|].
  replace (append_list (append_list _ _) _) with l.
  2: { unfold l, cuda_entries. rewrite !append_list_app.
       replace (1100100 + p + d) with (1000100 + p + d + 100000) by lia. reflexivity. }
  refine (run_bind _ _ _ _ _ _ Hclean _). unfold cuda_verdict.
  refine (run_bind _ _ _ _ _ _ (run_ledger _ _ _ _ _ _ _ _) _).
  unfold l, snapshot. rewrite cuda_ledger_holds by done. cbv zeta.
  destruct (cuda_accounts p d Hp Hd Hpd) as (-> & -> & -> & _).
  eapply run_bind; [reflexivity|]. eapply run_bind; [reflexivity|].
  refine (run_bind _ _ _ _ _ _ (run_check Hok _ _) _). reflexivity.
Qed.

(** C37: the accounting proof passes: when no call of the runtime fails, the kernels took
    some time and the memory comes back, the program exits with code 0 having printed
    PASS on every line, whatever the order of the threads and whether or not device and
    host fuse their multiply-adds; the ledger holds exactly the entries of the three
    requests; and no device buffer is left. The device time of the first request counts
    the decode kernel twice, once for each of its two Decode entries. *)
Theorem cuda_proof_passes p d :
  (forall what, cuda_error what = None) ->
  f_to_u64 (fmul (elapsed_ms "elapsed prefill") (f_of_Z 1000000)) = Some p ->
  f_to_u64 (fmul (elapsed_ms "elapsed decode") (f_of_Z 1000000)) = Some d ->
  0 <= p -> 0 <= d -> 0 < p + d -> p + d < 2 ^ 63 -> memory_back = true ->
  exists h, let es := cuda_entries p d in
    cuda_main = (Exit 0, h) /\ h_mem h = ∅ /\ h_events h = 0 /\ h_err h = [] /\
    lg_entries (h_ledger h) = es /\
    h_out h = [gpu_line; cpu_ref_line; baseline_line] ++
      account_lines (cuda_account es RA) (cuda_account es RB) (cuda_account es RC) ++ ["CUDA_PROOF PASS"%string] /\
    a_ok (cuda_account es RA) = true /\ b_ok (cuda_account es RB) = true /\ c_ok (cuda_account es RC) = true /\
    q_value (ra_gpu_active_s (cuda_account es RA)) = dsum [sec p; sec d; sec d].
Proof.
  intros Hok Htp Htd Hp Hd Hpd Hb Hm.
  destruct (cuda_program_runs p d Hok Htp Htd Hp Hd Hpd Hb Hm) as (mem & Hrun). cbv zeta in Hrun.
  pose proof cuda_program_memory as Hw. unfold wp in Hw. rewrite Hrun in Hw. destruct Hw as [Hmem _ _ _].
  apply dom_empty_inv_L in Hmem. unfold cuda_main. rewrite Hrun. eexists. cbv zeta.
  split; [reflexivity|]. destruct (cuda_accounts p d Hp Hd Hpd) as (Ha & Hb' & Hc & Hg).
  split_and!; [exact Hmem|reflexivity|reflexivity| |reflexivity|exact Ha|exact Hb'|exact Hc|exact Hg].
  apply cuda_ledger_holds; unfold in_width; lia.
Qed.

End properties.

(** The decode kernel's comment promises the whole sum; only the first thread's part of
    it is stored: with two threads over four ones, 2 instead of 4. *)
Lemma decode_partial_sum :
  let ones := replicate 4 (f_of_Z 1) in
  launch (decode_kernel false ones ones 2 4) [0; 1] [f0] = Some [f_of_Z 2] /\
  row false ones ones 0 4 = f_of_Z 4.
Proof. by vm_compute. Qed.

(** ** Witnesses *)

#[local] Instance sample_device : CudaPlatform := {|
  cuda_error := fun _ => None; device_name := "device"; device_major := 12; device_minor := 0;
  device_free := fun _ => 2 ^ 30; device_pointer := fun live => fresh live;
  device_garbage := fun n => replicate (Z.to_nat n) S754_nan; elapsed_ms := fun _ => fdiv (f_of_Z 3) (f_of_Z 2);
  thread_order := fun _ n => reverse (seqZ 0 n); device_contracts := true; host_contracts := false |}.

#[local] Instance sample_device_laws : CudaLaws.
Proof.
  split; [intros; apply is_fresh|intros; apply length_replicate|intros; apply reverse_Permutation].
Qed.

#[local] Instance sample_llround : LlroundPlatform := fun _ => 0.
#[local] Instance sample_text : TextPlatform := {| nan_text := "nan"; underflow_is_range_error := fun _ => false |}.

Lemma cuda_memory_balanced_witness :
  h_net cuda_main.2 = Z.of_nat (size (h_mem cuda_main.2)) /\
  (cuda_main.1 <> Undefined -> h_err cuda_main.2 = [] -> h_mem cuda_main.2 = ∅ /\ h_events cuda_main.2 = 0).
Proof. exact cuda_memory_balanced. Defined.

Lemma cuda_proof_passes_witness :
  exists h, cuda_main = (Exit 0, h) /\ h_mem h = ∅ /\ lg_entries (h_ledger h) = cuda_entries 1500000 1500000.
Proof.
  destruct (cuda_proof_passes 1500000 1500000) as (h & Hr & Hm & _ & _ & He & _);
    [done|by vm_compute|by vm_compute|done|done|done|done|by vm_compute|].
  exists h. split; [exact Hr|]. split; [exact Hm|exact He].
Defined.
