(* ===== verification/Examples.v ===== *)
(** * Programs that use the library (examples/examples.cpp, downstream/consumer.cpp)

    The tour of the library, section by section, with every line it prints, and the
    client that checks an installed package. Both are functions of the file system they
    find; what the operating system does with their writes is the [FileIO] interface. *)

From Stdlib Require Import Strings.Byte SpecFloat.
From stdpp Require Import base gmap sets list strings numbers pretty.
From S2P Require Import Prelude Float64 StdMap Identity Reader Kinds Entry Codec Crc CodecProofs.
From S2P Require Import Authority Ledger Account AccountProofs Pricing Batch Query Persistence.
From S2P Require Import PersistenceProofs Protocol ProtocolProofs Intake Text Sockets Worker.
Open Scope Z_scope.

#[local] Instance digest_byte_eq : EqDecision byte := Byte.byte_eq_dec.

(** What a program printed, the files it left, and how it ended. *)
Record Finished := MkFinished {
  fin_out : list string;
  fin_err : list string;
  fin_files : Files;
  fin_outcome : Outcome
}.

(** ** Building entries *)

Definition EX_LID : LedgerId := MkId 0x494C4544474552 1.

(** [ev] of examples.cpp; [batch] is empty for no batch. *)
Definition ev (id : LedgerEntryId) (req : RequestId) (at_ : AttemptId) (k : EventKind) (rk : ResourceKind)
    (v : double) (u : Unit) (has_end : bool) (s e : Z) (batch : string) : LedgerEntry :=
  let en := entry_default
    <| e_id := id |> <| e_ledger := EX_LID |> <| e_tenant := MkId 0x99 1 |> <| e_workload := MkId 0x88 1 |>
    <| e_request := req |> <| e_model := MkId 0x77 1 |> <| e_model_revision := MkId 0x77 2 |>
    <| e_attempt := at_ |> <| e_dispatch := MkId 0x3001 1 |> <| e_worker := MkId 0xAA 1 |>
    <| e_node := MkId 0x6002 1 |> <| e_device := MkId 0x6001 1 |>
    <| e_event_kind := k |> <| e_resource_kind := rk |> <| e_quantity := MkQuantity v u Measured |>
    <| e_start_ts_ns := s |> <| e_end_ts_ns := e |> <| e_has_end := has_end |>
    <| e_source := MkSourceIdentity (MkId 0xAA 1) (MkId 0xB007 1) (MkGen 1) |>
    <| e_authority := MkAuthorityEnvelope (MkGen 1) (MkId 0xB007 1) (MkGen 1) (MkGen 1) at_ (MkGen 1)
                        (MkId 0x3001 1) |> in
  if String.eqb batch EmptyString then en else en <| e_metadata ::= StdMap.assign "batch"%string batch |>.

(** An entry of attempt 0x2001 without a batch. *)
Definition ex (seq : Z) (req : RequestId) (k : EventKind) (rk : ResourceKind) (v : double) (u : Unit)
    (has_end : bool) (s e : Z) : LedgerEntry :=
  ev (MkId seq 1) req (MkId 0x2001 1) k rk v u has_end s e EmptyString.

Definition section (title : string) : list string := [EmptyString; "==== " +:+ title +:+ " ===="].

(** How [std::cout] prints a [bool]. *)
Definition bit (b : bool) : string := if b then "1" else "0".

Section examples.
Context `{LlroundPlatform} `{TextPlatform}.

(** ** The sections of [main] *)

(** 1. Basic request accounting. *)
Definition basic_request : RequestId := MkId 1 1.

Definition basic_entries : list LedgerEntry :=
  [ ex 1 basic_request RequestStart RGeneric d0 Count false 1000000000 0;
    ex 2 basic_request Reserve RMemory d1 Count false 1100000000 0;
    ex 3 basic_request KvAllocate RKv (d_of_Z 4096) Bytes false 1200000000 0;
    ex 4 basic_request Prefill RCompute (d1 / d_of_Z 2)%D Seconds true 1400000000 1900000000;
    ex 5 basic_request Decode RCompute (d_of_Z 64) Count true 2000000000 2400000000;
    ex 6 basic_request TransferH2D RTransfer (d_of_Z 1024) Bytes true 1300000000 1350000000;
    ex 7 basic_request ModelResidency RResidency (d_of_Z 1048576) Bytes true 1400000000 2400000000;
    ex 8 basic_request Release RMemory d1 Count false 2600000000 0;
    ex 9 basic_request RequestEnd RGeneric d0 Count false 2700000000 0 ].

Definition basic_lines : list string :=
  let acc := reconcile_request basic_entries basic_request in
  [ "completed=" +:+ bit (ra_completed acc) +:+ " wall=" +:+ f2 (q_value (ra_wall_latency_s acc)) +:+
    "s prefill=" +:+ f2 (q_value (ra_prefill_s acc)) +:+ "s decode=" +:+ f2 (q_value (ra_decode_s acc)) +:+
    "s tokens=" +:+ num (ra_generated_tokens acc) +:+ " kv=" +:+ f2 (q_value (ra_kv_allocated acc)) +:+
    "B model_byte_seconds=" +:+ f2 (q_value (ra_model_byte_seconds acc)) ].

(** 2. Batch cost attribution: the lambda [add], and the shares by tokens. *)
Definition batch_id : BatchId := MkId 0xB 1.

Definition batch_add (r : RequestId) (tok : Z) (gpu_s : double) (seq : Z) : list LedgerEntry :=
  let b := to_string batch_id in
  let at_ : AttemptId := MkId 0x2001 1 in
  [ ev (MkId seq 1) r at_ RequestStart RGeneric d0 Count false 1000000000 0 b;
    ev (MkId (seq + 1) 1) r at_ Decode RCompute (d_of_Z tok) Count true 1400000000 1500000000 b;
    ev (MkId (seq + 2) 1) r at_ GpuExecution RCompute gpu_s Seconds true 1400000000 1600000000 b;
    ev (MkId (seq + 3) 1) r at_ RequestEnd RGeneric d0 Count false 1700000000 0 b ].

Definition batch_entries : list LedgerEntry :=
  batch_add (MkId 0x11 1) 10 (d1 / d_of_Z 10)%D 1 ++ batch_add (MkId 0x12 1) 20 (d_of_Z 2 / d_of_Z 10)%D 11 ++
  batch_add (MkId 0x13 1) 30 (d_of_Z 3 / d_of_Z 10)%D 21.

Definition batch_allocation : BatchAccount * SharedAllocation :=
  let ba := reconcile_batch batch_entries batch_id in
  (ba, allocate_shared (ba_total_gpu_s ba * d_of_Z 2)%D (ba_members ba)
         (member_weights_for_policy (ba_member_accounts ba) ProportionalTokens) ProportionalTokens id_zero).

Definition batch_example_lines : list string :=
  let '(ba, alloc) := batch_allocation in
  [ "batch members=" +:+ size_to_string (length (ba_member_accounts ba)) +:+ " total_gpu_s=" +:+
    f2 (ba_total_gpu_s ba) ] ++
  ((fun m => "  member " +:+ String.substring 0 8 (to_string (ms_request m)) +:+ " token_share=" +:+
      f2 (ms_weight m) +:+ " cost=" +:+ f2 (ms_share m)) <$> sa_members alloc) ++
  [ "  unallocated_overhead=" +:+ f2 (sa_unallocated_overhead alloc) +:+ " reconciles=" +:+
    bit (allocation_reconciles alloc) ].

(** 3. Residency and reuse, cold against warm. *)
Definition RCold : RequestId := MkId 0x21 1.
Definition RWarm : RequestId := MkId 0x22 1.

Definition reuse_entries : list LedgerEntry :=
  [ ex 1 RCold RequestStart RGeneric d0 Count false 1000000000 0;
    ex 2 RCold ModelResidency RResidency (d_of_Z 2097152) Bytes true 1400000000 2400000000;
    ex 3 RCold Prefill RCompute (d1 / d_of_Z 2)%D Seconds true 1400000000 1900000000;
    ex 4 RCold KvAllocate RKv (d_of_Z 8192) Bytes false 1200000000 0;
    ex 5 RCold RequestEnd RGeneric d0 Count false 2500000000 0;
    ex 6 RWarm RequestStart RGeneric d0 Count false 1000000000 0;
    ex 7 RWarm KvReuse RKv (d_of_Z 8192) Bytes false 1100000000 0;
    ex 8 RWarm ReuseAvoided RCompute (d1 / d_of_Z 2)%D Seconds false 1200000000 0;
    ex 9 RWarm KernelHit RCache d1 Count false 1300000000 0;
    ex 10 RWarm RequestEnd RGeneric d0 Count false 1400000000 0 ].

Definition reuse_account (r : RequestId) : RequestAccount :=
  reconcile_request (query_ledger reuse_entries (query_default <| lq_request := Some r |>)) r.

Definition reuse_example_lines : list string :=
  let cold := reuse_account RCold in
  let warm := reuse_account RWarm in
  [ "cold:  prefill_s=" +:+ f2 (q_value (ra_prefill_s cold)) +:+ " model_byte_seconds=" +:+
      f2 (q_value (ra_model_byte_seconds cold));
    "warm:  prefill_s=" +:+ f2 (q_value (ra_prefill_s warm)) +:+ " kv_reuse=" +:+
      f2 (q_value (ra_kv_reuse warm)) +:+ " reuse_credit=" +:+ f2 (reuse_credit warm) +:+
      " reuse_rate=" +:+ f2 (reuse_rate warm);
    "cold vs warm: prefill " +:+ f2 (q_value (ra_prefill_s cold)) +:+ " -> " +:+
      f2 (q_value (ra_prefill_s warm)) +:+ "; reuse_credit " +:+ f2 (reuse_credit warm) ].

(** 4. Speculation, retry and waste. *)
Definition spec_request : RequestId := MkId 0x31 1.

Definition spec_mk (seq : Z) (at_ : AttemptId) (k : EventKind) (v : Z) : LedgerEntry :=
  ev (MkId seq 1) spec_request at_ k RCompute (d_of_Z v) Count true 1000000000 1000001000 EmptyString.

Definition spec_mark (seq : Z) (at_ : AttemptId) (k : EventKind) (v : double) (s : Z) : LedgerEntry :=
  ev (MkId seq 1) spec_request at_ k RGeneric v Count false s 0 EmptyString.

Definition spec_entries : list LedgerEntry :=
  let A1 : AttemptId := MkId 0x2001 1 in
  let A2 : AttemptId := MkId 0x2002 1 in
  [ spec_mark 1 A1 RequestStart d0 1000000000;
    spec_mk 2 A1 SpeculationProposed 16;
    spec_mk 3 A1 SpeculationAccepted 10;
    spec_mk 4 A1 SpeculationRejected 6;
    spec_mark 5 A1 Failure d0 1300000000;
    spec_mark 6 A1 Retry d1 1400000000;
    spec_mark 7 A2 RequestStart d0 1500000000;
    spec_mk 8 A2 Decode 32;
    spec_mark 9 A2 RequestEnd d0 1700000000 ].

Definition spec_lines : list string :=
  let acc := reconcile_request spec_entries spec_request in
  [ "completed=" +:+ bit (ra_completed acc) +:+ " retries=" +:+ num (ra_retries acc) +:+ " attempts=" +:+
      size_to_string (ra_attempt_count acc);
    "spec proposed/accepted/rejected = " +:+ num (ra_spec_proposed acc) +:+ "/" +:+ num (ra_spec_accepted acc) +:+
      "/" +:+ num (ra_spec_rejected acc);
    "generated_tokens=" +:+ num (ra_generated_tokens acc) +:+ " (rejected " +:+ num (ra_spec_rejected acc) +:+
      " NOT counted as output)";
    "failed_work_s=" +:+ f2 (q_value (ra_failed_attempt_work acc)) +:+ " waste_ratio=" +:+ f2 (waste_ratio acc) ].

(** 5. One account under two policies. *)
Definition priced_request : RequestId := MkId 0x41 1.

Definition priced_entries : list LedgerEntry :=
  [ ex 1 priced_request RequestStart RGeneric d0 Count false 1000000000 0;
    ex 2 priced_request GpuExecution RCompute d1 Seconds true 1400000000 2400000000;
    ex 3 priced_request TransferH2D RTransfer (d_of_Z 536870912) Bytes false 1300000000 0;
    ex 4 priced_request RequestEnd RGeneric d0 Count false 2500000000 0 ].

Definition cheap : PricingPolicy :=
  MkPricingPolicy (MkId 1 1) 1 "usd" EmptyString
    (rates_default <| gpu_per_second := d1 |> <| transfer_per_gib := (d_of_Z 5 / d_of_Z 100)%D |>).

Definition premium : PricingPolicy :=
  cheap <| pp_id := MkId 2 2 |> <| pp_generation := 2 |>
        <| pp_rates ::= fun r => r <| gpu_per_second := d_of_Z 4 |> <| transfer_per_gib := (d_of_Z 5 / d_of_Z 10)%D |> |>.

Definition priced_lines : list string :=
  let acc := reconcile_request priced_entries priced_request in
  let a := apply_pricing acc cheap in
  let b := apply_pricing acc premium in
  [ "cheap:   total=" +:+ f2 (cost_total a) +:+ " " +:+ cr_currency a;
    "premium: total=" +:+ f2 (cost_total b) +:+ " " +:+ cr_currency b;
    "physical gpu_s unchanged = " +:+ f2 (q_value (ra_gpu_active_s acc)) +:+ " (pricing independent)";
    "both reconcile = " +:+ bit (cost_reconciles a) +:+ "/" +:+ bit (cost_reconciles b) ].

(** 6. Persistence and replay. *)
Context `{FileIO}.

Definition stored_request : RequestId := MkId 0x51 1.

Definition stored_entries : list LedgerEntry :=
  [ ex 1 stored_request RequestStart RGeneric d0 Count false 1000000000 0;
    ex 2 stored_request Decode RCompute (d_of_Z 8) Count true 1400000000 1600000000;
    ex 3 stored_request RequestEnd RGeneric d0 Count false 1700000000 0 ].

Definition stored_lines (lr : LoadResult) (fresh : Ledger) : list string :=
  let fp := ledger_fingerprint (snapshot fresh) in
  [ "saved/loaded " +:+ size_to_string (length (lr_entries lr)) +:+ " entries; fingerprint " +:+
      fingerprint_to_string (lr_fingerprint lr);
    "replayed " +:+ size_to_string (ledger_size fresh) +:+ " entries; fingerprint " +:+
      fingerprint_to_string fp +:+ " (stable=" +:+ bit (bool_decide (lr_fingerprint lr = fp)) +:+ ")" ].

(** The results of saving and of replaying are not looked at; the file is removed. *)
Definition stored_section (files : Files) : Files * option (list string) :=
  let path := "example_ledger.db"%string in
  let files := (save_snapshot stored_entries EX_LID path files).1 in
  match load path files, replay_into None (ledger_new EX_LID) path files with
  | Some lr, Some (fresh, _) => (delete path files, Some (stored_lines lr fresh))
  | _, _ => (files, None)
  end.

Definition examples_lines (stored : list string) : list string :=
  section "1. Basic request accounting" ++ basic_lines ++
  section "2. Batch cost attribution" ++ batch_example_lines ++
  section "3. Residency + reuse economics (cold vs warm)" ++ reuse_example_lines ++
  section "4. Speculation + retry/waste accounting" ++ spec_lines ++
  section "5. Pricing-policy recalculation" ++ priced_lines ++
  section "6. Persistence / replay" ++ stored ++ [EmptyString; "EXAMPLES_DONE"%string].

Definition examples_main (files : Files) : Finished :=
  match stored_section files with
  | (files, Some stored) => MkFinished (examples_lines stored) [] files (Exit 0)
  | (files, None) => MkFinished [] [] files Undefined
  end.

(** ** The downstream client *)

Definition consumer_ev (id : LedgerEntryId) (req : RequestId) (at_ : AttemptId) (k : EventKind) (rk : ResourceKind)
    (v : double) (u : Unit) (has_end : bool) (s e : Z) (l : LedgerId) (t : TenantId) (w : WorkerId)
    (b : WorkerBootId) (ep : CoordinatorEpoch) (rg : RequestGeneration) (atg : AttemptGeneration)
    (ag : AccountingGeneration) (d : DispatchId) : LedgerEntry :=
  entry_default
    <| e_id := id |> <| e_ledger := l |> <| e_tenant := t |> <| e_workload := MkId 0x88 1 |>
    <| e_request := req |> <| e_model := MkId 0x77 1 |> <| e_model_revision := MkId 0x77 2 |>
    <| e_attempt := at_ |> <| e_dispatch := d |> <| e_worker := w |>
    <| e_node := MkId 0x6002 1 |> <| e_device := MkId 0x6001 1 |>
    <| e_event_kind := k |> <| e_resource_kind := rk |> <| e_quantity := MkQuantity v u Measured |>
    <| e_start_ts_ns := s |> <| e_end_ts_ns := e |> <| e_has_end := has_end |>
    <| e_source := MkSourceIdentity w b ag |>
    <| e_authority := MkAuthorityEnvelope ep b rg ag at_ atg d |>.

Definition consumer_entry (seq : Z) (k : EventKind) (rk : ResourceKind) (v : double) (has_end : bool) (s e : Z)
    : LedgerEntry :=
  consumer_ev (MkId seq 1) (MkId 0x1234 1) (MkId 0x2001 1) k rk v Count has_end s e EX_LID (MkId 0x99 1)
    (MkId 0xAA 1) (MkId 0xB007 1) (MkGen 1) (MkGen 1) (MkGen 1) (MkGen 1) (MkId 0x3001 1).

Definition consumer_entries : list LedgerEntry :=
  [ consumer_entry 1 RequestStart RGeneric d0 false 1000000000 0;
    consumer_entry 2 Decode RCompute (d_of_Z 16) true 1400000000 1600000000;
    consumer_entry 3 RequestEnd RGeneric d0 false 1700000000 0 ].

Definition consumer_main (files : Files) : Finished :=
  let ledger := (append_all None (ledger_new EX_LID) consumer_entries).1 in
  let acc := reconcile_request (snapshot ledger) (MkId 0x1234 1) in
  if negb (ra_completed acc) || negb (ra_generated_tokens acc =? 16) || negb (ra_attempt_count acc =? 1)%nat
  then MkFinished [] ["downstream consumer FAIL"%string] files (Exit 1)
  else
    let p := MkPricingPolicy (MkId 1 1) 1 "usd" EmptyString (rates_default <| gpu_per_second := d_of_Z 2 |>) in
    if negb (cost_reconciles (apply_pricing acc p))
    then MkFinished [] ["downstream cost FAIL"%string] files (Exit 1)
    else
      let path := "consumer_ledger.db"%string in
      match save_snapshot (snapshot ledger) EX_LID path files with
      | (files, Some _) => MkFinished [] ["save FAIL"%string] files (Exit 1)
      | (files, None) =>
          match load path files with
          | None => MkFinished [] [] files Undefined
          | Some rl =>
              let files := delete path files in
              if negb (lr_ok rl) || negb (length (lr_entries rl) =? 3)%nat
              then MkFinished [] ["reload FAIL"%string] files (Exit 1)
              else MkFinished ["downstream consumer PASS"%string] [] files (Exit 0)
          end
      end.

End examples.

(** ** What the programs do *)

Definition example_path : string := "example_ledger.db".
Definition consumer_path : string := "consumer_ledger.db".

Section outcomes.
Context `{LlroundPlatform} `{TextPlatform} `{FileIO}.

(** What the tour prints when its file can be written. *)
Definition expected_output : list string :=
  [ ""; "==== 1. Basic request accounting ====";
    "completed=1 wall=1.7s prefill=0.5s decode=0.4s tokens=64 kv=4096B model_byte_seconds=1.04858e+06";
    ""; "==== 2. Batch cost attribution ====";
    "batch members=3 total_gpu_s=0.9";
    "  member 00000000 token_share=10 cost=0.3";
    "  member 00000000 token_share=20 cost=0.6";
    "  member 00000000 token_share=30 cost=0.9";
    "  unallocated_overhead=0 reconciles=1";
    ""; "==== 3. Residency + reuse economics (cold vs warm) ====";
    "cold:  prefill_s=0.5 model_byte_seconds=2.09715e+06";
    "warm:  prefill_s=0 kv_reuse=8192 reuse_credit=0.5 reuse_rate=0";
    "cold vs warm: prefill 0.5 -> 0; reuse_credit 0.5";
    ""; "==== 4. Speculation + retry/waste accounting ====";
    "completed=1 retries=1 attempts=2";
    "spec proposed/accepted/rejected = 16/10/6";
    "generated_tokens=32 (rejected 6 NOT counted as output)";
    "failed_work_s=0 waste_ratio=0.5";
    ""; "==== 5. Pricing-policy recalculation ====";
    "cheap:   total=1.025 usd"; "premium: total=4.25 usd";
    "physical gpu_s unchanged = 1 (pricing independent)";
    "both reconcile = 1/1";
    ""; "==== 6. Persistence / replay ====";
    "saved/loaded 3 entries; fingerprint 2648190e401c2faa3b49c0fda89cba11";
    "replayed 3 entries; fingerprint 2648190e401c2faa3b49c0fda89cba11 (stable=1)";
    ""; "EXAMPLES_DONE" ]%string.

(** A file written without an error loads again, and removing it leaves the rest. *)
Lemma saved_file_loads files id es path data : id_wf id -> Forall storable es -> NoDup (e_id <$> es) ->
  canonical <$> es = es -> save_snapshot es id path files = (data, None) ->
  load path data = Some (loaded id es) /\ delete path data = delete path files.
Proof.
  intros Hid Hst Hnd Hc [-> _]%save_snapshot_ok. unfold load.
  rewrite lookup_insert_eq, load_bytes_snapshot, Hc by done. split; [done|]. apply delete_insert_eq.
Qed.

Lemma ex_lid_wf : id_wf EX_LID.
Proof. unfold id_wf, in_width; simpl; lia. Qed.

Lemma stored_entries_ok : Forall storable stored_entries /\ NoDup (e_id <$> stored_entries) /\
  canonical <$> stored_entries = stored_entries.
Proof.
  split; [|split; [apply (bool_decide_unpack _); by vm_compute|by vm_compute]].
  repeat (apply list.Forall_cons; split); [..|by apply list.Forall_nil].
  all: constructor; [solve_entry_wf|apply payload_size_fits; by vm_compute|by vm_compute].
Qed.

Lemma consumer_entries_ok : Forall storable consumer_entries /\ NoDup (e_id <$> consumer_entries) /\
  canonical <$> consumer_entries = consumer_entries.
Proof.
  split; [|split; [apply (bool_decide_unpack _); by vm_compute|by vm_compute]].
  repeat (apply list.Forall_cons; split); [..|by apply list.Forall_nil].
  all: constructor; [solve_entry_wf|apply payload_size_fits; by vm_compute|by vm_compute].
Qed.

(** The lines of the last section depend on the records alone. *)
Lemma expected_lines fresh : lg_entries fresh = stored_entries ->
  examples_lines (stored_lines (loaded EX_LID stored_entries) fresh) = expected_output.
Proof.
  intros Hf. unfold stored_lines, snapshot, ledger_size. rewrite Hf. clear fresh Hf. by vm_compute.
Qed.

Lemma consumer_account : let acc := reconcile_request consumer_entries (MkId 0x1234 1) in
  negb (ra_completed acc) || negb (ra_generated_tokens acc =? 16) || negb (ra_attempt_count acc =? 1)%nat = false /\
  cost_reconciles (apply_pricing acc
    (MkPricingPolicy (MkId 1 1) 1 "usd" EmptyString (rates_default <| gpu_per_second := d_of_Z 2 |>))) = true.
Proof. by vm_compute. Qed.

Lemma appended_all es : Forall storable es -> NoDup (e_id <$> es) ->
  snapshot (append_all None (ledger_new EX_LID) es).1 = es.
Proof.
  intros Hs Hn. apply (append_all_fresh (ledger_new EX_LID)); [apply ledger_new_wf| |done].
  eapply list.Forall_impl; [exact Hs|]. intros e [_ _ Hc]. by rewrite content_is_valid_encode_checks.
Qed.

(** The tour ends normally whatever the file system does, leaves every other file as it
    was and removes its own; and when its file could be written, it prints exactly the
    expected lines: the stored ledger comes back with its fingerprint. *)
Theorem examples_output files :
  fin_outcome (examples_main files) = Exit 0 /\
  (forall other, fin_files (examples_main files) !! other =
     if decide (other = example_path) then None else files !! other) /\
  ((save_snapshot stored_entries EX_LID example_path files).2 = None ->
   fin_out (examples_main files) = expected_output).
Proof.
  unfold examples_main, stored_section. fold example_path. unfold replay_into.
  destruct (save_snapshot stored_entries EX_LID example_path files) as [data err] eqn:Hsave. cbn [fst snd].
  destruct (load_defined example_path data) as [lr Hl]. rewrite Hl.
  assert (forall other, delete example_path data !! other =
     if decide (other = example_path) then None else files !! other) as Hfiles.
  { intros other. case_decide as Hd; [subst; apply lookup_delete_eq|]. rewrite lookup_delete_ne by done.
    pose proof (save_snapshot_other stored_entries EX_LID example_path files other Hd) as Ho. by rewrite Hsave in Ho. }
  assert (err = None -> lr = loaded EX_LID stored_entries) as Hlr.
  { intros ->. destruct stored_entries_ok as (Hst & Hnd & Hc).
    destruct (saved_file_loads _ _ _ _ _ ex_lid_wf Hst Hnd Hc Hsave) as [Hload _]. congruence. }
  destruct (negb (lr_ok lr)) eqn:Hok; [|destruct (replay_entries _ _ _) as [fresh e] eqn:Hr];
    (split; [reflexivity|]; split; [exact Hfiles|]); intros Herr; rewrite (Hlr Herr) in *; [discriminate Hok|].
  destruct stored_entries_ok as (Hst & Hnd & _). apply expected_lines.
  destruct (replay_entries_append (ledger_new EX_LID) stored_entries) as (l' & Hr' & Hl' & _);
    [|done|apply ledger_new_wf|].
  - eapply list.Forall_impl; [exact Hst|]. intros en [_ _ Hc]. by rewrite content_is_valid_encode_checks.
  - cbn [lr_entries loaded] in Hr. rewrite Hr' in Hr. by injection Hr as <- _.
Qed.

(** The downstream client reports a failure only when its ledger cannot be written:
    otherwise it passes, and leaves the file system as it was but for removing its own
    file. It never fails to reload what it saved, and never ends in undefined behaviour. *)
Theorem consumer_outcome files :
  let saved := save_snapshot consumer_entries EX_LID consumer_path files in
  consumer_main files =
  match saved.2 with
  | None => MkFinished ["downstream consumer PASS"%string] [] (delete consumer_path files) (Exit 0)
  | Some _ => MkFinished [] ["save FAIL"%string] saved.1 (Exit 1)
  end.
Proof.
  cbv zeta. destruct consumer_entries_ok as (Hst & Hnd & Hc), consumer_account as [Hacc Hcost].
  unfold consumer_main. rewrite appended_all, Hacc, Hcost by done. cbn [negb]. fold consumer_path.
  destruct (save_snapshot consumer_entries EX_LID consumer_path files) as [data [err|]] eqn:Hs; [done|].
  by destruct (saved_file_loads _ _ _ _ _ ex_lid_wf Hst Hnd Hc Hs) as [-> ->].
Qed.

End outcomes.
